(* ===== verification/_CoqProject ===== *)
-Q . S2P
Prelude.v
JsString.v
Json.v
JsonText.v
JsonRoundtrip.v
SystemPrompt.v
SseRelay.v
ChatHandler.v
Client.v
Content.v
Dom.v
Page.v
Sections.v
Motion.v
Keyframes.v
Scroll.v
InView.v
Lifecycle.v
Orbit.v
Session.v
Site.v
