(* ===== verification/Prelude.v ===== *)
(** * A verification development of the portfolio and its chat relay

    ** The program

    The repository is a single-page portfolio with an AI assistant.

    - [src/api/chat.js] is an edge function [handler(req)] that rejects
      any method but POST (405), a missing [ANTHROPIC_API_KEY] (500) and
      a body whose [messages] is not an array (400).  It forwards the
      conversation with the fixed [SYSTEM_PROMPT] to the upstream
      completion API (lines 123-138).  An upstream error status becomes
      a 502 carrying the upstream's [error.message] (lines 140-153), and a
      transport failure becomes a 502 (lines 204-209).  Otherwise it
      starts an asynchronous pump (lines 155-195).  The pump reads the
      upstream event stream chunk by chunk and keeps the unfinished last
      line in a carry-over [buffer].  For each complete [data: ...] line
      it writes a [data: {"content": ...}] frame for a text delta, or a
      [data: {"done": true}] frame for [message_stop], to a
      [TransformStream] writer, which it closes in a [finally].
    - [src/app/src/components/ChatWindow.tsx] is the widget.  Its
      [sendMessage] posts the conversation without the local welcome
      message and reads the relay's stream.  It splits each chunk on line
      feeds by itself, parses every [data: ] line and accumulates the
      [content] fields into the assistant's placeholder message.
    - [App.tsx] mounts the widget while the chat is open.  The about
      section's [Spline3DModel] defers loading its 3D scene on wide
      windows.  The header and [MobileMenu] link to the sections' anchors.
    - The static data ([config/site.ts], [data/projects.ts],
      [data/timeline.ts], the skills of [SkillsShowcaseSection.tsx]) is
      what the sections render and what [SYSTEM_PROMPT] restates.

    ** The library (files in dependency order)

    - [Prelude] (this file) holds the JavaScript exceptions, the
      state-and-exception monad [JsM], string and list lemmas, the hint
      databases [relay] and [relay_rw], and the tactics.  [JsM] is how
      [await], [try]/[catch] and [finally] are written.
    - [JsString] gives the string builtins the code calls, with their
      ECMAScript behaviour on 8-bit strings: [split] on a line feed
      ([split_nl]) or on one character ([js_split]),
      [pop() || ''] ([js_pop], [or_empty]), [startsWith], [slice] and
      [trim].  It also proves the line-splitting lemmas the carry-over
      buffer relies on.
    - [Json] covers:
      - JSON values;
      - property access ([.] throws on [null]; [?.] short-circuits);
      - truthiness;
      - object literals without their [undefined] properties;
      - the [JsonCodec] typeclass, the interface to [JSON.parse] and
        [JSON.stringify], with its laws [JsonLaws].
    - [JsonText] is a concrete codec: a printer and a fuel-bounded parser.
      [JsonRoundtrip] proves that it satisfies [JsonLaws] (instance
      [json_text_laws]).  So the laws the relay theorems assume hold of a
      real implementation, and the witnesses run on it.
    - [SystemPrompt] is the prompt, verbatim (lines 1-88).
    - [SseRelay] models lines 155-195: the writer ([Writer], [write],
      [close], the client's [cancel]), one line ([process_line]), one
      chunk ([on_chunk]) and the read loop ([pump_loop], [pump]).  The
      loop runs over a finite trace of environment events.  The file
      also holds the specification [relay_spec] and a model of the
      upstream's event stream.
    - [ChatHandler] models [handler], lines 94-210: validation, the
      upstream request, both 502 paths and the streaming response.  The
      upstream is a function from requests to replies.
    - [Client] models [sendMessage] ([send_message]), its read loop
      ([client_read_loop]), the view's guards ([ui_step]) and the
      deployment [serve], which puts the handler behind [/api/chat].
    - [Content] holds the site's data, keyed lists, anchors and links,
      and the facts the page shows.
    - [Dom] is the tree a React component renders: elements with their
      key and attributes, text, and the arrays of a [.map].  It holds
      the checks a page must pass (React keys, unique ids, in-page
      links, [rel="noopener"] on new tabs, [alt] on images, accessible
      names of links), their meaning as propositions, a hand-written
      induction principle for the nested type, and [all_nodes], a
      property of every node.
    - [Page] holds the state machines of [App], [Spline3DModel] and
      [MobileMenu], and the layout arithmetic of the footer, the
      timeline and the skills grid.
    - [Sections] translates the JSX of every component and section
      into that tree, one definition per component ([project_card],
      [footer], [timeline_card], [orbiting_logos], ...), up to the
      whole page [app_page] that [App.tsx] renders, with the angles of
      the hero's orbit.
    - [Motion] models framer-motion's [useTransform] (progress through
      the input range, clamped, then mixed between the outputs) and the
      two components that use it: the header opacity of [App.tsx] and
      the parallax of [components/ClaySculpture.tsx].
    - [Keyframes] models framer-motion's timing: the [Easing] typeclass
      and its instances ([noop], [cubic_bezier] with its 12-step
      bisection, [ease_in_out]), keyframe interpolation ([interpolate],
      [default_offset]), delays and infinite repetition ([animate_loop],
      [animate_once]), and CSS keyframes with the cascade of an
      animation over a declared [transform].  On them it models the
      Footer's floating symbols and aurora blobs (lines 44-65, 195-249)
      and [OrbitingLogos]' rotation and counter-rotation.
    - [Scroll] models the window's scrolling ([viewport], [scroll_step]):
      clamped positions, fragment navigation, [preventDefault], and a
      smooth scroll as frames between its start and its target.  On it
      run the Footer's [scrollToTop] (lines 13-16) and the header's
      opacity, and [ClaySculpture]'s [useScroll] target, entrance and
      float.
    - [InView] models [FadeInView] and the IntersectionObserver behind
      [whileInView] with [once] and a negative margin, over the windows
      a scroll run of [Scroll] goes through, and places the Footer's
      bottom row in the document.
    - [Lifecycle] holds the browser window the components' effects act
      on: its listeners and timers by identity ([Host]:
      [addEventListener], [removeEventListener], [setTimeout] and
      [clearTimeout], modelled from their specifications).  It runs the
      two effects of [Spline3DModel] on it, with React's order of
      effects, cleanups and state updates on mount, update and unmount
      ([SplineEffects]).  The abstract machine of [Page] is a projection
      of this model.  [ChatEffects] adds [ChatWindow]'s scroll and focus
      effects and the keyboard focus of its controls.
    - [Orbit] places [OrbitingLogos]' logos in the plane with Stdlib's
      real [cos], [sin] and [PI], turns the orbit, and computes each
      logo's upright box.
    - [Session] runs [sendMessage] as the coroutine it is.  The call
      resumes at each [await] of the network, in between the app's
      events, with setters that do nothing once their window is
      unmounted.
    - [Site] puts the page together as [App.tsx] does, with the chat
      window's markup ([chat_window]) while the chat is open, and proves
      the page's properties: for any content with [dom_all], a tactic
      that unfolds the render functions, and for the site's own content
      with [vm_compute].

    ** What the theorems show

    - Relay: the pump refines [relay_spec]: it writes the frames of the
      complete lines of the whole text, whatever the chunking.  Under
      the codec laws it forwards exactly one frame per non-empty delta
      and per [message_stop], in order.  The number of [done] frames is
      the number of [message_stop] events: none when the upstream ends
      without one (the spec promises exactly one, written last).
    - Relay, termination and hangs:
      - every trace that ends leaves the writer closed, unless the client
        cancelled it;
      - a trace that never ends leaves the pump waiting (no timeout);
      - a client cancel does not stop the reading: the pump waits for
        more chunks, and stops only when the upstream ends, with [close]
        rejecting.
    - Handler:
      - every status code and error message, with no upstream call on a
        rejection path;
      - the exact upstream payload;
      - a crash on a non-JSON body;
      - a 200 stream that is never closed when the upstream answers
        without a body;
      - a hang on an endless error body.
    - Client:
      - the bubble shows the relayed text when every read holds whole
        frames; a frame whose [data: ] prefix is cut across two reads is
        lost, whatever the state, the frame and the rest of the stream;
      - the error path apologises with the server's error;
      - blank messages and sends while loading are ignored;
      - message ids stay distinct.
    - End to end: the conversation the visitor typed is what reaches the
      upstream, and the upstream's text deltas are what the visitor
      reads.
    - Frames: what the relay encodes, the widget's line filter and
      [JSON.parse] decode back, frame by frame.
    - Page:
      - the welcome message stays first;
      - a narrow window never loads the 3D scene;
      - a fact the page shows appears verbatim in the prompt exactly
        when it is not one of seven listed omissions ([prompt_omits]);
      - the layout arithmetic keeps elements apart, and the orbit puts
        each logo at its own angle.
    - Rendered page ([Site]):
      - for every content: every new-tab link has [rel="noopener"] and
        every image an [alt];
      - for the site: every in-page link reaches exactly one element
        once the lazy sections have loaded and none before; no id
        repeats and React's keys are unique;
      - the chat window's message list is keyed by the message ids;
        [Page.clock_reachable] runs the app from its initial state with
        a clock that moves forward between sends, and in every state it
        reaches the ids stay distinct and below the clock, so the whole
        page's keys stay unique while the chat is open;
      - the project cards' icon links and the chat's close and send
        buttons have no accessible name, the
        footer shows a mis-encoded copyright sign, the skills section
        overstates the number of projects, and the header's links lead
        nowhere until the lazy sections have loaded.
    - Lifecycle:
      - after any sequence of mounts, unmounts, resizes and timers, the
        window holds only the mounted instance's own listener and at most
        its one timer, and nothing after the unmount;
      - every step refines [Page.spline_step], so the 3D model's
        theorems hold of the effects as written.
      - on a desktop width the scene is loaded, or the one timer the
        window holds for it loads it when it fires.
      - the chat keeps its list scrolled to the end, and its input
        loses the focus at the first send and never gets it back
        without a click: the focus effect runs only at the mount.
    - Session:
      - with nothing interleaved, the coroutine computes exactly
        [Client.send_message], on every path;
      - closing the chat aborts nothing: the request reads its answer to
        the end, and no window shows it.
      - in every reachable state the window on screen runs one request
        while it is loading and none otherwise.
    - Orbit: logo [i] of [n] sits exactly at angle [2 pi i / n] on the
      ring and, at every phase of the rotation, its box stays inside the
      container, for any radius; the hero's eight logos never overlap.
    - Motion: the header's opacity is [0] at the top, [0.95 * y / 100]
      over the first 100 pixels and [0.95] beyond, and never decreases
      as the page scrolls down; the sculpture's rise and tilt are
      bounded however far the page scrolls.
    - Keyframes: every [cubic_bezier] whose control ordinates lie in
      [[0, 1]] is an easing curve, whatever its abscissae; interpolation
      stays within the keyframes' bounds and takes the first and last
      keyframes at the ends of its input range; a loop
      returns to its first keyframe at every iteration.  The Footer's
      symbols stay within their ranges; the logos stay upright (the two
      rotations cancel at every moment); the third aurora blob, declared
      centred, stays 180 to 250 pixels right of the centre, because its
      animation overrides its [translateX(-50%)].
    - Scroll: every step keeps the window within the document; the
      Footer's Top link, followed by any frames of its smooth scroll,
      ends at the top with the header transparent and the fragment
      unchanged, the header's opacity never rising on the way; a user
      scroll cancels it.  [ClaySculpture]'s parallax follows its target's
      progress, and its entrance settles at full opacity and scale.
    - InView: on layouts of 640 pixels or wider, the Footer's bottom
      row never enters the area its [FadeInView] observes, whatever the
      visitor does, so it stays transparent; on a narrow layout it
      fades in.

    ** Modelling choices, bounds and fuel

    - Strings are Rocq [string]s: JavaScript strings whose code units are
      below 256.  [TextDecoder] with [stream: true] is modelled by giving
      the reads as already decoded text.  Its contract is that the decoded
      pieces concatenate to the decoding of the whole byte stream.
      [TextEncoder] is the identity here.
    - The network is the environment.  An upstream body is a finite list
      of read results.  A list that runs out leaves the loop waiting at
      [await reader.read()], which is how a stalled upstream is
      represented.  The loops are structural on that list, so they need
      no fuel.
    - [JSON.parse] is [parse_json], fuelled with the length of its input
      plus one.  That is enough: every nested call consumes a character
      before recursing.  [JsonRoundtrip] proves that fuel suffices for
      every printed value ([jsize_print]).
    - JSON numbers are exact decimals [m * 10^e] rather than doubles.
      [Client.number_to_string] is ECMAScript's Number::toString on them.
    - The clock ([Date.now()]) is an argument of [send_message].  The
      hosting platform's answers to a crashed or hanging handler are
      fixed in [serve].  The browser's regrouping of the server's writes
      is a list of read sizes ([deliver]).
    - A rendered component keeps the elements, text, conditions, [.map]
      arrays, keys and the attributes that carry meaning ([id],
      [href], [target], [rel], [download], [src], [alt], [aria-label]);
      [className], [style] and the framer-motion props are left out.
      Text spread over several JSX lines is joined with one space, as
      JSX does.  A lazy section is either loaded or its fallback.
    - The orbit's angles and the scroll-driven values are exact
      rationals ([Q]), and the orbit's positions are reals ([R]); the
      browser's floating point rounds them.  A [rem] is 16 pixels, the
      browsers' default.
    - Time is a rational number of seconds since the mount.  The bezier
      inversion runs framer-motion's own bound, 12 bisection steps or a
      step within [1e-7]; it is structural on that count, and the
      theorems hold for every easing curve, so the bound does not
      matter to them.
    - Layout enters as numbers the theorems quantify over: element
      positions, the window's height, a line height (below 49 pixels for
      the Footer's 11-pixel text).
    - React state updates are applied in the order the code issues them.
      Nothing interleaves with a loading answer: the view disables the
      input and the send button and hides the suggestions then (theorem
      [ui_blocked_while_loading]).

    ** Not modelled

    - Styling (colours, blur, gradients, hover effects), spring
      animations and framer-motion's render loop; the orbit's 3D tilt (a
      perspective projection); horizontal layout of in-view detection.
    - The Sheet component of [MobileMenu] ([components/ui/sheet], not
      among the sources).
    - The [Suspense] of the chat window has its own lazy module; the
      page model shows it with the sections' [loaded] flag.

    These parts are listed in PROJECT.json with the reason. *)

From Stdlib Require Import String Ascii List Bool ZArith Lia.
Import ListNotations.

Declare Scope js_scope.
Delimit Scope js_scope with js.
Open Scope string_scope.

Create HintDb relay.
Create Rewrite HintDb relay_rw.

(** ** JavaScript exceptions *)

(** What a statement can throw: a [TypeError] (property access on [null],
    writing to a closed stream), a [SyntaxError] ([JSON.parse]), the
    rejection of a stream operation, or the rejection of [fetch]. *)
Inductive exn : Type :=
| TypeError
| SyntaxError
| StreamError (msg : string)
| NetworkError (msg : string).

Inductive outcome (A : Type) : Type :=
| Ok (a : A)
| Throw (e : exn).
Arguments Ok {A} a.
Arguments Throw {A} e.

(** ** The state-and-exception monad

    A computation reads and updates a state [S] and returns a value or
    throws.  A throw keeps the state changes made before it, as in
    JavaScript (a write that happened stays written). *)
Definition JsM (S A : Type) : Type := S -> outcome A * S.

Definition ret {S A} (a : A) : JsM S A := fun s => (Ok a, s).

Definition bind {S A B} (m : JsM S A) (k : A -> JsM S B) : JsM S B :=
  fun s => match m s with
           | (Ok a, s') => k a s'
           | (Throw e, s') => (Throw e, s')
           end.

Definition throw {S A} (e : exn) : JsM S A := fun s => (Throw e, s).

(** [try { m } catch { h }]: the handler runs in the state the throw left. *)
Definition try_catch {S A} (m : JsM S A) (h : exn -> JsM S A) : JsM S A :=
  fun s => match m s with
           | (Ok a, s') => (Ok a, s')
           | (Throw e, s') => h e s'
           end.

(** [try { m } finally { f }]: [f] runs on both paths; an exception of
    [f] replaces the outcome of [m]. *)
Definition try_finally {S A} (m : JsM S A) (f : JsM S unit) : JsM S A :=
  fun s => let (r, s') := m s in
           match f s' with
           | (Ok _, s'') => (r, s'')
           | (Throw e, s'') => (Throw e, s'')
           end.

Definition lift_option {S A} (e : exn) (o : option A) : JsM S A :=
  match o with Some a => ret a | None => throw e end.

Definition lift_outcome {S A} (o : outcome A) : JsM S A :=
  match o with Ok a => ret a | Throw e => throw e end.

Notation "x <- m ;; k" := (bind m (fun x => k))
  (at level 61, m at next level, right associativity) : js_scope.
Notation "m ;; k" := (bind m (fun _ => k))
  (at level 61, right associativity) : js_scope.

Open Scope js_scope.

(** [for (const x of xs) { body }]: the statements run in order and the
    first throw leaves the loop. *)
Fixpoint for_each {S A} (body : A -> JsM S unit) (xs : list A) : JsM S unit :=
  match xs with
  | [] => ret tt
  | x :: xs' => body x ;; for_each body xs'
  end.

Lemma bind_ret_l {S A B} (a : A) (k : A -> JsM S B) (s : S) :
  bind (ret a) k s = k a s.
Proof. reflexivity. Qed.

Lemma bind_assoc {S A B C} (m : JsM S A) (k : A -> JsM S B)
      (k' : B -> JsM S C) (s : S) :
  bind (bind m k) k' s = bind m (fun a => bind (k a) k') s.
Proof. unfold bind. destruct (m s) as [[a|e] s']; reflexivity. Qed.

(** A loop body that never throws and maps each state to a state: the
    loop is the fold of the body. *)
Lemma for_each_total {S A} (body : A -> JsM S unit) (f : A -> S -> S) :
  (forall x s, body x s = (Ok tt, f x s)) ->
  forall xs s, for_each body xs s = (Ok tt, fold_left (fun s x => f x s) xs s).
Proof.
  intros Hbody xs. induction xs as [|x xs IH]; intros s; [reflexivity|].
  simpl. unfold bind. rewrite Hbody. apply IH.
Qed.

(** ** Strings *)

Definition nl_char : ascii := "010"%char.
Definition quote_char : ascii := "034"%char.
Definition backslash_char : ascii := "092"%char.

(** The one-character strings used in frames and in JSON text. *)
Definition NL : string := String nl_char EmptyString.
Definition QUOTE : string := String quote_char EmptyString.

Lemma str_app_nil_r (s : string) : (s ++ "")%string = s.
Proof. induction s as [|c s IH]; simpl; [reflexivity | now rewrite IH]. Qed.

Lemma str_app_assoc (a b c : string) : ((a ++ b) ++ c)%string = (a ++ (b ++ c))%string.
Proof. induction a as [|x a IH]; simpl; [reflexivity | now rewrite IH]. Qed.

Lemma str_app_length (a b : string) :
  String.length (a ++ b) = String.length a + String.length b.
Proof. induction a as [|x a IH]; simpl; [reflexivity | now rewrite IH]. Qed.

#[export] Hint Rewrite str_app_nil_r str_app_assoc str_app_length : relay_rw.
#[export] Hint Rewrite @bind_ret_l @bind_assoc : relay_rw.

(** [String.concat ""] of a list, i.e. what the loop has read so far. *)
Fixpoint str_concat (xs : list string) : string :=
  match xs with
  | [] => ""
  | x :: xs' => x ++ str_concat xs'
  end.

Lemma str_concat_app (xs ys : list string) :
  str_concat (xs ++ ys) = (str_concat xs ++ str_concat ys)%string.
Proof.
  induction xs as [|x xs IH]; simpl; [reflexivity|].
  now rewrite IH, str_app_assoc.
Qed.

#[export] Hint Rewrite str_concat_app : relay_rw.

Lemma list_ascii_app (a b : string) :
  list_ascii_of_string (a ++ b) = (list_ascii_of_string a ++ list_ascii_of_string b)%list.
Proof. induction a as [|c a IH]; simpl; [reflexivity | now rewrite IH]. Qed.

(** Appending cancels on either side. *)
Lemma str_app_inv_l (p a b : string) : (p ++ a)%string = (p ++ b)%string -> a = b.
Proof. induction p as [|c p IH]; simpl; [tauto | intros E; injection E; exact IH]. Qed.

Lemma str_app_inv_r (a b s : string) : (a ++ s)%string = (b ++ s)%string -> a = b.
Proof.
  intros E. apply (f_equal list_ascii_of_string) in E. rewrite !list_ascii_app in E.
  apply app_inv_tail in E.
  rewrite <- (string_of_list_ascii_of_string a), <- (string_of_list_ascii_of_string b).
  now rewrite E.
Qed.

(** ** Lists *)

Lemma removelast_app_single {A} (l : list A) (x : A) (l' : list A) :
  removelast (l ++ x :: l')%list = (l ++ removelast (x :: l'))%list.
Proof. apply removelast_app. discriminate. Qed.

Lemma last_app_cons {A} (l : list A) (x : A) (l' : list A) (d : A) :
  last (l ++ x :: l')%list d = last (x :: l') d.
Proof.
  induction l as [|y l IH]; [reflexivity|].
  simpl. rewrite IH. destruct l; reflexivity.
Qed.

(** A list of groups that concatenates to an image [map f l] is the
    image of a grouping of [l]. *)
Lemma concat_map_groups {A B} (f : A -> B) (groups : list (list B)) (l : list A) :
  concat groups = map f l ->
  exists egs, l = concat egs /\ groups = map (map f) egs.
Proof.
  revert l. induction groups as [|g gs IH]; intros l E; simpl in E.
  - exists []. destruct l; [split; reflexivity | discriminate].
  - symmetry in E. apply map_eq_app in E as (l1 & l2 & -> & E1 & E2).
    destruct (IH l2 (eq_sym E2)) as (egs & -> & ->).
    exists (l1 :: egs). simpl. now rewrite <- E1.
Qed.

(** A boolean check of every element that implies [P] proves [Forall P]. *)
Lemma forallb_Forall {A} (f : A -> bool) (P : A -> Prop) (l : list A) :
  (forall x, f x = true -> P x) -> forallb f l = true -> Forall P l.
Proof.
  intros Hf Hl. apply Forall_forall. intros x Hx. apply Hf.
  exact (proj1 (forallb_forall f l) Hl x Hx).
Qed.

#[export] Hint Rewrite @removelast_app_single @last_app_cons @flat_map_app : relay_rw.

(** ** Keys and substrings *)

(** An optional value as a list of at most one element. *)
Definition opt_list {A} (o : option A) : list A := match o with Some x => [x] | None => [] end.

(** No key occurs twice. *)
Fixpoint unique_keys (ks : list string) : bool :=
  match ks with
  | [] => true
  | k :: ks' => negb (existsb (String.eqb k) ks') && unique_keys ks'
  end.

Lemma nodup_unique_keys (ks : list string) : NoDup ks -> unique_keys ks = true.
Proof.
  induction 1 as [|k ks Hk _ IH]; [reflexivity|]. cbn [unique_keys]. rewrite IH, andb_true_r.
  apply negb_true_iff, not_true_iff_false. intros (x & Hx & ->%String.eqb_eq)%existsb_exists.
  exact (Hk Hx).
Qed.

(** [s.includes(p)] *)
Fixpoint contains (p s : string) : bool :=
  String.prefix p s || match s with EmptyString => false | String _ s' => contains p s' end.

Lemma unique_keys_nodup (ks : list string) : unique_keys ks = true -> NoDup ks.
Proof.
  induction ks as [|k ks IH]; simpl; [constructor|].
  intros [Hn Hu]%andb_true_iff. constructor; [|exact (IH Hu)].
  intros Hin. apply negb_true_iff in Hn.
  assert (existsb (String.eqb k) ks = true)
    by (apply existsb_exists; exists k; split; [exact Hin | apply String.eqb_refl]).
  congruence.
Qed.

Lemma prefix_app_iff (p s : string) : String.prefix p s = true <-> exists b, s = (p ++ b)%string.
Proof.
  revert s. induction p as [|c p IH]; intros s.
  - split; [intros _; now exists s | intros _; now destruct s].
  - destruct s as [|c' s]; simpl.
    + split; [discriminate | intros [b Hb]; discriminate].
    + destruct (ascii_dec c c') as [<-|Hne].
      * rewrite IH. split; intros [b Hb]; exists b; [now subst | now injection Hb].
      * split; [discriminate | intros [b Hb]; injection Hb; intros; congruence].
Qed.

(** [contains p s] is [s.includes(p)]: [p] occurs in [s]. *)
Lemma contains_iff (p s : string) :
  contains p s = true <-> exists a b, s = (a ++ p ++ b)%string.
Proof.
  induction s as [|c s IH]; cbn [contains]; rewrite orb_true_iff, prefix_app_iff; [|rewrite IH].
  - split; [intros [[b Hb]|H]; [now exists "", b | discriminate]|].
    intros (a & b & E). left. destruct a as [|c a]; [now exists b | discriminate].
  - split.
    + intros [[b Hb]|(a & b & Hab)]; [now exists "", b | exists (String c a), b; now subst].
    + intros (a & b & E). destruct a as [|c' a]; [left; now exists b|].
      right. injection E as <- E. now exists a, b.
Qed.

(** ** Tactics *)

(** Case on every [String.eqb], [Ascii.eqb] and [prefix] test of the goal. *)
Ltac case_tests :=
  repeat match goal with
         | |- context [String.eqb ?a ?b] => destruct (String.eqb_spec a b); subst
         | |- context [Ascii.eqb ?a ?b] => destruct (Ascii.eqb_spec a b); subst
         end.

Ltac inv H := inversion H; subst; clear H.

(** Rewrite with the development's database, then simplify. *)
Ltac relay_simpl := repeat (autorewrite with relay_rw in *; simpl in *).

(** JSON text written with an apostrophe where the text has a double
    quote (code 34): [dq] puts the double quotes back.  Used to state
    concrete inputs readably. *)
Fixpoint dq (s : string) : string :=
  match s with
  | EmptyString => EmptyString
  | String c s' =>
      String (if Ascii.eqb c "039"%char then quote_char else c) (dq s')
  end.
