(* ===== verification/JsString.v ===== *)
(** * JavaScript string operations used by the relay and the client

    [split_nl] is [String.prototype.split('\n')], [js_pop] is
    [Array.prototype.pop] and [or_empty] the [|| ''] that follows it in
    [chat.js]; [starts_with], [slice_from] and [trim] are [startsWith],
    [slice] and [trim].  The lemma [split_nl_app] is what makes the relay's
    carry-over buffer correct: the lines of [x ++ y] are the complete lines
    of [x] followed by the lines of (unfinished last line of [x]) [++ y]. *)

From Stdlib Require Import String Ascii List Bool Lia.
From S2P Require Import Prelude.
Import ListNotations.
Open Scope string_scope.
Open Scope list_scope.

(** ** [split('\n')] *)

(** Prepend a character to the first piece. *)
Definition cons_hd (c : ascii) (pieces : list string) : list string :=
  match pieces with
  | [] => [String c ""]
  | p :: ps => String c p :: ps
  end.

Fixpoint split_nl (s : string) : list string :=
  match s with
  | EmptyString => [""]
  | String c s' =>
      if Ascii.eqb c nl_char then "" :: split_nl s' else cons_hd c (split_nl s')
  end.

(** [s.split(c)] for a one-character separator [c]. *)
Fixpoint js_split (c : ascii) (s : string) : list string :=
  match s with
  | EmptyString => [""]
  | String d s' => if Ascii.eqb d c then "" :: js_split c s' else cons_hd d (js_split c s')
  end.

Fixpoint has_nl (s : string) : bool :=
  match s with
  | EmptyString => false
  | String c s' => Ascii.eqb c nl_char || has_nl s'
  end.

(** [Array.prototype.pop]: the array without its last element, and that
    element ([undefined] for an empty array). *)
Definition js_pop {A} (l : list A) : list A * option A :=
  match rev l with
  | [] => ([], None)
  | x :: r => (rev r, Some x)
  end.

(** [x || ''] on the popped string. *)
Definition or_empty (o : option string) : string :=
  match o with
  | Some s => if String.eqb s "" then "" else s
  | None => ""
  end.

(** ** [startsWith], [slice], [trim] *)

Definition starts_with (p s : string) : bool := String.prefix p s.

(** [s.slice(n)] for [n >= 0]: the empty string when [s] is shorter. *)
Fixpoint slice_from (n : nat) (s : string) : string :=
  match n, s with
  | 0, _ => s
  | S _, EmptyString => ""
  | S n', String _ s' => slice_from n' s'
  end.

(** The ECMAScript WhiteSpace and LineTerminator code units below 256:
    TAB, LF, VT, FF, CR, SPACE and NO-BREAK SPACE. *)
Definition is_js_space (c : ascii) : bool :=
  let n := nat_of_ascii c in
  Nat.leb 9 n && Nat.leb n 13 || Nat.eqb n 32 || Nat.eqb n 160.

Fixpoint trim_start (s : string) : string :=
  match s with
  | EmptyString => ""
  | String c s' => if is_js_space c then trim_start s' else s
  end.

Fixpoint trim_end (s : string) : string :=
  match s with
  | EmptyString => ""
  | String c s' =>
      let t := trim_end s' in
      if is_js_space c && String.eqb t "" then "" else String c t
  end.

Definition trim (s : string) : string := trim_end (trim_start s).

(** ** Lemmas *)

Lemma split_nl_not_nil (s : string) : split_nl s <> [].
Proof.
  induction s as [|c s IH]; simpl; [discriminate|].
  destruct (Ascii.eqb c nl_char); [discriminate|].
  destruct (split_nl s); discriminate.
Qed.

(** Every split is its complete lines followed by the unfinished one. *)
Lemma split_nl_last (s : string) :
  exists lines rest, split_nl s = lines ++ [rest].
Proof.
  destruct (exists_last (split_nl_not_nil s)) as (lines & rest & E).
  eauto.
Qed.

Lemma split_nl_no_nl (s : string) : has_nl s = false -> split_nl s = [s].
Proof.
  induction s as [|c s IH]; simpl; [reflexivity|].
  intros H. apply orb_false_iff in H as [Hc Hs].
  rewrite Hc, IH by exact Hs. reflexivity.
Qed.

Lemma cons_hd_app (c : ascii) (l r : list string) :
  l <> [] -> cons_hd c (l ++ r) = cons_hd c l ++ r.
Proof. destruct l; [congruence | reflexivity]. Qed.

(** The carry-over lemma: splitting [x ++ y] keeps the complete lines of
    [x] and splits the unfinished last line of [x] together with [y]. *)
Lemma split_nl_app (x y : string) lines rest :
  split_nl x = lines ++ [rest] ->
  split_nl (x ++ y)%string = lines ++ split_nl (rest ++ y)%string.
Proof.
  revert lines rest. induction x as [|c x IH]; intros lines rest Hx.
  - destruct lines as [|l0 lines]; simpl in Hx.
    + injection Hx as <-. reflexivity.
    + injection Hx as _ Hx. destruct lines; discriminate.
  - destruct (split_nl_last x) as (lx & rx & Ex).
    simpl in *. rewrite (IH _ _ Ex).
    destruct (Ascii.eqb c nl_char) eqn:Ec.
    + rewrite Ex in Hx. destruct lines as [|l0 lines]; simpl in Hx.
      * destruct lx; discriminate.
      * injection Hx as <- Hx. apply app_inj_tail in Hx as [<- <-]. reflexivity.
    + rewrite Ex in Hx. destruct lx as [|l0 lx]; simpl in Hx |- *.
      * destruct lines as [|l1 lines]; simpl in Hx.
        -- injection Hx as <-. simpl. now rewrite Ec.
        -- injection Hx as _ Hx. destruct lines; discriminate.
      * destruct lines as [|l1 lines]; simpl in Hx.
        -- injection Hx as _ Hx. destruct lx; discriminate.
        -- injection Hx as <- Hx. apply app_inj_tail in Hx as [<- <-]. reflexivity.
Qed.

Lemma has_nl_app (a b : string) : has_nl (a ++ b)%string = has_nl a || has_nl b.
Proof. induction a as [|c a IH]; simpl; [reflexivity|]. now rewrite IH, orb_assoc. Qed.

(** A line followed by a line feed is split off whole. *)
Lemma split_nl_line (l rest : string) :
  has_nl l = false -> split_nl (l ++ String nl_char rest)%string = l :: split_nl rest.
Proof.
  induction l as [|c l IH]; intros Hl; simpl in *.
  - reflexivity.
  - apply orb_false_iff in Hl as [Hc Hl]. now rewrite Hc, IH.
Qed.

(** A text made of lines, each ended by a line feed. *)
Lemma split_nl_lines (ls : list string) :
  Forall (fun l => has_nl l = false) ls ->
  split_nl (str_concat (map (fun l => l ++ NL)%string ls)) = ls ++ [""].
Proof.
  induction 1 as [|l ls Hl _ IH]; [reflexivity|]. simpl.
  rewrite str_app_assoc. change (NL ++ ?x)%string with (String nl_char x).
  now rewrite split_nl_line, IH.
Qed.

Lemma starts_with_app (p s : string) : starts_with p (p ++ s)%string = true.
Proof.
  unfold starts_with. induction p as [|c p IH]; simpl.
  - now destruct s.
  - destruct (ascii_dec c c); [exact IH | congruence].
Qed.

Lemma slice_from_app (p s : string) : slice_from (String.length p) (p ++ s)%string = s.
Proof. induction p as [|c p IH]; simpl; [now destruct s | exact IH]. Qed.

Lemma trim_end_snoc (x : string) (c : ascii) :
  is_js_space c = false -> trim_end (x ++ String c "")%string = (x ++ String c "")%string.
Proof.
  intros Hc. induction x as [|a x IH]; simpl.
  - now rewrite Hc.
  - rewrite IH. destruct (x ++ String c "")%string eqn:E; [destruct x; discriminate|].
    now rewrite andb_false_r.
Qed.

(** A text that starts and ends with a non-space character is its own
    trim. *)
Lemma trim_enclosed (a b : ascii) (r : string) :
  is_js_space a = false -> is_js_space b = false ->
  trim (String a (r ++ String b "")) = String a (r ++ String b "").
Proof.
  intros Ha Hb. unfold trim. simpl. rewrite Ha.
  exact (trim_end_snoc (String a r) b Hb).
Qed.

#[export] Hint Rewrite has_nl_app starts_with_app : relay_rw.
