(* ===== verification/Json.v ===== *)
(** * JSON values and the JavaScript operations the code applies to them

    A parsed value is a [json]; a JavaScript value that may be [undefined]
    is an [option json].  Property access [v.k] throws a [TypeError] on
    [null] and [undefined] ([get_prop]); optional chaining [v?.k] returns
    [undefined] there ([get_opt]).  The keys the code reads ([type],
    [delta], [text], [error], [message], [messages], [role], [content])
    are not inherited properties of any JavaScript value, so on anything
    but an object they read as [undefined].

    [JsonCodec] is the interface of [JSON.parse] ([json_parse], [None]
    when it throws a [SyntaxError]) and [JSON.stringify]
    ([json_stringify]); [JsonLaws] states what the relay and the client
    rely on.  Numbers are kept as the exact decimal [m * 10^e] the text
    denotes; objects as association lists without duplicate keys (a
    duplicated key in a text keeps its first position and its last value,
    as [JSON.parse] does). *)

From Stdlib Require Import String Ascii List Bool ZArith Lia.
From S2P Require Import Prelude JsString.
Import ListNotations.
Open Scope string_scope.
Open Scope list_scope.

Unset Elimination Schemes.
Inductive json : Type :=
| JNull
| JBool (b : bool)
| JNum (m : Z) (e : Z)
| JStr (s : string)
| JArr (xs : list json)
| JObj (kvs : list (string * json)).
Set Elimination Schemes.

(** The induction principle with hypotheses on the elements of arrays and
    the values of objects. *)
Definition json_ind (P : json -> Prop)
    (fnull : P JNull)
    (fbool : forall b, P (JBool b))
    (fnum : forall m e, P (JNum m e))
    (fstr : forall s, P (JStr s))
    (farr : forall xs, Forall P xs -> P (JArr xs))
    (fobj : forall kvs, Forall (fun kv => P (snd kv)) kvs -> P (JObj kvs)) :
    forall v, P v :=
  fix F (v : json) : P v :=
    match v as v0 return P v0 with
    | JNull => fnull
    | JBool b => fbool b
    | JNum m e => fnum m e
    | JStr s => fstr s
    | JArr xs =>
        farr xs ((fix G (l : list json) : Forall P l :=
                    match l with
                    | [] => Forall_nil _
                    | x :: l' => Forall_cons _ (F x) (G l')
                    end) xs)
    | JObj kvs =>
        fobj kvs ((fix G (l : list (string * json)) : Forall (fun kv => P (snd kv)) l :=
                     match l with
                     | [] => Forall_nil _
                     | kv :: l' => Forall_cons _ (F (snd kv)) (G l')
                     end) kvs)
    end.

(** ** Objects *)

Fixpoint assoc (k : string) (kvs : list (string * json)) : option json :=
  match kvs with
  | [] => None
  | (k', v) :: kvs' => if String.eqb k' k then Some v else assoc k kvs'
  end.

(** [obj[k] = v] on an object under construction: an existing key keeps
    its position and takes the new value, a new key goes last. *)
Fixpoint obj_set (k : string) (v : json) (kvs : list (string * json))
  : list (string * json) :=
  match kvs with
  | [] => [(k, v)]
  | (k', v') :: kvs' =>
      if String.eqb k' k then (k', v) :: kvs' else (k', v') :: obj_set k v kvs'
  end.

(** An object literal [{k1: e1, ...}] as [JSON.stringify] sees it: the
    properties whose value is [undefined] are left out. *)
Fixpoint obj_lit (props : list (string * option json)) : json :=
  match props with
  | [] => JObj []
  | (k, Some v) :: ps =>
      match obj_lit ps with JObj kvs => JObj ((k, v) :: kvs) | o => o end
  | (_, None) :: ps => obj_lit ps
  end.

(** ** Property access *)

(** [v.k] *)
Definition get_prop (v : option json) (k : string) : outcome (option json) :=
  match v with
  | None | Some JNull => Throw TypeError
  | Some (JObj kvs) => Ok (assoc k kvs)
  | Some _ => Ok None
  end.

(** [v?.k] *)
Definition get_opt (v : option json) (k : string) : outcome (option json) :=
  match v with
  | None | Some JNull => Ok None
  | _ => get_prop v k
  end.

(** ToBoolean: [undefined], [null], [false], [0], [-0] and [""] are falsy. *)
Definition truthy (v : option json) : bool :=
  match v with
  | None | Some JNull => false
  | Some (JBool b) => b
  | Some (JNum m _) => negb (Z.eqb m 0)
  | Some (JStr s) => negb (String.eqb s "")
  | Some (JArr _) | Some (JObj _) => true
  end.

(** [v === "s"] *)
Definition is_str (v : option json) (s : string) : bool :=
  match v with
  | Some (JStr s') => String.eqb s' s
  | _ => false
  end.

(** [Array.isArray(v)] *)
Definition is_array (v : option json) : bool :=
  match v with Some (JArr _) => true | _ => false end.

(** ** The codec interface *)

Class JsonCodec : Type := {
  json_parse : string -> option json;
  json_stringify : json -> string
}.

(** Objects as [JSON.parse] builds them: no key twice, at any depth. *)
Fixpoint json_wf (v : json) : Prop :=
  match v with
  | JArr xs => (fix G (l : list json) : Prop :=
                  match l with [] => True | x :: l' => json_wf x /\ G l' end) xs
  | JObj kvs => NoDup (map fst kvs) /\
                (fix G (l : list (string * json)) : Prop :=
                   match l with [] => True | kv :: l' => json_wf (snd kv) /\ G l' end) kvs
  | _ => True
  end.

Class JsonLaws `{JsonCodec} : Prop := {
  (** [JSON.parse(JSON.stringify(v))] gives [v] back. *)
  parse_stringify : forall v, json_wf v -> json_parse (json_stringify v) = Some v;
  (** [JSON.stringify] escapes line feeds: its output is one line. *)
  stringify_no_nl : forall v, has_nl (json_stringify v) = false;
  (** What [JSON.parse] returns is well formed. *)
  parse_wf : forall s v, json_parse s = Some v -> json_wf v;
  (** An object is printed between braces (no indentation is asked). *)
  stringify_obj : forall kvs, exists r, json_stringify (JObj kvs) = ("{" ++ r ++ "}")%string
}.

(** ** Lemmas *)

Lemma get_prop_obj (kvs : list (string * json)) k :
  get_prop (Some (JObj kvs)) k = Ok (assoc k kvs).
Proof. reflexivity. Qed.

Lemma assoc_obj_set_eq k v kvs : assoc k (obj_set k v kvs) = Some v.
Proof.
  induction kvs as [|[k' v'] kvs IH]; simpl.
  - now rewrite String.eqb_refl.
  - destruct (String.eqb_spec k' k) as [->|Hne]; simpl.
    + now rewrite String.eqb_refl.
    + apply String.eqb_neq in Hne. now rewrite Hne.
Qed.

(** A property of a well-formed object is well formed. *)
Lemma assoc_wf (kvs : list (string * json)) (k : string) (v : json) :
  json_wf (JObj kvs) -> assoc k kvs = Some v -> json_wf v.
Proof.
  intros [_ Hw]. induction kvs as [|[k' v'] kvs IH]; simpl in *; [discriminate|].
  destruct Hw as [Hv Hw]. destruct (String.eqb k' k); [congruence | exact (IH Hw)].
Qed.

#[export] Hint Rewrite get_prop_obj assoc_obj_set_eq : relay_rw.
