(* ===== verification/JsonText.v ===== *)
(** * A concrete JSON codec: printer and parser of JSON text

    [print_json] follows [JSON.stringify] (no spaces; a string escapes the
    double quote, the backslash and the control characters, with the short
    forms for BS, TAB, LF, FF, CR and a lowercase [\u00xx] otherwise;
    every other code unit is printed as it is).  A number [m * 10^e] is
    printed as the integer [m] followed, when [e] is not zero, by [e] and
    the exponent.  [parse_json] follows [JSON.parse] on the JSON grammar:
    whitespace around tokens, [null], [true], [false], numbers without
    leading zeros, strings with all escapes (a [\u] escape above 255 is
    outside the model's alphabet and rejected), arrays and objects (a
    repeated key keeps its first position and its last value).  The parser
    is recursive on a fuel bound; [parse_json] gives it one unit per input
    character plus one, which is enough because every nested call
    consumes at least one character. *)

From Stdlib Require Import String Ascii List Bool ZArith Lia DecimalString DecimalN.
From S2P Require Import Prelude JsString Json.
Import ListNotations.
Open Scope string_scope.
Open Scope list_scope.

(** ** Printer *)

Definition esc (c : ascii) : string := String backslash_char (String c "").

Definition hex_digit (n : nat) : ascii :=
  match String.get n "0123456789abcdef" with Some c => c | None => "0"%char end.

(** One code unit of a string literal, as [JSON.stringify] writes it. *)
Definition escape_char (c : ascii) : string :=
  let n := nat_of_ascii c in
  if Ascii.eqb c quote_char then esc quote_char
  else if Ascii.eqb c backslash_char then esc backslash_char
  else if Nat.eqb n 8 then esc "b"%char
  else if Nat.eqb n 9 then esc "t"%char
  else if Nat.eqb n 10 then esc "n"%char
  else if Nat.eqb n 12 then esc "f"%char
  else if Nat.eqb n 13 then esc "r"%char
  else if Nat.ltb n 32 then
    (esc "u"%char ++ "00" ++ String (hex_digit (n / 16)) (String (hex_digit (n mod 16)) ""))%string
  else String c "".

Fixpoint escape_string (s : string) : string :=
  match s with
  | EmptyString => ""
  | String c s' => (escape_char c ++ escape_string s')%string
  end.

Definition print_string (s : string) : string :=
  (QUOTE ++ escape_string s ++ QUOTE)%string.

Definition print_N (n : N) : string := NilEmpty.string_of_uint (N.to_uint n).

Definition print_Z (z : Z) : string :=
  match z with
  | Z0 => "0"
  | Zpos p => print_N (Npos p)
  | Zneg p => ("-" ++ print_N (Npos p))%string
  end.

Definition print_num (m e : Z) : string :=
  (print_Z m ++ (if Z.eqb e 0 then "" else "e" ++ print_Z e))%string.

Fixpoint join (sep : string) (xs : list string) : string :=
  match xs with
  | [] => ""
  | [x] => x
  | x :: xs' => (x ++ sep ++ join sep xs')%string
  end.

Fixpoint print_json (v : json) : string :=
  match v with
  | JNull => "null"
  | JBool true => "true"
  | JBool false => "false"
  | JNum m e => print_num m e
  | JStr s => print_string s
  | JArr xs => ("[" ++ join "," (map print_json xs) ++ "]")%string
  | JObj kvs =>
      ("{" ++ join "," (map (fun kv => print_string (fst kv) ++ ":" ++ print_json (snd kv))%string kvs)
           ++ "}")%string
  end.

(** ** Parser *)

(** JSON whitespace: SPACE, TAB, LF, CR. *)
Definition is_json_ws (c : ascii) : bool :=
  let n := nat_of_ascii c in Nat.eqb n 32 || Nat.eqb n 9 || Nat.eqb n 10 || Nat.eqb n 13.

Fixpoint skip_ws (s : string) : string :=
  match s with
  | String c s' => if is_json_ws c then skip_ws s' else s
  | EmptyString => EmptyString
  end.

Definition is_digit (c : ascii) : bool :=
  let n := nat_of_ascii c in Nat.leb 48 n && Nat.leb n 57.

(** The longest prefix of digits, and the rest. *)
Fixpoint span_digits (s : string) : string * string :=
  match s with
  | String c s' =>
      if is_digit c then let (d, r) := span_digits s' in (String c d, r) else ("", s)
  | EmptyString => ("", "")
  end.

Definition N_of_digits (d : string) : N :=
  match NilEmpty.uint_of_string d with Some u => N.of_uint u | None => 0%N end.

Definition hex_val (c : ascii) : option nat :=
  let n := nat_of_ascii c in
  if Nat.leb 48 n && Nat.leb n 57 then Some (n - 48)
  else if Nat.leb 97 n && Nat.leb n 102 then Some (n - 87)
  else if Nat.leb 65 n && Nat.leb n 70 then Some (n - 55)
  else None.

(** The body of a string literal after its opening quote: the decoded
    string and the text after the closing quote. *)
Fixpoint parse_chars (s : string) : option (string * string) :=
  match s with
  | EmptyString => None
  | String c s1 =>
      if Ascii.eqb c quote_char then Some ("", s1)
      else if Ascii.eqb c backslash_char then
        match s1 with
        | String "u"%char (String h1 (String h2 (String h3 (String h4 s2)))) =>
            match hex_val h1, hex_val h2, hex_val h3, hex_val h4 with
            | Some a, Some b, Some c', Some d =>
                let n := ((a * 16 + b) * 16 + c') * 16 + d in
                if Nat.ltb n 256 then
                  match parse_chars s2 with
                  | Some (t, r) => Some (String (ascii_of_nat n) t, r)
                  | None => None
                  end
                else None
            | _, _, _, _ => None
            end
        | String e s2 =>
            let decoded :=
              if Ascii.eqb e quote_char then Some quote_char
              else if Ascii.eqb e backslash_char then Some backslash_char
              else if Ascii.eqb e "/"%char then Some "/"%char
              else if Ascii.eqb e "b"%char then Some (ascii_of_nat 8)
              else if Ascii.eqb e "f"%char then Some (ascii_of_nat 12)
              else if Ascii.eqb e "n"%char then Some (ascii_of_nat 10)
              else if Ascii.eqb e "r"%char then Some (ascii_of_nat 13)
              else if Ascii.eqb e "t"%char then Some (ascii_of_nat 9)
              else None in
            match decoded with
            | Some d =>
                match parse_chars s2 with
                | Some (t, r) => Some (String d t, r)
                | None => None
                end
            | None => None
            end
        | EmptyString => None
        end
      else if Nat.ltb (nat_of_ascii c) 32 then None
      else match parse_chars s1 with
           | Some (t, r) => Some (String c t, r)
           | None => None
           end
  end.

(** The text after a leading [c], if the text starts with [c]. *)
Definition take_char (c : ascii) (s : string) : option string :=
  match s with
  | String c' r => if Ascii.eqb c' c then Some r else None
  | EmptyString => None
  end.

(** A digit run of two or more digits that starts with [0]. *)
Definition leading_zero (d : string) : bool :=
  match d with
  | String c (String _ _) => Ascii.eqb c "0"%char
  | _ => false
  end.

(** [[eE] [+-]? digits], or nothing. *)
Definition parse_exponent (s : string) : option (Z * string) :=
  match s with
  | String c r =>
      if Ascii.eqb c "e"%char || Ascii.eqb c "E"%char then
        let (eneg, r1) := match take_char "-"%char r with
                          | Some r' => (true, r')
                          | None => match take_char "+"%char r with
                                    | Some r' => (false, r')
                                    | None => (false, r)
                                    end
                          end in
        let (ed, r2) := span_digits r1 in
        if String.eqb ed "" then None
        else let x := Z.of_N (N_of_digits ed) in Some (if eneg then Z.opp x else x, r2)
      else Some (0%Z, s)
  | EmptyString => Some (0%Z, s)
  end.

(** [-? int frac? exp?] with [int] = [0] or a digit run not starting with
    [0]. *)
Definition parse_number (s : string) : option (json * string) :=
  let (neg, s1) := match take_char "-"%char s with
                   | Some r => (true, r)
                   | None => (false, s)
                   end in
  let (ip, s2) := span_digits s1 in
  if String.eqb ip "" || leading_zero ip then None
  else
    let frac := match take_char "."%char s2 with
                | Some r => let (fp, s3) := span_digits r in
                            if String.eqb fp "" then None else Some (fp, s3)
                | None => Some ("", s2)
                end in
    match frac with
    | None => None
    | Some (fp, s3) =>
        match parse_exponent s3 with
        | None => None
        | Some (x, s4) =>
            let mag := Z.of_N (N_of_digits (ip ++ fp)) in
            Some (JNum (if neg then Z.opp mag else mag) (x - Z.of_nat (String.length fp))%Z, s4)
        end
    end.

Fixpoint parse_value (fuel : nat) (s : string) {struct fuel} : option (json * string) :=
  match fuel with
  | 0 => None
  | S f =>
      match skip_ws s with
      | EmptyString => None
      | String c r as t =>
          if Ascii.eqb c "{"%char then
            match skip_ws r with
            | String "}"%char r' => Some (JObj [], r')
            | _ => parse_members f [] r
            end
          else if Ascii.eqb c "["%char then
            match take_char "]"%char (skip_ws r) with
            | Some r' => Some (JArr [], r')
            | None => parse_elems f [] r
            end
          else if Ascii.eqb c quote_char then
            match parse_chars r with
            | Some (str, r') => Some (JStr str, r')
            | None => None
            end
          else if Ascii.eqb c "n"%char then
            if String.prefix "null" t then Some (JNull, slice_from 4 t) else None
          else if Ascii.eqb c "t"%char then
            if String.prefix "true" t then Some (JBool true, slice_from 4 t) else None
          else if Ascii.eqb c "f"%char then
            if String.prefix "false" t then Some (JBool false, slice_from 5 t) else None
          else parse_number t
      end
  end
(** The elements of an array after [[] or a comma. *)
with parse_elems (fuel : nat) (acc : list json) (s : string) {struct fuel}
  : option (json * string) :=
  match fuel with
  | 0 => None
  | S f =>
      match parse_value f s with
      | None => None
      | Some (v, r) =>
          match skip_ws r with
          | String ","%char r' => parse_elems f (acc ++ [v]) r'
          | String "]"%char r' => Some (JArr (acc ++ [v]), r')
          | _ => None
          end
      end
  end
(** The members of an object after [{] or a comma. *)
with parse_members (fuel : nat) (acc : list (string * json)) (s : string) {struct fuel}
  : option (json * string) :=
  match fuel with
  | 0 => None
  | S f =>
      match skip_ws s with
      | String q r =>
          if Ascii.eqb q quote_char then
            match parse_chars r with
            | None => None
            | Some (k, r1) =>
                match skip_ws r1 with
                | String ":"%char r2 =>
                    match parse_value f r2 with
                    | None => None
                    | Some (v, r3) =>
                        match skip_ws r3 with
                        | String ","%char r4 => parse_members f (obj_set k v acc) r4
                        | String "}"%char r4 => Some (JObj (obj_set k v acc), r4)
                        | _ => None
                        end
                    end
                | _ => None
                end
            end
          else None
      | EmptyString => None
      end
  end.

(** [JSON.parse(s)]: one value, then only whitespace. *)
Definition parse_json (s : string) : option json :=
  match parse_value (S (String.length s)) s with
  | Some (v, r) => match skip_ws r with EmptyString => Some v | _ => None end
  | None => None
  end.

#[export] Instance json_text : JsonCodec := {|
  json_parse := parse_json;
  json_stringify := print_json
|}.

(** ** Runs on concrete texts *)

Example parse_delta_event :
  parse_json (dq "{'type':'content_block_delta','index':0,'delta':{'type':'text_delta','text':'hi'}}")
  = Some (JObj [("type", JStr "content_block_delta"); ("index", JNum 0 0);
                ("delta", JObj [("type", JStr "text_delta"); ("text", JStr "hi")])]).
Proof. vm_compute. reflexivity. Qed.

Example parse_numbers :
  parse_json " [ -12.50e+3 , 0, 7E-1 ] " = Some (JArr [JNum (-1250) 1; JNum 0 0; JNum 7 (-1)]).
Proof. vm_compute. reflexivity. Qed.

Example parse_rejects_leading_zero : parse_json "01" = None.
Proof. vm_compute. reflexivity. Qed.

Example parse_duplicate_key :
  parse_json (dq "{'a':1,'b':2,'a':3}") = Some (JObj [("a", JNum 3 0); ("b", JNum 2 0)]).
Proof. vm_compute. reflexivity. Qed.

Example print_content_frame :
  print_json (JObj [("content", JStr "a\b")]) = dq "{'content':'a\\b'}".
Proof. vm_compute. reflexivity. Qed.
