(* ===== verification/JsonRoundtrip.v ===== *)
(** * The [JsonText] codec satisfies [JsonLaws]

    The printer's output is one line and prints objects between braces;
    the parser only builds objects without repeated keys; and parsing the
    printed text of a well-formed value gives the value back.  The last
    law is proved through [parse_value_print]: with enough fuel,
    [parse_value] reads [print_json v] off the front of any text that
    continues with a delimiter, and leaves that continuation. *)

From Stdlib Require Import String Ascii List Bool ZArith Lia DecimalString DecimalN.
From S2P Require Import Prelude JsString Json JsonText.
Import ListNotations.
Open Scope string_scope.
Open Scope list_scope.

(** ** One line *)

Lemma escape_char_no_nl (c : ascii) : has_nl (escape_char c) = false.
Proof.
  destruct c as [[] [] [] [] [] [] [] []]; reflexivity.
Qed.

Lemma escape_string_no_nl (s : string) : has_nl (escape_string s) = false.
Proof.
  induction s as [|c s IH]; [reflexivity|]. simpl.
  now rewrite has_nl_app, escape_char_no_nl, IH.
Qed.

Lemma print_N_no_nl (n : N) : has_nl (print_N n) = false.
Proof.
  unfold print_N. generalize (N.to_uint n). intros u.
  induction u; simpl; auto.
Qed.

Lemma print_Z_no_nl (z : Z) : has_nl (print_Z z) = false.
Proof. destruct z; simpl; try apply print_N_no_nl; reflexivity. Qed.

Lemma join_no_nl (sep : string) (xs : list string) :
  has_nl sep = false -> Forall (fun x => has_nl x = false) xs -> has_nl (join sep xs) = false.
Proof.
  intros Hs. induction 1 as [|x xs Hx Hxs IH]; [reflexivity|].
  destruct xs as [|y ys]; [exact Hx|].
  change (join sep (x :: y :: ys)) with (x ++ sep ++ join sep (y :: ys))%string.
  now rewrite !has_nl_app, Hx, Hs, IH.
Qed.

Lemma print_json_no_nl (v : json) : has_nl (print_json v) = false.
Proof.
  induction v as [| b | m e | s | xs IH | kvs IH] using json_ind; simpl.
  - reflexivity.
  - now destruct b.
  - unfold print_num. rewrite has_nl_app, print_Z_no_nl.
    destruct (Z.eqb e 0); simpl; [reflexivity|apply print_Z_no_nl].
  - unfold print_string. rewrite !has_nl_app, escape_string_no_nl. reflexivity.
  - rewrite has_nl_app. simpl. rewrite join_no_nl; [reflexivity|reflexivity|].
    apply Forall_map. exact IH.
  - rewrite has_nl_app. simpl. rewrite join_no_nl; [reflexivity|reflexivity|].
    apply Forall_map. eapply Forall_impl; [|exact IH]. intros [k v] Hv. cbn [fst snd] in *.
    simpl. rewrite !has_nl_app, escape_string_no_nl. simpl. exact Hv.
Qed.

(** ** Strings *)

Lemma parse_escape_char (c : ascii) (t : string) :
  parse_chars (escape_char c ++ t)%string
  = match parse_chars t with Some (u, r) => Some (String c u, r) | None => None end.
Proof.
  destruct c as [[] [] [] [] [] [] [] []]; reflexivity.
Qed.

Lemma parse_print_chars (s t : string) :
  parse_chars (escape_string s ++ QUOTE ++ t)%string = Some (s, t).
Proof.
  induction s as [|c s IH]; [reflexivity|]. cbn [escape_string].
  rewrite str_app_assoc, parse_escape_char, IH. reflexivity.
Qed.

(** ** Numbers *)

Fixpoint all_digits (s : string) : bool :=
  match s with
  | EmptyString => true
  | String c s' => is_digit c && all_digits s'
  end.

(** A text that does not continue a digit run. *)
Definition digit_free_start (t : string) : bool :=
  match t with String c _ => negb (is_digit c) | EmptyString => true end.

Lemma digit_neq (c x : ascii) : is_digit x = false -> is_digit c = true -> Ascii.eqb c x = false.
Proof. intros Hx Hc. destruct (Ascii.eqb_spec c x); [subst; congruence|reflexivity]. Qed.

Lemma span_digits_app (d t : string) :
  all_digits d = true -> digit_free_start t = true -> span_digits (d ++ t)%string = (d, t).
Proof.
  intros Hd Ht. induction d as [|c d IH]; simpl in *.
  - destruct t as [|c t]; [reflexivity|]. simpl in Ht. apply negb_true_iff in Ht.
    simpl. now rewrite Ht.
  - apply andb_true_iff in Hd as [Hc Hd]. rewrite Hc, IH by exact Hd. reflexivity.
Qed.

Lemma uint_all_digits (u : Decimal.uint) : all_digits (NilEmpty.string_of_uint u) = true.
Proof. induction u; simpl; auto. Qed.

Lemma print_N_digits (n : N) : all_digits (print_N n) = true.
Proof. apply uint_all_digits. Qed.

Lemma print_N_cons (n : N) : exists c s, print_N n = String c s /\ is_digit c = true.
Proof.
  unfold print_N. destruct n as [|p]; [eexists _, _; split; reflexivity|].
  change (N.to_uint (Npos p)) with (Pos.to_uint p).
  pose proof (DecimalPos.Unsigned.to_uint_nonnil p) as Hn.
  pose proof (uint_all_digits (Pos.to_uint p)) as Hd.
  destruct (Pos.to_uint p); try congruence; simpl in *; eexists _, _; split; reflexivity.
Qed.

Lemma N_of_digits_print (n : N) : N_of_digits (print_N n) = n.
Proof. unfold N_of_digits, print_N. rewrite NilEmpty.usu. apply DecimalN.Unsigned.of_to. Qed.

(** The digits of a positive number do not start with [0]. *)
Lemma print_N_no_leading_zero (n : N) : leading_zero (print_N n) = false.
Proof.
  destruct n as [|p]; [reflexivity|]. unfold print_N.
  change (N.to_uint (Npos p)) with (Pos.to_uint p).
  assert (Hnorm : Decimal.unorm (Pos.to_uint p) = Pos.to_uint p).
  { rewrite <- DecimalPos.Unsigned.to_of, DecimalPos.Unsigned.of_to. reflexivity. }
  destruct (Pos.to_uint p) as [|d|d|d|d|d|d|d|d|d|d] eqn:E; try reflexivity.
  2-10: simpl; destruct (NilEmpty.string_of_uint d); reflexivity.
  - exfalso. rewrite DecimalFacts.unorm_D0 in Hnorm.
    destruct d as [|d'|d'|d'|d'|d'|d'|d'|d'|d'|d'];
      [exact (DecimalPos.Unsigned.to_uint_nonzero p E)|..];
      match goal with
      | H : Decimal.unorm ?x = _ |- _ =>
          assert (Hle := DecimalFacts.nb_digits_unorm x ltac:(discriminate));
          rewrite H in Hle; simpl in Hle; lia
      end.
Qed.

(** What may follow a value inside JSON text: nothing, a comma or a
    closing bracket or brace. *)
Definition num_stop (t : string) : bool :=
  match t with
  | EmptyString => true
  | String c _ => Ascii.eqb c ","%char || Ascii.eqb c "]"%char || Ascii.eqb c "}"%char
  end.

Lemma num_stop_digit_free (t : string) : num_stop t = true -> digit_free_start t = true.
Proof.
  destruct t as [|c t]; [reflexivity|]. simpl. intros H.
  destruct (is_digit c) eqn:Hc; [|reflexivity].
  rewrite (digit_neq c "," eq_refl Hc), (digit_neq c "]" eq_refl Hc),
          (digit_neq c "}" eq_refl Hc) in H. discriminate.
Qed.

Lemma num_stop_not (t : string) (x : ascii) :
  num_stop t = true -> Ascii.eqb x ","%char = false -> Ascii.eqb x "]"%char = false ->
  Ascii.eqb x "}"%char = false -> take_char x t = None.
Proof.
  destruct t as [|c t]; [reflexivity|]. simpl. intros H H1 H2 H3.
  destruct (Ascii.eqb_spec c x); [subst|reflexivity].
  rewrite H1, H2, H3 in H. discriminate.
Qed.

Lemma print_Z_abs (z : Z) :
  print_Z z = ((if (z <? 0)%Z then "-" else "") ++ print_N (Z.abs_N z))%string.
Proof. destruct z; reflexivity. Qed.

Lemma take_char_print_N (x : ascii) (n : N) (t : string) :
  is_digit x = false -> take_char x (print_N n ++ t)%string = None.
Proof.
  intros Hx. destruct (print_N_cons n) as (c & s & E & Hc). rewrite E. simpl.
  now rewrite (digit_neq c x Hx Hc).
Qed.

Lemma span_print_N (n : N) (t : string) :
  digit_free_start t = true -> span_digits (print_N n ++ t)%string = (print_N n, t).
Proof. intros Ht. apply span_digits_app; [apply print_N_digits | exact Ht]. Qed.

Lemma print_N_nonempty (n : N) : String.eqb (print_N n) "" = false.
Proof. destruct (print_N_cons n) as (c & s & E & _). now rewrite E. Qed.

Lemma abs_N_sign (z : Z) :
  (if (z <? 0)%Z then Z.opp (Z.of_N (Z.abs_N z)) else Z.of_N (Z.abs_N z)) = z.
Proof. rewrite N2Z.inj_abs_N. destruct (Z.ltb_spec z 0); lia. Qed.

(** The exponent part of a printed number. *)
Definition exp_text (e : Z) : string := if Z.eqb e 0 then "" else ("e" ++ print_Z e)%string.

Lemma exp_text_parse (e : Z) (t : string) :
  num_stop t = true ->
  take_char "."%char (exp_text e ++ t)%string = None /\
  digit_free_start (exp_text e ++ t)%string = true /\
  parse_exponent (exp_text e ++ t)%string = Some (e, t).
Proof.
  intros Ht. unfold exp_text. destruct (Z.eqb_spec e 0) as [->|Hne].
  - simpl. split; [now apply num_stop_not|]. split; [now apply num_stop_digit_free|].
    destruct t as [|c t]; [reflexivity|]. simpl in *.
    destruct (Ascii.eqb_spec c "e"%char) as [->|]; [discriminate|].
    destruct (Ascii.eqb_spec c "E"%char) as [->|]; [discriminate|]. reflexivity.
  - split; [reflexivity|]. split; [reflexivity|].
    simpl. rewrite print_Z_abs. destruct (Z.ltb_spec e 0) as [Hlt|Hge]; simpl.
    + rewrite span_print_N by (now apply num_stop_digit_free).
      rewrite print_N_nonempty. f_equal. f_equal.
      rewrite N_of_digits_print, N2Z.inj_abs_N. lia.
    + rewrite !take_char_print_N by reflexivity.
      rewrite span_print_N by (now apply num_stop_digit_free).
      rewrite print_N_nonempty. f_equal. f_equal.
      rewrite N_of_digits_print, N2Z.inj_abs_N. lia.
Qed.

Lemma parse_print_num (m e : Z) (t : string) :
  num_stop t = true -> parse_number (print_num m e ++ t)%string = Some (JNum m e, t).
Proof.
  intros Ht. destruct (exp_text_parse e t Ht) as (Hdot & Hfree & Hexp).
  unfold print_num. fold (exp_text e). rewrite print_Z_abs, !str_app_assoc.
  unfold parse_number.
  assert (Hsign : match take_char "-"%char
                          ((if (m <? 0)%Z then "-" else "") ++ print_N (Z.abs_N m) ++ exp_text e ++ t)%string
                  with Some r => (true, r) | None => (false, ((if (m <? 0)%Z then "-" else "") ++ print_N (Z.abs_N m) ++ exp_text e ++ t)%string) end
                  = ((m <? 0)%Z, (print_N (Z.abs_N m) ++ exp_text e ++ t)%string)).
  { destruct (m <? 0)%Z; [reflexivity|]. simpl. now rewrite take_char_print_N. }
  rewrite Hsign. rewrite span_print_N by exact Hfree.
  rewrite print_N_nonempty, print_N_no_leading_zero. simpl.
  rewrite Hdot, Hexp, str_app_nil_r, N_of_digits_print.
  simpl. rewrite abs_N_sign, Z.sub_0_r. reflexivity.
Qed.

(** ** Values *)

Fixpoint jsize (v : json) : nat :=
  match v with
  | JArr xs => S ((fix G (l : list json) : nat :=
                     match l with [] => 0 | x :: l' => S (jsize x) + G l' end) xs)
  | JObj kvs => S ((fix G (l : list (string * json)) : nat :=
                      match l with [] => 0 | kv :: l' => S (jsize (snd kv)) + G l' end) kvs)
  | _ => 1
  end.

Fixpoint elems_size (xs : list json) : nat :=
  match xs with [] => 0 | x :: xs' => S (jsize x) + elems_size xs' end.

Fixpoint members_size (kvs : list (string * json)) : nat :=
  match kvs with [] => 0 | kv :: kvs' => S (jsize (snd kv)) + members_size kvs' end.

Definition member_text (kv : string * json) : string :=
  (print_string (fst kv) ++ ":" ++ print_json (snd kv))%string.

(** [parse_value] reads the printed text of [v] back, from any amount of
    fuel above [jsize v] and before any delimiter. *)
Definition reads_back (v : json) : Prop :=
  forall f t, jsize v <= f -> num_stop t = true -> json_wf v ->
  parse_value f (print_json v ++ t)%string = Some (v, t).

Lemma jsize_arr (xs : list json) : jsize (JArr xs) = S (elems_size xs).
Proof. reflexivity. Qed.

Lemma jsize_obj (kvs : list (string * json)) : jsize (JObj kvs) = S (members_size kvs).
Proof. reflexivity. Qed.

Lemma print_arr (xs : list json) :
  print_json (JArr xs) = ("[" ++ join "," (map print_json xs) ++ "]")%string.
Proof. reflexivity. Qed.

Lemma print_obj (kvs : list (string * json)) :
  print_json (JObj kvs) = ("{" ++ join "," (map member_text kvs) ++ "}")%string.
Proof. reflexivity. Qed.

Lemma wf_arr (xs : list json) : json_wf (JArr xs) <-> Forall json_wf xs.
Proof.
  simpl. induction xs as [|x xs IH]; [split; auto|].
  rewrite Forall_cons_iff, <- IH. reflexivity.
Qed.

Lemma wf_obj (kvs : list (string * json)) :
  json_wf (JObj kvs) <-> NoDup (map fst kvs) /\ Forall (fun kv => json_wf (snd kv)) kvs.
Proof.
  simpl. apply and_iff_compat_l. induction kvs as [|kv kvs IH]; [split; auto|].
  rewrite Forall_cons_iff, <- IH. reflexivity.
Qed.

Lemma digit_not_ws (c : ascii) : is_digit c = true -> is_json_ws c = false.
Proof.
  unfold is_digit, is_json_ws. intros H. apply andb_true_iff in H as [H1 H2].
  apply Nat.leb_le in H1, H2.
  repeat rewrite (proj2 (Nat.eqb_neq _ _)) by lia. reflexivity.
Qed.

(** A printed value starts with a character that is neither whitespace
    nor a closing bracket. *)
Lemma print_json_head (v : json) :
  exists c s, print_json v = String c s /\ is_json_ws c = false /\ Ascii.eqb c "]"%char = false.
Proof.
  destruct v as [| [] | m e | s | xs | kvs]; try (eexists _, _; split; [reflexivity|]; split; reflexivity).
  unfold print_json, print_num. rewrite print_Z_abs. destruct (m <? 0)%Z.
  - eexists _, _; split; [reflexivity|]. split; reflexivity.
  - destruct (print_N_cons (Z.abs_N m)) as (c & s & E & Hc). simpl. rewrite E.
    exists c, (s ++ exp_text e)%string. split; [reflexivity|].
    split; [now apply digit_not_ws | now apply digit_neq].
Qed.

Lemma parse_value_num (f : nat) (m e : Z) (t : string) :
  num_stop t = true -> parse_value (S f) (print_num m e ++ t)%string = Some (JNum m e, t).
Proof.
  intros Ht. rewrite <- (parse_print_num m e t Ht).
  unfold print_num. rewrite print_Z_abs. destruct (m <? 0)%Z; [reflexivity|].
  destruct (print_N_cons (Z.abs_N m)) as (c & s & E & Hc). simpl. rewrite E. simpl.
  rewrite (digit_not_ws c Hc).
  repeat match goal with |- context [Ascii.eqb c ?x] => rewrite (digit_neq c x eq_refl Hc) end.
  reflexivity.
Qed.

Lemma obj_set_fresh (k : string) (v : json) (acc : list (string * json)) :
  ~ In k (map fst acc) -> obj_set k v acc = acc ++ [(k, v)].
Proof.
  induction acc as [|[k' v'] acc IH]; intros Hn; [reflexivity|]. simpl in *.
  destruct (String.eqb_spec k' k); [exfalso; auto|]. now rewrite IH by tauto.
Qed.

Lemma parse_elems_unfold (f : nat) (acc : list json) (s : string) :
  parse_elems (S f) acc s
  = match parse_value f s with
    | None => None
    | Some (v, r) =>
        match skip_ws r with
        | String ","%char r' => parse_elems f (acc ++ [v]) r'
        | String "]"%char r' => Some (JArr (acc ++ [v]), r')
        | _ => None
        end
    end.
Proof. reflexivity. Qed.

Lemma parse_elems_print (xs : list json) :
  Forall reads_back xs -> xs <> [] ->
  forall f acc t, elems_size xs <= f -> num_stop t = true -> Forall json_wf xs ->
  parse_elems f acc (join "," (map print_json xs) ++ "]" ++ t)%string = Some (JArr (acc ++ xs), t).
Proof.
  induction 1 as [|x xs Hx Hxs IH]; intros Hne f acc t Hf Ht Hwf; [congruence|].
  inversion Hwf as [|? ? Hwx Hwxs]; subst.
  destruct f as [|f]; [simpl in Hf; lia|]. simpl in Hf.
  destruct xs as [|y ys].
  - cbn [map join]. rewrite parse_elems_unfold, (Hx f ("]" ++ t)%string) by (simpl; auto; lia).
    reflexivity.
  - change (join "," (map print_json (x :: y :: ys)))
      with (print_json x ++ "," ++ join "," (map print_json (y :: ys)))%string.
    rewrite !str_app_assoc, parse_elems_unfold.
    rewrite (Hx f ("," ++ join "," (map print_json (y :: ys)) ++ "]" ++ t)%string)
      by (simpl in *; auto; lia).
    change (skip_ws ("," ++ ?X)%string) with (String ","%char X). cbv iota beta.
    rewrite IH by (auto; try discriminate; lia). now rewrite <- app_assoc.
Qed.

Lemma skip_ws_nonws (c : ascii) (s : string) :
  is_json_ws c = false -> skip_ws (String c s) = String c s.
Proof. intros H. simpl. now rewrite H. Qed.

Lemma parse_print_chars' (s t : string) :
  parse_chars (escape_string s ++ String quote_char t)%string = Some (s, t).
Proof. exact (parse_print_chars s t). Qed.

Lemma parse_members_unfold (f : nat) (acc : list (string * json)) (s : string) :
  parse_members (S f) acc s
  = match skip_ws s with
    | String q r =>
        if Ascii.eqb q quote_char then
          match parse_chars r with
          | None => None
          | Some (k, r1) =>
              match skip_ws r1 with
              | String ":"%char r2 =>
                  match parse_value f r2 with
                  | None => None
                  | Some (v, r3) =>
                      match skip_ws r3 with
                      | String ","%char r4 => parse_members f (obj_set k v acc) r4
                      | String "}"%char r4 => Some (JObj (obj_set k v acc), r4)
                      | _ => None
                      end
                  end
              | _ => None
              end
          end
        else None
    | EmptyString => None
    end.
Proof. reflexivity. Qed.

(** One member [key:value] followed by [r]. *)
Lemma parse_members_member (f : nat) (acc : list (string * json)) (k : string) (v : json)
    (r : string) :
  parse_value f (print_json v ++ r)%string = Some (v, r) ->
  parse_members (S f) acc (member_text (k, v) ++ r)%string
  = match skip_ws r with
    | String ","%char r4 => parse_members f (obj_set k v acc) r4
    | String "}"%char r4 => Some (JObj (obj_set k v acc), r4)
    | _ => None
    end.
Proof.
  intros Hv. unfold member_text, print_string. cbn [fst snd]. rewrite !str_app_assoc.
  change (QUOTE ++ ?X)%string with (String quote_char X).
  rewrite parse_members_unfold, skip_ws_nonws by reflexivity. rewrite Ascii.eqb_refl.
  rewrite parse_print_chars.
  change (skip_ws (":" ++ ?X)%string) with (String ":"%char X). cbv iota beta.
  now rewrite Hv.
Qed.

Lemma parse_members_print (kvs : list (string * json)) :
  Forall (fun kv => reads_back (snd kv)) kvs -> kvs <> [] ->
  forall f acc t, members_size kvs <= f -> num_stop t = true ->
  Forall (fun kv => json_wf (snd kv)) kvs -> NoDup (map fst (acc ++ kvs)) ->
  parse_members f acc (join "," (map member_text kvs) ++ "}" ++ t)%string
  = Some (JObj (acc ++ kvs), t).
Proof.
  induction 1 as [|[k v] kvs Hv Hkvs IH]; intros Hne f acc t Hf Ht Hwf Hnd; [congruence|].
  inversion Hwf as [|? ? Hwv Hwkvs]; subst. cbn [snd] in *.
  destruct f as [|f]; [simpl in Hf; lia|]. simpl in Hf.
  assert (Hfresh : ~ In k (map fst acc)).
  { rewrite map_app in Hnd. intros Hi. apply (NoDup_remove_2 _ _ _ Hnd).
    apply in_or_app. now left. }
  destruct kvs as [|kv2 kvs].
  - cbn [map join]. rewrite ?str_app_assoc.
    rewrite (parse_members_member f acc k v ("}" ++ t)%string) by (apply Hv; simpl; auto; lia).
    change (skip_ws ("}" ++ ?X)%string) with (String "}"%char X). cbv iota beta.
    now rewrite obj_set_fresh.
  - change (join "," (map member_text ((k, v) :: kv2 :: kvs)))
      with (member_text (k, v) ++ "," ++ join "," (map member_text (kv2 :: kvs)))%string.
    rewrite !str_app_assoc.
    rewrite (parse_members_member f acc k v) by (apply Hv; simpl in *; auto; lia).
    change (skip_ws ("," ++ ?X)%string) with (String ","%char X). cbv iota beta.
    rewrite obj_set_fresh by exact Hfresh.
    rewrite IH by (auto; try discriminate; try lia; now rewrite <- app_assoc).
    now rewrite <- app_assoc.
Qed.

Lemma join_cons (sep x : string) (xs : list string) :
  join sep (x :: xs) = (x ++ match xs with [] => "" | _ => sep ++ join sep xs end)%string.
Proof. destruct xs; simpl; [now rewrite str_app_nil_r | reflexivity]. Qed.

Lemma prefix_nil (t : string) : String.prefix "" t = true.
Proof. now destruct t. Qed.

Lemma parse_value_bracket (f : nat) (s : string) :
  parse_value (S f) ("[" ++ s)%string
  = match take_char "]"%char (skip_ws s) with
    | Some r' => Some (JArr [], r')
    | None => parse_elems f [] s
    end.
Proof. reflexivity. Qed.

Lemma parse_value_brace (f : nat) (s : string) :
  parse_value (S f) ("{" ++ s)%string
  = match skip_ws s with
    | String "}"%char r' => Some (JObj [], r')
    | _ => parse_members f [] s
    end.
Proof. reflexivity. Qed.

Lemma elems_text_head (x : json) (xs : list json) (r : string) :
  take_char "]"%char (skip_ws (join "," (map print_json (x :: xs)) ++ r)%string) = None.
Proof.
  destruct (print_json_head x) as (c & s0 & E & Hws & Hb).
  rewrite map_cons, join_cons, str_app_assoc, E. cbn [append].
  rewrite skip_ws_nonws by exact Hws. simpl. now rewrite Hb.
Qed.

Lemma members_text_head (kv : string * json) (kvs : list (string * json)) (r : string) :
  exists X, skip_ws (join "," (map member_text (kv :: kvs)) ++ r)%string = String quote_char X.
Proof.
  rewrite map_cons, join_cons. unfold member_text, print_string.
  rewrite !str_app_assoc. eexists. reflexivity.
Qed.

Lemma parse_value_print (v : json) : reads_back v.
Proof.
  induction v as [| b | m e | s | xs IH | kvs IH] using json_ind; intros f t Hf Ht Hwf;
    (destruct f as [|f]; [simpl in Hf; lia|]).
  - simpl. now rewrite prefix_nil.
  - destruct b; simpl; now rewrite prefix_nil.
  - now apply parse_value_num.
  - unfold print_json, print_string. rewrite !str_app_assoc. cbn [parse_value].
    simpl skip_ws. cbv iota beta. simpl Ascii.eqb. cbv iota beta.
    now rewrite parse_print_chars'.
  - rewrite jsize_arr in Hf. apply wf_arr in Hwf.
    rewrite print_arr, !str_app_assoc, parse_value_bracket.
    destruct xs as [|x xs']; [reflexivity|].
    rewrite elems_text_head. apply (parse_elems_print (x :: xs')); auto; [discriminate | lia].
  - rewrite jsize_obj in Hf. apply wf_obj in Hwf as [Hnd Hwf].
    rewrite print_obj, !str_app_assoc, parse_value_brace.
    destruct kvs as [|kv kvs']; [reflexivity|].
    destruct (members_text_head kv kvs' ("}" ++ t)%string) as [X EX]. rewrite EX. cbv iota beta.
    apply (parse_members_print (kv :: kvs')); auto; [discriminate | lia].
Qed.

(** ** Fuel: the printed text is at least as long as the value's size *)

Lemma join_weight {A} (w : A -> nat) (p : A -> string) (xs : list A) :
  Forall (fun x => w x <= String.length (p x)) xs ->
  fold_right (fun x n => S (w x) + n) 0 xs <= S (String.length (join "," (map p xs))).
Proof.
  induction 1 as [|x xs Hx Hxs IH]; simpl; [lia|].
  destruct xs as [|y ys]; simpl in *; [lia|].
  rewrite str_app_length. simpl. lia.
Qed.

Lemma elems_size_fold (xs : list json) :
  elems_size xs = fold_right (fun x n => S (jsize x) + n) 0 xs.
Proof. induction xs as [|x xs IH]; cbn [elems_size fold_right]; congruence. Qed.

Lemma members_size_fold (kvs : list (string * json)) :
  members_size kvs = fold_right (fun kv n => S (jsize (snd kv)) + n) 0 kvs.
Proof. induction kvs as [|kv kvs IH]; cbn [members_size fold_right]; congruence. Qed.

Lemma print_Z_length (z : Z) : 1 <= String.length (print_Z z).
Proof.
  rewrite print_Z_abs. destruct (print_N_cons (Z.abs_N z)) as (c & s & E & _).
  rewrite str_app_length, E. simpl. lia.
Qed.

Lemma jsize_print (v : json) : jsize v <= String.length (print_json v).
Proof.
  induction v as [| b | m e | s | xs IH | kvs IH] using json_ind.
  - simpl. lia.
  - destruct b; simpl; lia.
  - simpl. unfold print_num. rewrite str_app_length. pose proof (print_Z_length m). lia.
  - simpl. lia.
  - rewrite jsize_arr, elems_size_fold, print_arr, !str_app_length.
    pose proof (join_weight jsize print_json xs IH). cbn [String.length]. lia.
  - rewrite jsize_obj, members_size_fold, print_obj, !str_app_length.
    assert (Hm : Forall (fun kv => jsize (snd kv) <= String.length (member_text kv)) kvs).
    { eapply Forall_impl; [|exact IH]. intros [k v] Hv. unfold member_text, print_string.
      rewrite !str_app_length. simpl in *. lia. }
    pose proof (join_weight (fun kv => jsize (snd kv)) member_text kvs Hm). cbn [String.length]. lia.
Qed.

(** ** The laws *)

Lemma parse_json_print (v : json) : json_wf v -> parse_json (print_json v) = Some v.
Proof.
  intros Hwf. unfold parse_json.
  rewrite <- (str_app_nil_r (print_json v)) at 2.
  rewrite (parse_value_print v) by (auto; pose proof (jsize_print v); lia).
  reflexivity.
Qed.

(** ** What the parser builds is well formed *)

Lemma obj_set_keys (k : string) (v : json) (acc : list (string * json)) :
  (In k (map fst acc) /\ map fst (obj_set k v acc) = map fst acc) \/
  (~ In k (map fst acc) /\ obj_set k v acc = acc ++ [(k, v)]).
Proof.
  induction acc as [|[k' v'] acc IH]; [right; simpl; auto|]. simpl.
  destruct (String.eqb_spec k' k) as [->|Hne]; [left; simpl; auto|].
  destruct IH as [(Hi & E) | (Hi & E)].
  - left. simpl. rewrite E. auto.
  - right. rewrite E. split; [|reflexivity]. intros [H|H]; auto.
Qed.

Lemma obj_set_nodup (k : string) (v : json) (acc : list (string * json)) :
  NoDup (map fst acc) -> NoDup (map fst (obj_set k v acc)).
Proof.
  intros Hnd. destruct (obj_set_keys k v acc) as [(_ & E) | (Hi & E)].
  - now rewrite E.
  - rewrite E, map_app. apply NoDup_app; [exact Hnd | repeat constructor; simpl; tauto |].
    intros a Ha [<-|[]]. contradiction.
Qed.

Lemma obj_set_wf (k : string) (v : json) (acc : list (string * json)) :
  json_wf v -> Forall (fun kv => json_wf (snd kv)) acc ->
  Forall (fun kv => json_wf (snd kv)) (obj_set k v acc).
Proof.
  intros Hv. induction 1 as [|[k' v'] acc Hv' Hacc IH]; simpl; [now constructor|].
  destruct (String.eqb k' k); constructor; auto.
Qed.

Lemma parse_number_num (s : string) (v : json) (r : string) :
  parse_number s = Some (v, r) -> exists m e, v = JNum m e.
Proof.
  unfold parse_number. intros H.
  repeat match type of H with
         | context [match ?x with _ => _ end] => destruct x; try discriminate
         end.
  all: injection H as <- _; eauto.
Qed.

Ltac destruct_parse H :=
  repeat match type of H with
         | context [match ?x with _ => _ end] => destruct x eqn:?; try discriminate
         end.

Lemma parse_wf_fuel (f : nat) :
  (forall s v r, parse_value f s = Some (v, r) -> json_wf v) /\
  (forall acc s v r, Forall json_wf acc -> parse_elems f acc s = Some (v, r) -> json_wf v) /\
  (forall acc s v r, NoDup (map fst acc) -> Forall (fun kv => json_wf (snd kv)) acc ->
     parse_members f acc s = Some (v, r) -> json_wf v).
Proof.
  induction f as [|f (IHv & IHe & IHm)]; [repeat split; intros; discriminate|].
  split; [|split].
  - intros s v r H. cbn [parse_value] in H. destruct_parse H.
    all: first [ solve [injection H as <- _; simpl; auto using NoDup_nil]
               | exact (IHm [] _ _ _ (NoDup_nil _) (Forall_nil _) H)
               | exact (IHe [] _ _ _ (Forall_nil _) H)
               | destruct (parse_number_num _ _ _ H) as (m & e & ->); exact I ].
  - intros acc s v r Hacc H. cbn [parse_elems] in H. destruct_parse H.
    all: match type of H with
         | context [?a ++ [?x]] =>
             assert (Hw : Forall json_wf (a ++ [x]))
               by (apply Forall_app; split;
                   [exact Hacc | constructor; [eapply IHv; eassumption | constructor]])
         end.
    all: first [ exact (IHe _ _ _ _ Hw H) | injection H as <- _; now apply wf_arr ].
  - intros acc s v r Hnd Hacc H. cbn [parse_members] in H. destruct_parse H.
    all: match type of H with
         | context [obj_set ?k ?x ?a] =>
             assert (Hw : Forall (fun kv => json_wf (snd kv)) (obj_set k x a))
               by (apply obj_set_wf; [eapply IHv; eassumption | exact Hacc])
         end.
    all: first [ exact (IHm _ _ _ _ (obj_set_nodup _ _ _ Hnd) Hw H)
               | injection H as <- _; apply wf_obj; split; [now apply obj_set_nodup | exact Hw] ].
Qed.

Lemma parse_json_wf (s : string) (v : json) : parse_json s = Some v -> json_wf v.
Proof.
  unfold parse_json. intros H.
  destruct (parse_value _ s) as [[v' r]|] eqn:Hp; [|discriminate].
  destruct (skip_ws r); [|discriminate]. injection H as <-.
  exact (proj1 (parse_wf_fuel _) _ _ _ Hp).
Qed.

#[export] Instance json_text_laws : JsonLaws.
Proof.
  split.
  - exact parse_json_print.
  - exact print_json_no_nl.
  - exact parse_json_wf.
  - intros kvs. exists (join "," (map member_text kvs)). reflexivity.
Qed.
