(* ===== verification/SseRelay.v ===== *)
(** * The stream transformer of the chat relay, [src/api/chat.js]

    Section [Stream] models the asynchronous pump of lines 155-195: a
    [TransformStream] writer ([Writer], [write], [close], [cancel]), the
    handling of one line ([process_line], lines 175-189), of one chunk
    ([on_chunk], lines 167-190) and the read loop ([pump_loop], lines
    160-195) over a finite trace of environment events (upstream reads and
    client cancellation).  The specification of the transformer is
    [line_event] / [relay_spec]: the frames are the encodings of the
    recognised events of the complete lines of the text read so far.
    Section [StreamFacts] proves that the pump implements it whatever the
    chunking, that it stops and closes the writer on every ending trace,
    and what it does on the paths the specification leaves open. *)

From Stdlib Require Import String Ascii List Bool ZArith Lia.
From S2P Require Import Prelude JsString Json JsonText JsonRoundtrip.
Import ListNotations.
Open Scope string_scope.
Open Scope list_scope.
Open Scope js_scope.

(** ** The writer of the [TransformStream] *)

Inductive wstate : Type := WOpen | WClosed | WErrored.

(** The chunks written so far (what the client's reader receives, in
    order) and the state of the writable side. *)
Record Writer : Type := mkWriter { w_chunks : list string; w_state : wstate }.

Definition fresh_writer : Writer := mkWriter [] WOpen.

(** [await writer.write(chunk)]: rejects once the stream is closed or
    errored. *)
Definition write (chunk : string) : JsM Writer unit :=
  fun w => match w_state w with
           | WOpen => (Ok tt, mkWriter (w_chunks w ++ [chunk]) WOpen)
           | WClosed => (Throw TypeError, w)
           | WErrored => (Throw (StreamError "stream errored"), w)
           end.

(** [await writer.close()] *)
Definition close : JsM Writer unit :=
  fun w => match w_state w with
           | WOpen => (Ok tt, mkWriter (w_chunks w) WClosed)
           | WClosed => (Throw TypeError, w)
           | WErrored => (Throw (StreamError "stream errored"), w)
           end.

(** The client cancels the readable side (it disconnects): the writable
    side becomes errored. *)
Definition cancel (w : Writer) : Writer :=
  match w_state w with
  | WOpen => mkWriter (w_chunks w) WErrored
  | _ => w
  end.

(** ** Frames: the response encoder *)

(** [encoder.encode(`data: ${JSON.stringify(obj)}\n\n`)] *)
Definition sse_frame `{JsonCodec} (obj : json) : string :=
  ("data: " ++ json_stringify obj ++ NL ++ NL)%string.

Section Stream.
Context `{JsonCodec}.

(** ** One line (lines 175-189) *)

Definition process_line (line : string) : JsM Writer unit :=
  if starts_with "data: " line then
    let data := trim (slice_from 6 line) in
    if String.eqb data "[DONE]" then ret tt
    else
      try_catch
        (parsed <- lift_option SyntaxError (json_parse data) ;;
         ty <- lift_outcome (get_prop (Some parsed) "type") ;;
         (if is_str ty "content_block_delta" then
            delta <- lift_outcome (get_prop (Some parsed) "delta") ;;
            text <- lift_outcome (get_opt delta "text") ;;
            if truthy text then
              t <- lift_outcome (get_prop delta "text") ;;
              write (sse_frame (obj_lit [("content", t)]))
            else ret tt
          else ret tt) ;;
         ty' <- lift_outcome (get_prop (Some parsed) "type") ;;
         if is_str ty' "message_stop" then
           write (sse_frame (obj_lit [("done", Some (JBool true))]))
         else ret tt)
        (fun _ => ret tt)
  else ret tt.

(** ** One chunk (lines 170-190)

    [decoder.decode(value, {stream: true})] is the decoded text [value]. *)
Definition on_chunk (buffer value : string) : JsM Writer string :=
  let lines := split_nl (buffer ++ value)%string in
  let (lines', last) := js_pop lines in
  let buffer' := or_empty last in
  for_each process_line lines' ;;
  ret buffer'.

(** ** The read loop (lines 160-195) *)

(** What [await reader.read()] yields: a chunk, the end of the stream, or
    a rejection (the upstream connection failed). *)
Inductive read_result : Type :=
| RChunk (value : string)
| REnd
| RFail (msg : string).

(** The environment's moves, in the order they happen. *)
Inductive env_event : Type :=
| Upstream (r : read_result)
| ClientCancel.

(** Where the pump is: suspended in [await reader.read()] with its
    buffer, or stopped with the outcome of the async function. *)
Inductive pump_status : Type :=
| Reading (buffer : string)
| Stopped (res : outcome unit).

(** [finally { await writer.close(); }] after the loop ended with [r]. *)
Definition finish (r : outcome unit) (w : Writer) : pump_status * Writer :=
  match try_finally (fun w0 => (r, w0)) close w with
  | (r', w') => (Stopped r', w')
  end.

Fixpoint pump_loop (trace : list env_event) (buffer : string) (w : Writer)
  : pump_status * Writer :=
  match trace with
  | [] => (Reading buffer, w)
  | ClientCancel :: trace' => pump_loop trace' buffer (cancel w)
  | Upstream (RChunk value) :: trace' =>
      match on_chunk buffer value w with
      | (Ok buffer', w') => pump_loop trace' buffer' w'
      | (Throw e, w') => finish (Throw e) w'
      end
  | Upstream REnd :: _ => finish (Ok tt) w
  | Upstream (RFail msg) :: _ => finish (Throw (StreamError msg)) w
  end.

(** The async function of lines 160-195: [response.body.getReader()]
    (line 161) runs before the [try]; on a response without a body it
    throws there and the [finally] never runs. *)
Definition pump (body : option (list env_event)) (w : Writer) : pump_status * Writer :=
  match body with
  | None => (Stopped (Throw TypeError), w)
  | Some trace => pump_loop trace "" w
  end.

(** ** Specification of the transformer *)

(** The simplified events the relay emits. *)
Inductive relay_event : Type :=
| EvContent (text : json)
| EvDone.

(** The event a parsed [data:] payload denotes, if any. *)
Definition parsed_event (parsed : option json) : option relay_event :=
  match parsed with
  | Some (JObj kvs) =>
      let ty := assoc "type" kvs in
      if is_str ty "content_block_delta" then
        match assoc "delta" kvs with
        | Some (JObj d) =>
            let text := assoc "text" d in
            match text with
            | Some t => if truthy text then Some (EvContent t) else None
            | None => None
            end
        | _ => None
        end
      else if is_str ty "message_stop" then Some EvDone
      else None
  | _ => None
  end.

(** The event a complete upstream line denotes, if any. *)
Definition line_event (line : string) : option relay_event :=
  if starts_with "data: " line then
    let data := trim (slice_from 6 line) in
    if String.eqb data "[DONE]" then None else parsed_event (json_parse data)
  else None.

Definition encode_event (ev : relay_event) : string :=
  match ev with
  | EvContent t => sse_frame (JObj [("content", t)])
  | EvDone => sse_frame (JObj [("done", JBool true)])
  end.

Definition line_frames (line : string) : list string :=
  match line_event line with
  | Some ev => [encode_event ev]
  | None => []
  end.

(** The complete lines of a text: all pieces but the last. *)
Definition complete_lines (text : string) : list string := fst (js_pop (split_nl text)).

(** What the relay should have written after reading [text]. *)
Definition relay_spec (text : string) : list string :=
  flat_map line_frames (complete_lines text).

(** Appending frames to the writer if it is open. *)
Definition emit (frames : list string) (w : Writer) : Writer :=
  match w_state w with
  | WOpen => mkWriter (w_chunks w ++ frames) WOpen
  | _ => w
  end.

End Stream.

Definition chunk_events (chunks : list string) : list env_event :=
  map (fun c => Upstream (RChunk c)) chunks.

(** Whether a trace ends the loop: an end of stream or a read error. *)
Fixpoint trace_ends (trace : list env_event) : bool :=
  match trace with
  | [] => false
  | Upstream REnd :: _ | Upstream (RFail _) :: _ => true
  | _ :: trace' => trace_ends trace'
  end.

Definition is_stopped (st : pump_status) : bool :=
  match st with Stopped _ => true | Reading _ => false end.

(** ** The upstream's stream (the provider's side of the interface)

    The events of a streamed completion and the text the provider sends
    for each: an [event:] line, a [data:] line with the JSON payload, and
    a blank line. *)
Inductive upstream_event : Type :=
| MessageStart
| ContentBlockStart
| Ping
| ContentBlockDelta (text : string)
| ContentBlockStop
| MessageDelta
| MessageStop.

Definition event_name (ev : upstream_event) : string :=
  match ev with
  | MessageStart => "message_start"
  | ContentBlockStart => "content_block_start"
  | Ping => "ping"
  | ContentBlockDelta _ => "content_block_delta"
  | ContentBlockStop => "content_block_stop"
  | MessageDelta => "message_delta"
  | MessageStop => "message_stop"
  end.

Definition event_payload (ev : upstream_event) : json :=
  match ev with
  | ContentBlockDelta t =>
      JObj [("type", JStr "content_block_delta"); ("index", JNum 0 0);
            ("delta", JObj [("type", JStr "text_delta"); ("text", JStr t)])]
  | MessageDelta =>
      JObj [("type", JStr "message_delta");
            ("delta", JObj [("stop_reason", JStr "end_turn")]);
            ("usage", JObj [("output_tokens", JNum 15 0)])]
  | ContentBlockStart =>
      JObj [("type", JStr "content_block_start"); ("index", JNum 0 0);
            ("content_block", JObj [("type", JStr "text"); ("text", JStr "")])]
  | ev => JObj [("type", JStr (event_name ev))]
  end.

Definition event_lines `{JsonCodec} (ev : upstream_event) : list string :=
  [("event: " ++ event_name ev)%string; ("data: " ++ json_stringify (event_payload ev))%string; ""].

Definition upstream_text `{JsonCodec} (ev : upstream_event) : string :=
  str_concat (map (fun l => l ++ NL)%string (event_lines ev)).

(** What the relay should forward for each upstream event. *)
Definition expected_frames `{JsonCodec} (ev : upstream_event) : list string :=
  match ev with
  | ContentBlockDelta t => if String.eqb t "" then [] else [encode_event (EvContent (JStr t))]
  | MessageStop => [encode_event EvDone]
  | _ => []
  end.

Definition is_message_stop (ev : upstream_event) : bool :=
  match ev with MessageStop => true | _ => false end.

(** The number of [done] frames in a list of written frames. *)
Definition done_count `{JsonCodec} (frames : list string) : nat :=
  length (filter (String.eqb (encode_event EvDone)) frames).

(** ** Concrete runs, with the [JsonText] codec *)

Definition delta_line (text : string) : string :=
  ("data: " ++ dq "{'type':'content_block_delta','index':0,'delta':{'type':'text_delta','text':'"
   ++ text ++ dq "'}}" ++ NL)%string.

Definition stop_line : string := ("data: " ++ dq "{'type':'message_stop'}" ++ NL)%string.

(** A text delta ended by a carriage return instead of a line feed. *)
Definition cr_line (text : string) : string :=
  ("data: " ++ dq "{'type':'content_block_delta','index':0,'delta':{'type':'text_delta','text':'"
   ++ text ++ dq "'}}" ++ String "013"%char EmptyString)%string.

Definition content_out (text : string) : string := sse_frame (JObj [("content", JStr text)]).
Definition done_out : string := sse_frame (JObj [("done", JBool true)]).

(** A streamed answer as the provider sends it, and the same text cut at
    arbitrary places. *)
Definition votepoll_events : list upstream_event :=
  [MessageStart; ContentBlockStart; Ping; ContentBlockDelta "VotePoll";
   ContentBlockDelta ""; ContentBlockDelta " and AgencyBooking."; ContentBlockStop;
   MessageDelta; MessageStop].

Definition votepoll_text : string := str_concat (map upstream_text votepoll_events).

Definition votepoll_chunks : list string :=
  [substring 0 7 votepoll_text; substring 7 200 votepoll_text;
   substring 207 3 votepoll_text; substring 210 1000 votepoll_text].

(** ** Facts *)

Section StreamFacts.
Context `{JsonCodec}.

#[local] Arguments truthy : simpl never.
#[local] Arguments is_str : simpl never.

Lemma emit_nil (w : Writer) : emit [] w = w.
Proof. destruct w as [cs [| |]]; unfold emit; simpl; now rewrite ?app_nil_r. Qed.

Lemma emit_app (a b : list string) (w : Writer) : emit b (emit a w) = emit (a ++ b) w.
Proof. destruct w as [cs [| |]]; unfold emit; simpl; now rewrite ?app_assoc. Qed.

Lemma emit_state (fs : list string) (w : Writer) : w_state (emit fs w) = w_state w.
Proof. now destruct w as [cs [| |]]. Qed.

Lemma cancel_state_open (w : Writer) : w_state (cancel w) <> WOpen.
Proof. now destruct w as [cs [| |]]. Qed.

#[local] Hint Rewrite emit_nil emit_app emit_state : relay_rw.

Lemma js_pop_snoc {A} (l : list A) (x : A) : js_pop (l ++ [x]) = (l, Some x).
Proof. unfold js_pop. rewrite rev_app_distr. simpl. now rewrite rev_involutive. Qed.

Lemma or_empty_some (s : string) : or_empty (Some s) = s.
Proof. simpl. now destruct (String.eqb_spec s "") as [->|]. Qed.

Lemma split_nl_pieces (s : string) : Forall (fun p => has_nl p = false) (split_nl s).
Proof.
  induction s as [|c s IH]; simpl; [now repeat constructor|].
  destruct (Ascii.eqb c nl_char) eqn:Ec; [now constructor|].
  destruct (split_nl s) as [|p ps]; [constructor; [simpl; now rewrite Ec | constructor]|].
  inversion IH; subst. constructor; [|assumption]. simpl. now rewrite Ec.
Qed.

Lemma split_nl_last_no_nl (s : string) lines rest :
  split_nl s = lines ++ [rest] -> has_nl rest = false.
Proof.
  intros E. pose proof (split_nl_pieces s) as P. rewrite E in P.
  apply Forall_app in P as [_ P]. now inversion P.
Qed.

Lemma complete_lines_snoc (text : string) lines rest :
  split_nl text = lines ++ [rest] -> complete_lines text = lines.
Proof. intros E. unfold complete_lines. now rewrite E, js_pop_snoc. Qed.

Lemma is_str_eq (v : option json) (a b : string) :
  is_str v a = true -> is_str v b = true -> a = b.
Proof.
  destruct v as [[| | | s | |]|]; simpl; try discriminate.
  intros Ha Hb. apply String.eqb_eq in Ha, Hb. congruence.
Qed.

Lemma write_emit (f : string) (w : Writer) :
  write f w = match w_state w with
              | WOpen => (Ok tt, emit [f] w)
              | WClosed => (Throw TypeError, w)
              | WErrored => (Throw (StreamError "stream errored"), w)
              end.
Proof. now destruct w as [cs [| |]]. Qed.

Lemma is_str_other (v : option json) (a b : string) :
  is_str v a = true -> a <> b -> is_str v b = false.
Proof.
  intros Ha Hne. destruct (is_str v b) eqn:Hb; [|reflexivity].
  exfalso. apply Hne. exact (is_str_eq v a b Ha Hb).
Qed.

(** Refinement of one line: [process_line] never throws, and it appends
    to an open writer exactly the frames of [line_frames]. *)
Lemma process_line_emit (line : string) (w : Writer) :
  process_line line w = (Ok tt, emit (line_frames line) w).
Proof.
  destruct w as [cs st].
  unfold process_line, line_frames, line_event.
  destruct (starts_with "data: " line); [|now rewrite emit_nil].
  destruct (String.eqb _ "[DONE]"); [now rewrite emit_nil|].
  destruct (json_parse _) as [[| | | | |kvs]|]; try (now rewrite emit_nil).
  unfold try_catch, bind; simpl.
  destruct (is_str (assoc "type" kvs) "content_block_delta") eqn:Ed.
  - rewrite (is_str_other _ _ "message_stop" Ed) by discriminate.
    destruct (assoc "delta" kvs) as [[| | | | |d]|]; simpl;
      try (rewrite ?emit_nil; reflexivity).
    destruct (assoc "text" d) as [t|]; simpl; [|now rewrite emit_nil].
    destruct (truthy (Some t)); simpl; [|now rewrite emit_nil].
    rewrite write_emit. destruct st; simpl; now rewrite ?emit_nil.
  - destruct (is_str (assoc "type" kvs) "message_stop"); simpl; [|now rewrite emit_nil].
    rewrite write_emit. destruct st; reflexivity.
Qed.

Lemma process_lines_emit (lines : list string) (w : Writer) :
  for_each process_line lines w = (Ok tt, emit (flat_map line_frames lines) w).
Proof.
  rewrite (for_each_total process_line (fun l w0 => emit (line_frames l) w0)
             (fun l w0 => process_line_emit l w0)).
  f_equal. revert w. induction lines as [|l ls IH]; intros w; simpl.
  - now rewrite emit_nil.
  - now rewrite IH, emit_app.
Qed.

(** One chunk: the complete lines of [buffer ++ value] are handled and
    the unfinished last piece becomes the new buffer. *)
Lemma on_chunk_emit (buffer value : string) lines rest (w : Writer) :
  split_nl (buffer ++ value)%string = lines ++ [rest] ->
  on_chunk buffer value w = (Ok rest, emit (flat_map line_frames lines) w).
Proof.
  intros E. unfold on_chunk. rewrite E, js_pop_snoc, or_empty_some.
  unfold bind. now rewrite process_lines_emit.
Qed.

(** The loop over a run of chunks, from a buffer without line feed. *)
Lemma pump_loop_chunks (chunks : list string) (trace : list env_event)
      (buffer : string) (w : Writer) lines rest :
  has_nl buffer = false ->
  split_nl (buffer ++ str_concat chunks)%string = lines ++ [rest] ->
  pump_loop (chunk_events chunks ++ trace) buffer w
  = pump_loop trace rest (emit (flat_map line_frames lines) w).
Proof.
  revert buffer w lines rest.
  induction chunks as [|c cs IH]; intros buffer w lines rest Hb E; simpl in *.
  - rewrite str_app_nil_r, split_nl_no_nl in E by exact Hb.
    destruct lines as [|l ls]; [injection E as <-|destruct ls; discriminate].
    now rewrite emit_nil.
  - destruct (split_nl_last (buffer ++ c)%string) as (l1 & r1 & E1).
    rewrite (on_chunk_emit _ _ _ _ _ E1).
    rewrite <- str_app_assoc, (split_nl_app _ _ _ _ E1) in E.
    destruct (split_nl_last (r1 ++ str_concat cs)%string) as (l2 & r2 & E2).
    rewrite E2, app_assoc in E. apply app_inj_tail in E as [<- <-].
    rewrite (IH r1 _ l2 r2 (split_nl_last_no_nl _ _ _ E1) E2).
    now rewrite emit_app, flat_map_app.
Qed.

Lemma finish_not_open (r : outcome unit) (w : Writer) :
  w_state (snd (finish r w)) <> WOpen /\ is_stopped (fst (finish r w)) = true.
Proof. destruct w as [cs [| |]]; split; simpl; easy. Qed.

Lemma on_chunk_state (buffer value : string) (w : Writer) :
  exists rest, on_chunk buffer value w = (Ok rest, emit (flat_map line_frames
    (fst (js_pop (split_nl (buffer ++ value)%string)))) w).
Proof.
  destruct (split_nl_last (buffer ++ value)%string) as (l & r & E).
  exists r. rewrite (on_chunk_emit _ _ _ _ _ E). now rewrite E, js_pop_snoc.
Qed.

Lemma finish_stops (r : outcome unit) (w : Writer) :
  exists r' w', finish r w = (Stopped r', w') /\ w_state w' <> WOpen.
Proof.
  destruct (finish_not_open r w) as [Hw Hs].
  destruct (finish r w) as [[b|r'] w']; simpl in *; [discriminate|eauto].
Qed.

(** Reading a run of chunks to the end of the stream. *)
Lemma pump_text (chunks : list string) :
  pump (Some (chunk_events chunks ++ [Upstream REnd])) fresh_writer
  = (Stopped (Ok tt), mkWriter (relay_spec (str_concat chunks)) WClosed).
Proof.
  destruct (split_nl_last (str_concat chunks)) as (lines & rest & E).
  simpl. rewrite (pump_loop_chunks chunks _ "" fresh_writer lines rest eq_refl E).
  unfold relay_spec. now rewrite (complete_lines_snoc _ _ _ E).
Qed.

Lemma flat_map_flat_map {A B C} (f : B -> list C) (g : A -> list B) (l : list A) :
  flat_map f (flat_map g l) = flat_map (fun x => flat_map f (g x)) l.
Proof. induction l as [|x l IH]; simpl; [reflexivity|]. now rewrite flat_map_app, IH. Qed.

(** The upstream text as lines. *)
Lemma upstream_concat (evs : list upstream_event) :
  str_concat (map upstream_text evs)
  = str_concat (map (fun l => l ++ NL)%string (flat_map event_lines evs)).
Proof.
  induction evs as [|ev evs IH]; [reflexivity|].
  cbn [map flat_map str_concat]. now rewrite map_app, str_concat_app, IH.
Qed.

Lemma event_payload_wf (ev : upstream_event) : json_wf (event_payload ev).
Proof.
  destruct ev; simpl; repeat split; repeat constructor; simpl; intuition congruence.
Qed.

Lemma data_line_event (kvs : list (string * json)) r :
  json_stringify (JObj kvs) = ("{" ++ r ++ "}")%string ->
  line_event ("data: " ++ json_stringify (JObj kvs))%string
  = parsed_event (json_parse (json_stringify (JObj kvs))).
Proof.
  intros Hr. unfold line_event. rewrite starts_with_app.
  change 6 with (String.length "data: "). rewrite slice_from_app, Hr.
  change ("{" ++ r ++ "}")%string with (String "{"%char (r ++ String "}"%char "")).
  rewrite trim_enclosed by reflexivity. reflexivity.
Qed.

Section WithLaws.
Context {L : JsonLaws}.

Lemma event_lines_no_nl (ev : upstream_event) :
  Forall (fun l => has_nl l = false) (event_lines ev).
Proof.
  unfold event_lines. constructor; [destruct ev; reflexivity|].
  constructor; [apply stringify_no_nl|]. repeat constructor.
Qed.

Lemma complete_lines_upstream (evs : list upstream_event) :
  complete_lines (str_concat (map upstream_text evs)) = flat_map event_lines evs.
Proof.
  rewrite upstream_concat. apply (complete_lines_snoc _ _ "").
  apply split_nl_lines. induction evs as [|ev evs IH]; [constructor|].
  cbn [flat_map]. apply Forall_app. split; [apply event_lines_no_nl | exact IH].
Qed.

Lemma stringify_obj_payload (ev : upstream_event) :
  exists kvs r, event_payload ev = JObj kvs /\
                json_stringify (JObj kvs) = ("{" ++ r ++ "}")%string.
Proof.
  assert (exists kvs, event_payload ev = JObj kvs) as [kvs Ek]
    by (destruct ev; eexists; reflexivity).
  destruct (stringify_obj kvs) as [r Hr]. eauto.
Qed.

(** Each upstream event is forwarded as its expected frames. *)
Lemma event_frames (ev : upstream_event) :
  flat_map line_frames (event_lines ev) = expected_frames ev.
Proof.
  destruct (stringify_obj_payload ev) as (kvs & r & Ek & Hr).
  assert (Hp := parse_stringify _ (event_payload_wf ev)). rewrite Ek in Hp.
  unfold event_lines. cbn [flat_map]. unfold line_frames at 2.
  rewrite Ek, (data_line_event kvs r Hr), Hp, <- Ek.
  replace (line_frames ("event: " ++ event_name ev)%string) with (@nil string)
    by (destruct ev; reflexivity).
  destruct ev as [| | |t| | |]; try reflexivity. simpl.
  unfold truthy. destruct (String.eqb t ""); reflexivity.
Qed.

(** What the relay should forward for a whole upstream stream. *)
Lemma relay_spec_upstream (evs : list upstream_event) :
  relay_spec (str_concat (map upstream_text evs)) = flat_map expected_frames evs.
Proof.
  unfold relay_spec. rewrite complete_lines_upstream, flat_map_flat_map.
  apply flat_map_ext. apply event_frames.
Qed.

(** A content frame is never the [done] frame. *)
Lemma content_frame_not_done (t : string) :
  String.eqb (encode_event EvDone) (encode_event (EvContent (JStr t))) = false.
Proof.
  apply String.eqb_neq. unfold encode_event, sse_frame. intros E.
  apply str_app_inv_l, str_app_inv_r in E.
  apply (f_equal json_parse) in E.
  rewrite !parse_stringify in E by (repeat split; repeat constructor; simpl; intuition discriminate).
  discriminate E.
Qed.

Lemma done_count_expected (evs : list upstream_event) :
  done_count (flat_map expected_frames evs) = length (filter is_message_stop evs).
Proof.
  unfold done_count. induction evs as [|ev evs IH]; [reflexivity|].
  cbn [flat_map]. rewrite filter_app, length_app, IH.
  destruct ev as [| | |t| | |]; try reflexivity.
  - cbn [expected_frames]. destruct (String.eqb t ""); [reflexivity|].
    cbn [filter]. now rewrite content_frame_not_done.
  - cbn [expected_frames filter]. now rewrite String.eqb_refl.
Qed.

End WithLaws.

End StreamFacts.

(** ** Theorems *)

Section StreamTheorems.
Context `{JsonCodec}.

(** C1.  Chunk-boundary independence: whatever the chunking of the
    upstream text, reading it to its end writes exactly the frames of the
    complete lines of the concatenated text ([relay_spec]), in order, and
    closes the writer. *)
Theorem relay_stream_correct (chunks : list string) :
  pump (Some (chunk_events chunks ++ [Upstream REnd])) fresh_writer
  = (Stopped (Ok tt), mkWriter (relay_spec (str_concat chunks)) WClosed).
Proof. apply pump_text. Qed.

(** C2.  Content preservation: when the upstream sends a well-formed
    stream of events, in any chunking, the relay forwards one content
    frame per non-empty text delta and one [done] frame per
    [message_stop], in arrival order, and nothing else. *)
Theorem relay_preserves_content {L : JsonLaws} (evs : list upstream_event)
    (chunks : list string) :
  str_concat chunks = str_concat (map upstream_text evs) ->
  pump (Some (chunk_events chunks ++ [Upstream REnd])) fresh_writer
  = (Stopped (Ok tt), mkWriter (flat_map expected_frames evs) WClosed).
Proof.
  intros E. now rewrite pump_text, E, relay_spec_upstream.
Qed.

(** C3.  Terminal frames: on a well-formed upstream stream, in any
    chunking, the relay closes the response after writing as many
    [done] frames as the upstream sent [message_stop] events: none when
    the upstream ends without one, two when it sends two. *)
Theorem relay_done_per_message_stop {L : JsonLaws} (evs : list upstream_event)
    (chunks : list string) :
  str_concat chunks = str_concat (map upstream_text evs) ->
  exists frames,
    pump (Some (chunk_events chunks ++ [Upstream REnd])) fresh_writer
    = (Stopped (Ok tt), mkWriter frames WClosed)
    /\ done_count frames = length (filter is_message_stop evs).
Proof.
  intros E. exists (flat_map expected_frames evs). split.
  - now rewrite pump_text, E, relay_spec_upstream.
  - apply done_count_expected.
Qed.

(** C6.  Termination and closure: on a trace that ends (end of stream or
    read error), the loop stops and the writer is not left open; it is
    closed, or errored because the client cancelled. *)
Theorem pump_loop_closes (trace : list env_event) (buffer : string) (w : Writer) :
  trace_ends trace = true ->
  exists r w', pump_loop trace buffer w = (Stopped r, w') /\ w_state w' <> WOpen.
Proof.
  revert buffer w. induction trace as [|[[value| |msg]|] trace IH]; intros buffer w Hend;
    simpl in *; try discriminate.
  - destruct (on_chunk_state buffer value w) as [rest ->]. now apply IH.
  - apply finish_stops.
  - apply finish_stops.
  - now apply IH.
Qed.

(** C22.  No timeout: while the upstream neither ends nor fails, the loop
    stays suspended in [reader.read()] and the writer keeps its state, so
    an open response stays open. *)
Theorem pump_loop_waits (trace : list env_event) (buffer : string) (w : Writer) :
  trace_ends trace = false ->
  exists b', fst (pump_loop trace buffer w) = Reading b'
             /\ (w_state (snd (pump_loop trace buffer w)) = WOpen <->
                 w_state w = WOpen /\ ~ In ClientCancel trace).
Proof.
  revert buffer w. induction trace as [|[[value| |msg]|] trace IH]; intros buffer w Hend;
    simpl in *; try discriminate.
  - exists buffer. simpl. tauto.
  - destruct (on_chunk_state buffer value w) as [rest ->].
    destruct (IH rest (emit (flat_map line_frames
      (fst (js_pop (split_nl (buffer ++ value)%string)))) w) Hend) as (b' & Hr & Hs). exists b'. split; [exact Hr|].
    rewrite Hs, emit_state. split; intros [A B]; split; try exact A.
    + intros [C|C]; [discriminate C | exact (B C)].
    + intros C. apply B. now right.
  - destruct (IH buffer (cancel w) Hend) as (b' & Hr & Hs). exists b'. split; [exact Hr|].
    rewrite Hs. pose proof (cancel_state_open w). tauto.
Qed.

(** C21.  A cancelled client does not stop the loop: after the cancel,
    whatever the upstream sends, the relay is still suspended in
    [reader.read()] until the upstream ends; it then ends with the
    writer as the cancel left it (every write failed silently) and the
    final [close] rejects. *)
Theorem pump_drains_after_cancel (chunks : list string) (w : Writer) :
  w_state w = WOpen ->
  (exists b, fst (pump (Some (ClientCancel :: chunk_events chunks)) w) = Reading b) /\
  pump (Some (ClientCancel :: chunk_events chunks ++ [Upstream REnd])) w
  = (Stopped (Throw (StreamError "stream errored")), cancel w).
Proof.
  intros Hw. destruct (split_nl_last (str_concat chunks)) as (lines & rest & E). split.
  - exists rest. simpl. rewrite <- (app_nil_r (chunk_events chunks)).
    now rewrite (pump_loop_chunks chunks _ "" (cancel w) lines rest eq_refl E).
  - simpl. rewrite (pump_loop_chunks chunks _ "" (cancel w) lines rest eq_refl E).
    destruct w as [cs st]; simpl in Hw; subst st. reflexivity.
Qed.

End StreamTheorems.

(** ** Concrete runs, with the [JsonText] codec *)

(** A line split inside its [data:] prefix by a chunk boundary still
    gives exactly one frame (the spec's carry-over example). *)
Example relay_split_prefix :
  pump (Some [Upstream (RChunk "dat");
              Upstream (RChunk (slice_from 3 (delta_line "hi") ++ NL)%string);
              Upstream REnd]) fresh_writer
  = (Stopped (Ok tt), mkWriter [content_out "hi"] WClosed).
Proof. vm_compute. reflexivity. Qed.

(** The spec's end-to-end scenario, with event-type lines and blank
    separators as the upstream sends them. *)
Example relay_votepoll :
  pump (Some (chunk_events
      [("event: content_block_delta" ++ NL ++ delta_line "VotePoll" ++ NL)%string;
       ("event: content_block_delta" ++ NL ++ delta_line " and AgencyBooking." ++ NL)%string;
       ("event: message_stop" ++ NL ++ stop_line ++ NL)%string] ++ [Upstream REnd]))
    fresh_writer
  = (Stopped (Ok tt),
     mkWriter [content_out "VotePoll"; content_out " and AgencyBooking."; done_out] WClosed).
Proof. vm_compute. reflexivity. Qed.

(** A malformed data line between two valid ones is skipped, and an
    upstream [[DONE]] sentinel writes nothing. *)
Example relay_skips_noise :
  pump (Some (chunk_events
      [delta_line "a"; ("data: {not json" ++ NL)%string; delta_line "b";
       ("data: [DONE]" ++ NL)%string] ++ [Upstream REnd])) fresh_writer
  = (Stopped (Ok tt), mkWriter [content_out "a"; content_out "b"] WClosed).
Proof. vm_compute. reflexivity. Qed.

(** The unterminated last line is never processed: a [message_stop]
    without its line feed produces no [done] frame. *)
Example relay_drops_last_line :
  pump (Some [Upstream (RChunk (delta_line "x" ++ "data: " ++ dq "{'type':'message_stop'}")%string);
              Upstream REnd]) fresh_writer
  = (Stopped (Ok tt), mkWriter [content_out "x"] WClosed).
Proof. vm_compute. reflexivity. Qed.

(** The relay cuts lines at line feeds only (line 171).  An event
    stream may end its lines with CR LF, LF or a bare CR.  With CR LF
    the carriage return stays at the end of the JSON text, and
    [JSON.parse] skips it as whitespace.  With a bare CR no line ever
    ends, so nothing is relayed. *)
Example relay_needs_line_feeds :
  pump (Some [Upstream (RChunk (cr_line "a" ++ cr_line "b")); Upstream REnd]) fresh_writer
    = (Stopped (Ok tt), mkWriter [] WClosed)
  /\ pump (Some [Upstream (RChunk (cr_line "a" ++ NL ++ cr_line "b" ++ NL)); Upstream REnd]) fresh_writer
    = (Stopped (Ok tt), mkWriter [content_out "a"; content_out "b"] WClosed).
Proof. vm_compute. split; reflexivity. Qed.

(** A successful upstream response without a body: [getReader()] throws
    before the [try], so the [finally] never closes the writer and the
    client's stream never ends. *)
Example relay_no_body_left_open :
  pump None fresh_writer = (Stopped (Throw TypeError), mkWriter [] WOpen).
Proof. reflexivity. Qed.

Lemma pump_loop_closes_witness :
  trace_ends [Upstream (RChunk (delta_line "hi")); Upstream (RFail "reset")] = true /\
  exists r w', pump_loop [Upstream (RChunk (delta_line "hi")); Upstream (RFail "reset")] "" fresh_writer
               = (Stopped r, w') /\ w_state w' <> WOpen.
Proof.
  split; [reflexivity|].
  apply (pump_loop_closes [Upstream (RChunk (delta_line "hi")); Upstream (RFail "reset")]).
  reflexivity.
Defined.

Lemma pump_loop_waits_witness :
  trace_ends [Upstream (RChunk (delta_line "hi"))] = false /\
  exists b', fst (pump_loop [Upstream (RChunk (delta_line "hi"))] "" fresh_writer) = Reading b'
    /\ (w_state (snd (pump_loop [Upstream (RChunk (delta_line "hi"))] "" fresh_writer)) = WOpen <->
        w_state fresh_writer = WOpen /\ ~ In ClientCancel [Upstream (RChunk (delta_line "hi"))]).
Proof.
  split; [reflexivity|].
  apply (pump_loop_waits [Upstream (RChunk (delta_line "hi"))]). reflexivity.
Defined.

Lemma pump_drains_after_cancel_witness :
  w_state fresh_writer = WOpen /\
  ((exists b, fst (pump (Some (ClientCancel :: chunk_events [delta_line "hi"])) fresh_writer) = Reading b) /\
   pump (Some (ClientCancel :: chunk_events [delta_line "hi"] ++ [Upstream REnd])) fresh_writer
   = (Stopped (Throw (StreamError "stream errored")), cancel fresh_writer)).
Proof.
  split; [reflexivity|]. apply pump_drains_after_cancel. reflexivity.
Defined.

Lemma relay_preserves_content_witness :
  pump (Some (chunk_events votepoll_chunks ++ [Upstream REnd])) fresh_writer
  = (Stopped (Ok tt), mkWriter (flat_map expected_frames votepoll_events) WClosed).
Proof. apply relay_preserves_content. vm_compute. reflexivity. Defined.

(** An upstream that repeats [message_stop] and sends text after it. *)
Definition restart_events : list upstream_event :=
  [MessageStart; ContentBlockDelta "one"; MessageStop; ContentBlockDelta "two"; MessageStop].

Lemma relay_done_per_message_stop_witness :
  exists frames,
    pump (Some (chunk_events [str_concat (map upstream_text restart_events)] ++ [Upstream REnd]))
      fresh_writer = (Stopped (Ok tt), mkWriter frames WClosed)
    /\ done_count frames = 2.
Proof.
  apply (relay_done_per_message_stop restart_events). vm_compute. reflexivity.
Defined.

(** The response closes normally without any [done] frame when the
    upstream stream ends before [message_stop]. *)
Example relay_closes_without_done :
  pump (Some (chunk_events [str_concat (map upstream_text
          [MessageStart; ContentBlockDelta "cut"])] ++ [Upstream REnd])) fresh_writer
  = (Stopped (Ok tt), mkWriter [content_out "cut"] WClosed).
Proof. vm_compute. reflexivity. Qed.

Example votepoll_expected :
  flat_map expected_frames votepoll_events
  = [content_out "VotePoll"; content_out " and AgencyBooking."; done_out].
Proof. vm_compute. reflexivity. Qed.
