(* ===== verification/ChatHandler.v ===== *)
(** * The request handler of the chat relay, [src/api/chat.js] lines 94-210

    [handler] follows the code statement by statement: the method check
    (405), the credential check (500), [await req.json()] and the
    destructuring of [messages] (both outside any [try]: a body that is not
    JSON, or is [null], makes the handler's promise reject, modelled as
    [Crash]), the array check (400), the [messages.map] that copies [role]
    and [content], then inside the [try] the [fetch] of the upstream API,
    the error path (502 with the upstream's [error.message] or a fallback)
    and the streaming response whose body is fed by the pump of
    [SseRelay].  A rejected [fetch], or a failure while reading the error
    body, lands in the [catch] (502).

    The environment is the credential ([option string]: [undefined] or a
    string) and the upstream's reply to the request it is sent.  The
    handler also returns the list of upstream requests it made, so the
    theorems can say when none is made.  An [await] that never settles
    (an error body that never ends) is [Hang]. *)

From Stdlib Require Import String Ascii List Bool ZArith Lia.
From S2P Require Import Prelude JsString Json JsonText SystemPrompt SseRelay.
Import ListNotations.
Open Scope string_scope.
Open Scope list_scope.

(** ** Requests, responses, the upstream *)

Record request : Type := mkRequest {
  req_method : string;
  req_body : string            (** the body text [req.json()] parses *)
}.

Inductive resp_body : Type :=
| BodyText (text : string)
(** The readable side of the [TransformStream]: what the pump has written
    to it and whether it ended. *)
| BodyStream (st : pump_status) (w : Writer).

Record response : Type := mkResponse {
  res_status : Z;
  res_headers : list (string * string);
  res_body : resp_body
}.

(** The request the handler sends upstream: URL, headers and the payload
    before [JSON.stringify]. *)
Record upstream_request : Type := mkUpstream {
  up_url : string;
  up_headers : list (string * string);
  up_payload : json
}.

(** How the upstream answers: [fetch] rejects (DNS, connection), or it
    resolves with a status and a body ([None]: a response without body). *)
Inductive upstream_reply : Type :=
| FetchRejects (msg : string)
| FetchResponds (status : Z) (body : option (list env_event)).

Inductive handler_result : Type :=
| Respond (r : response)
| Crash (e : exn)
| Hang.

Record handler_run : Type := mkRun {
  run_result : handler_result;
  run_calls : list upstream_request
}.

(** ** Helpers the handler's statements use *)

Definition json_headers : list (string * string) := [("Content-Type", "application/json")].

(** [new Response(JSON.stringify(body), { status, headers: JSON })] *)
Definition json_response `{JsonCodec} (status : Z) (body : json) : response :=
  mkResponse status json_headers (BodyText (json_stringify body)).

Definition sse_headers : list (string * string) :=
  [("Content-Type", "text/event-stream"); ("Cache-Control", "no-cache");
   ("Connection", "keep-alive")].

(** [response.ok] *)
Definition status_ok (status : Z) : bool := (200 <=? status)%Z && (status <=? 299)%Z.

(** [err.message] of what the [catch] receives. *)
Definition exn_message (e : exn) : string :=
  match e with
  | NetworkError m | StreamError m => m
  | TypeError => "TypeError"
  | SyntaxError => "SyntaxError"
  end.

(** [await response.text()]: the chunks up to the end of the body; a
    read error rejects; a body that never ends never settles ([None]). *)
Fixpoint read_text (trace : list env_event) : option (outcome string) :=
  match trace with
  | [] => None
  | Upstream (RChunk v) :: t =>
      match read_text t with
      | Some (Ok s) => Some (Ok (v ++ s)%string)
      | r => r
      end
  | Upstream REnd :: _ => Some (Ok "")
  | Upstream (RFail m) :: _ => Some (Throw (StreamError m))
  | ClientCancel :: t => read_text t
  end.

Definition response_text (body : option (list env_event)) : option (outcome string) :=
  match body with
  | None => Some (Ok "")
  | Some trace => read_text trace
  end.

(** [destructuring const { messages } = v]: a [null] value throws. *)
Definition destructure (v : json) (k : string) : outcome (option json) :=
  match v with
  | JNull => Throw TypeError
  | JObj kvs => Ok (assoc k kvs)
  | _ => Ok None
  end.

(** [messages.map(m => ({ role: m.role, content: m.content }))] *)
Fixpoint map_messages (ms : list json) : outcome (list json) :=
  match ms with
  | [] => Ok []
  | m :: ms' =>
      match get_prop (Some m) "role", get_prop (Some m) "content" with
      | Ok role, Ok content =>
          match map_messages ms' with
          | Ok rest => Ok (obj_lit [("role", role); ("content", content)] :: rest)
          | Throw e => Throw e
          end
      | Throw e, _ | _, Throw e => Throw e
      end
  end.

Definition ANTHROPIC_URL : string := "https://api.anthropic.com/v1/messages".

(** Lines 124-138: the request sent upstream. *)
Definition upstream_call (key : string) (anthropicMessages : list json) : upstream_request :=
  mkUpstream ANTHROPIC_URL
    [("Content-Type", "application/json"); ("x-api-key", key);
     ("anthropic-version", "2023-06-01")]
    (obj_lit [("model", Some (JStr "claude-haiku-4-5-20251001"));
              ("max_tokens", Some (JNum 1024 0));
              ("system", Some (JStr SYSTEM_PROMPT));
              ("messages", Some (JArr anthropicMessages));
              ("stream", Some (JBool true))]).

(** Lines 141-148: the message of an upstream error body. *)
Definition error_message `{JsonCodec} (errText : string) : json :=
  let fallback := JStr "Anthropic API request failed" in
  match json_parse errText with
  | None => fallback
  | Some errData =>
      match get_prop (Some errData) "error" with
      | Throw _ => fallback
      | Ok e =>
          match get_opt e "message" with
          | Ok m => if truthy m then match m with Some v => v | None => fallback end
                    else fallback
          | Throw _ => fallback
          end
      end
  end.

(** A message as the handler copies it: only [role] and [content] (an
    element that is not an object has neither). *)
Definition prop_of (m : json) (k : string) : option json :=
  match m with JObj kvs => assoc k kvs | _ => None end.

Definition copy_msg (m : json) : json :=
  obj_lit [("role", prop_of m "role"); ("content", prop_of m "content")].

Definition ERROR_FALLBACK : json := JStr "Anthropic API request failed".

(** ** The handler *)

Section Handler.
Context `{JsonCodec}.

(** Lines 123-209: the [try] around the upstream call. *)
Definition call_upstream (upstream : upstream_request -> upstream_reply)
    (req : upstream_request) : handler_result :=
  match upstream req with
  | FetchRejects msg =>
      Respond (json_response 502 (obj_lit [("error", Some (JStr "Cannot connect to Anthropic API"));
                                           ("detail", Some (JStr msg))]))
  | FetchResponds status body =>
      if negb (status_ok status) then
        match response_text body with
        | None => Hang
        | Some (Throw e) =>
            Respond (json_response 502 (obj_lit [("error", Some (JStr "Cannot connect to Anthropic API"));
                                                 ("detail", Some (JStr (exn_message e)))]))
        | Some (Ok errText) =>
            Respond (json_response 502 (obj_lit [("error", Some (error_message errText));
                                                 ("detail", Some (JStr errText))]))
        end
      else
        let (st, w) := pump body fresh_writer in
        Respond (mkResponse 200 sse_headers (BodyStream st w))
  end.

Definition handler (env_key : option string) (upstream : upstream_request -> upstream_reply)
    (req : request) : handler_run :=
  if negb (String.eqb (req_method req) "POST") then
    mkRun (Respond (json_response 405 (obj_lit [("error", Some (JStr "Method not allowed"))]))) []
  else
    match env_key with
    | None | Some "" =>
        mkRun (Respond (json_response 500
                 (obj_lit [("error", Some (JStr "ANTHROPIC_API_KEY is not configured"))]))) []
    | Some key =>
        match json_parse (req_body req) with
        | None => mkRun (Crash SyntaxError) []
        | Some v =>
            match destructure v "messages" with
            | Throw e => mkRun (Crash e) []
            | Ok messages =>
                if negb (truthy messages) || negb (is_array messages) then
                  mkRun (Respond (json_response 400
                           (obj_lit [("error", Some (JStr "messages array is required"))]))) []
                else
                  match messages with
                  | Some (JArr ms) =>
                      match map_messages ms with
                      | Throw e => mkRun (Crash e) []
                      | Ok anthropicMessages =>
                          let call := upstream_call key anthropicMessages in
                          mkRun (call_upstream upstream call) [call]
                      end
                  | _ => mkRun (Crash TypeError) []
                  end
            end
        end
    end.

End Handler.

(** ** A concrete request, used by the witnesses *)

Definition sample_message : json :=
  JObj [("role", JStr "user"); ("content", JStr "What projects has he built?")].

Definition sample_request : request :=
  mkRequest "POST" (dq "{'messages':[{'role':'user','content':'What projects has he built?'}]}").

Definition sample_fields : list (string * json) := [("messages", JArr [sample_message])].

(** An upstream that answers every request the same way. *)
Definition replying (reply : upstream_reply) : upstream_request -> upstream_reply := fun _ => reply.

(** ** Facts *)

Section HandlerFacts.
Context `{JsonCodec}.

Lemma map_messages_copy (ms : list json) :
  ~ In JNull ms -> map_messages ms = Ok (map copy_msg ms).
Proof.
  induction ms as [|m ms IH]; intros Hn; [reflexivity|]. simpl.
  assert (Hm : m <> JNull) by (intros ->; apply Hn; now left).
  rewrite IH by (intros Hi; apply Hn; now right).
  destruct m; try congruence; reflexivity.
Qed.

Lemma map_messages_null (ms : list json) :
  In JNull ms -> map_messages ms = Throw TypeError.
Proof.
  induction ms as [|m ms IH]; intros Hi; [destruct Hi|]. simpl.
  destruct Hi as [->|Hi]; [reflexivity|].
  rewrite (IH Hi). destruct m; reflexivity.
Qed.

Lemma read_text_chunks (chunks : list string) (rest : list env_event) :
  read_text (chunk_events chunks ++ Upstream REnd :: rest) = Some (Ok (str_concat chunks)).
Proof.
  induction chunks as [|c cs IH]; [reflexivity|]. simpl. now rewrite IH.
Qed.

Lemma read_text_pending (chunks : list string) : read_text (chunk_events chunks) = None.
Proof. induction chunks as [|c cs IH]; [reflexivity|]. simpl. now rewrite IH. Qed.

Section ValidRequest.
Variables (key : string) (req : request) (kvs : list (string * json)) (ms : list json).
Hypothesis Hpost : req_method req = "POST".
Hypothesis Hkey : key <> "".
Hypothesis Hbody : json_parse (req_body req) = Some (JObj kvs).
Hypothesis Hmsgs : assoc "messages" kvs = Some (JArr ms).
Hypothesis Hnonull : ~ In JNull ms.

(** A well-formed request reaches the [try]: exactly one upstream call. *)
Lemma handler_valid (upstream : upstream_request -> upstream_reply) :
  handler (Some key) upstream req
  = mkRun (call_upstream upstream (upstream_call key (map copy_msg ms)))
          [upstream_call key (map copy_msg ms)].
Proof.
  unfold handler. rewrite Hpost. simpl.
  destruct key as [|c k]; [contradiction|]. rewrite Hbody. simpl.
  rewrite Hmsgs. simpl. now rewrite map_messages_copy.
Qed.

End ValidRequest.

Section ErrorMessage.
Context {L : JsonLaws}.

(** What the handler reports of an upstream error body is a well-formed
    value and is truthy: the fallback, or a truthy [error.message]. *)
Lemma error_message_wf (errText : string) : json_wf (error_message errText).
Proof.
  unfold error_message. destruct (json_parse errText) as [v|] eqn:P; [|exact I].
  pose proof (parse_wf _ _ P) as Hv.
  destruct v as [| | | | |kvs]; try exact I. cbn [get_prop].
  destruct (assoc "error" kvs) as [[| | | | |e]|] eqn:He; try exact I. cbn [get_opt get_prop].
  pose proof (assoc_wf _ _ _ Hv He) as We.
  destruct (assoc "message" e) as [m|] eqn:Hm; [|exact I].
  destruct (truthy (Some m)); [exact (assoc_wf _ _ _ We Hm) | exact I].
Qed.

Lemma error_message_truthy (errText : string) : truthy (Some (error_message errText)) = true.
Proof.
  unfold error_message. destruct (json_parse errText) as [v|]; [|reflexivity].
  destruct v as [| | | | |kvs]; try reflexivity. cbn [get_prop].
  destruct (assoc "error" kvs) as [[| | | | |e]|]; try reflexivity. cbn [get_opt get_prop].
  destruct (assoc "message" e) as [m|] eqn:Hm; [|reflexivity].
  destruct (truthy (Some m)) eqn:T; [exact T | reflexivity].
Qed.

End ErrorMessage.
End HandlerFacts.

(** ** Theorems *)

Section HandlerTheorems.
Context `{JsonCodec}.

(** C11.  A method other than POST gets a 405 without the body being read
    and without an upstream call. *)
Theorem handler_rejects_method (env_key : option string)
    (upstream : upstream_request -> upstream_reply) (req : request) :
  req_method req <> "POST" ->
  handler env_key upstream req
  = mkRun (Respond (json_response 405 (JObj [("error", JStr "Method not allowed")]))) [].
Proof.
  intros Hm. unfold handler.
  destruct (String.eqb_spec (req_method req) "POST"); [contradiction|reflexivity].
Qed.

(** C12.  A missing or empty credential gets a 500 and no upstream call,
    whatever the body. *)
Theorem handler_missing_key (env_key : option string)
    (upstream : upstream_request -> upstream_reply) (req : request) :
  req_method req = "POST" -> env_key = None \/ env_key = Some "" ->
  handler env_key upstream req
  = mkRun (Respond (json_response 500
            (JObj [("error", JStr "ANTHROPIC_API_KEY is not configured")]))) [].
Proof.
  intros Hm Hk. unfold handler. rewrite Hm. simpl.
  destruct Hk as [-> | ->]; reflexivity.
Qed.

(** C13.  A JSON body whose [messages] is absent or not an array gets a
    400 and no upstream call. *)
Theorem handler_rejects_bad_messages (key : string)
    (upstream : upstream_request -> upstream_reply) (req : request) (v : json) :
  req_method req = "POST" -> key <> "" ->
  json_parse (req_body req) = Some v -> v <> JNull ->
  is_array (prop_of v "messages") = false ->
  handler (Some key) upstream req
  = mkRun (Respond (json_response 400 (JObj [("error", JStr "messages array is required")]))) [].
Proof.
  intros Hm Hk Hb Hv Ha. unfold handler. rewrite Hm. simpl.
  destruct key as [|c k]; [contradiction|]. rewrite Hb.
  destruct v; try congruence; simpl in *; try reflexivity.
  rewrite Ha, orb_true_r. reflexivity.
Qed.

(** C20.  A body that is not JSON is not answered with a 400: [req.json()]
    rejects outside any [try] and the handler's promise rejects. *)
Theorem handler_crashes_on_bad_json (key : string)
    (upstream : upstream_request -> upstream_reply) (req : request) :
  req_method req = "POST" -> key <> "" -> json_parse (req_body req) = None ->
  handler (Some key) upstream req = mkRun (Crash SyntaxError) [].
Proof.
  intros Hm Hk Hb. unfold handler. rewrite Hm. simpl.
  destruct key as [|c k]; [contradiction|]. now rewrite Hb.
Qed.

(** C7.  A well-formed request makes exactly one upstream call: to the
    messages endpoint, with the credential in [x-api-key], and a payload
    with the fixed model, [max_tokens] 1024, the system prompt, the
    conversation with only [role] and [content] kept (no role is checked),
    and [stream: true]. *)
Theorem handler_forwards_conversation (key : string) (req : request)
    (kvs : list (string * json)) (ms : list json)
    (upstream : upstream_request -> upstream_reply) :
  req_method req = "POST" -> key <> "" ->
  json_parse (req_body req) = Some (JObj kvs) ->
  assoc "messages" kvs = Some (JArr ms) -> ~ In JNull ms ->
  run_calls (handler (Some key) upstream req)
  = [mkUpstream "https://api.anthropic.com/v1/messages"
       [("Content-Type", "application/json"); ("x-api-key", key);
        ("anthropic-version", "2023-06-01")]
       (JObj [("model", JStr "claude-haiku-4-5-20251001"); ("max_tokens", JNum 1024 0);
              ("system", JStr SYSTEM_PROMPT); ("messages", JArr (map copy_msg ms));
              ("stream", JBool true)])].
Proof.
  intros Hm Hk Hb Hmsg Hn. now rewrite (handler_valid key req kvs ms Hm Hk Hb Hmsg Hn).
Qed.

(** C14.  An upstream error status: the error body is read to its end and
    the answer is a 502 whose [error] is [error_message] of that body and
    whose [detail] is the body itself. *)
Theorem handler_upstream_error (key : string) (req : request)
    (kvs : list (string * json)) (ms : list json)
    (upstream : upstream_request -> upstream_reply) (status : Z) (chunks : list string) :
  req_method req = "POST" -> key <> "" ->
  json_parse (req_body req) = Some (JObj kvs) ->
  assoc "messages" kvs = Some (JArr ms) -> ~ In JNull ms ->
  upstream (upstream_call key (map copy_msg ms))
    = FetchResponds status (Some (chunk_events chunks ++ [Upstream REnd])) ->
  status_ok status = false ->
  run_result (handler (Some key) upstream req)
  = Respond (json_response 502 (JObj [("error", error_message (str_concat chunks));
                                      ("detail", JStr (str_concat chunks))])).
Proof.
  intros Hm Hk Hb Hmsg Hn Hup Hs.
  rewrite (handler_valid key req kvs ms Hm Hk Hb Hmsg Hn). simpl.
  unfold call_upstream. rewrite Hup, Hs. simpl. now rewrite read_text_chunks.
Qed.

(** The upstream's [error.message], when it is a non-empty string,
    is what the client is told. *)
Theorem error_message_extracts (errText m : string) (kvs e : list (string * json)) :
  json_parse errText = Some (JObj kvs) ->
  assoc "error" kvs = Some (JObj e) -> assoc "message" e = Some (JStr m) -> m <> "" ->
  error_message errText = JStr m.
Proof.
  intros Hp He Hm Hne. unfold error_message. rewrite Hp. simpl. rewrite He. simpl.
  rewrite Hm. simpl. destruct (String.eqb_spec m ""); [contradiction|reflexivity].
Qed.

(** Otherwise (not JSON, [null], no [error] object, or a falsy
    [message]) the fallback text is used. *)
Theorem error_message_fallback (errText : string) :
  (forall kvs e, json_parse errText = Some (JObj kvs) ->
                 assoc "error" kvs = Some (JObj e) -> truthy (assoc "message" e) = false) ->
  error_message errText = ERROR_FALLBACK.
Proof.
  intros Hno. unfold error_message.
  destruct (json_parse errText) as [v|] eqn:Hp; [|reflexivity].
  destruct v as [| | | | |kvs]; try reflexivity. simpl.
  destruct (assoc "error" kvs) as [[| | | | |e]|] eqn:He; try reflexivity.
  simpl. rewrite (Hno kvs e eq_refl He).
  destruct (assoc "message" e); reflexivity.
Qed.

(** C15.  A transport failure ([fetch] rejects) gets a 502 with the
    failure's message as [detail]. *)
Theorem handler_transport_error (key : string) (req : request)
    (kvs : list (string * json)) (ms : list json)
    (upstream : upstream_request -> upstream_reply) (msg : string) :
  req_method req = "POST" -> key <> "" ->
  json_parse (req_body req) = Some (JObj kvs) ->
  assoc "messages" kvs = Some (JArr ms) -> ~ In JNull ms ->
  upstream (upstream_call key (map copy_msg ms)) = FetchRejects msg ->
  run_result (handler (Some key) upstream req)
  = Respond (json_response 502 (JObj [("error", JStr "Cannot connect to Anthropic API");
                                      ("detail", JStr msg)])).
Proof.
  intros Hm Hk Hb Hmsg Hn Hup.
  rewrite (handler_valid key req kvs ms Hm Hk Hb Hmsg Hn). simpl.
  unfold call_upstream. now rewrite Hup.
Qed.

(** C10.  A successful upstream response is answered with status 200,
    the event-stream headers, and a stream that carries exactly the frames
    of the upstream's complete lines and then ends. *)
Theorem handler_streams (key : string) (req : request)
    (kvs : list (string * json)) (ms : list json)
    (upstream : upstream_request -> upstream_reply) (status : Z) (chunks : list string) :
  req_method req = "POST" -> key <> "" ->
  json_parse (req_body req) = Some (JObj kvs) ->
  assoc "messages" kvs = Some (JArr ms) -> ~ In JNull ms ->
  upstream (upstream_call key (map copy_msg ms))
    = FetchResponds status (Some (chunk_events chunks ++ [Upstream REnd])) ->
  status_ok status = true ->
  run_result (handler (Some key) upstream req)
  = Respond (mkResponse 200 sse_headers
       (BodyStream (Stopped (Ok tt)) (mkWriter (relay_spec (str_concat chunks)) WClosed))).
Proof.
  intros Hm Hk Hb Hmsg Hn Hup Hs.
  rewrite (handler_valid key req kvs ms Hm Hk Hb Hmsg Hn). simpl.
  unfold call_upstream. rewrite Hup, Hs. cbn [negb]. now rewrite pump_text.
Qed.

(** C18.  A successful upstream response without a body: the handler
    answers 200 but the stream it returns is never written and never
    closed ([getReader()] throws before the [try]/[finally]). *)
Theorem handler_no_body_never_closes (key : string) (req : request)
    (kvs : list (string * json)) (ms : list json)
    (upstream : upstream_request -> upstream_reply) (status : Z) :
  req_method req = "POST" -> key <> "" ->
  json_parse (req_body req) = Some (JObj kvs) ->
  assoc "messages" kvs = Some (JArr ms) -> ~ In JNull ms ->
  upstream (upstream_call key (map copy_msg ms)) = FetchResponds status None ->
  status_ok status = true ->
  run_result (handler (Some key) upstream req)
  = Respond (mkResponse 200 sse_headers (BodyStream (Stopped (Throw TypeError)) (mkWriter [] WOpen))).
Proof.
  intros Hm Hk Hb Hmsg Hn Hup Hs.
  rewrite (handler_valid key req kvs ms Hm Hk Hb Hmsg Hn). simpl.
  unfold call_upstream. now rewrite Hup, Hs.
Qed.

(** No timeout on the error path: an upstream error body that
    never ends leaves the handler waiting forever. *)
Theorem handler_hangs_on_endless_error (key : string) (req : request)
    (kvs : list (string * json)) (ms : list json)
    (upstream : upstream_request -> upstream_reply) (status : Z) (chunks : list string) :
  req_method req = "POST" -> key <> "" ->
  json_parse (req_body req) = Some (JObj kvs) ->
  assoc "messages" kvs = Some (JArr ms) -> ~ In JNull ms ->
  upstream (upstream_call key (map copy_msg ms))
    = FetchResponds status (Some (chunk_events chunks)) ->
  status_ok status = false ->
  run_result (handler (Some key) upstream req) = Hang.
Proof.
  intros Hm Hk Hb Hmsg Hn Hup Hs.
  rewrite (handler_valid key req kvs ms Hm Hk Hb Hmsg Hn). simpl.
  unfold call_upstream. rewrite Hup, Hs. simpl. now rewrite read_text_pending.
Qed.

End HandlerTheorems.

(** ** Witnesses, with the [JsonText] codec *)

Lemma handler_rejects_method_witness :
  handler None (replying (FetchRejects "")) (mkRequest "GET" "not json")
  = mkRun (Respond (json_response 405 (JObj [("error", JStr "Method not allowed")]))) [].
Proof. apply handler_rejects_method. discriminate. Defined.

Lemma handler_missing_key_witness :
  handler (Some "") (replying (FetchRejects "")) sample_request
  = mkRun (Respond (json_response 500
            (JObj [("error", JStr "ANTHROPIC_API_KEY is not configured")]))) [].
Proof. apply handler_missing_key; [reflexivity | right; reflexivity]. Defined.

Lemma handler_rejects_bad_messages_witness :
  handler (Some "k") (replying (FetchRejects "")) (mkRequest "POST" (dq "{'messages':'hi'}"))
  = mkRun (Respond (json_response 400 (JObj [("error", JStr "messages array is required")]))) [].
Proof.
  apply (handler_rejects_bad_messages _ _ _ (JObj [("messages", JStr "hi")]));
    [reflexivity | discriminate | vm_compute; reflexivity | discriminate | reflexivity].
Defined.

Lemma handler_crashes_on_bad_json_witness :
  handler (Some "k") (replying (FetchRejects "")) (mkRequest "POST" "{messages:")
  = mkRun (Crash SyntaxError) [].
Proof.
  apply handler_crashes_on_bad_json; [reflexivity | discriminate | vm_compute; reflexivity].
Defined.

Lemma handler_forwards_conversation_witness :
  run_calls (handler (Some "k") (replying (FetchRejects "")) sample_request)
  = [mkUpstream "https://api.anthropic.com/v1/messages"
       [("Content-Type", "application/json"); ("x-api-key", "k");
        ("anthropic-version", "2023-06-01")]
       (JObj [("model", JStr "claude-haiku-4-5-20251001"); ("max_tokens", JNum 1024 0);
              ("system", JStr SYSTEM_PROMPT); ("messages", JArr (map copy_msg [sample_message]));
              ("stream", JBool true)])].
Proof.
  apply (handler_forwards_conversation _ _ sample_fields);
    [reflexivity | discriminate | vm_compute; reflexivity | reflexivity | simpl; intuition discriminate].
Defined.

Lemma handler_upstream_error_witness :
  run_result (handler (Some "k")
    (replying (FetchResponds 429 (Some (chunk_events [dq "{'error':{'message':'rate"; dq " limited'}}"]
                                        ++ [Upstream REnd])))) sample_request)
  = Respond (json_response 502
      (JObj [("error", error_message (str_concat [dq "{'error':{'message':'rate"; dq " limited'}}"]));
             ("detail", JStr (str_concat [dq "{'error':{'message':'rate"; dq " limited'}}"]))])).
Proof.
  apply (handler_upstream_error _ _ sample_fields [sample_message] _ 429
           [dq "{'error':{'message':'rate"; dq " limited'}}"]);
    [reflexivity | discriminate | vm_compute; reflexivity | reflexivity
    | simpl; intuition discriminate | reflexivity | reflexivity].
Defined.

Lemma error_message_extracts_witness :
  error_message (dq "{'type':'error','error':{'type':'rate_limit_error','message':'Too many requests'}}")
  = JStr "Too many requests".
Proof.
  apply (error_message_extracts _ _
           [("type", JStr "error");
            ("error", JObj [("type", JStr "rate_limit_error"); ("message", JStr "Too many requests")])]
           [("type", JStr "rate_limit_error"); ("message", JStr "Too many requests")]);
    [vm_compute; reflexivity | reflexivity | reflexivity | discriminate].
Defined.

Lemma error_message_fallback_witness :
  error_message "Bad Gateway" = ERROR_FALLBACK.
Proof.
  apply error_message_fallback. intros kvs e Hp. vm_compute in Hp. discriminate.
Defined.

Lemma handler_transport_error_witness :
  run_result (handler (Some "k") (replying (FetchRejects "getaddrinfo ENOTFOUND")) sample_request)
  = Respond (json_response 502 (JObj [("error", JStr "Cannot connect to Anthropic API");
                                      ("detail", JStr "getaddrinfo ENOTFOUND")])).
Proof.
  apply (handler_transport_error _ _ sample_fields [sample_message]);
    [reflexivity | discriminate | vm_compute; reflexivity | reflexivity
    | simpl; intuition discriminate | reflexivity].
Defined.

Lemma handler_streams_witness :
  run_result (handler (Some "k")
    (replying (FetchResponds 200 (Some (chunk_events [delta_line "Hi"; stop_line] ++ [Upstream REnd]))))
    sample_request)
  = Respond (mkResponse 200 sse_headers
       (BodyStream (Stopped (Ok tt))
          (mkWriter (relay_spec (str_concat [delta_line "Hi"; stop_line])) WClosed))).
Proof.
  apply (handler_streams _ _ sample_fields [sample_message] _ 200 [delta_line "Hi"; stop_line]);
    [reflexivity | discriminate | vm_compute; reflexivity | reflexivity
    | simpl; intuition discriminate | reflexivity | reflexivity].
Defined.

Lemma handler_no_body_never_closes_witness :
  run_result (handler (Some "k") (replying (FetchResponds 204 None)) sample_request)
  = Respond (mkResponse 200 sse_headers (BodyStream (Stopped (Throw TypeError)) (mkWriter [] WOpen))).
Proof.
  apply (handler_no_body_never_closes _ _ sample_fields [sample_message] _ 204);
    [reflexivity | discriminate | vm_compute; reflexivity | reflexivity
    | simpl; intuition discriminate | reflexivity | reflexivity].
Defined.

Lemma handler_hangs_on_endless_error_witness :
  run_result (handler (Some "k")
    (replying (FetchResponds 500 (Some (chunk_events [dq "{'error':"])))) sample_request) = Hang.
Proof.
  apply (handler_hangs_on_endless_error _ _ sample_fields [sample_message] _ 500 [dq "{'error':"]);
    [reflexivity | discriminate | vm_compute; reflexivity | reflexivity
    | simpl; intuition discriminate | reflexivity | reflexivity].
Defined.
