(* ===== verification/Client.v ===== *)
(** * The chat widget: [src/app/src/components/ChatWindow.tsx]

    The React state of [ChatWindow] ([messages], [input], [isLoading]) is
    the record [chat_state]; [sendMessage] (lines 36-130) is
    [send_message], a function of the state, the two clock readings
    [Date.now()] takes (lines 41 and 52) and the server as the client
    sees it ([api]: what [fetch('/api/chat')] yields for a request body).
    The [setMessages] updates are applied in the order the code issues
    them; nothing interleaves with an answer that is loading because the
    view disables the input and the send button and hides the
    suggestions then ([ui_step], lines 132-137 and 229-263).

    The read loop (lines 81-103) splits each chunk on line feeds by
    itself, without carrying an unterminated line over to the next read:
    [client_read_loop].  [TextDecoder] is not modelled: chunks are text.

    The file ends with the composition of the widget with the handler of
    [ChatHandler.v]: what the visitor types is what reaches the upstream
    API, and what the upstream streams is what the assistant bubble
    shows, when every read of the browser holds whole frames. *)

From Stdlib Require Import String Ascii List Bool ZArith Lia.
From S2P Require Import Prelude JsString Json JsonText JsonRoundtrip SseRelay ChatHandler.
Import ListNotations.
Open Scope string_scope.
Open Scope list_scope.

(** ** [String(v)] on the values the widget converts *)

Fixpoint zeros (n : nat) : string :=
  match n with O => "" | S n' => String "0"%char (zeros n') end.

(** Trailing zeros of the mantissa moved into the exponent. *)
Fixpoint strip_zeros (fuel : nat) (m : positive) (e : Z) : positive * Z :=
  match fuel with
  | O => (m, e)
  | S f =>
      match m with
      | xO _ => if (Z.pos m mod 10 =? 0)%Z
                then match Z.div (Z.pos m) 10 with
                     | Z.pos m' => strip_zeros f m' (e + 1)%Z
                     | _ => (m, e)
                     end
                else (m, e)
      | _ => (m, e)
      end
  end.

(** Number::toString (ECMA-262 6.1.6.1.20) of the positive value
    [m * 10^e]: the digits [s] of the stripped mantissa, [k] of them, and
    the position [n] of the decimal point. *)
Definition positive_to_string (m : positive) (e : Z) : string :=
  let (m', e') := strip_zeros (Pos.size_nat m) m e in
  let s := print_N (Npos m') in
  let k := Z.of_nat (String.length s) in
  let n := (e' + k)%Z in
  if (k <=? n)%Z && (n <=? 21)%Z then (s ++ zeros (Z.to_nat (n - k)))%string
  else if (0 <? n)%Z && (n <=? 21)%Z then
    (substring 0 (Z.to_nat n) s ++ "." ++ substring (Z.to_nat n) (Z.to_nat (k - n)) s)%string
  else if (-6 <? n)%Z && (n <=? 0)%Z then ("0." ++ zeros (Z.to_nat (- n)) ++ s)%string
  else
    let e1 := (n - 1)%Z in
    let mant := if (k =? 1)%Z then s
                else (substring 0 1 s ++ "." ++ substring 1 (Z.to_nat (k - 1)) s)%string in
    (mant ++ "e" ++ (if (e1 <? 0)%Z then "-" else "+") ++ print_Z (Z.abs e1))%string.

Definition number_to_string (m e : Z) : string :=
  match m with
  | Z0 => "0"
  | Zpos p => positive_to_string p e
  | Zneg p => ("-" ++ positive_to_string p e)%string
  end.

(** [String(v)]: an array joins its elements with commas, [null] ones
    as the empty string. *)
Fixpoint js_to_string (v : json) : string :=
  match v with
  | JNull => "null"
  | JBool b => if b then "true" else "false"
  | JNum m e => number_to_string m e
  | JStr s => s
  | JArr xs => join "," (map (fun x => match x with JNull => "" | _ => js_to_string x end) xs)
  | JObj _ => "[object Object]"
  end.

(** [String(v)] of a value the code has tested truthy. *)
Definition js_string_of (v : option json) : string :=
  match v with Some x => js_to_string x | None => "undefined" end.

(** ** State (lines 5-26) *)

Inductive role : Type := User | Assistant.

Definition role_name (r : role) : string :=
  match r with User => "user" | Assistant => "assistant" end.

Record message : Type := mkMessage {
  msg_id : string;
  msg_role : role;
  msg_content : string
}.

Record chat_state : Type := mkChat {
  messages : list message;
  input : string;
  is_loading : bool
}.

Definition WELCOME : message :=
  mkMessage "0" Assistant
    "Hi! I'm Mouad's AI assistant. Ask me anything about his skills, projects, or experience!".

Definition initial_state : chat_state := mkChat [WELCOME] "" false.

(** ** The server as the widget sees it *)

Inductive fetch_reply : Type :=
| ClientRejects (msg : string)
| ClientResponds (status : Z) (body : option (list read_result)).

(** [setMessages(prev => prev.map(m => m.id === id ? {...m, content} : m))] *)
Definition set_content (id content : string) (ms : list message) : list message :=
  map (fun m => if String.eqb (msg_id m) id then mkMessage (msg_id m) (msg_role m) content else m) ms.

(** Lines 59-63: the body of the request, the conversation without the
    welcome message, each message with its role and content only. *)
Definition msg_json (m : message) : json :=
  JObj [("role", JStr (role_name (msg_role m))); ("content", JStr (msg_content m))].

Definition history (ms : list message) : list json :=
  map msg_json (filter (fun m => negb (String.eqb (msg_id m) "0")) ms).

Definition request_payload (ms : list message) : json := JObj [("messages", JArr (history ms))].

Definition sorry (msg : string) : string :=
  ("Sorry, something went wrong: " ++ msg ++ ". You can still explore the portfolio directly!")%string.

Definition NO_RESPONSE : string := "Sorry, I didn't get a response. Please try again!".

(** Lines 66-72: the message of a non-2xx answer, or [None] when reading
    its body never settles. *)
Definition server_error_message `{JsonCodec} (status : Z) (body : option (list read_result))
  : option string :=
  let default := ("Server responded with " ++ print_Z status)%string in
  let text := match body with
              | None => Some (Ok "")
              | Some reads => read_text (map Upstream reads)
              end in
  match text with
  | None => None
  | Some (Throw _) => Some default
  | Some (Ok t) =>
      match json_parse t with
      | None => Some default
      | Some errData =>
          match get_prop (Some errData) "error" with
          | Ok e => Some (if truthy e then js_string_of e else default)
          | Throw _ => Some default
          end
      end
  end.

(** ** [sendMessage] (lines 36-130) *)

Section Widget.
Context `{JsonCodec}.

(** Lines 89-101, one line of a chunk: [fullContent] and the messages
    after it.  A line that does not parse, or whose value is [null], is
    skipped by the [catch]. *)
Definition client_line (aid : string) (acc : string * list message) (line : string)
  : string * list message :=
  let (full, ms) := acc in
  match json_parse (slice_from 6 line) with
  | None => acc
  | Some data =>
      match get_prop (Some data) "content" with
      | Throw _ => acc
      | Ok c =>
          if truthy c then
            let full' := (full ++ js_string_of c)%string in (full', set_content aid full' ms)
          else acc
      end
  end.

(** Lines 85-102, one read: the chunk is split on its own. *)
Definition client_chunk (aid : string) (acc : string * list message) (chunk : string)
  : string * list message :=
  fold_left (client_line aid) (filter (starts_with "data: ") (split_nl chunk)) acc.

(** Lines 85-90 as a decoder: what [JSON.parse(line.slice(6))] returns
    for each [data: ] line of one read, [None] where it throws. *)
Definition parsed_frames (chunk : string) : list (option json) :=
  map (fun line => json_parse (slice_from 6 line)) (filter (starts_with "data: ") (split_nl chunk)).

(** Lines 81-103: [None] while a read is pending, the content at the end
    of the stream, or the rejection of a read. *)
Fixpoint client_read_loop (aid : string) (reads : list read_result) (acc : string * list message)
  : option (outcome string) * list message :=
  match reads with
  | [] => (None, snd acc)
  | RChunk v :: rest => client_read_loop aid rest (client_chunk aid acc v)
  | REnd :: _ => (Some (Ok (fst acc)), snd acc)
  | RFail m :: _ => (Some (Throw (StreamError m)), snd acc)
  end.

Inductive send_outcome : Type :=
| Ignored          (** the guard of line 38 returned *)
| Settled          (** the [finally] ran: [isLoading] is false again *)
| Pending.         (** an [await] never settles *)

Record send_run : Type := mkSendRun {
  sent : option string;       (** the body of the request, if one was sent *)
  after : chat_state;
  send_result : send_outcome
}.

(** [overrideText || input] *)
Definition override_or (o : option string) (input : string) : string :=
  match o with
  | Some s => if String.eqb s "" then input else s
  | None => input
  end.

Definition send_message (override : option string) (t_user t_asst : Z)
    (api : string -> fetch_reply) (st : chat_state) : send_run :=
  let trimmed := trim (override_or override (input st)) in
  if String.eqb trimmed "" || is_loading st then mkSendRun None st Ignored
  else
    let aid := print_Z (t_asst + 1) in
    let updated := messages st ++ [mkMessage (print_Z t_user) User trimmed] in
    let ms1 := updated ++ [mkMessage aid Assistant ""] in
    let body := json_stringify (request_payload updated) in
    let fail ms msg := mkSendRun (Some body) (mkChat (set_content aid (sorry msg) ms) "" false) Settled in
    match api body with
    | ClientRejects msg => fail ms1 msg
    | ClientResponds status b =>
        if negb (status_ok status) then
          match server_error_message status b with
          | None => mkSendRun (Some body) (mkChat ms1 "" true) Pending
          | Some msg => fail ms1 msg
          end
        else
          match b with
          | None => fail ms1 "No stream reader"
          | Some reads =>
              match client_read_loop aid reads ("", ms1) with
              | (None, ms) => mkSendRun (Some body) (mkChat ms "" true) Pending
              | (Some (Throw e), ms) => fail ms (exn_message e)
              | (Some (Ok full), ms) =>
                  mkSendRun (Some body)
                    (mkChat (if String.eqb full "" then set_content aid NO_RESPONSE ms else ms)
                            "" false) Settled
              end
          end
    end.

(** ** The view (lines 132-263) *)

Definition suggestions : list string :=
  ["What projects has Mouad built?"; "What technologies does he know?";
   "Tell me about his education"].

(** Line 230: the suggestions are shown with the welcome message alone. *)
Definition show_suggestions (st : chat_state) : bool := Nat.eqb (length (messages st)) 1.

(** Lines 254 and 259. *)
Definition input_disabled (st : chat_state) : bool := is_loading st.
Definition send_disabled (st : chat_state) : bool :=
  String.eqb (trim (input st)) "" || is_loading st.

(** Lines 132-137: [handleKeyDown] sends on Enter without Shift. *)
Definition is_send_key (key : string) (shift : bool) : bool := String.eqb key "Enter" && negb shift.

(** Lines 184-224: a message is drawn on the right with the user icon
    when it is the user's, and its bubble shows the typing dots while
    its content is empty. *)
Inductive bubble : Type := TypingDots | BubbleText (text : string).

Definition render_message (m : message) : bool * bubble :=
  (match msg_role m with User => true | Assistant => false end,
   if String.eqb (msg_content m) "" then TypingDots else BubbleText (msg_content m)).

Inductive ui_event : Type :=
| Typed (text : string)                  (** [onChange] of the input *)
| KeyDown (key : string) (shift : bool)  (** [handleKeyDown] *)
| ClickSend
| ClickSuggestion (s : string).

(** One event of the visitor, with the clock readings and the server the
    [sendMessage] it may start uses.  A disabled control and a button
    that is not rendered receive no event. *)
Definition ui_step (t_user t_asst : Z) (api : string -> fetch_reply) (ev : ui_event)
    (st : chat_state) : send_run :=
  match ev with
  | Typed text =>
      if input_disabled st then mkSendRun None st Ignored
      else mkSendRun None (mkChat (messages st) text (is_loading st)) Ignored
  | KeyDown key shift =>
      if input_disabled st then mkSendRun None st Ignored
      else if is_send_key key shift then send_message None t_user t_asst api st
      else mkSendRun None st Ignored
  | ClickSend =>
      if send_disabled st then mkSendRun None st Ignored
      else send_message None t_user t_asst api st
  | ClickSuggestion s =>
      if show_suggestions st && existsb (String.eqb s) suggestions
      then send_message (Some s) t_user t_asst api st
      else mkSendRun None st Ignored
  end.

End Widget.

(** ** What the widget should show

    The frames the relay writes ([SseRelay.encode_event]) as the widget
    reads them, and the text it should accumulate. *)

Definition ev_content (ev : relay_event) : option json :=
  match ev with EvContent t => Some t | EvDone => None end.

Definition ev_wf (ev : relay_event) : Prop :=
  match ev with EvContent t => json_wf t | EvDone => True end.

Definition frame_obj (ev : relay_event) : json :=
  match ev with
  | EvContent t => JObj [("content", t)]
  | EvDone => JObj [("done", JBool true)]
  end.

Definition frame_line `{JsonCodec} (ev : relay_event) : string :=
  ("data: " ++ json_stringify (frame_obj ev))%string.

(** The text a frame adds to [fullContent]. *)
Definition ev_text (ev : relay_event) : string :=
  if truthy (ev_content ev) then js_string_of (ev_content ev) else "".

(** [client_line] on the frame of [ev]. *)
Definition client_event (aid : string) (acc : string * list message) (ev : relay_event)
  : string * list message :=
  let (full, ms) := acc in
  if truthy (ev_content ev) then
    let full' := (full ++ js_string_of (ev_content ev))%string in (full', set_content aid full' ms)
  else acc.

(** What the assistant bubble shows when the stream ended with [text]. *)
Definition answer_of (text : string) : string :=
  if String.eqb text "" then NO_RESPONSE else text.

(** The relay events an upstream event gives ([expected_frames]
    encodes them). *)
Definition upstream_relay (ev : upstream_event) : list relay_event :=
  match ev with
  | ContentBlockDelta t => if String.eqb t "" then [] else [EvContent (JStr t)]
  | MessageStop => [EvDone]
  | _ => []
  end.

Definition delta_text (ev : upstream_event) : string :=
  match ev with ContentBlockDelta t => t | _ => "" end.

(** Every id is the decimal text of a clock reading at most [b] (the
    welcome message's ["0"] is that of [0]). *)
Definition ids_below (b : Z) (ms : list message) : Prop :=
  Forall (fun m => exists z, msg_id m = print_Z z /\ (z <= b)%Z) ms.

Definition user_message (t_user : Z) (text : string) : message :=
  mkMessage (print_Z t_user) User text.

(** ** The deployment: the handler behind [/api/chat]

    [deliver] is the network: the browser reads the server's writes
    whole, [n] of them in a read for each [n] of [sizes] and the rest in
    one last read, then the end of the stream if the server closed it.
    An unhandled rejection of the handler and a handler that never answers
    are turned by the hosting platform into a 500 and a 504 without body
    text the widget could parse. *)
Fixpoint regroup (sizes : list nat) (xs : list string) : list (list string) :=
  match sizes with
  | [] => match xs with [] => [] | _ => [xs] end
  | n :: sizes' => firstn n xs :: regroup sizes' (skipn n xs)
  end.

Definition deliver (r : response) (sizes : list nat) : fetch_reply :=
  ClientResponds (res_status r)
    (Some (match res_body r with
           | BodyText t => [RChunk t; REnd]
           | BodyStream _ w =>
               map (fun g => RChunk (str_concat g)) (regroup sizes (w_chunks w)) ++
               match w_state w with
               | WOpen => []
               | WClosed => [REnd]
               | WErrored => [RFail "network error"]
               end
           end)).

Definition serve `{JsonCodec} (key : option string) (up : upstream_request -> upstream_reply)
    (sizes : list nat) (body : string) : fetch_reply :=
  match run_result (handler key up (mkRequest "POST" body)) with
  | Respond r => deliver r sizes
  | Crash _ => ClientResponds 500 (Some [REnd])
  | Hang => ClientResponds 504 (Some [REnd])
  end.

(** ** Concrete runs, with the [JsonText] codec *)

Definition hi_state : chat_state := mkChat [WELCOME] "What projects has he built?" false.

(** The content of the last message of the conversation. *)
Definition last_content (r : send_run) : string := msg_content (last (messages (after r)) WELCOME).

Definition stream_events : list relay_event :=
  [EvContent (JStr "Vote"); EvContent (JStr "Poll"); EvDone].

Definition stream_groups : list (list string) :=
  [[encode_event (EvContent (JStr "Vote")); encode_event (EvContent (JStr "Poll"))];
   [encode_event EvDone]].

Definition stream_api : string -> fetch_reply :=
  fun _ => ClientResponds 200 (Some (map (fun g => RChunk (str_concat g)) stream_groups ++ [REnd])).

(** The same bytes, the first frame cut after twelve characters. *)
Definition split_reads : list read_result :=
  [RChunk (substring 0 12 (content_out "VotePoll"));
   RChunk (substring 12 100 (content_out "VotePoll") ++ done_out)%string; REnd].

Definition whole_reads : list read_result := [RChunk (content_out "VotePoll" ++ done_out)%string; REnd].

Definition rate_limited : list string :=
  [dq "{'type':'error','error':{'type':'rate_limit_error',"; dq "'message':'Rate limited'}}"].

Definition error_body : list (string * json) :=
  [("error", JStr "Cannot connect to Anthropic API"); ("detail", JStr "getaddrinfo ENOTFOUND")].

(** ** Lemmas *)

Section ClientFacts.

Lemma set_content_app (id c : string) (l1 l2 : list message) :
  set_content id c (l1 ++ l2) = set_content id c l1 ++ set_content id c l2.
Proof. apply map_app. Qed.

Lemma set_content_notin (id c : string) (ms : list message) :
  ~ In id (map msg_id ms) -> set_content id c ms = ms.
Proof.
  induction ms as [|m ms IH]; intros Hn; [reflexivity|]. simpl in *.
  destruct (String.eqb_spec (msg_id m) id); [tauto|]. f_equal. auto.
Qed.

Lemma set_content_twice (id a b : string) (ms : list message) :
  set_content id a (set_content id b ms) = set_content id a ms.
Proof.
  unfold set_content. rewrite map_map. apply map_ext. intros m.
  destruct (String.eqb (msg_id m) id) eqn:E; simpl; rewrite ?E; reflexivity.
Qed.

Lemma set_content_ids (id c : string) (ms : list message) :
  map msg_id (set_content id c ms) = map msg_id ms.
Proof.
  unfold set_content. rewrite map_map. apply map_ext. intros m.
  now destruct (String.eqb (msg_id m) id).
Qed.

(** The placeholder, last and with a fresh id, is the message updated. *)
Lemma set_content_last (id c c0 : string) (r : role) (pre : list message) :
  ~ In id (map msg_id pre) ->
  set_content id c (pre ++ [mkMessage id r c0]) = pre ++ [mkMessage id r c].
Proof.
  intros Hn. rewrite set_content_app, set_content_notin by exact Hn.
  simpl. now rewrite String.eqb_refl.
Qed.

Lemma ev_text_silent (evs : list relay_event) :
  existsb (fun ev => truthy (ev_content ev)) evs = false -> str_concat (map ev_text evs) = "".
Proof.
  induction evs as [|ev evs IH]; simpl; [reflexivity|].
  intros [E1 E2]%orb_false_iff. unfold ev_text at 1. now rewrite E1, IH.
Qed.

Lemma client_events_fold (aid full : string) (evs : list relay_event) (ms : list message) :
  fold_left (client_event aid) evs (full, ms)
  = ((full ++ str_concat (map ev_text evs))%string,
     if existsb (fun ev => truthy (ev_content ev)) evs
     then set_content aid (full ++ str_concat (map ev_text evs)) ms else ms).
Proof.
  revert full ms. induction evs as [|ev evs IH]; intros full ms;
    cbn [fold_left map str_concat existsb].
  - now rewrite str_app_nil_r.
  - cbn [client_event].
    change (ev_text ev) with (if truthy (ev_content ev) then js_string_of (ev_content ev) else "").
    destruct (truthy (ev_content ev)); simpl; rewrite IH; [|reflexivity].
    rewrite str_app_assoc. destruct existsb eqn:Ex; [now rewrite set_content_twice|].
    now rewrite (ev_text_silent evs Ex), str_app_nil_r.
Qed.

(** Lines 105-114 after the loop: the bubble holds the text, or the
    fallback when it is empty. *)
Lemma final_bubble (aid : string) (pre : list message) (evs : list relay_event) :
  ~ In aid (map msg_id pre) ->
  (if String.eqb (fst (fold_left (client_event aid) evs ("", pre ++ [mkMessage aid Assistant ""]))) ""
   then set_content aid NO_RESPONSE (snd (fold_left (client_event aid) evs ("", pre ++ [mkMessage aid Assistant ""])))
   else snd (fold_left (client_event aid) evs ("", pre ++ [mkMessage aid Assistant ""])))
  = pre ++ [mkMessage aid Assistant (answer_of (str_concat (map ev_text evs)))].
Proof.
  intros Hn. rewrite client_events_fold. cbn [fst snd String.append]. unfold answer_of.
  destruct (existsb _ evs) eqn:Ex.
  - rewrite set_content_last by exact Hn.
    destruct (String.eqb _ ""); [rewrite set_content_last|]; auto.
  - rewrite (ev_text_silent evs Ex). simpl. now rewrite set_content_last.
Qed.

(** [Date.now().toString()] tells clock readings apart. *)
Lemma print_Z_inj (z1 z2 : Z) : print_Z z1 = print_Z z2 -> z1 = z2.
Proof.
  intros E.
  assert (Hp : forall z, parse_json (print_Z z) = Some (JNum z 0)).
  { intros z. pose proof (@parse_stringify _ json_text_laws (JNum z 0) I) as P.
    cbn in P. unfold print_num in P. now rewrite str_app_nil_r in P. }
  pose proof (Hp z1) as P1. rewrite E, Hp in P1. congruence.
Qed.

Lemma ids_below_mono (b b' : Z) (ms : list message) :
  (b <= b')%Z -> ids_below b ms -> ids_below b' ms.
Proof.
  intros Hb. apply Forall_impl. intros m (z & Ez & Hz). exists z. split; [exact Ez | lia].
Qed.

(** An id made from a later reading is fresh. *)
Lemma ids_below_fresh (b t : Z) (ms : list message) :
  ids_below b ms -> (b < t)%Z -> ~ In (print_Z t) (map msg_id ms).
Proof.
  intros Hb Ht (m & Em & Hm)%in_map_iff.
  apply Forall_forall with (x := m) in Hb as (z & Ez & Hz); [|exact Hm].
  rewrite Ez in Em. apply print_Z_inj in Em. lia.
Qed.

Lemma regroup_concat (sizes : list nat) (xs : list string) : concat (regroup sizes xs) = xs.
Proof.
  revert xs. induction sizes as [|n sizes IH]; intros xs; simpl.
  - destruct xs; simpl; [reflexivity | now rewrite app_nil_r].
  - now rewrite IH, firstn_skipn.
Qed.

Lemma ids_below_map (b : Z) (ms : list message) :
  ids_below b ms <-> Forall (fun i => exists z, i = print_Z z /\ (z <= b)%Z) (map msg_id ms).
Proof. unfold ids_below. now rewrite Forall_map. Qed.

(** [ids_below] depends on the ids alone. *)
Lemma ids_below_ids (b : Z) (ms ms' : list message) :
  map msg_id ms' = map msg_id ms -> ids_below b ms' <-> ids_below b ms.
Proof. intros E. now rewrite !ids_below_map, E. Qed.

Section Ids.
Context `{JsonCodec}.

(** The messages after a line: untouched, or the placeholder updated. *)
Lemma client_line_shape (aid line : string) (full : string) (ms : list message) :
  snd (client_line aid (full, ms) line) = ms \/
  exists c, snd (client_line aid (full, ms) line) = set_content aid c ms.
Proof.
  unfold client_line. destruct (json_parse _); [|now left]. destruct (get_prop _ _); [|now left].
  destruct (truthy _); [right; eexists; reflexivity | now left].
Qed.

Lemma set_content_shape_step (aid : string) (ms ms' ms'' : list message) :
  (ms' = ms \/ exists c, ms' = set_content aid c ms) ->
  (ms'' = ms' \/ exists c, ms'' = set_content aid c ms') ->
  ms'' = ms \/ exists c, ms'' = set_content aid c ms.
Proof.
  intros [->|[c ->]] [->|[c' ->]]; auto; right; eauto.
  exists c'. apply set_content_twice.
Qed.

Lemma client_read_loop_shape (aid : string) (reads : list read_result) (full : string)
    (ms : list message) :
  snd (client_read_loop aid reads (full, ms)) = ms \/
  exists c, snd (client_read_loop aid reads (full, ms)) = set_content aid c ms.
Proof.
  revert full ms. induction reads as [|[v| |m] reads IH]; intros full ms; try (now left).
  cbn [client_read_loop]. unfold client_chunk.
  assert (Hc : forall ls full, snd (fold_left (client_line aid) ls (full, ms)) = ms \/
            exists c, snd (fold_left (client_line aid) ls (full, ms)) = set_content aid c ms).
  { intros ls. revert ms. induction ls as [|l ls IHl]; intros ms0 full0; [now left|].
    cbn [fold_left]. destruct (client_line aid (full0, ms0) l) as [f1 m1] eqn:E.
    eapply set_content_shape_step; [|apply IHl].
    pose proof (client_line_shape aid l full0 ms0) as S. now rewrite E in S. }
  destruct (fold_left _ _ _) as [f1 m1] eqn:E.
  eapply set_content_shape_step; [|apply IH].
  pose proof (Hc (filter (starts_with "data: ") (split_nl v)) full) as S. now rewrite E in S.
Qed.

(** [sendMessage] returns at its guard, or leaves the conversation with
    the user's message and the placeholder appended, the placeholder
    possibly updated. *)
Lemma send_message_shape (o : option string) (t_user t_asst : Z) (api : string -> fetch_reply)
    (st : chat_state) :
  let ms1 := messages st ++ [mkMessage (print_Z t_user) User (trim (override_or o (input st)));
                             mkMessage (print_Z (t_asst + 1)) Assistant ""] in
  send_message o t_user t_asst api st = mkSendRun None st Ignored \/
  messages (after (send_message o t_user t_asst api st)) = ms1 \/
  exists c, messages (after (send_message o t_user t_asst api st))
            = set_content (print_Z (t_asst + 1)) c ms1.
Proof.
  cbv zeta. unfold send_message. destruct (_ || _); [now left | right].
  rewrite <- app_assoc. cbn [app].
  set (aid := print_Z (t_asst + 1)).
  set (ms1 := messages st ++ [mkMessage (print_Z t_user) User (trim (override_or o (input st)));
                              mkMessage aid Assistant ""]).
  destruct (api _) as [m|status [reads|]]; cbn [after messages];
    [right; eexists; reflexivity| |];
    (destruct (negb (status_ok status));
     [destruct (server_error_message _ _); [right; eexists; reflexivity | now left]|]).
  - pose proof (client_read_loop_shape aid reads "" ms1) as S.
    destruct (client_read_loop aid reads ("", ms1)) as [[[full|e]|] ms]; cbn in S |- *.
    + destruct (String.eqb full ""); destruct S as [->|[c ->]];
        [right; eexists; reflexivity | right; eexists; apply set_content_twice
        | now left | right; eexists; reflexivity].
    + destruct S as [->|[c ->]]; right; eexists; [reflexivity | apply set_content_twice].
    + destruct S as [->|[c ->]]; [now left | right; eexists; reflexivity].
  - right; eexists; reflexivity.
Qed.

(** [sendMessage] returns at its guard, or leaves the conversation with
    two more messages: the user's and the assistant's. *)
Lemma send_message_ids (o : option string) (t_user t_asst : Z) (api : string -> fetch_reply)
    (st : chat_state) :
  send_message o t_user t_asst api st = mkSendRun None st Ignored \/
  map msg_id (messages (after (send_message o t_user t_asst api st)))
  = map msg_id (messages st) ++ [print_Z t_user; print_Z (t_asst + 1)].
Proof.
  destruct (send_message_shape o t_user t_asst api st) as [E|[E|[c E]]]; [now left|right..];
    rewrite E, ?set_content_ids, map_app; reflexivity.
Qed.

(** The read loop keeps the conversation equal to the one it started
    from with the placeholder holding [fullContent]. *)
Lemma client_line_tracks (aid line full : string) (ms1 : list message) :
  exists f, client_line aid (full, set_content aid full ms1) line = (f, set_content aid f ms1).
Proof.
  unfold client_line. destruct (json_parse _); [|eauto]. destruct (get_prop _ _); [|eauto].
  destruct (truthy _); [|eauto]. eexists. f_equal. apply set_content_twice.
Qed.

Lemma client_read_loop_tracks (aid : string) (reads : list read_result) (full : string)
    (ms1 : list message) :
  exists f, snd (client_read_loop aid reads (full, set_content aid full ms1)) = set_content aid f ms1 /\
            forall f', fst (client_read_loop aid reads (full, set_content aid full ms1)) = Some (Ok f') ->
                       f' = f.
Proof.
  revert full. induction reads as [|[v| |m] reads IH]; intros full;
    try (exists full; split; [reflexivity | intros f' E; cbn in E; congruence]).
  cbn [client_read_loop]. unfold client_chunk.
  assert (Hc : forall ls full, exists f,
            fold_left (client_line aid) ls (full, set_content aid full ms1) = (f, set_content aid f ms1)).
  { intros ls. induction ls as [|l ls IHl]; intros full0; [now exists full0|]. cbn [fold_left].
    destruct (client_line_tracks aid l full0 ms1) as [f1 ->]. apply IHl. }
  destruct (Hc (filter (starts_with "data: ") (split_nl v)) full) as [f1 ->]. apply IH.
Qed.

End Ids.

Section WithLaws.
Context `{L : JsonLaws}.

Lemma frame_obj_wf (ev : relay_event) : ev_wf ev -> json_wf (frame_obj ev).
Proof.
  destruct ev; simpl; intros Hw; repeat split; auto.
  all: constructor; [intros [] | constructor].
Qed.

Lemma frame_line_no_nl (ev : relay_event) : has_nl (frame_line ev) = false.
Proof. unfold frame_line. now rewrite has_nl_app, stringify_no_nl. Qed.

Lemma frame_line_data (ev : relay_event) : starts_with "data: " (frame_line ev) = true.
Proof. apply starts_with_app. Qed.

Lemma encode_frame (ev : relay_event) : encode_event ev = (frame_line ev ++ NL ++ NL)%string.
Proof. destruct ev; unfold encode_event, sse_frame, frame_line; now rewrite str_app_assoc. Qed.

(** A run of whole frames splits into their data lines and blank lines. *)
Lemma split_frames (evs : list relay_event) :
  split_nl (str_concat (map encode_event evs))
  = flat_map (fun ev => [frame_line ev; ""]) evs ++ [""].
Proof.
  rewrite <- split_nl_lines.
  - f_equal. induction evs as [|ev evs IH]; [reflexivity|].
    cbn [map str_concat flat_map app]. rewrite encode_frame, IH, !str_app_assoc. reflexivity.
  - induction evs as [|ev evs IH]; cbn [flat_map app]; [constructor|].
    constructor; [apply frame_line_no_nl|]. constructor; [reflexivity | exact IH].
Qed.

Lemma filter_frames (evs : list relay_event) :
  filter (starts_with "data: ") (flat_map (fun ev => [frame_line ev; ""]) evs ++ [""])
  = map frame_line evs.
Proof.
  induction evs as [|ev evs IH]; [reflexivity|]. cbn [flat_map app filter map].
  rewrite frame_line_data. change (starts_with "data: " "") with false. cbv iota beta.
  now rewrite IH.
Qed.

Lemma client_line_frame (aid : string) (acc : string * list message) (ev : relay_event) :
  ev_wf ev -> client_line aid acc (frame_line ev) = client_event aid acc ev.
Proof.
  intros Hw. destruct acc as [full ms]. unfold client_line, frame_line.
  change 6 with (String.length "data: ").
  rewrite slice_from_app, parse_stringify by (now apply frame_obj_wf).
  destruct ev; reflexivity.
Qed.

(** A read made of whole frames adds their contents. *)
Lemma client_chunk_frames (aid : string) (acc : string * list message) (g : list relay_event) :
  Forall ev_wf g ->
  client_chunk aid acc (str_concat (map encode_event g)) = fold_left (client_event aid) g acc.
Proof.
  intros Hw. unfold client_chunk. rewrite split_frames, filter_frames.
  revert acc. induction Hw as [|ev g Hev _ IH]; intros acc; [reflexivity|].
  cbn [map fold_left]. rewrite client_line_frame by exact Hev. apply IH.
Qed.

Lemma client_read_frames (aid : string) (egs : list (list relay_event)) (acc : string * list message) :
  Forall ev_wf (concat egs) ->
  client_read_loop aid (map (fun g => RChunk (str_concat (map encode_event g))) egs ++ [REnd]) acc
  = (Some (Ok (fst (fold_left (client_event aid) (concat egs) acc))),
     snd (fold_left (client_event aid) (concat egs) acc)).
Proof.
  revert acc. induction egs as [|g egs IH]; intros acc Hw; [reflexivity|].
  cbn [concat] in Hw |- *. apply Forall_app in Hw as [Hg Hr].
  cbn [map app client_read_loop]. rewrite client_chunk_frames, IH, fold_left_app by assumption.
  reflexivity.
Qed.

(** The body the widget sends is read back whole by the handler. *)
Lemma payload_parses (ms : list message) :
  json_parse (json_stringify (request_payload ms)) = Some (request_payload ms).
Proof.
  apply parse_stringify. unfold request_payload, history. simpl.
  split; [repeat constructor; intros []|split; [|exact I]].
  induction (filter _ ms) as [|m l IH]; simpl; [exact I|].
  repeat split; [|exact IH]. repeat constructor; simpl; intuition discriminate.
Qed.

Lemma history_no_null (ms : list message) : ~ In JNull (history ms).
Proof. unfold history. rewrite in_map_iff. intros (m & E & _). discriminate. Qed.

(** The handler copies each message of the history as it is. *)
Lemma copy_history (ms : list message) : map copy_msg (history ms) = history ms.
Proof. unfold history. rewrite map_map. apply map_ext. reflexivity. Qed.

(** [/api/chat] on the widget's request: the handler's [try] with the
    conversation as the widget sent it. *)
Lemma serve_reply (key : string) (up : upstream_request -> upstream_reply) (sizes : list nat)
    (pre : list message) :
  key <> "" ->
  serve (Some key) up sizes (json_stringify (request_payload pre))
  = match call_upstream up (upstream_call key (history pre)) with
    | Respond r => deliver r sizes
    | Crash _ => ClientResponds 500 (Some [REnd])
    | Hang => ClientResponds 504 (Some [REnd])
    end.
Proof.
  intros Hk. unfold serve.
  rewrite (handler_valid key (mkRequest "POST" (json_stringify (request_payload pre)))
             [("messages", JArr (history pre))] (history pre) eq_refl Hk
             (payload_parses pre) eq_refl (history_no_null pre)).
  cbn [run_result]. now rewrite copy_history.
Qed.

(** [/api/chat] answers the widget's request with the relayed stream. *)
Lemma serve_stream (key : string) (up : upstream_request -> upstream_reply) (sizes : list nat)
    (pre : list message) (chunks : list string) :
  key <> "" ->
  up (upstream_call key (history pre)) = FetchResponds 200 (Some (chunk_events chunks ++ [Upstream REnd])) ->
  serve (Some key) up sizes (json_stringify (request_payload pre))
  = ClientResponds 200 (Some (map (fun g => RChunk (str_concat g))
                                  (regroup sizes (relay_spec (str_concat chunks))) ++ [REnd])).
Proof.
  intros Hk Hup. rewrite serve_reply by exact Hk.
  unfold call_upstream. rewrite Hup. cbn [negb status_ok]. now rewrite pump_text.
Qed.

Lemma expected_frames_relay (evs : list upstream_event) :
  flat_map expected_frames evs = map encode_event (flat_map upstream_relay evs).
Proof.
  induction evs as [|ev evs IH]; [reflexivity|]. cbn [flat_map]. rewrite IH, map_app.
  f_equal. destruct ev; try reflexivity. simpl. now destruct (String.eqb _ "").
Qed.

End WithLaws.

Lemma upstream_relay_wf (evs : list upstream_event) : Forall ev_wf (flat_map upstream_relay evs).
Proof.
  apply Forall_flat_map, Forall_forall. intros ev _.
  destruct ev; simpl; repeat constructor. destruct (String.eqb _ ""); repeat constructor.
Qed.

(** The widget's text for the relayed events is the text of the deltas. *)
Lemma relay_text (evs : list upstream_event) :
  str_concat (map ev_text (flat_map upstream_relay evs)) = str_concat (map delta_text evs).
Proof.
  induction evs as [|ev evs IH]; [reflexivity|]. cbn [flat_map map str_concat].
  rewrite map_app, str_concat_app, IH. f_equal.
  destruct ev; try reflexivity. simpl. destruct (String.eqb_spec text "") as [->|Hne]; [reflexivity|].
  unfold ev_text, truthy. simpl. apply String.eqb_neq in Hne. rewrite Hne. apply str_app_nil_r.
Qed.

(** The conversation with the user's new message stays below the
    assistant's clock reading. *)
Lemma ids_below_user (b t_user t_asst : Z) (ms : list message) (text : string) :
  ids_below b ms -> (b <= t_asst)%Z -> (t_user <= t_asst)%Z ->
  ids_below t_asst (ms ++ [user_message t_user text]).
Proof.
  intros Hb H1 H2. apply Forall_app. split; [exact (ids_below_mono b _ _ H1 Hb)|].
  repeat constructor. now exists t_user.
Qed.

(** Reads of a stream nobody writes to carry no line, and the last
    read never settles. *)
Lemma client_read_loop_silent `{JsonCodec} (aid : string) (sizes : list nat) (acc : string * list message) :
  client_read_loop aid (map (fun g => RChunk (str_concat g)) (regroup sizes [])) acc = (None, snd acc).
Proof.
  revert acc. induction sizes as [|n sizes IH]; intros acc; [reflexivity|].
  cbn [regroup map client_read_loop]. rewrite firstn_nil, skipn_nil. apply IH.
Qed.

Lemma nodup_snoc2 {A} (l : list A) (x y : A) :
  NoDup l -> ~ In x l -> ~ In y l -> x <> y -> NoDup (l ++ [x; y]).
Proof.
  intros Hl Hx Hy Hxy. induction Hl as [|a l Ha Hl IH]; simpl in *.
  - constructor; [intros [E|[]]; congruence | repeat constructor; intros []].
  - constructor; [|apply IH; tauto].
    rewrite in_app_iff. intros [H|[E|[E|[]]]]; subst; tauto.
Qed.

End ClientFacts.

(** [sendMessage] after its guard, with the parts the theorems name. *)
Ltac start_send Hl Ht :=
  unfold send_message; cbn [override_or];
  rewrite Hl, orb_false_r, (proj2 (String.eqb_neq _ _) Ht); cbv zeta.

Section Runs.
Context `{L : JsonLaws}.

Lemma send_loading (o : option string) (t_user t_asst : Z) (api : string -> fetch_reply)
    (st : chat_state) :
  is_loading st = true -> send_message o t_user t_asst api st = mkSendRun None st Ignored.
Proof. intros E. unfold send_message. now rewrite E, orb_true_r. Qed.

(** Past the guard of line 38, [sendMessage] always posts the request. *)
Lemma send_message_sends (o : option string) (t_user t_asst : Z) (api : string -> fetch_reply)
    (st : chat_state) :
  trim (override_or o (input st)) <> "" -> is_loading st = false ->
  sent (send_message o t_user t_asst api st) <> None.
Proof.
  intros Ht Hl. unfold send_message. apply String.eqb_neq in Ht. rewrite Ht, Hl. cbn.
  repeat match goal with |- context [match ?x with _ => _ end] => destruct x end;
    try destruct (negb (status_ok _)); try destruct (String.eqb _ ""); discriminate.
Qed.

(** A call that posts nothing has returned at the guard: the state is
    unchanged. *)
Lemma send_message_unsent (o : option string) (t_user t_asst : Z) (api : string -> fetch_reply)
    (st : chat_state) :
  sent (send_message o t_user t_asst api st) = None -> send_message o t_user t_asst api st = mkSendRun None st Ignored.
Proof.
  destruct (String.eqb (trim (override_or o (input st))) "" || is_loading st) eqn:G.
  - intros _. unfold send_message. now rewrite G.
  - apply orb_false_iff in G as [Ht Hl]. apply String.eqb_neq in Ht.
    intros E. exfalso. exact (send_message_sends o t_user t_asst api st Ht Hl E).
Qed.

(** A stream of whole frames, read in any grouping, ends in a bubble
    with the text of its contents. *)
Lemma stream_run (st : chat_state) (t_user t_asst b status : Z) (api : string -> fetch_reply)
    (revs : list relay_event) (groups : list (list string)) :
  is_loading st = false -> trim (input st) <> "" ->
  ids_below b (messages st) -> (b <= t_asst)%Z -> (t_user <= t_asst)%Z ->
  Forall ev_wf revs -> concat groups = map encode_event revs ->
  api (json_stringify (request_payload (messages st ++ [user_message t_user (trim (input st))])))
    = ClientResponds status (Some (map (fun g => RChunk (str_concat g)) groups ++ [REnd])) ->
  status_ok status = true ->
  send_message None t_user t_asst api st
  = mkSendRun (Some (json_stringify (request_payload (messages st ++ [user_message t_user (trim (input st))]))))
      (mkChat (messages st ++ [user_message t_user (trim (input st));
                               mkMessage (print_Z (t_asst + 1)) Assistant
                                 (answer_of (str_concat (map ev_text revs)))]) "" false)
      Settled.
Proof.
  intros Hl Ht Hids Hb Hu Hw Hg Hapi Hs. pose proof (ids_below_user b t_user t_asst _ (trim (input st)) Hids Hb Hu) as Hpre.
  unfold user_message in *. start_send Hl Ht. rewrite Hapi, Hs. cbn [negb].
  destruct (concat_map_groups _ _ _ Hg) as (egs & -> & ->). rewrite map_map.
  rewrite client_read_frames by exact Hw. cbv iota beta.
  rewrite final_bubble; [now rewrite <- app_assoc|].
  apply (ids_below_fresh t_asst); [exact Hpre | lia].
Qed.

(** A non-2xx answer with a JSON error body ends in the apology. *)
Lemma error_run (st : chat_state) (t_user t_asst b status : Z)
    (api : string -> fetch_reply) (kvs : list (string * json)) (e : json) :
  is_loading st = false -> trim (input st) <> "" ->
  ids_below b (messages st) -> (b <= t_asst)%Z -> (t_user <= t_asst)%Z ->
  json_wf (JObj kvs) -> assoc "error" kvs = Some e -> truthy (Some e) = true ->
  api (json_stringify (request_payload (messages st ++ [user_message t_user (trim (input st))])))
    = ClientResponds status (Some [RChunk (json_stringify (JObj kvs)); REnd]) ->
  status_ok status = false ->
  send_message None t_user t_asst api st
  = mkSendRun (Some (json_stringify (request_payload (messages st ++ [user_message t_user (trim (input st))]))))
      (mkChat (messages st ++ [user_message t_user (trim (input st));
                               mkMessage (print_Z (t_asst + 1)) Assistant (sorry (js_to_string e))]) "" false)
      Settled.
Proof.
  intros Hl Ht Hids Hb Hu Hw He Htr Hapi Hs.
  pose proof (ids_below_user b t_user t_asst _ (trim (input st)) Hids Hb Hu) as Hpre.
  unfold user_message in *. start_send Hl Ht. rewrite Hapi, Hs. cbn [negb].
  unfold server_error_message. cbn [map read_text]. rewrite str_app_nil_r, parse_stringify by exact Hw.
  rewrite get_prop_obj, He, Htr. cbn [js_string_of].
  rewrite set_content_last; [now rewrite <- app_assoc|].
  apply (ids_below_fresh t_asst); [exact Hpre | lia].
Qed.

End Runs.


(** ** Theorems *)

Section ClientTheorems.
Context `{L : JsonLaws}.

(** C8.  The widget's read loop: when the server answers 2xx with a
    stream of whole relay frames, read in any grouping of whole frames,
    the conversation ends with the user's message and an assistant
    message whose content is the concatenation of the frames' contents
    (or the fallback apology when that is empty), the input is cleared and
    loading is over. *)
Theorem client_shows_stream (st : chat_state) (t_user t_asst b status : Z)
    (api : string -> fetch_reply) (revs : list relay_event) (groups : list (list string)) :
  is_loading st = false -> trim (input st) <> "" ->
  ids_below b (messages st) -> (b <= t_asst)%Z -> (t_user <= t_asst)%Z ->
  Forall ev_wf revs -> concat groups = map encode_event revs ->
  api (json_stringify (request_payload (messages st ++ [user_message t_user (trim (input st))])))
    = ClientResponds status (Some (map (fun g => RChunk (str_concat g)) groups ++ [REnd])) ->
  status_ok status = true ->
  send_message None t_user t_asst api st
  = mkSendRun (Some (json_stringify (request_payload (messages st ++ [user_message t_user (trim (input st))]))))
      (mkChat (messages st ++ [user_message t_user (trim (input st));
                               mkMessage (print_Z (t_asst + 1)) Assistant
                                 (answer_of (str_concat (map ev_text revs)))]) "" false)
      Settled.
Proof. exact (stream_run st t_user t_asst b status api revs groups). Qed.

(** C4.  The widget behind the handler of [api/chat.js]: the history
    the visitor sees (without the welcome message) is what the handler
    forwards upstream, and when the upstream streams [evs] (cut into
    chunks anywhere) and the browser reads the server's writes whole, in
    any grouping, the assistant bubble shows the concatenated text deltas
    of [evs], or the fallback apology when there are none. *)
Theorem chat_end_to_end (key : string) (up : upstream_request -> upstream_reply)
    (st : chat_state) (t_user t_asst b : Z) (evs : list upstream_event) (chunks : list string)
    (sizes : list nat) :
  key <> "" -> is_loading st = false -> trim (input st) <> "" ->
  ids_below b (messages st) -> (b <= t_asst)%Z -> (t_user <= t_asst)%Z ->
  up (upstream_call key (history (messages st ++ [user_message t_user (trim (input st))])))
    = FetchResponds 200 (Some (chunk_events chunks ++ [Upstream REnd])) ->
  str_concat chunks = str_concat (map upstream_text evs) ->
  send_message None t_user t_asst (serve (Some key) up sizes) st
  = mkSendRun (Some (json_stringify (request_payload (messages st ++ [user_message t_user (trim (input st))]))))
      (mkChat (messages st ++ [user_message t_user (trim (input st));
                               mkMessage (print_Z (t_asst + 1)) Assistant
                                 (answer_of (str_concat (map delta_text evs)))]) "" false)
      Settled.
Proof.
  intros Hk Hl Ht Hids Hb Hu Hup Hc. rewrite <- relay_text.
  apply (stream_run st t_user t_asst b 200 _ _ (regroup sizes (relay_spec (str_concat chunks))));
    auto using upstream_relay_wf.
  - now rewrite regroup_concat, Hc, relay_spec_upstream, expected_frames_relay.
  - now apply serve_stream.
Qed.

(** End to end, when the upstream cannot be reached: the
    visitor's bubble apologises with the handler's
    ['Cannot connect to Anthropic API'], and loading is over. *)
Theorem chat_reports_transport_error (key : string) (up : upstream_request -> upstream_reply)
    (st : chat_state) (t_user t_asst b : Z) (msg : string) (sizes : list nat) :
  key <> "" -> is_loading st = false -> trim (input st) <> "" ->
  ids_below b (messages st) -> (b <= t_asst)%Z -> (t_user <= t_asst)%Z ->
  up (upstream_call key (history (messages st ++ [user_message t_user (trim (input st))])))
    = FetchRejects msg ->
  send_message None t_user t_asst (serve (Some key) up sizes) st
  = mkSendRun (Some (json_stringify (request_payload (messages st ++ [user_message t_user (trim (input st))]))))
      (mkChat (messages st ++ [user_message t_user (trim (input st));
                               mkMessage (print_Z (t_asst + 1)) Assistant
                                 (sorry "Cannot connect to Anthropic API")]) "" false)
      Settled.
Proof.
  intros Hk Hl Ht Hids Hb Hu Hup.
  apply (error_run st t_user t_asst b 502 _
           [("error", JStr "Cannot connect to Anthropic API"); ("detail", JStr msg)]
           (JStr "Cannot connect to Anthropic API")); auto.
  - split; [repeat constructor; simpl; intuition discriminate | repeat split].
  - rewrite serve_reply by exact Hk. unfold call_upstream. now rewrite Hup.
Qed.

(** C16.  End to end, when the upstream answers an error status:
    the visitor's bubble apologises with [String(e)], where [e] is what
    the handler extracted from the upstream's error body
    ([error.message], or the fallback). *)
Theorem chat_reports_upstream_error (key : string) (up : upstream_request -> upstream_reply)
    (st : chat_state) (t_user t_asst b status : Z) (chunks : list string) (sizes : list nat) :
  key <> "" -> is_loading st = false -> trim (input st) <> "" ->
  ids_below b (messages st) -> (b <= t_asst)%Z -> (t_user <= t_asst)%Z ->
  up (upstream_call key (history (messages st ++ [user_message t_user (trim (input st))])))
    = FetchResponds status (Some (chunk_events chunks ++ [Upstream REnd])) ->
  status_ok status = false ->
  send_message None t_user t_asst (serve (Some key) up sizes) st
  = mkSendRun (Some (json_stringify (request_payload (messages st ++ [user_message t_user (trim (input st))]))))
      (mkChat (messages st ++ [user_message t_user (trim (input st));
                               mkMessage (print_Z (t_asst + 1)) Assistant
                                 (sorry (js_to_string (error_message (str_concat chunks))))]) "" false)
      Settled.
Proof.
  intros Hk Hl Ht Hids Hb Hu Hup Hs.
  apply (error_run st t_user t_asst b 502 _
           [("error", error_message (str_concat chunks)); ("detail", JStr (str_concat chunks))]);
    auto using error_message_truthy.
  - split; [repeat constructor; simpl; intuition discriminate|].
    split; [apply error_message_wf | repeat split].
  - rewrite serve_reply by exact Hk. unfold call_upstream. rewrite Hup, Hs. cbn [negb response_text].
    now rewrite read_text_chunks.
Qed.

(** C19.  End to end, when the upstream answers 2xx without a body
    ([getReader()] throws before the relay's [finally], chat.js:161): the
    handler's stream is never closed, the widget's last read never
    settles, and the widget stays loading with an empty placeholder (the
    typing dots) and its input disabled. *)
Theorem chat_stuck_without_body (key : string) (up : upstream_request -> upstream_reply)
    (st : chat_state) (t_user t_asst status : Z) (sizes : list nat) :
  key <> "" -> is_loading st = false -> trim (input st) <> "" ->
  up (upstream_call key (history (messages st ++ [user_message t_user (trim (input st))])))
    = FetchResponds status None ->
  status_ok status = true ->
  send_message None t_user t_asst (serve (Some key) up sizes) st
  = mkSendRun (Some (json_stringify (request_payload (messages st ++ [user_message t_user (trim (input st))]))))
      (mkChat (messages st ++ [user_message t_user (trim (input st));
                               mkMessage (print_Z (t_asst + 1)) Assistant ""]) "" true)
      Pending.
Proof.
  intros Hk Hl Ht Hup Hs. unfold user_message in *. start_send Hl Ht.
  rewrite serve_reply by exact Hk. unfold call_upstream. rewrite Hup, Hs.
  cbn [negb pump deliver res_body res_status w_state w_chunks fresh_writer status_ok].
  rewrite app_nil_r. change (negb (status_ok 200)) with false. cbv iota beta.
  rewrite client_read_loop_silent. cbn [snd]. now rewrite <- app_assoc.
Qed.

(** C23.  Whenever [sendMessage] settles (its [finally] ran), the
    conversation ends with the user's message and an assistant message
    whose content is not empty: the bubble shows text (the answer, the
    no-response fallback or an apology), never the typing dots. *)
Theorem client_settles_with_text (o : option string) (t_user t_asst b : Z)
    (api : string -> fetch_reply) (st : chat_state) :
  ids_below b (messages st) -> (b <= t_asst)%Z -> (t_user <= t_asst)%Z ->
  send_result (send_message o t_user t_asst api st) = Settled ->
  exists c, c <> "" /\
    messages (after (send_message o t_user t_asst api st))
    = messages st ++ [mkMessage (print_Z t_user) User (trim (override_or o (input st)));
                      mkMessage (print_Z (t_asst + 1)) Assistant c].
Proof.
  intros Hids Hb Hu. set (text := trim (override_or o (input st))).
  set (pre := messages st ++ [mkMessage (print_Z t_user) User text]).
  assert (Hf : ~ In (print_Z (t_asst + 1)) (map msg_id pre))
    by (apply (ids_below_fresh t_asst); [exact (ids_below_user b t_user t_asst _ text Hids Hb Hu) | lia]).
  assert (Hend : forall c, c <> "" ->
            exists c', c' <> "" /\
              set_content (print_Z (t_asst + 1)) c (pre ++ [mkMessage (print_Z (t_asst + 1)) Assistant ""])
              = messages st ++ [mkMessage (print_Z t_user) User text;
                                mkMessage (print_Z (t_asst + 1)) Assistant c'])
    by (intros c Hc; exists c; split; [exact Hc|];
        rewrite set_content_last by exact Hf; unfold pre; now rewrite <- app_assoc).
  unfold send_message. fold text. fold pre. destruct (_ || _); [discriminate|].
  destruct (api _) as [m|status [reads|]]; cbn [send_result after messages];
    [intros _; apply Hend; discriminate|..];
    (destruct (negb (status_ok status));
     [destruct (server_error_message _ _); cbn; [intros _; apply Hend; discriminate | discriminate]|]).
  - pose proof (client_read_loop_tracks (print_Z (t_asst + 1)) reads ""
                  (pre ++ [mkMessage (print_Z (t_asst + 1)) Assistant ""])) as T.
    rewrite set_content_last in T by exact Hf.
    destruct (client_read_loop _ reads _) as [[[full|e]|] ms]; cbn in T |- *;
      destruct T as (f & -> & Hfull); [|intros _; rewrite set_content_twice; apply Hend; discriminate
                                        | discriminate].
    rewrite (Hfull full eq_refl). intros _.
    destruct (String.eqb_spec f ""); [rewrite set_content_twice; apply Hend; discriminate|].
    now apply Hend.
  - intros _; apply Hend; discriminate.
Qed.

(** C24.  While an answer is loading, no event of the visitor
    (typing, a key, the send button, a suggestion) sends a request or
    changes the state. *)
Theorem ui_blocked_while_loading (t_user t_asst : Z) (api : string -> fetch_reply)
    (ev : ui_event) (st : chat_state) :
  is_loading st = true -> ui_step t_user t_asst api ev st = mkSendRun None st Ignored.
Proof.
  intros E. destruct ev as [text|key shift| |sg]; unfold ui_step, input_disabled, send_disabled;
    rewrite ?E, ?orb_true_r; try reflexivity.
  destruct (_ && _); [now apply send_loading | reflexivity].
Qed.

(** A message that is empty after [trim] is not sent: no
    request, no state change. *)
Theorem send_ignores_blank (o : option string) (t_user t_asst : Z) (api : string -> fetch_reply)
    (st : chat_state) :
  trim (override_or o (input st)) = "" -> send_message o t_user t_asst api st = mkSendRun None st Ignored.
Proof. intros E. unfold send_message. now rewrite E. Qed.

(** A non-2xx answer whose body is a JSON object with a truthy
    [error] ends in an assistant message apologising with [String(error)],
    and loading is over. *)
Theorem client_shows_error (st : chat_state) (t_user t_asst b status : Z)
    (api : string -> fetch_reply) (kvs : list (string * json)) (e : json) :
  is_loading st = false -> trim (input st) <> "" ->
  ids_below b (messages st) -> (b <= t_asst)%Z -> (t_user <= t_asst)%Z ->
  json_wf (JObj kvs) -> assoc "error" kvs = Some e -> truthy (Some e) = true ->
  api (json_stringify (request_payload (messages st ++ [user_message t_user (trim (input st))])))
    = ClientResponds status (Some [RChunk (json_stringify (JObj kvs)); REnd]) ->
  status_ok status = false ->
  send_message None t_user t_asst api st
  = mkSendRun (Some (json_stringify (request_payload (messages st ++ [user_message t_user (trim (input st))]))))
      (mkChat (messages st ++ [user_message t_user (trim (input st));
                               mkMessage (print_Z (t_asst + 1)) Assistant (sorry (js_to_string e))]) "" false)
      Settled.
Proof. exact (error_run st t_user t_asst b status api kvs e). Qed.

(** The conversation invariant through one [sendMessage]. *)
Lemma send_message_ids_distinct (o : option string) (t_user t_asst b : Z)
    (api : string -> fetch_reply) (st : chat_state) :
  NoDup (map msg_id (messages st)) -> ids_below b (messages st) ->
  (b < t_user)%Z -> (t_user <= t_asst)%Z ->
  NoDup (map msg_id (messages (after (send_message o t_user t_asst api st)))) /\
  ids_below (t_asst + 1) (messages (after (send_message o t_user t_asst api st))).
Proof.
  intros Hd Hids Hb Hu.
  destruct (send_message_ids o t_user t_asst api st) as [E|E]; rewrite E.
  - split; [exact Hd | apply (ids_below_mono b); [lia | exact Hids]].
  - split.
    + apply nodup_snoc2; [exact Hd | apply (ids_below_fresh b); [exact Hids | lia]..|].
      intros Heq%print_Z_inj. lia.
    + apply ids_below_map. rewrite E. apply Forall_app. split.
      * apply ids_below_map, (ids_below_mono b); [lia | exact Hids].
      * constructor; [exists t_user; split; [reflexivity | lia]|].
        constructor; [exists (t_asst + 1)%Z; split; [reflexivity | lia] | constructor].
Qed.

(** Invariant of the conversation: when each message is sent at
    a later millisecond than every id so far, the ids stay distinct (they
    are React keys and the targets of the stream's updates) and stay
    below the last clock reading. *)
Theorem send_keeps_ids_distinct (o : option string) (t_user t_asst b : Z)
    (api : string -> fetch_reply) (st : chat_state) :
  NoDup (map msg_id (messages st)) -> ids_below b (messages st) ->
  (b < t_user)%Z -> (t_user <= t_asst)%Z ->
  NoDup (map msg_id (messages (after (send_message o t_user t_asst api st)))) /\
  ids_below (t_asst + 1) (messages (after (send_message o t_user t_asst api st))).
Proof. exact (send_message_ids_distinct o t_user t_asst b api st). Qed.

(** C5.  The frame format round-trips between the two ends: a read
    that holds whole frames the relay encoded ([encode_event], lines
    181-185 of [api/chat.js]) is decoded by the widget's line filter and
    [JSON.parse] (lines 85-90 of [ChatWindow.tsx]) into exactly the
    objects the relay serialised, one per frame and in order. *)
Theorem sse_frames_roundtrip (evs : list relay_event) :
  Forall ev_wf evs ->
  parsed_frames (str_concat (map encode_event evs)) = map (fun ev => Some (frame_obj ev)) evs.
Proof.
  intros Hw. unfold parsed_frames. rewrite split_frames, filter_frames, map_map.
  induction Hw as [|ev evs Hev _ IH]; [reflexivity|]. cbn [map]. rewrite IH. f_equal.
  unfold frame_line. change 6 with (String.length "data: ").
  rewrite slice_from_app. now apply parse_stringify, frame_obj_wf.
Qed.

(** A read with no line feed that is not a [data: ] line changes
    nothing. *)
Lemma client_chunk_no_data (aid : string) (acc : string * list message) (p : string) :
  has_nl p = false -> starts_with "data: " p = false -> client_chunk aid acc p = acc.
Proof.
  intros Hn Hs. unfold client_chunk. rewrite split_nl_no_nl by exact Hn. cbn [filter]. now rewrite Hs.
Qed.

(** A read that starts with a line that is not a [data: ] line, ended
    by a blank line, is read as what follows. *)
Lemma client_chunk_skip_line (aid : string) (acc : string * list message) (l rest : string) :
  has_nl l = false -> starts_with "data: " l = false ->
  client_chunk aid acc (l ++ NL ++ NL ++ rest)%string = client_chunk aid acc rest.
Proof.
  intros Hn Hs. unfold client_chunk.
  change (NL ++ NL ++ rest)%string with (String nl_char (String nl_char rest)).
  rewrite split_nl_line by exact Hn. cbn [split_nl Ascii.eqb nl_char]. cbn [filter]. now rewrite Hs.
Qed.

(** C17.  The widget splits each read on its own, with no carry-over:
    for every frame the relay writes, whatever its JSON, and every cut
    inside its [data: ] prefix, the same bytes read in two reads (the
    second one followed by any further text) leave [fullContent] and the
    messages exactly as if the frame had never been sent. *)
Theorem client_loses_split_frame (aid : string) (acc : string * list message) (obj : json)
    (k : nat) (rest : string) :
  (1 <= k <= 5)%nat ->
  (substring 0 k "data: " ++ substring k (6 - k) "data: " ++ json_stringify obj ++ NL ++ NL ++ rest
   = sse_frame obj ++ rest)%string /\
  client_chunk aid (client_chunk aid acc (substring 0 k "data: "))
    (substring k (6 - k) "data: " ++ json_stringify obj ++ NL ++ NL ++ rest)%string
  = client_chunk aid acc rest.
Proof.
  intros Hk. pose proof (stringify_no_nl obj) as J. split.
  - unfold sse_frame. rewrite !str_app_assoc.
    destruct k as [|[|[|[|[|[|k]]]]]]; try lia; reflexivity.
  - assert (E1 : client_chunk aid acc (substring 0 k "data: ") = acc)
      by (apply client_chunk_no_data; destruct k as [|[|[|[|[|[|k]]]]]]; try lia; reflexivity).
    assert (Q : has_nl (substring k (6 - k) "data: ") = false /\
                starts_with "data: " (substring k (6 - k) "data: " ++ json_stringify obj)%string = false)
      by (destruct k as [|[|[|[|[|[|k]]]]]]; try lia; split; reflexivity).
    rewrite E1, <- (str_app_assoc (substring k (6 - k) "data: ") (json_stringify obj)).
    rewrite client_chunk_skip_line; [reflexivity | | exact (proj2 Q)].
    rewrite has_nl_app, (proj1 Q), J. reflexivity.
Qed.

End ClientTheorems.

(** ** Witnesses and examples *)

Lemma ids_below_welcome : ids_below 0 [WELCOME].
Proof. constructor; [exists 0%Z; split; reflexivity | constructor]. Qed.

Lemma client_shows_stream_witness :
  send_message None 1000 1000 stream_api hi_state
  = mkSendRun (Some (json_stringify (request_payload (messages hi_state ++ [user_message 1000 (trim (input hi_state))]))))
      (mkChat (messages hi_state ++ [user_message 1000 (trim (input hi_state));
                                     mkMessage (print_Z (1000 + 1)) Assistant
                                       (answer_of (str_concat (map ev_text stream_events)))]) "" false)
      Settled.
Proof.
  apply (client_shows_stream hi_state 1000 1000 0 200 stream_api stream_events stream_groups);
    [reflexivity | vm_compute; discriminate | exact ids_below_welcome | lia | lia
    | repeat constructor | reflexivity | vm_compute; reflexivity | reflexivity].
Defined.

Example stream_answer : answer_of (str_concat (map ev_text stream_events)) = "VotePoll".
Proof. reflexivity. Qed.

Lemma chat_end_to_end_witness :
  send_message None 1000 1000
    (serve (Some "k") (replying (FetchResponds 200 (Some (chunk_events votepoll_chunks ++ [Upstream REnd]))))
       [1; 2]) hi_state
  = mkSendRun (Some (json_stringify (request_payload (messages hi_state ++ [user_message 1000 (trim (input hi_state))]))))
      (mkChat (messages hi_state ++ [user_message 1000 (trim (input hi_state));
                                     mkMessage (print_Z (1000 + 1)) Assistant
                                       (answer_of (str_concat (map delta_text votepoll_events)))]) "" false)
      Settled.
Proof.
  apply (chat_end_to_end "k" _ hi_state 1000 1000 0 votepoll_events votepoll_chunks [1; 2]);
    [discriminate | reflexivity | vm_compute; discriminate | exact ids_below_welcome | lia | lia
    | reflexivity | vm_compute; reflexivity].
Defined.

Example votepoll_answer :
  answer_of (str_concat (map delta_text votepoll_events)) = "VotePoll and AgencyBooking.".
Proof. reflexivity. Qed.

Lemma ui_blocked_while_loading_witness :
  ui_step 1 1 stream_api (ClickSuggestion "What projects has Mouad built?") (mkChat [WELCOME] "" true)
  = mkSendRun None (mkChat [WELCOME] "" true) Ignored.
Proof. apply ui_blocked_while_loading. reflexivity. Defined.

Lemma send_ignores_blank_witness :
  send_message (Some "   ") 1 1 stream_api hi_state = mkSendRun None hi_state Ignored.
Proof. apply send_ignores_blank. vm_compute. reflexivity. Defined.

Lemma client_shows_error_witness :
  send_message None 1000 1000
    (fun _ => ClientResponds 502 (Some [RChunk (json_stringify (JObj error_body)); REnd])) hi_state
  = mkSendRun (Some (json_stringify (request_payload (messages hi_state ++ [user_message 1000 (trim (input hi_state))]))))
      (mkChat (messages hi_state ++ [user_message 1000 (trim (input hi_state));
                                     mkMessage (print_Z (1000 + 1)) Assistant
                                       (sorry (js_to_string (JStr "Cannot connect to Anthropic API")))]) "" false)
      Settled.
Proof.
  apply (client_shows_error hi_state 1000 1000 0 502 _ error_body (JStr "Cannot connect to Anthropic API"));
    [reflexivity | vm_compute; discriminate | exact ids_below_welcome | lia | lia
    | vm_compute; repeat split; repeat constructor; simpl; intuition discriminate
    | reflexivity | reflexivity | reflexivity | reflexivity].
Defined.

Lemma send_keeps_ids_distinct_witness :
  NoDup (map msg_id (messages (after (send_message None 1000 1000 stream_api hi_state)))) /\
  ids_below (1000 + 1) (messages (after (send_message None 1000 1000 stream_api hi_state))).
Proof.
  apply (send_keeps_ids_distinct None 1000 1000 0);
    [repeat constructor; intros [] | exact ids_below_welcome | lia | lia].
Defined.

(** The reader splits each chunk on its own: the same bytes, cut inside
    the JSON of the first frame, lose that frame, and the visitor is told
    there was no response. *)
Example client_loses_split_json :
  str_concat (map (fun r => match r with RChunk v => v | _ => "" end) split_reads)
  = str_concat (map (fun r => match r with RChunk v => v | _ => "" end) whole_reads) /\
  last_content (send_message None 1000 1000 (fun _ => ClientResponds 200 (Some whole_reads)) hi_state)
  = "VotePoll" /\
  last_content (send_message None 1000 1000 (fun _ => ClientResponds 200 (Some split_reads)) hi_state)
  = NO_RESPONSE.
Proof. vm_compute. repeat split. Qed.

Lemma client_loses_split_frame_witness :
  (1 <= 3 <= 5)%nat /\
  client_chunk "1001" (client_chunk "1001" ("", messages hi_state) (substring 0 3 "data: "))
    (substring 3 3 "data: " ++ json_stringify (JObj [("content", JStr "Vote")]) ++ NL ++ NL
     ++ content_out "Poll")%string
  = client_chunk "1001" ("", messages hi_state) (content_out "Poll").
Proof.
  split; [lia|]. exact (proj2 (client_loses_split_frame "1001" ("", messages hi_state)
                                (JObj [("content", JStr "Vote")]) 3 (content_out "Poll") ltac:(lia))).
Defined.

Lemma chat_reports_transport_error_witness :
  send_message None 1000 1000
    (serve (Some "k") (replying (FetchRejects "getaddrinfo ENOTFOUND api.anthropic.com")) []) hi_state
  = mkSendRun (Some (json_stringify (request_payload (messages hi_state ++ [user_message 1000 (trim (input hi_state))]))))
      (mkChat (messages hi_state ++ [user_message 1000 (trim (input hi_state));
                                     mkMessage (print_Z (1000 + 1)) Assistant
                                       (sorry "Cannot connect to Anthropic API")]) "" false)
      Settled.
Proof.
  apply (chat_reports_transport_error "k" _ hi_state 1000 1000 0 "getaddrinfo ENOTFOUND api.anthropic.com");
    [discriminate | reflexivity | vm_compute; discriminate | exact ids_below_welcome | lia | lia
    | reflexivity].
Defined.

Lemma chat_reports_upstream_error_witness :
  send_message None 1000 1000
    (serve (Some "k") (replying (FetchResponds 429 (Some (chunk_events rate_limited ++ [Upstream REnd]))))
       [1]) hi_state
  = mkSendRun (Some (json_stringify (request_payload (messages hi_state ++ [user_message 1000 (trim (input hi_state))]))))
      (mkChat (messages hi_state ++ [user_message 1000 (trim (input hi_state));
                                     mkMessage (print_Z (1000 + 1)) Assistant
                                       (sorry (js_to_string (error_message (str_concat rate_limited))))]) "" false)
      Settled.
Proof.
  apply (chat_reports_upstream_error "k" _ hi_state 1000 1000 0 429 rate_limited [1]);
    [discriminate | reflexivity | vm_compute; discriminate | exact ids_below_welcome | lia | lia
    | reflexivity | reflexivity].
Defined.

Example rate_limited_message :
  sorry (js_to_string (error_message (str_concat rate_limited)))
  = "Sorry, something went wrong: Rate limited. You can still explore the portfolio directly!".
Proof. vm_compute. reflexivity. Qed.

Lemma chat_stuck_without_body_witness :
  send_message None 1000 1000 (serve (Some "k") (replying (FetchResponds 200 None)) [1; 1]) hi_state
  = mkSendRun (Some (json_stringify (request_payload (messages hi_state ++ [user_message 1000 (trim (input hi_state))]))))
      (mkChat (messages hi_state ++ [user_message 1000 (trim (input hi_state));
                                     mkMessage (print_Z (1000 + 1)) Assistant ""]) "" true)
      Pending.
Proof.
  apply (chat_stuck_without_body "k" _ hi_state 1000 1000 200 [1; 1]);
    [discriminate | reflexivity | vm_compute; discriminate | reflexivity | reflexivity].
Defined.

Lemma client_settles_with_text_witness :
  exists c, c <> "" /\
    messages (after (send_message None 1000 1000 stream_api hi_state))
    = messages hi_state ++ [mkMessage (print_Z 1000) User (trim (override_or None (input hi_state)));
                            mkMessage (print_Z (1000 + 1)) Assistant c].
Proof.
  apply (client_settles_with_text None 1000 1000 0); [exact ids_below_welcome | lia | lia | reflexivity].
Defined.

Lemma sse_frames_roundtrip_witness :
  parsed_frames (str_concat (map encode_event [EvContent (JStr "VotePoll"); EvDone]))
  = [Some (JObj [("content", JStr "VotePoll")]); Some (JObj [("done", JBool true)])].
Proof. apply (sse_frames_roundtrip [EvContent (JStr "VotePoll"); EvDone]). repeat constructor. Defined.
