(* ===== verification/Content.v ===== *)
(** * The page's content and navigation

    The static data the sections render and the assistant's prompt
    describes: [siteConfig] ([src/app/src/config/site.ts]), [projectsData]
    ([data/projects.ts]), [timelineData] ([data/timeline.ts]) and
    [skillCategories] ([sections/SkillsShowcaseSection.tsx]), with the
    lists the sections key their elements by; the page as [App.tsx]
    composes the sections, with the anchors they declare and the in-page
    links of the header, the mobile menu and the sections.

    The theorems check the data as the code uses it: React keys are
    unique in every keyed list, every in-page link reaches exactly one
    anchor, and the system prompt of [api/chat.js] states every fact the
    page shows, so the assistant knows what the visitor reads. *)

From Stdlib Require Import String Ascii List Bool ZArith.
From S2P Require Import Prelude SystemPrompt.
Import ListNotations.
Open Scope string_scope.
Open Scope list_scope.

(** ** [config/site.ts] *)

Record Social : Type := mkSocial { github : string; linkedin : string; twitter : string }.

Record SiteConfig : Type := mkSiteConfig {
  name : string;
  title : string;
  email : string;
  location : string;
  yearsExperience : Z;
  bio : string;
  specialties : list string;
  social : Social;
  resumeUrl : string
}.

Definition siteConfig : SiteConfig :=
  mkSiteConfig "JAMIL Mouad" "Full-Stack Developer | DevOps Enthusiast"
    "jamilmouad25000@gmail.com" "Khouribga, Morocco" 2
    "A polyvalent developer passionate about building modern, scalable applications. I specialize in full-stack development with expertise across Java Spring Boot, React, Angular, Flutter, and DevOps practices.

I thrive on solving complex problems and delivering end-to-end solutions—from crafting responsive frontends to architecting robust backend systems and streamlining deployments with CI/CD pipelines."
    ["Full-Stack Development"; "DevOps & CI/CD"; "Real-Time Applications"; "Microservices Architecture"]
    (mkSocial "https://github.com/Jamil-Mouad" "https://linkedin.com/in/username"
              "https://twitter.com/username")
    "/cv.pdf".

(** ** [data/projects.ts] *)

Inductive category : Type := Web | Mobile | Backend | Fullstack.

Record Project : Type := mkProject {
  p_id : string;
  p_title : string;
  p_description : string;
  p_image : string;
  p_gradient : string;
  p_tags : list string;
  p_githubUrl : option string;
  p_liveUrl : option string;
  p_category : category
}.

Definition projectsData : list Project := [
  mkProject "1"
    "VotePoll - Real-Time Polling System"
    "Collaborative polling platform with real-time updates via Socket.IO, hybrid authentication (JWT + OAuth Google), and public/private group system. Built with Next.js 16, React 19, TypeScript, and Express.js."
    "/assets/projects/neovote.webp" "from-blue-600 via-indigo-500 to-purple-500"
    ["Next.js"; "React"; "TypeScript"; "Socket.IO"; "MySQL"]
    (Some "https://github.com/Jamil-Mouad/vote-sondage-system") None Fullstack;
  mkProject "2"
    "AgencyBooking - Reservation Platform"
    "Multi-role agency reservation platform connecting users with agencies and agents. Features real-time WebSocket locking system, STOMP live updates, JWT authentication with Spring Security, email notifications, and role-based dashboards. Built with Angular 18 + Spring Boot 3."
    "/assets/projects/agencybooking.webp" "from-emerald-600 via-teal-500 to-cyan-400"
    ["Angular 18"; "Spring Boot 3"; "Java 21"; "PostgreSQL"; "WebSocket"; "Docker"]
    (Some "https://github.com/Jamil-Mouad/AgencyBooking") None Fullstack;
  mkProject "3"
    "DevOps Pipeline - Full CI/CD Infrastructure"
    "Complete DevOps infrastructure from scratch: KVM virtualization, Terraform provisioning, GitLab CI/CD pipeline, SonarQube analysis, Docker containerization, and Prometheus/Grafana monitoring."
    "/assets/projects/pipelinedevos.webp" "from-orange-600 via-amber-500 to-yellow-400"
    ["Docker"; "GitLab CI"; "Terraform"; "Prometheus"; "Grafana"]
    None None Backend;
  mkProject "4"
    "Evaluation Sheet Digitalization"
    "Web-based evaluation sheet generator for EST. Professors log in, input grades through dynamic cascading forms, and generate print-ready A4 documents with digital signatures. Features CSRF protection, prepared SQL statements, and configurable grade weighting per program."
    "/assets/projects/evaluationfile0.webp" "from-purple-600 via-violet-500 to-pink-400"
    ["PHP 8"; "MariaDB"; "JavaScript"; "HTML5 Canvas"]
    (Some "https://github.com/Jamil-Mouad/evaluation_file") None Web
].

(** ** [data/timeline.ts] *)

Inductive item_type : Type := Education | Certification.

Record TimelineItem : Type := mkTimelineItem {
  t_id : string;
  t_year : string;
  t_title : string;
  t_institution : string;
  t_description : string;
  t_image : option string;
  t_type : item_type;
  t_technologies : option (list string)
}.

Definition timelineData : list TimelineItem := [
  mkTimelineItem "1" "2023 - 2025"
    "DUT in Computer Engineering" "EST Fquih Ben Salah"
    "Two-year university technology diploma covering algorithms, programming (C, Java, PHP), databases, networks, operating systems, and software engineering with UML."
    None Education (Some ["Java"; "PHP"; "MySQL"; "C"]);
  mkTimelineItem "2" "2024"
    "Internship - Evaluation Sheet Digitalization" "EST Fquih Ben Salah"
    "Built a complete web application for digitizing internship evaluation sheets. Managed 52 students across 4 programs with automatic PDF generation."
    None Education (Some ["PHP"; "MySQL"; "JavaScript"]);
  mkTimelineItem "3" "2025"
    "PFE - AgencyBooking Reservation System" "EST Fquih Ben Salah"
    "Developed a full booking platform with WebSocket real-time notifications, JWT authentication, multi-role system, and automated email confirmations."
    (Some "/assets/spring.webp") Education (Some ["Spring Boot"; "Java 21"; "PostgreSQL"; "WebSocket"]);
  mkTimelineItem "4" "2025 - 2026"
    "Licence DAIA (Bac+3)" "EST Casablanca"
    "Specialization in Application Development and Artificial Intelligence. Covering advanced OOP, machine learning, full-stack development (Node.js, React, Angular), DevOps, and containerization."
    (Some "/assets/react-removebg-preview.webp") Education (Some ["React"; "Node.js"; "Docker"; "Machine Learning"]);
  mkTimelineItem "5" "2026"
    "DevOps Pipeline Project" "EST Casablanca"
    "Built complete DevOps infrastructure: KVM virtualization, Terraform provisioning, GitLab CI/CD, SonarQube analysis, Docker containerization, and Prometheus/Grafana monitoring."
    (Some "/assets/docker.webp") Education (Some ["Docker"; "Terraform"; "GitLab CI"; "Prometheus"])
].

(** ** [sections/SkillsShowcaseSection.tsx], lines 4-84 *)

Record Skill : Type := mkSkill {
  s_name : string;
  s_logo : option string;
  s_color : string;
  s_logoBg : option string
}.

Record SkillCategory : Type := mkSkillCategory { c_name : string; c_skills : list Skill }.

Definition skillCategories : list SkillCategory := [
  mkSkillCategory "Programming Languages"
    [mkSkill "Java" (Some "/assets/logo-java.webp") "from-orange-500 to-red-600" None;
     mkSkill "Python" (Some "/assets/python.webp") "from-blue-500 to-yellow-500" None;
     mkSkill "JavaScript" (Some "/assets/js-removebg-preview.webp") "from-yellow-400 to-yellow-600" None;
     mkSkill "TypeScript" (Some "/assets/ts-removebg-preview.webp") "from-blue-500 to-blue-700" None;
     mkSkill "C" (Some "/assets/c.webp") "from-blue-600 to-blue-800" None;
     mkSkill "PHP" (Some "/assets/php.webp") "from-indigo-500 to-purple-600" None];
  mkSkillCategory "Frontend"
    [mkSkill "React" (Some "/assets/react-removebg-preview.webp") "from-cyan-400 to-blue-500" None;
     mkSkill "Angular" (Some "/assets/anguar-removebg-preview.webp") "from-red-500 to-red-700" None;
     mkSkill "Next.js" (Some "/assets/nextjs-removebg-preview.webp") "from-gray-700 to-gray-900" None;
     mkSkill "HTML" (Some "/assets/html-removebg-preview.webp") "from-orange-500 to-orange-700" None;
     mkSkill "CSS" (Some "/assets/css-removebg-preview.webp") "from-blue-500 to-blue-700" None];
  mkSkillCategory "Backend"
    [mkSkill "Spring Boot" (Some "/assets/spring.webp") "from-green-500 to-emerald-600" None;
     mkSkill "Node.js" (Some "/assets/nodejs-removebg-preview.webp") "from-green-600 to-green-700" None;
     mkSkill "J2EE" (Some "/assets/jee.webp") "from-orange-500 to-red-600" None];
  mkSkillCategory "Mobile"
    [mkSkill "Flutter" (Some "/assets/logo-flutter.webp") "from-cyan-400 to-blue-600" None];
  mkSkillCategory "Databases"
    [mkSkill "PostgreSQL" (Some "/assets/logo-postgres.webp") "from-blue-600 to-blue-800" None;
     mkSkill "MySQL" (Some "/assets/logo-mysql.webp") "from-blue-600 to-orange-500" None;
     mkSkill "Oracle" (Some "/assets/logo-oracle.webp") "from-red-600 to-red-700" None;
     mkSkill "MongoDB" (Some "/assets/logo-mongodb.webp") "from-green-500 to-green-700" None;
     mkSkill "SQLite" (Some "/assets/logo-sqlite.webp") "from-blue-400 to-blue-600" None;
     mkSkill "SQL/PL-SQL" (Some "/assets/sql_plsql.webp") "from-orange-500 to-red-500" None];
  mkSkillCategory "DevOps & Tools"
    [mkSkill "Docker" (Some "/assets/docker.webp") "from-blue-400 to-blue-600" None;
     mkSkill "Git" (Some "/assets/git.webp") "from-orange-500 to-red-600" None;
     mkSkill "GitHub" (Some "/assets/github.webp") "from-gray-700 to-gray-900" None;
     mkSkill "GitLab" (Some "/assets/gitlab.webp") "from-orange-500 to-red-600" None;
     mkSkill "Postman" (Some "/assets/postman-removebg-preview.webp") "from-orange-500 to-orange-700" None];
  mkSkillCategory "Operating Systems & Virtualization"
    [mkSkill "Linux" (Some "/assets/linux-removebg-preview.webp") "from-yellow-500 to-yellow-700" None;
     mkSkill "Ubuntu" (Some "/assets/ubuntu-removebg-preview.webp") "from-orange-500 to-red-600" None;
     mkSkill "Windows" (Some "/assets/windows-removebg-preview.webp") "from-blue-500 to-blue-700" None;
     mkSkill "VMware" (Some "/assets/vmware-removebg-preview.webp") "from-gray-600 to-gray-800" None;
     mkSkill "KVM/QEMU" (Some "/assets/kmv-removebg-preview.webp") "from-orange-500 to-red-600" None]
].

(** ** The other keyed lists the sections render *)

(** [sections/Footer.tsx], lines 7-11 and 19-23. *)
Definition socialLinks (cfg : SiteConfig) : list (string * string) :=
  [("GitHub", github (social cfg)); ("LinkedIn", linkedin (social cfg));
   ("Twitter", twitter (social cfg))].

Definition codeSymbols : list string :=
  ["<div>"; "</>"; "{  }"; "( )"; "[ ]"; "&&"; "=>"; "==="; "const"; "async"; "return";
   ".map()"; "flex"; "grid"; "@keyframes"; "transform"; "::after"; ":hover"].

(** [components/MobileMenu.tsx], lines 12-18: (name, href). *)
Definition navItems : list (string * string) :=
  [("About", "#about"); ("Skills", "#skills"); ("Projects", "#projects");
   ("Timeline", "#timeline"); ("Contact", "#contact")].

(** [sections/HeroSection.tsx], lines 7-32: (src, alt). *)
Definition orbitLogos : list (string * string) :=
  [("/assets/logo-java.webp", "Java"); ("/assets/python.webp", "Python");
   ("/assets/ts-removebg-preview.webp", "TypeScript"); ("/assets/spring.webp", "Spring");
   ("/assets/logo-flutter.webp", "Flutter"); ("/assets/logo-postgres.webp", "PostgreSQL");
   ("/assets/logo-mysql.webp", "MySQL"); ("/assets/logo-mongodb.webp", "MongoDB")].

Definition leftGridLogos : list (string * string) :=
  [("/assets/docker.webp", "Docker"); ("/assets/git.webp", "Git");
   ("/assets/github.webp", "GitHub"); ("/assets/gitlab.webp", "GitLab")].

Definition rightGridLogos : list (string * string) :=
  [("/assets/react-removebg-preview.webp", "React"); ("/assets/anguar-removebg-preview.webp", "Angular");
   ("/assets/nextjs-removebg-preview.webp", "Next.js"); ("/assets/nodejs-removebg-preview.webp", "Node.js")].

(** [sections/ProjectShowcase.tsx], lines 154-170: (src, alt). *)
Definition techStack : list (string * string) :=
  [("/assets/python.webp", "Python"); ("/assets/logo-java.webp", "Java");
   ("/assets/spring.webp", "Spring Boot"); ("/assets/html-removebg-preview.webp", "HTML/CSS");
   ("/assets/js-removebg-preview.webp", "JavaScript"); ("/assets/nodejs-removebg-preview.webp", "Node.js");
   ("/assets/anguar-removebg-preview.webp", "Angular"); ("/assets/logo-flutter.webp", "Flutter");
   ("/assets/logo-oracle.webp", "Oracle"); ("/assets/logo-mysql.webp", "MySQL");
   ("/assets/logo-postgres.webp", "PostgreSQL"); ("/assets/logo-mongodb.webp", "MongoDB");
   ("/assets/dart-removebg-preview.webp", "Dart"); ("/assets/expressjs-removebg-preview.webp", "Express.js");
   ("/assets/maven-removebg-preview.webp", "Maven")].

(** The keys React renders each list with ([key=...] in the sections). *)
Definition keyed_lists : list (list string) :=
  [map p_id projectsData; map t_id timelineData; map c_name skillCategories]
  ++ map (fun c => map s_name (c_skills c)) skillCategories
  ++ map (fun t => match t_technologies t with Some ts => ts | None => [] end) timelineData
  ++ [specialties siteConfig; map fst (socialLinks siteConfig); map fst navItems; map snd orbitLogos;
      map snd leftGridLogos; map snd rightGridLogos; map snd techStack].

(** ** The page ([App.tsx], lines 56-76) and its links *)

(** The sections in the order [App] renders them, with the [id]s they
    declare. *)
Definition page_sections : list (string * list string) :=
  [("HeroSection", []); ("AboutSection", ["about"]); ("MissionSection", []);
   ("SkillsShowcaseSection", []); ("ProjectShowcase", ["projects"; "skills"]);
   ("TimelineSection", ["timeline"]); ("Footer", ["contact"])].

Definition page_anchors : list string := flat_map snd page_sections.

(** [components/Header.tsx], lines 61-92. *)
Definition header_links : list string := ["#about"; "#projects"; "#timeline"; "#contact"; "/cv.pdf"].

(** Every link of the page that stays on the site: the header, the
    mobile menu and its CV button, the hero's and the project section's
    buttons, the about section's resume button. *)
Definition site_links : list string :=
  header_links ++ map snd navItems ++ ["/cv.pdf"; "#projects"; "#skills"; resumeUrl siteConfig].

Definition anchor_of (href : string) : option string :=
  match href with String c id => if Ascii.eqb c "#"%char then Some id else None | _ => None end.

(** A link reaches one anchor of the page, or is the CV file. *)
Definition link_ok (href : string) : bool :=
  match anchor_of href with
  | Some id => Nat.eqb (count_occ string_dec page_anchors id) 1
  | None => String.eqb href "/cv.pdf"
  end.


(** What the page shows of its owner as short facts, taken from the
    data the sections render: the profile ([config/site.ts]), the
    specialties and the footer's profiles, every project's title, tags
    and links, every skill category and skill, every timeline item's
    period, title, institution and technologies, the technology grid of
    the projects section and the hero's logos.  Prose (the bio and the
    descriptions) is left out: the prompt rewords it. *)
Definition page_facts : list string :=
  [name siteConfig; title siteConfig; location siteConfig; email siteConfig]
  ++ specialties siteConfig ++ map snd (socialLinks siteConfig)
  ++ flat_map (fun p => p_title p :: p_tags p ++ opt_list (p_githubUrl p) ++ opt_list (p_liveUrl p))
              projectsData
  ++ flat_map (fun c => c_name c :: map s_name (c_skills c)) skillCategories
  ++ flat_map (fun t => t_year t :: t_title t :: t_institution t ::
                        match t_technologies t with Some ts => ts | None => [] end) timelineData
  ++ map snd techStack ++ map snd orbitLogos ++ map snd leftGridLogos ++ map snd rightGridLogos.

(** The facts the prompt does not state as the page writes them. *)
Definition prompt_omits : list string :=
  [twitter (social siteConfig); "2023 - 2025"; "2025 - 2026"; "Machine Learning"; "HTML/CSS"; "Dart"; "Maven"].

(** ** Lemmas *)

Lemma link_ok_spec (href : string) :
  link_ok href = true ->
  match anchor_of href with
  | Some id => count_occ string_dec page_anchors id = 1
  | None => href = "/cv.pdf"
  end.
Proof.
  unfold link_ok. destruct (anchor_of href); [apply Nat.eqb_eq | apply String.eqb_eq].
Qed.

Lemma existsb_eqb_in (f : string) (l : list string) : existsb (String.eqb f) l = true <-> In f l.
Proof.
  rewrite existsb_exists. split.
  - intros (g & Hg & E). apply String.eqb_eq in E. subst g. exact Hg.
  - intros Hi. exists f. split; [exact Hi | apply String.eqb_refl].
Qed.

(** ** Theorems *)

(** React keys are unique in every list the sections render
    with a [key]: projects and timeline items by [id], skill categories
    and skills by name, the timeline items' technologies, the
    specialties, the footer's profiles, the menu's entries, the hero's
    logos and the technology grid. *)
Theorem react_keys_unique : Forall (@NoDup string) keyed_lists.
Proof. apply (forallb_Forall unique_keys); [exact unique_keys_nodup | vm_compute; reflexivity]. Qed.

(** Every link of the page that stays on the site reaches
    exactly one anchor of the page ([#skills] is the block inside the
    projects section), or is the CV file [siteConfig.resumeUrl]. *)
Theorem site_links_resolve :
  Forall (fun href => match anchor_of href with
                      | Some id => count_occ string_dec page_anchors id = 1
                      | None => href = "/cv.pdf"
                      end) site_links.
Proof. apply (forallb_Forall link_ok); [exact link_ok_spec | vm_compute; reflexivity]. Qed.

(** C34.  The assistant's system prompt (lines 1-88 of [api/chat.js])
    against the short facts the page shows of its owner ([page_facts]:
    profile, profiles, projects, skills, timeline, technologies; prose
    left out): a fact appears verbatim in the prompt exactly when it is
    not one of [prompt_omits] — the footer's Twitter profile, the two
    periods the prompt writes without spaces, the timeline tag
    [Machine Learning] (the prompt says [ML]), and [HTML/CSS], [Dart]
    and [Maven] of the technology grid. *)
Theorem prompt_states_page (f : string) :
  In f page_facts ->
  ((exists a b, SYSTEM_PROMPT = (a ++ f ++ b)%string) <-> ~ In f prompt_omits).
Proof.
  intros Hin. rewrite <- contains_iff.
  assert (H : forallb (fun f => Bool.eqb (contains f SYSTEM_PROMPT)
                                         (negb (existsb (String.eqb f) prompt_omits)))
                      page_facts = true) by (vm_compute; reflexivity).
  rewrite forallb_forall in H. specialize (H f Hin). apply Bool.eqb_prop in H.
  rewrite H, negb_true_iff, <- not_true_iff_false, existsb_eqb_in. reflexivity.
Qed.

(** The footer's LinkedIn and Twitter profiles are placeholders, and the
    prompt gives visitors the LinkedIn one. *)
Example placeholder_profiles :
  linkedin (social siteConfig) = "https://linkedin.com/in/username" /\
  twitter (social siteConfig) = "https://twitter.com/username" /\
  exists a b, SYSTEM_PROMPT = (a ++ linkedin (social siteConfig) ++ b)%string.
Proof. split; [reflexivity | split; [reflexivity|]]. apply contains_iff. vm_compute. reflexivity. Qed.

Lemma prompt_states_page_witness :
  In "Maven" page_facts /\
  ((exists a b, SYSTEM_PROMPT = (a ++ "Maven" ++ b)%string) <-> ~ In "Maven" prompt_omits).
Proof.
  assert (H : In "Maven" page_facts) by (apply existsb_eqb_in; vm_compute; reflexivity).
  split; [exact H | exact (prompt_states_page "Maven" H)].
Defined.
