(* ===== verification/Dom.v ===== *)
(** * The rendered page as a tree

    What a React component renders, as the tree the browser builds from
    it: elements with their tag, React [key], attributes and children;
    text; and the arrays a [.map(...)] call puts among an element's
    children, which React reconciles by key.  The components of
    [Sections.v] render into this type.

    Only the attributes that carry meaning for the browser are kept:
    [id], [href], [target], [rel], [download], [src], [alt],
    [aria-label], [loading].  Styling ([className], [style]) and the
    animation props of framer-motion are left out.  A [lucide-react]
    icon renders as an [svg] element without text.

    The checks are the rules a page must follow to work as written:
    - React keys: every element of an array has a key, and the keys of
      one array are distinct;
    - identifiers: no [id] occurs twice in the document;
    - in-page links: a link [#x] reaches exactly one element with id [x];
    - links that open a new tab ([target="_blank"]) carry
      [rel="noopener"], so the opened page cannot reach [window.opener];
    - every image has an [alt] attribute, and every link has an
      accessible name (its [aria-label], or its text and image
      alternatives).
    Each check is a boolean function, evaluated on the page by
    [vm_compute], with a lemma giving its meaning as a proposition. *)

From Stdlib Require Import String Ascii List Bool Arith.
From S2P Require Import Prelude.
Import ListNotations.
Open Scope string_scope.
Open Scope list_scope.

(** ** Nodes *)

Local Unset Elimination Schemes.

Inductive node : Type :=
| Elem (tag : string) (key : option string) (attrs : list (string * string)) (kids : list node)
| Txt (s : string)
| Arr (items : list node).

(** The generated eliminator gives no hypothesis on the children; this
    one carries a motive for the lists of children. *)
Section node_rect.
Variable P : node -> Type.
Variable P_list : list node -> Type.
Hypothesis P_nil : P_list [].
Hypothesis P_cons : forall n l, P n -> P_list l -> P_list (n :: l).
Hypothesis P_elem : forall t k a l, P_list l -> P (Elem t k a l).
Hypothesis P_txt : forall s, P (Txt s).
Hypothesis P_arr : forall l, P_list l -> P (Arr l).

Fixpoint node_rect (n : node) : P n :=
  let fix go (l : list node) : P_list l :=
    match l with
    | [] => P_nil
    | n :: l => P_cons n l (node_rect n) (go l)
    end in
  match n with
  | Elem t k a l => P_elem t k a l (go l)
  | Txt s => P_txt s
  | Arr l => P_arr l (go l)
  end.
End node_rect.

Section node_ind.
Variable P : node -> Prop.
Hypothesis P_elem : forall t k a l, Forall P l -> P (Elem t k a l).
Hypothesis P_txt : forall s, P (Txt s).
Hypothesis P_arr : forall l, Forall P l -> P (Arr l).

Definition node_ind (n : node) : P n :=
  node_rect P (Forall P) (Forall_nil _) (fun n l Hn Hl => Forall_cons _ Hn Hl)
    P_elem P_txt P_arr n.
End node_ind.

Local Set Elimination Schemes.

(** [{cond && <X/>}]: the element, or nothing. *)
Definition when (b : bool) (n : node) : list node := if b then [n] else [].

(** [{x && <X x/>}] on an optional string: rendered when [x] is a
    non-empty string. *)
Definition when_some (o : option string) (f : string -> node) : list node :=
  match o with Some x => if String.eqb x "" then [] else [f x] | None => [] end.

(** A lucide-react icon. *)
Definition icon : node := Elem "svg" None [] [].

(** A component instance with a [key]: the key is on its root. *)
Definition keyed (k : string) (n : node) : node :=
  match n with Elem t _ a kids => Elem t (Some k) a kids | n => n end.

(** ** Reading a node *)

Fixpoint lookup_attr (a : string) (attrs : list (string * string)) : option string :=
  match attrs with
  | [] => None
  | (a', v) :: attrs' => if String.eqb a a' then Some v else lookup_attr a attrs'
  end.

Definition attr (a : string) (n : node) : option string :=
  match n with Elem _ _ attrs _ => lookup_attr a attrs | _ => None end.

Definition tag_is (t : string) (n : node) : bool :=
  match n with Elem t' _ _ _ => String.eqb t t' | _ => false end.

Definition key_of (n : node) : option string :=
  match n with Elem _ k _ _ => k | _ => None end.

(** Every node of the tree, in document order. *)
Fixpoint nodes (n : node) : list node :=
  n :: match n with
       | Elem _ _ _ kids | Arr kids => flat_map nodes kids
       | Txt _ => []
       end.

(** The text a screen reader reads for a subtree: its text, and the
    [alt] of its images. *)
Fixpoint label_text (n : node) : string :=
  match n with
  | Txt s => s
  | Elem t _ attrs kids =>
      if String.eqb t "img" then match lookup_attr "alt" attrs with Some s => s | None => "" end
      else str_concat (map label_text kids)
  | Arr kids => str_concat (map label_text kids)
  end.

(** The accessible name of a link: its [aria-label], else its text. *)
Definition accessible_name (n : node) : string :=
  match attr "aria-label" n with Some s => s | None => label_text n end.

Definition links (n : node) : list node := filter (tag_is "a") (nodes n).
Definition buttons (n : node) : list node := filter (tag_is "button") (nodes n).
Definition images (n : node) : list node := filter (tag_is "img") (nodes n).
Definition ids (n : node) : list string := flat_map (fun m => opt_list (attr "id" m)) (nodes n).
Definition hrefs (n : node) : list string := flat_map (fun m => opt_list (attr "href" m)) (links n).

(** The fragment of an in-page link [#x]. *)
Definition fragment (href : string) : option string :=
  match href with String c x => if Ascii.eqb c "#"%char then Some x else None | _ => None end.

(** ** The checks *)

(** Every element of an array has a key, and no key occurs twice. *)
Definition array_keyed (n : node) : bool :=
  match n with
  | Arr items => forallb (fun m => match key_of m with Some _ => true | None => false end) items
                 && unique_keys (flat_map (fun m => opt_list (key_of m)) items)
  | _ => true
  end.

Definition keys_ok (n : node) : bool := forallb array_keyed (nodes n).

Definition ids_ok (n : node) : bool := unique_keys (ids n).

(** [href="#x"] reaches one element with id [x]; [href="#"] is the top
    of the page. *)
Definition anchor_ok (page : node) (href : string) : bool :=
  match fragment href with
  | Some "" => true
  | Some x => Nat.eqb (count_occ string_dec (ids page) x) 1
  | None => true
  end.

Definition anchors_ok (page : node) : bool := forallb (anchor_ok page) (hrefs page).

Definition opener_safe (m : node) : bool :=
  match attr "target" m with
  | Some t => negb (String.eqb t "_blank") ||
              match attr "rel" m with Some r => contains "noopener" r | None => false end
  | None => true
  end.

Definition openers_ok (n : node) : bool := forallb opener_safe (links n).

Definition alts_ok (n : node) : bool :=
  forallb (fun m => match attr "alt" m with Some _ => true | None => false end) (images n).

Definition named (m : node) : bool := negb (String.eqb (accessible_name m) "").

(** Every link and every button has an accessible name. *)
Definition names_ok (n : node) : bool := forallb named (links n ++ buttons n).

(** ** Equality *)

Definition opt_str_eqb (o o' : option string) : bool :=
  match o, o' with
  | Some a, Some b => String.eqb a b
  | None, None => true
  | _, _ => false
  end.

Fixpoint attrs_eqb (a a' : list (string * string)) : bool :=
  match a, a' with
  | [], [] => true
  | (x, v) :: a, (y, w) :: a' => String.eqb x y && String.eqb v w && attrs_eqb a a'
  | _, _ => false
  end.

Fixpoint node_eqb (n m : node) {struct n} : bool :=
  let fix kids_eqb (l l' : list node) : bool :=
    match l, l' with
    | [], [] => true
    | x :: l, y :: l' => node_eqb x y && kids_eqb l l'
    | _, _ => false
    end in
  match n, m with
  | Elem t k a kids, Elem t' k' a' kids' =>
      String.eqb t t' && opt_str_eqb k k' && attrs_eqb a a' && kids_eqb kids kids'
  | Txt s, Txt s' => String.eqb s s'
  | Arr l, Arr l' => kids_eqb l l'
  | _, _ => false
  end.

Lemma opt_str_eqb_eq (o o' : option string) : opt_str_eqb o o' = true -> o = o'.
Proof. destruct o, o'; cbn; try discriminate; [intros ->%String.eqb_eq|]; reflexivity. Qed.

Lemma attrs_eqb_eq (a a' : list (string * string)) : attrs_eqb a a' = true -> a = a'.
Proof.
  revert a'. induction a as [|[x v] a IH]; intros [|[y w] a']; cbn; try discriminate; [reflexivity|].
  intros [[->%String.eqb_eq ->%String.eqb_eq]%andb_true_iff ->%IH]%andb_true_iff. reflexivity.
Qed.

Lemma node_eqb_eq (n m : node) : node_eqb n m = true -> n = m.
Proof.
  assert (Hl : forall l, Forall (fun x => forall y, node_eqb x y = true -> x = y) l ->
     forall l', (fix kids_eqb (l l' : list node) : bool :=
                   match l, l' with
                   | [], [] => true
                   | x :: l, y :: l' => node_eqb x y && kids_eqb l l'
                   | _, _ => false
                   end) l l' = true -> l = l').
  { induction l as [|x l IH]; intros Hf [|y l']; try discriminate; [reflexivity|].
    inversion Hf as [|? ? Hx Hr]; subst.
    intros [->%Hx ->%(IH Hr)]%andb_true_iff. reflexivity. }
  revert m. induction n as [t k a kids IH| s | items IH] using node_ind;
    intros [t' k' a' kids'| s' | items']; cbn [node_eqb]; try discriminate.
  - intros [[[->%String.eqb_eq ->%opt_str_eqb_eq]%andb_true_iff ->%attrs_eqb_eq]%andb_true_iff
            ->%(Hl _ IH)]%andb_true_iff. reflexivity.
  - now intros ->%String.eqb_eq.
  - now intros ->%(Hl _ IH).
Qed.

(** Membership of a node in a list, decided. *)
Lemma existsb_node_In (m : node) (l : list node) : existsb (node_eqb m) l = true -> In m l.
Proof.
  intros (x & Hx & ->%node_eqb_eq)%existsb_exists. exact Hx.
Qed.

(** ** Structure *)

Lemma nodes_self (n : node) : In n (nodes n).
Proof. destruct n; now left. Qed.

(** A node of a child is a node of its parent. *)
Lemma nodes_kid (m k : node) (t : string) (key : option string) (a : list (string * string))
    (kids : list node) :
  In k kids -> In m (nodes k) -> In m (nodes (Elem t key a kids)).
Proof. intros Hk Hm. right. apply in_flat_map. now exists k. Qed.

Create Rewrite HintDb dom_rw.

Lemma filter_flat_map {A B} (g : B -> bool) (f : A -> list B) (l : list A) :
  filter g (flat_map f l) = flat_map (fun x => filter g (f x)) l.
Proof. induction l as [|x l IH]; [reflexivity|]. cbn [flat_map]. now rewrite filter_app, IH. Qed.

Lemma links_elem (t : string) (k : option string) (a : list (string * string)) (kids : list node) :
  links (Elem t k a kids) =
  (if String.eqb "a" t then [Elem t k a kids] else []) ++ flat_map links kids.
Proof.
  unfold links. cbn [nodes filter tag_is]. rewrite filter_flat_map.
  now destruct (String.eqb "a" t).
Qed.

Lemma links_arr (items : list node) : links (Arr items) = flat_map links items.
Proof.
  unfold links. cbn [nodes filter tag_is]. apply filter_flat_map.
Qed.

Lemma links_txt (s : string) : links (Txt s) = [].
Proof. reflexivity. Qed.

#[export] Hint Rewrite links_elem links_arr links_txt flat_map_app : dom_rw.

Lemma forallb_flat_map {A B} (f : B -> bool) (g : A -> list B) (l : list A) :
  forallb f (flat_map g l) = forallb (fun x => forallb f (g x)) l.
Proof. induction l as [|x l IH]; [reflexivity|]. cbn. now rewrite forallb_app, IH. Qed.

#[export] Hint Rewrite @forallb_flat_map @forallb_app : dom_rw.

(** ** What the checks mean *)

(** React's rule on the arrays of a tree. *)
Definition arrays_keyed (n : node) : Prop :=
  Forall (fun m => forall items, m = Arr items ->
            Forall (fun c => key_of c <> None) items /\
            NoDup (flat_map (fun c => opt_list (key_of c)) items)) (nodes n).

Lemma keys_ok_spec (n : node) : keys_ok n = true -> arrays_keyed n.
Proof.
  apply forallb_Forall. intros m H items ->.
  cbn in H. apply andb_true_iff in H as [Hk Hu]. split; [|exact (unique_keys_nodup _ Hu)].
  refine (forallb_Forall _ _ _ _ Hk). intros m Hm. destruct (key_of m); [discriminate | discriminate Hm].
Qed.

(** An element is keyed as React requires when its children are. *)
Lemma arrays_keyed_elem (t : string) (k : option string) (a : list (string * string))
    (kids : list node) :
  Forall arrays_keyed kids -> arrays_keyed (Elem t k a kids).
Proof.
  intros H. unfold arrays_keyed. cbn [nodes]. constructor; [intros items E; discriminate E|].
  apply Forall_flat_map. exact H.
Qed.

Lemma ids_ok_spec (n : node) : ids_ok n = true -> NoDup (ids n).
Proof. apply unique_keys_nodup. Qed.

Lemma anchors_ok_spec (page : node) (href x : string) :
  anchors_ok page = true -> In href (hrefs page) -> fragment href = Some x -> x <> "" ->
  count_occ string_dec (ids page) x = 1.
Proof.
  unfold anchors_ok. rewrite forallb_forall. intros H Hin Hf Hx. specialize (H _ Hin).
  unfold anchor_ok in H. rewrite Hf in H. destruct x; [congruence|]. now apply Nat.eqb_eq.
Qed.

Lemma opener_safe_spec (m : node) :
  opener_safe m = true -> attr "target" m = Some "_blank" ->
  exists r, attr "rel" m = Some r /\ exists a b, r = (a ++ "noopener" ++ b)%string.
Proof.
  unfold opener_safe. intros H Ht. rewrite Ht in H. cbn in H.
  destruct (attr "rel" m) as [r|]; [|discriminate]. exists r. split; [reflexivity|].
  now apply contains_iff.
Qed.

Lemma openers_ok_spec (n : node) :
  openers_ok n = true ->
  Forall (fun m => attr "target" m = Some "_blank" ->
                   exists r, attr "rel" m = Some r /\ exists a b, r = (a ++ "noopener" ++ b)%string)
         (links n).
Proof. apply forallb_Forall. intros m Hm. now apply opener_safe_spec. Qed.

Lemma alts_ok_spec (n : node) :
  alts_ok n = true -> Forall (fun m => exists a, attr "alt" m = Some a) (images n).
Proof.
  apply forallb_Forall. intros m. destruct (attr "alt" m) as [a|]; [now exists a | discriminate].
Qed.

Lemma names_ok_spec (n : node) :
  names_ok n = true -> Forall (fun m => accessible_name m <> "") (links n ++ buttons n).
Proof.
  apply forallb_Forall. unfold named. intros m H E. rewrite E in H. discriminate.
Qed.

(** ** A property of every node

    [all_nodes P n] follows the shape of [n], so that a render function
    is checked for every input by unfolding it ([dom_all] in [Site.v]). *)

Local Unset Elimination Schemes.

Inductive all_nodes (P : node -> Prop) : node -> Prop :=
| all_elem t k a kids :
    P (Elem t k a kids) -> Forall (all_nodes P) kids -> all_nodes P (Elem t k a kids)
| all_txt s : P (Txt s) -> all_nodes P (Txt s)
| all_arr items : P (Arr items) -> Forall (all_nodes P) items -> all_nodes P (Arr items).

Local Set Elimination Schemes.

Lemma all_nodes_nodes (P : node -> Prop) (n : node) : all_nodes P n -> Forall P (nodes n).
Proof.
  induction n as [t k a kids IH| s | items IH] using node_ind; intros H; inversion H; subst;
    cbn [nodes]; constructor; try assumption; try constructor.
  all: apply Forall_flat_map; apply Forall_forall; intros c Hc;
       eapply (proj1 (Forall_forall _ _) IH); [exact Hc|];
       eapply (proj1 (Forall_forall _ _)); eassumption.
Qed.

(** The checks that look at the links or the images one at a time hold
    of a tree whose every link (image) passes them. *)
Lemma all_nodes_keyed (n : node) : all_nodes (fun m => array_keyed m = true) n -> arrays_keyed n.
Proof.
  intros H%all_nodes_nodes. apply keys_ok_spec. unfold keys_ok.
  apply forallb_forall. intros m Hm. exact (proj1 (Forall_forall _ _) H m Hm).
Qed.

Lemma all_nodes_filter (t : string) (f : node -> bool) (n : node) :
  all_nodes (fun m => tag_is t m = true -> f m = true) n -> forallb f (filter (tag_is t) (nodes n)) = true.
Proof.
  intros H%all_nodes_nodes. apply forallb_forall. intros m Hm.
  apply filter_In in Hm as [Hm Ht]. exact (proj1 (Forall_forall _ _) H m Hm Ht).
Qed.
