(* ===== verification/Page.v ===== *)
(** * The page's interactive parts and layout arithmetic

    - [App.tsx]: the app state ([isLoaded], [isChatOpen]) with the chat
      window mounted while it is open ([app_step]); closing unmounts
      [ChatWindow] and its state goes with it.
    - [components/Spline3DModel.tsx]: the width check and the deferred
      load of the 3D scene as a state machine of the two effects
      ([spline_step]), and its reachable states as an inductive relation.
    - [components/MobileMenu.tsx]: the sheet's [isOpen] ([menu_step]).
    - The arithmetic the sections lay their elements out with: the
      floating symbols of [sections/Footer.tsx], the alternating sides of
      [sections/TimelineSection.tsx], the stagger index of the skill cards
      of [sections/SkillsShowcaseSection.tsx]. *)

From Stdlib Require Import String Ascii List Bool ZArith Lia.
From S2P Require Import Prelude JsString Json JsonText JsonRoundtrip SseRelay ChatHandler Client Content.
Import ListNotations.
Open Scope string_scope.
Open Scope list_scope.

(** ** [sections/Footer.tsx], lines 44-62: the floating code symbols *)

(** [left: ((i * 17 + 5) % 95)%], [top: ((i * 23 + 10) % 90)%] *)
Definition symbol_left (i : Z) : Z := (i * 17 + 5) mod 95.
Definition symbol_top (i : Z) : Z := (i * 23 + 10) mod 90.

(** [duration: 6 + (i % 4) * 2] seconds. *)
Definition symbol_duration (i : Z) : Z := 6 + (i mod 4) * 2.

(** ** [sections/TimelineSection.tsx], lines 94-130 *)

(** [isLeft = index % 2 === 0] *)
Definition is_left (index : nat) : bool := Nat.eqb (index mod 2) 0.

(** The desktop columns a card is rendered in: (left, right). *)
Definition desktop_columns (index : nat) : bool * bool := (is_left index, negb (is_left index)).

(** ** [sections/SkillsShowcaseSection.tsx], line 186 *)

(** [index={categoryIndex * 6 + skillIndex}]: the card's animation delay
    is [index * 0.05] seconds. *)
Definition skill_index (categoryIndex skillIndex : nat) : nat := categoryIndex * 6 + skillIndex.

(** The (category, skill) positions the section renders. *)
Definition skill_positions : list (nat * nat) :=
  flat_map (fun cs => map (fun s => (fst cs, s)) (seq 0 (length (c_skills (snd cs)))))
           (combine (seq 0 (length skillCategories)) skillCategories).

(** ** [components/MobileMenu.tsx], lines 20-25 *)

Inductive menu_event : Type :=
| MenuTrigger                  (** the [SheetTrigger] button *)
| MenuOpenChange (open : bool) (** [onOpenChange]: overlay, close button, Escape *)
| MenuNavClick.                (** [handleNavClick]: a link or the CV button *)

Definition menu_step (ev : menu_event) (isOpen : bool) : bool :=
  match ev with
  | MenuTrigger => true
  | MenuOpenChange b => b
  | MenuNavClick => false
  end.

(** ** [components/Spline3DModel.tsx], lines 49-102 *)

Record spline_state : Type := mkSpline {
  is_mobile : bool;
  should_load : bool;
  timer_pending : bool      (** the [setTimeout] of line 63 is scheduled *)
}.

(** [window.innerWidth < 768] *)
Definition check_mobile (width : Z) : bool := (width <? 768)%Z.

(** [setIsMobile(b)]: a change re-runs the effect of lines 61-65, whose
    cleanup clears the pending timer and which schedules a new one on a
    desktop width. *)
Definition set_mobile (b : bool) (st : spline_state) : spline_state :=
  if Bool.eqb b (is_mobile st) then st else mkSpline b (should_load st) (negb b).

(** The first commit renders with [isMobile = false]: the first effect
    checks the width and the second, seeing [false], schedules the
    timer. *)
Definition spline_mount (width : Z) : spline_state :=
  set_mobile (check_mobile width) (mkSpline false false true).

Inductive spline_event : Type :=
| Resize (width : Z)
| TimerFires.

Definition spline_step (ev : spline_event) (st : spline_state) : spline_state :=
  match ev with
  | Resize width => set_mobile (check_mobile width) st
  | TimerFires => if timer_pending st then mkSpline (is_mobile st) true false else st
  end.

Inductive spline_view : Type := MobileFallback | SplineScene | LoadingFallback.

Definition spline_render (st : spline_state) : spline_view :=
  if is_mobile st then MobileFallback
  else if should_load st then SplineScene else LoadingFallback.

(** The states the component reaches, and those it reaches while the
    window never gets as wide as the breakpoint. *)
Inductive spline_reachable : spline_state -> Prop :=
| sr_mount (width : Z) : spline_reachable (spline_mount width)
| sr_step (ev : spline_event) (st : spline_state) :
    spline_reachable st -> spline_reachable (spline_step ev st).

Inductive mobile_reachable : spline_state -> Prop :=
| mr_mount (width : Z) : (width < 768)%Z -> mobile_reachable (spline_mount width)
| mr_resize (width : Z) (st : spline_state) :
    (width < 768)%Z -> mobile_reachable st -> mobile_reachable (spline_step (Resize width) st)
| mr_timer (st : spline_state) : mobile_reachable st -> mobile_reachable (spline_step TimerFires st).

(** ** [App.tsx], lines 21-86 *)

Record app_state : Type := mkApp {
  is_loaded : bool;
  chat : option chat_state    (** [ChatWindow]'s state while [isChatOpen] *)
}.

Definition app_initial : app_state := mkApp false None.

Inductive app_event : Type :=
| LoadTimer                   (** the [setTimeout] of line 31 *)
| OpenChat                    (** [onChatOpen] from the about section's 3D model *)
| CloseChat                   (** [onClose] of the chat window *)
| ChatInput (t_user t_asst : Z) (api : string -> fetch_reply) (ev : ui_event).

Definition app_step `{JsonCodec} (ev : app_event) (st : app_state) : app_state :=
  match ev with
  | LoadTimer => mkApp true (chat st)
  | OpenChat =>
      match chat st with
      | None => mkApp (is_loaded st) (Some initial_state)
      | Some _ => st
      end
  | CloseChat => mkApp (is_loaded st) None
  | ChatInput t_user t_asst api e =>
      match chat st with
      | Some c => mkApp (is_loaded st) (Some (after (ui_step t_user t_asst api e c)))
      | None => st
      end
  end.

(** The states the app reaches with a clock that reads after the epoch. *)
Inductive app_reachable `{JsonCodec} : app_state -> Prop :=
| ar_init : app_reachable app_initial
| ar_step (ev : app_event) (st : app_state) :
    (forall t_user t_asst api e, ev = ChatInput t_user t_asst api e -> (0 <= t_asst)%Z) ->
    app_reachable st -> app_reachable (app_step ev st).

(** The states the app reaches while the clock moves forward, as
    [Date.now()] does: [b] bounds the clock readings so far, and a chat
    event reads the clock later than [b] ([t_user]), then again no
    earlier ([t_asst]). *)
Inductive clock_reachable `{JsonCodec} : Z -> app_state -> Prop :=
| cr_init : clock_reachable 0 app_initial
| cr_step (ev : app_event) (b : Z) (st : app_state) :
    (forall t_user t_asst api e, ev <> ChatInput t_user t_asst api e) ->
    clock_reachable b st -> clock_reachable b (app_step ev st)
| cr_input (t_user t_asst b : Z) (api : string -> fetch_reply) (e : ui_event) (st : app_state) :
    (b < t_user)%Z -> (t_user <= t_asst)%Z ->
    clock_reachable b st -> clock_reachable (t_asst + 1) (app_step (ChatInput t_user t_asst api e) st).

(** ** Lemmas *)

(** An affine map [i * a + b] modulo [m], [a] prime to [m], takes
    distinct values on [0 .. m-1]. *)
Lemma affine_mod_injective (a b m i j : Z) :
  Z.gcd m a = 1%Z -> (0 <= i < j)%Z -> (j < m)%Z -> ((i * a + b) mod m <> (j * a + b) mod m)%Z.
Proof.
  intros Hp Hij Hjm E.
  assert (Hm : (0 < m)%Z) by lia.
  assert (Hd : (m | a * (j - i))%Z).
  { exists ((j * a + b) / m - (i * a + b) / m)%Z.
    pose proof (Z.div_mod (i * a + b) m ltac:(lia)) as D1.
    pose proof (Z.div_mod (j * a + b) m ltac:(lia)) as D2. nia. }
  apply Z.gauss in Hd; [|exact Hp]. destruct Hd as [k Hk].
  destruct (Z.le_gt_cases k 0); nia.
Qed.

Lemma is_left_even (i : nat) : is_left i = Nat.even i.
Proof.
  induction i as [i IH] using lt_wf_ind. destruct i as [|[|i]]; [reflexivity | reflexivity|].
  unfold is_left in *. replace (S (S i)) with (i + 1 * 2) by lia.
  rewrite Nat.Div0.mod_add. rewrite (IH i) by lia.
  replace (i + 1 * 2) with (S (S i)) by lia. reflexivity.
Qed.

(** Every category renders at most six cards. *)
Lemma skill_positions_bound (p : nat * nat) : In p skill_positions -> snd p < 6.
Proof.
  intros H. assert (B : forallb (fun q => Nat.ltb (snd q) 6) skill_positions = true)
    by (vm_compute; reflexivity).
  rewrite forallb_forall in B. apply Nat.ltb_lt, B, H.
Qed.

Lemma set_mobile_same (st : spline_state) : set_mobile (is_mobile st) st = st.
Proof. unfold set_mobile. now rewrite eqb_reflx. Qed.

(** On a desktop width the scene is loaded, or its timer is pending. *)
Lemma spline_desktop_progress (st : spline_state) :
  spline_reachable st -> is_mobile st = false -> timer_pending st = false -> should_load st = true.
Proof.
  induction 1 as [w|[w|] st _ IH]; cbn [spline_step].
  - unfold spline_mount, set_mobile. destruct (check_mobile w); cbn; congruence.
  - unfold set_mobile. destruct (Bool.eqb _ _); [exact IH|]. destruct (check_mobile w); cbn; congruence.
  - destruct (timer_pending st) eqn:T; cbn; [reflexivity | now rewrite T].
Qed.

(** The head of the conversation survives an update of another message. *)
Lemma hd_set_content (aid c : string) (w : message) (ms : list message) :
  msg_id w <> aid -> hd_error (set_content aid c (w :: ms)) = Some w.
Proof. intros Hn. simpl. apply String.eqb_neq in Hn. now rewrite Hn. Qed.

Lemma ui_step_messages `{JsonCodec} (t_user t_asst : Z) (api : string -> fetch_reply)
    (ev : ui_event) (st : chat_state) :
  messages (after (ui_step t_user t_asst api ev st)) = messages st \/
  exists o, ui_step t_user t_asst api ev st = send_message o t_user t_asst api st.
Proof.
  destruct ev; unfold ui_step;
    repeat match goal with |- context [if ?b then _ else _] => destruct b end;
    (now left) || (right; eexists; reflexivity).
Qed.

(** A chat event keeps the welcome message first. *)
Lemma ui_step_welcome `{JsonCodec} (t_user t_asst : Z) (api : string -> fetch_reply)
    (ev : ui_event) (st : chat_state) :
  (0 <= t_asst)%Z -> hd_error (messages st) = Some WELCOME ->
  hd_error (messages (after (ui_step t_user t_asst api ev st))) = Some WELCOME.
Proof.
  intros Ht Hh. destruct (ui_step_messages t_user t_asst api ev st) as [->|[o ->]]; [exact Hh|].
  destruct (messages st) as [|w ms] eqn:E; [discriminate|]. injection Hh as ->.
  assert (Hn : msg_id WELCOME <> print_Z (t_asst + 1))
    by (change (msg_id WELCOME) with (print_Z 0); intros Heq%print_Z_inj; lia).
  destruct (send_message_shape o t_user t_asst api st) as [->|[->|[c ->]]];
    cbn [after]; rewrite E; [reflexivity | reflexivity | now apply hd_set_content].
Qed.

(** The conversation's ids stay distinct and below the clock in every
    state the app reaches with a clock that moves forward. *)
Lemma clock_reachable_ids `{L : JsonLaws} (b : Z) (st : app_state) :
  clock_reachable b st ->
  (0 <= b)%Z /\
  match chat st with
  | Some c => NoDup (map msg_id (messages c)) /\ ids_below b (messages c)
  | None => True
  end.
Proof.
  induction 1 as [|ev b st Hev _ [Hb IH]|t_user t_asst b api e st Hu Ht _ [Hb IH]].
  - split; [lia | exact I].
  - split; [exact Hb|]. destruct ev as [| | |t_user t_asst api e]; cbn [app_step].
    + exact IH.
    + destruct (chat st) eqn:E; [rewrite E; exact IH|]. cbn [chat].
      split; [repeat constructor; intros []|].
      exact (ids_below_mono 0 b _ Hb ids_below_welcome).
    + exact I.
    + now destruct (Hev t_user t_asst api e).
  - split; [lia|]. cbn [app_step]. destruct (chat st) as [c|] eqn:E; [|now rewrite E].
    destruct IH as [Hd Hids]. cbn [chat].
    destruct (ui_step_messages t_user t_asst api e c) as [->|[o ->]].
    + split; [exact Hd | apply (ids_below_mono b); [lia | exact Hids]].
    + now apply (send_message_ids_distinct o t_user t_asst b).
Qed.

(** ** Theorems *)

(** C35.  On a window narrower than the breakpoint from the
    start, whatever resizes (staying narrow) and timers happen, the heavy
    3D scene is never loaded: the timer scheduled by the first commit is
    cleared when [isMobile] turns true, and the mobile placeholder is
    shown. *)
Theorem spline_never_loads_on_mobile (st : spline_state) :
  mobile_reachable st ->
  is_mobile st = true /\ should_load st = false /\ timer_pending st = false /\
  spline_render st = MobileFallback.
Proof.
  induction 1 as [w Hw|w st Hw _ (Hm & Hl & Ht & _)|st _ (Hm & Hl & Ht & _)].
  - unfold spline_mount, check_mobile. apply Z.ltb_lt in Hw. rewrite Hw. now repeat split.
  - cbn [spline_step]. unfold check_mobile. apply Z.ltb_lt in Hw. rewrite Hw, <- Hm, set_mobile_same.
    unfold spline_render. now rewrite Hm, Hl, Ht.
  - cbn [spline_step]. rewrite Ht. unfold spline_render. now rewrite Hm, Hl.
Qed.

(** In every reachable state, a pending load timer means
    the window is wide: a resize below the breakpoint always clears it. *)
Theorem spline_timer_only_on_desktop (st : spline_state) :
  spline_reachable st -> timer_pending st = true -> is_mobile st = false.
Proof.
  induction 1 as [w|[w|] st _ IH]; cbn [spline_step].
  - unfold spline_mount, set_mobile. destruct (check_mobile w); simpl; congruence.
  - unfold set_mobile. destruct (Bool.eqb _ _) eqn:E; [exact IH|]. simpl.
    destruct (check_mobile w); simpl; congruence.
  - destruct (timer_pending st) eqn:T; simpl; [discriminate | congruence].
Qed.

(** On a wide window the scene is shown once the
    deferred timer has fired. *)
Theorem spline_loads_on_desktop (width : Z) :
  (768 <= width)%Z -> spline_render (spline_step TimerFires (spline_mount width)) = SplineScene.
Proof.
  intros Hw. unfold spline_mount, check_mobile.
  replace (width <? 768)%Z with false by (symmetry; apply Z.ltb_ge; exact Hw). reflexivity.
Qed.

(** C28.  Invariant of the app: while the chat window is open, its
    conversation starts with the welcome message, unchanged by the
    stream's updates (which target the placeholder's id, never ["0"]). *)
Theorem app_keeps_welcome `{JsonCodec} (st : app_state) (c : chat_state) :
  app_reachable st -> chat st = Some c -> hd_error (messages c) = Some WELCOME.
Proof.
  intros R. revert c. induction R as [|ev st Hclock _ IH]; intros c Hc; [discriminate|].
  destruct ev as [| | |t_user t_asst api e]; cbn [app_step] in Hc.
  - exact (IH c Hc).
  - destruct (chat st) eqn:E; [apply IH; congruence|]. now injection Hc as <-.
  - discriminate.
  - destruct (chat st) as [c0|] eqn:E; [|apply IH; congruence]. injection Hc as <-.
    apply ui_step_welcome; [exact (Hclock _ _ _ _ eq_refl) | exact (IH c0 eq_refl)].
Qed.

(** The floating symbols of the footer get pairwise distinct
    horizontal and vertical positions. *)
Theorem symbols_spread (i j : Z) :
  (0 <= i < j)%Z -> (j < Z.of_nat (length codeSymbols))%Z ->
  symbol_left i <> symbol_left j /\ symbol_top i <> symbol_top j.
Proof.
  intros Hij Hj. cbn in Hj. unfold symbol_left, symbol_top.
  split; apply affine_mod_injective; (reflexivity || lia).
Qed.

(** The stagger index of the skill cards tells the cards
    apart: no two cards of the section share an index. *)
Theorem skill_index_injective (p q : nat * nat) :
  In p skill_positions -> In q skill_positions ->
  skill_index (fst p) (snd p) = skill_index (fst q) (snd q) -> p = q.
Proof.
  intros Hp Hq E. apply skill_positions_bound in Hp, Hq.
  destruct p as [c1 s1], q as [c2 s2]. unfold skill_index in E. simpl in *.
  assert (c1 = c2) by lia. subst. f_equal. lia.
Qed.

(** Timeline cards alternate between the two desktop
    columns, each rendered in exactly one of them. *)
Theorem timeline_alternates (i : nat) :
  is_left (S i) = negb (is_left i) /\ fst (desktop_columns i) = negb (snd (desktop_columns i)).
Proof.
  rewrite !is_left_even, Nat.even_succ, <- Nat.negb_even. split; [reflexivity|].
  simpl. now rewrite negb_involutive.
Qed.

(** Closing the chat window unmounts it: opened again, it starts over
    from the welcome message alone, whatever the conversation was. *)
Example chat_reopen_starts_over `{JsonCodec} (st : app_state) :
  chat (app_step OpenChat (app_step CloseChat st)) = Some initial_state.
Proof. reflexivity. Qed.

(** ** Witnesses *)

Lemma spline_never_loads_on_mobile_witness :
  let st := spline_step TimerFires (spline_step (Resize 400) (spline_mount 375)) in
  is_mobile st = true /\ should_load st = false /\ timer_pending st = false /\
  spline_render st = MobileFallback.
Proof.
  apply spline_never_loads_on_mobile. apply mr_timer, mr_resize; [lia|]. apply mr_mount. lia.
Defined.

Lemma spline_timer_only_on_desktop_witness :
  is_mobile (spline_step (Resize 1280) (spline_step (Resize 375) (spline_mount 1024))) = false.
Proof.
  apply spline_timer_only_on_desktop; [apply sr_step, sr_step, sr_mount | reflexivity].
Defined.

Lemma spline_loads_on_desktop_witness :
  spline_render (spline_step TimerFires (spline_mount 1440)) = SplineScene.
Proof. apply spline_loads_on_desktop. lia. Defined.

Lemma app_keeps_welcome_witness :
  hd_error (messages (after (ui_step 1000 1000 stream_api ClickSend hi_state))) = Some WELCOME.
Proof.
  apply (app_keeps_welcome (app_step (ChatInput 1000 1000 stream_api ClickSend)
                                     (mkApp false (Some hi_state)))).
  - apply ar_step; [intros ? ? ? ? E; injection E; intros; subst; lia|].
    change (mkApp false (Some hi_state))
      with (app_step (ChatInput 0 0 stream_api (Typed "What projects has he built?"))
                     (app_step OpenChat app_initial)).
    apply ar_step; [intros ? ? ? ? E; injection E; intros; subst; lia|].
    apply ar_step; [intros ? ? ? ? E; discriminate | apply ar_init].
  - reflexivity.
Defined.

Lemma symbols_spread_witness :
  symbol_left 0 <> symbol_left 17 /\ symbol_top 0 <> symbol_top 17.
Proof. apply symbols_spread; [lia | vm_compute; reflexivity]. Defined.

Lemma skill_index_injective_witness : (1, 2) = (1, 2).
Proof.
  apply (skill_index_injective (1, 2) (1, 2)); [vm_compute; tauto | vm_compute; tauto | reflexivity].
Defined.
