(* ===== verification/Sections.v ===== *)
(** * The sections and components as they render

    One definition per React component of [src/app/src], translated from
    its JSX into the tree of [Dom.v]: the same elements in the same order,
    with the same conditions ([&&], [? :]) and the same [.map] arrays and
    keys.  A component's data comes in as arguments where the component
    receives props or reads an imported constant, so that the theorems
    can speak of any content as well as of the site's own.  [Site.v]
    puts the sections together as [App.tsx] does.

    The theorems here are about single components: the icon-only links
    of a project card have no accessible name, and [OrbitingLogos] puts
    its logos at distinct angles.

    The render state of the stateful components comes from [Page.v]:
    [spline_view] for [Spline3DModel], [isOpen] for [MobileMenu], [is_left]
    for the sides of the timeline. *)

From Stdlib Require Import String Ascii List Bool ZArith QArith Lia.
From S2P Require Import Prelude JsString JsonText Content Dom Page.
Import ListNotations.
Open Scope string_scope.
Open Scope list_scope.
Open Scope nat_scope.

(** [xs.map((x, index) => f(index, x))] *)
Fixpoint imap_from {A B} (f : nat -> A -> B) (i : nat) (l : list A) : list B :=
  match l with
  | [] => []
  | x :: l' => f i x :: imap_from f (S i) l'
  end.

Definition imap {A B} (f : nat -> A -> B) (l : list A) : list B := imap_from f 0 l.

(** [key={index}]: React turns the number into its decimal string. *)
Definition index_key (i : nat) : string := print_Z (Z.of_nat i).

(** An element with text only. *)
Definition txt_el (t s : string) : node := Elem t None [] [Txt s].

Definition div (kids : list node) : node := Elem "div" None [] kids.

Definition img (src alt : string) : node :=
  Elem "img" None [("src", src); ("alt", alt); ("loading", "lazy")] [].

(** ** [components/FadeInView.tsx], lines 11-50: a [motion.div] around
    the children. *)
Definition fade_in (kids : list node) : node := div kids.

(** ** [components/VerticalLogoGrid.tsx], lines 14-84 *)
Definition vertical_logo_grid (logos : list (string * string)) : node :=
  div [Arr (map (fun '(src, alt) => Elem "div" (Some alt) [] [img src alt; div []]) logos)].

(** ** [components/OrbitingLogos.tsx], lines 17-108 *)

(** [angleStep = 360 / logos.length]: [Infinity] for no logo, when
    nothing is placed with it. *)
Definition angle_step (n : nat) : option Q :=
  match n with O => None | S _ => Some (inject_Z 360 / inject_Z (Z.of_nat n))%Q end.

(** [index * angleStep] degrees: where the [index]-th logo sits on the
    orbit, at [(cos, sin)] of that angle times [radius]. *)
Definition orbit_angle (n index : nat) : option Q :=
  option_map (fun step => inject_Z (Z.of_nat index) * step)%Q (angle_step n).

Definition orbiting_logos (logos : list (string * string)) : node :=
  div [Elem "div" None []
        [div [];
         Arr (map (fun '(src, alt) => Elem "div" (Some alt) [] [img src alt]) logos)]].

(** ** [components/Spline3DModel.tsx], lines 12-102 *)

Definition loading_fallback : node :=
  div [div [div []; txt_el "p" "Loading 3D Model..."]].

Definition mobile_fallback : node :=
  div [Elem "button" None [] [div [icon]; txt_el "p" "Chat with AI"]].

Definition spline_dom (v : spline_view) : node :=
  match v with
  | MobileFallback => div [mobile_fallback]
  | SplineScene =>
      div [Elem "canvas" None [] []; div [icon; txt_el "span" "Click to chat with AI"]]
  | LoadingFallback =>
      div [loading_fallback; div [icon; txt_el "span" "Click to chat with AI"]]
  end.

(** ** [sections/ProjectShowcase.tsx] *)

(** [data/projects.ts], line 10. *)
Definition category_name (c : category) : string :=
  match c with Web => "web" | Mobile => "mobile" | Backend => "backend" | Fullstack => "fullstack" end.

Definition new_tab (href : string) (kids : list node) : node :=
  Elem "a" None [("href", href); ("target", "_blank"); ("rel", "noopener noreferrer")] kids.

(** [ProjectCard], lines 10-116. *)
Definition project_card (p : Project) : node :=
  div [div [img (p_image p) (p_title p); div [txt_el "span" (category_name (p_category p))]];
       div [];
       div (when_some (p_githubUrl p) (fun u => new_tab u [icon])
            ++ when_some (p_liveUrl p) (fun u => new_tab u [icon]));
       div [div [Arr (imap (fun i tag => Elem "span" (Some (index_key i)) [] [Txt tag]) (p_tags p))];
            div [txt_el "h3" (p_title p);
                 txt_el "p" (p_description p);
                 div (when_some (p_githubUrl p) (fun u => new_tab u [icon; txt_el "span" "Source"])
                      ++ when_some (p_liveUrl p)
                           (fun u => new_tab u [icon; txt_el "span" "Live Demo"]))]]].

(** Lines 206-280: the five skill bars, written out one after the other. *)
Definition skill_bars : list (string * string) :=
  [("Backend (Java/Spring)", "55%"); ("Frontend (Angular/React)", "45%");
   ("Databases", "60%"); ("Mobile (Flutter)", "30%"); ("DevOps & CI/CD", "30%")].

Definition skill_bar (bar : string * string) : node :=
  div [div [txt_el "span" (fst bar); txt_el "span" (snd bar)]; div [div []]].

(** Lines 194-295: the block with [id="skills"]. *)
Definition skills_block : node :=
  Elem "div" None [("id", "skills")]
    [fade_in
       [div [div ([txt_el "p" "Technical Skills";
                   txt_el "h4" "Comprehensive full-stack expertise";
                   txt_el "p" "With years of experience across multiple domains, I bring a versatile skill set to every project. From database design to responsive UI, I handle it all.";
                   div (map skill_bar skill_bars)]);
             div [div [img "/assets/python.webp" "Python"; img "/assets/spring.webp" "Spring";
                       img "/assets/react-removebg-preview.webp" "Web Stack";
                       img "/assets/logo-java.webp" "Java"; img "/assets/logo-flutter.webp" "Flutter";
                       img "/assets/logo-mongodb.webp" "MongoDB"]]]]].

(** [ProjectShowcase], lines 118-299. *)
Definition project_showcase (projects : list Project) : node :=
  Elem "section" None [("id", "projects")]
    [div [fade_in [txt_el "p" "My Expertise";
                   txt_el "h2" "Experienced full-stack developer crafting scalable solutions across diverse technologies and platforms."];
          fade_in [div [txt_el "p" "From backend systems with Java Spring to modern frontend with Angular and Flutter, I deliver end-to-end solutions.";
                        Elem "a" None [("href", "#skills")] [txt_el "span" "View all skills"; icon]]];
          fade_in [txt_el "h3" "Technologies I Work With";
                   div [Arr (map (fun '(src, alt) =>
                                    Elem "div" (Some alt) [] [div [img src alt]; txt_el "span" alt])
                                 techStack)]];
          div [Arr (map (fun p => keyed (p_id p) (fade_in [project_card p])) projects)];
          skills_block]].

(** ** [sections/SkillsShowcaseSection.tsx] *)

(** [skill.name.charAt(0)] *)
Definition char_at0 (s : string) : string := String.substring 0 1 s.

(** [SkillCard], lines 85-150.  Its [index] prop only delays the
    animation. *)
Definition skill_card (s : Skill) : node :=
  div [div [div [];
            div [match s_logo s with
                 | Some l => if String.eqb l "" then div [txt_el "span" (char_at0 (s_name s))]
                             else div [img l (s_name s)]
                 | None => div [txt_el "span" (char_at0 (s_name s))]
                 end;
                 txt_el "p" (s_name s)];
            div []]].

(** [SkillsShowcaseSection], lines 152-221. *)
Definition skills_section (cats : list SkillCategory) : node :=
  Elem "section" None []
    [div [fade_in [txt_el "p" "Tech Arsenal"; txt_el "h2" "Technologies I Know";
                   txt_el "p" "A comprehensive toolkit built through continuous learning and hands-on experience, enabling me to tackle challenges from concept to deployment."];
          div [Arr (map (fun c =>
                 keyed (c_name c)
                   (fade_in [div [div [txt_el "h3" (c_name c); div []];
                                  div [Arr (map (fun s => keyed (s_name s) (skill_card s)) (c_skills c))]]]))
                 cats)];
          fade_in [div [div [txt_el "p" "30+"; txt_el "p" "Technologies"]; div [];
                        div [txt_el "p" "5+"; txt_el "p" "Projects"]; div [];
                        div [txt_el "p" "2+"; txt_el "p" "Years Learning"]]]]].

(** ** [sections/TimelineSection.tsx] *)

(** [CardContent], lines 11-92: the side it slides from only sets the
    animation. *)
Definition card_content (it : TimelineItem) : node :=
  div [div ([div [div [icon]; div [txt_el "p" (t_year it); txt_el "p" (t_institution it)]];
             txt_el "h4" (t_title it);
             txt_el "p" (t_description it)]
            ++ match t_technologies it with
               | Some ts => [div [Arr (map (fun t => Elem "span" (Some t) [] [Txt t]) ts)]]
               | None => []
               end
            ++ when_some (t_image it) (fun src => img src (t_title it)))].

(** [TimelineCard], lines 94-134: the desktop columns and the mobile copy. *)
Definition timeline_card (it : TimelineItem) (index : nat) : node :=
  div [div (when (is_left index) (card_content it));
       div [div []];
       div (when (negb (is_left index)) (card_content it));
       div [card_content it]].

(** [TimelineSection], lines 136-189. *)
Definition timeline_section (items : list TimelineItem) : node :=
  Elem "section" None [("id", "timeline")]
    [div [fade_in [txt_el "p" "My Journey"; txt_el "h2" "Education & Journey";
                   txt_el "p" "A timeline of my academic journey and hands-on projects that shaped my expertise."];
          fade_in [div [div []; txt_el "span" "Education"]];
          div [div [];
               div [Arr (imap (fun i it => keyed (t_id it) (timeline_card it i)) items)];
               div []]]].

(** ** [sections/AboutSection.tsx], lines 11-104 *)

Definition about_section (cfg : SiteConfig) (v : spline_view) : node :=
  Elem "section" None [("id", "about")]
    [div [div [fade_in [div [div [spline_dom v; div []; div []];
                             div [div [Elem "p" None [] [Txt (print_Z (yearsExperience cfg)); Txt "+"];
                                       txt_el "p" "Years Experience"]]]];
               fade_in [div [txt_el "p" "About Me"; txt_el "h2" (name cfg); txt_el "p" (title cfg);
                             txt_el "p" (bio cfg);
                             div [div [icon; txt_el "span" (location cfg)];
                                  div [icon; Elem "span" None []
                                               [Txt (print_Z (yearsExperience cfg));
                                                Txt "+ years of experience"]]];
                             div [txt_el "p" "Specialties";
                                  div [Arr (map (fun s => Elem "span" (Some s) [] [Txt s])
                                                (specialties cfg))]];
                             Elem "a" None [("href", resumeUrl cfg); ("download", "")]
                               [icon; Txt "Download CV"]]]]]].

(** ** [sections/MissionSection.tsx], lines 4-80 *)

Definition mission_text : string :=
  "Building robust, scalable applications with clean code and modern technologies to solve real-world problems.".

Definition mission_section : node :=
  Elem "section" None []
    [img "/assets/python.webp" ""; img "/assets/spring.webp" "";
     div [fade_in [Elem "p" None []
                     [Arr (imap (fun i w => Elem "span" (Some (index_key i)) [] [Txt w])
                                (js_split " "%char mission_text))]]]].

(** ** [sections/HeroSection.tsx], lines 34-170 *)

Definition mobile_logo (logo : string * string) : node :=
  Elem "img" (Some (snd logo)) [("src", fst logo); ("alt", snd logo); ("loading", "lazy")] [].

Definition hero_section : node :=
  Elem "section" None []
    [div [div [vertical_logo_grid leftGridLogos];
          div [div [orbiting_logos orbitLogos];
               div [Elem "img" None [("src", "/assets/laptop-center-removebg-preview.webp");
                                     ("alt", "Laptop with code")] []]];
          div [vertical_logo_grid rightGridLogos]];
     div [div [Arr (map mobile_logo (firstn 2 leftGridLogos))];
          div [Arr (map mobile_logo (firstn 2 rightGridLogos))]];
     div [div [Elem "a" None [("href", "#projects")] [txt_el "span" "View my projects"; icon];
               txt_el "p" "Full-Stack Developer | DevOps Enthusiast";
               div [txt_el "span" "Scroll down"; div [icon]]]]].

(** ** [sections/Footer.tsx], lines 6-252

    The [<style>] element of lines 195-249 holds the CSS of the aurora
    animation and is left out.  [year] is [new Date().getFullYear()]. *)

Definition social_icon (link : string * string) : node :=
  Elem "a" (Some (fst link))
    [("href", snd link); ("target", "_blank"); ("rel", "noopener noreferrer");
     ("aria-label", fst link)] [icon; div []].

Definition social_text (link : string * string) : node :=
  Elem "a" (Some (fst link)) [("href", snd link); ("target", "_blank"); ("rel", "noopener noreferrer")]
    [Txt (fst link)].

(** Line 172 as the file stores it: the bytes of [©] read as Latin-1
    and stored again as UTF-8, which the browser shows as [Â©]. *)
Definition copyright_sign : string := "Â©".

Definition footer (cfg : SiteConfig) (year : Z) : node :=
  Elem "footer" None [("id", "contact")]
    [div [div []; div []; div []; div [];
          Arr (imap (fun i s => Elem "span" (Some (index_key i)) [] [Txt s]) codeSymbols)];
     div [];
     div [fade_in [div [Elem "a" None [("href", "#")] [div [icon]; txt_el "span" "Top"]]];
          fade_in [txt_el "p" "Let's work together";
                   Elem "a" None [("href", ("mailto:" ++ email cfg)%string)] [txt_el "span" (email cfg); div []];
                   div [Arr (map social_icon (socialLinks cfg));
                        Elem "a" None [("href", ("mailto:" ++ email cfg)%string); ("aria-label", "Email")]
                          [icon; div []]]];
          fade_in [div [Elem "p" None [] [Txt (copyright_sign ++ " ")%string; Txt (print_Z year); Txt " ";
                                          Txt (name cfg)];
                        txt_el "p" "Crafted with React, TypeScript & Framer Motion";
                        div [Arr (map social_text (socialLinks cfg))]]]]].

(** ** [components/Header.tsx] and [components/MobileMenu.tsx] *)

Definition code_icon : node :=
  Elem "svg" None [] [Elem "path" None [] []; Elem "path" None [] []; Elem "path" None [] []].

(** [MobileMenu], lines 20-115, with its sheet open or closed.  The
    sheet's root renders no element of its own: the trigger button, and
    the sheet's content while it is open.  The sheet's own parts
    ([components/ui/sheet], not among the sources) are its title and the
    content. *)
Definition mobile_menu (isOpen : bool) : list node :=
  Elem "button" None [("aria-label", "Open menu")] [icon]
  :: when isOpen
       (div [div [txt_el "h2" "Navigation"];
             Elem "nav" None []
               [Arr (map (fun '(n, h) => Elem "a" (Some n) [("href", h)] [Txt n]) navItems)];
             div [Elem "a" None [("href", "/cv.pdf"); ("download", "")] [Txt "Download CV"]];
             div [code_icon]]).

(** [Header], lines 4-130. *)
Definition header (menuOpen : bool) : node :=
  Elem "header" None []
    [div ([div [code_icon; txt_el "span" "PORTFOLIO"];
           txt_el "h1" "Full-Stack Software Developer";
          Elem "nav" None []
            [Elem "a" None [("href", "#about")] [Txt "About"];
             Elem "a" None [("href", "#projects")] [Txt "Projects"];
             Elem "a" None [("href", "#timeline")] [Txt "Timeline"];
             Elem "a" None [("href", "#contact")] [Txt "Contact"];
             Elem "a" None [("href", "/cv.pdf"); ("download", "")] [Txt "CV"];
             code_icon]]
          ++ mobile_menu menuOpen)].

(** ** Theorems *)

(** C33.  The hover overlay of a project card links to the project's
    repository with an icon and nothing else (lines 36-48 of
    [ProjectShowcase.tsx]): for every project with a repository, the
    card has a link to it whose accessible name is empty, so a screen
    reader announces it as a bare link.  The footer's icon links carry
    an [aria-label]. *)
Theorem project_icon_link_unnamed (p : Project) (u : string) :
  p_githubUrl p = Some u -> u <> "" ->
  exists m, In m (links (project_card p)) /\ attr "href" m = Some u /\ accessible_name m = "".
Proof.
  intros Hu Hne. exists (new_tab u [icon]). split; [|split; reflexivity].
  unfold links. apply filter_In. split; [|reflexivity].
  unfold project_card. cbn [nodes flat_map]. rewrite Hu. cbn [when_some].
  apply String.eqb_neq in Hne. rewrite Hne. cbn [app]. simpl. tauto.
Qed.

Lemma project_icon_link_unnamed_witness :
  exists m, In m (links (project_card (hd (mkProject "" "" "" "" "" [] None None Web) projectsData)))
            /\ attr "href" m = Some "https://github.com/Jamil-Mouad/vote-sondage-system"
            /\ accessible_name m = "".
Proof. apply project_icon_link_unnamed; [reflexivity | discriminate]. Defined.

Lemma orbit_angle_some (n i : nat) :
  i < n -> orbit_angle n i = Some (inject_Z (Z.of_nat i) * (inject_Z 360 / inject_Z (Z.of_nat n)))%Q.
Proof. intros H. destruct n; [lia | reflexivity]. Qed.

(** [OrbitingLogos] places the logos at distinct angles of one
    turn: for [n] logos, the [i]-th sits at [i * 360 / n] degrees, in
    [[0, 360)], and two logos never share an angle. *)
Theorem orbit_angles_distinct (n i j : nat) :
  i < n -> j < n -> i <> j ->
  exists a b, orbit_angle n i = Some a /\ orbit_angle n j = Some b /\
              (0 <= a)%Q /\ (a < 360)%Q /\ ~ (a == b)%Q.
Proof.
  intros Hi Hj Hij. rewrite (orbit_angle_some n i Hi), (orbit_angle_some n j Hj).
  eexists _, _. split; [reflexivity|]. split; [reflexivity|].
  set (q := (inject_Z 360 / inject_Z (Z.of_nat n))%Q).
  assert (Hn : (0 < inject_Z (Z.of_nat n))%Q) by (change (inject_Z 0 < inject_Z (Z.of_nat n))%Q; rewrite <- Zlt_Qlt; lia).
  assert (Hq : (0 < q)%Q) by (apply Qlt_shift_div_l; [exact Hn | reflexivity]).
  assert (Hnq : (inject_Z (Z.of_nat n) * q == 360)%Q)
    by (unfold q; rewrite Qmult_div_r; [reflexivity | intros E; rewrite E in Hn; discriminate]).
  split; [|split].
  - apply Qmult_le_0_compat; [change (inject_Z 0 <= inject_Z (Z.of_nat i))%Q; rewrite <- Zle_Qle; lia
                            | now apply Qlt_le_weak].
  - rewrite <- Hnq. apply Qmult_lt_r; [exact Hq | rewrite <- Zlt_Qlt; lia].
  - intros E. apply Qmult_inj_r in E; [|intros E0; rewrite E0 in Hq; discriminate].
    rewrite inject_Z_injective in E. lia.
Qed.

Lemma orbit_angles_distinct_witness :
  exists a b, orbit_angle (length orbitLogos) 1 = Some a /\ orbit_angle (length orbitLogos) 2 = Some b /\
              (0 <= a)%Q /\ (a < 360)%Q /\ ~ (a == b)%Q.
Proof. apply orbit_angles_distinct; cbn; lia. Defined.
