(* ===== verification/Motion.v ===== *)
(** * Scroll-driven values: framer-motion's [useTransform]

    [useTransform(value, [x0, x1], [y0, y1])] maps a motion value
    linearly from the input range onto the output range and, by default,
    clamps it to that range.  The library (not among the sources) does it
    in three steps, modelled here from its documented behaviour: the
    [progress] of the value through the input range, clamped to [[0, 1]],
    then [mix]ed between the two outputs.  Values are exact rationals;
    the browser computes them in floating point.

    Two components use it:
    - [App.tsx] (lines 24-27): the header's background opacity follows
      the page's scroll from 0 at the top to 0.95 after 100 pixels;
    - [components/ClaySculpture.tsx]: a parallax image that moves up and
      tilts as it scrolls through the viewport.  No component of the
      sources renders it.

    The theorems bound these values for every scroll position, overscroll
    included, and show that the header's opacity never decreases as the
    page scrolls down. *)

From Stdlib Require Import String List QArith Qminmax Lqa.
From S2P Require Import Prelude Dom Sections.
Import ListNotations.
Open Scope string_scope.
Open Scope list_scope.

(** ** [useTransform] with clamping *)

Definition progress (x0 x1 v : Q) : Q := ((v - x0) / (x1 - x0))%Q.

Definition clamp01 (p : Q) : Q := Qmax 0 (Qmin 1 p).

Definition mix (a b p : Q) : Q := (a + (b - a) * p)%Q.

Definition use_transform (x0 x1 y0 y1 v : Q) : Q := mix y0 y1 (clamp01 (progress x0 x1 v)).

(** ** [App.tsx], lines 23-27 and 45-49 *)

(** [useTransform(scrollY, [0, 100], [0, 0.95])]: the alpha of the
    header's [rgba(229, 229, 229, v)] background. *)
Definition header_bg_opacity (scrollY : Q) : Q := use_transform 0 100 0 (95 # 100) scrollY.

(** ** [components/ClaySculpture.tsx], lines 13-63 *)

(** [y = useTransform(scrollYProgress, [0, 1], [0, -150 * parallaxSpeed])] *)
Definition clay_y (parallaxSpeed scrollYProgress : Q) : Q :=
  use_transform 0 1 0 (-150 * parallaxSpeed) scrollYProgress.

(** [rotate = useTransform(scrollYProgress, [0, 1], [-3, 3])] degrees. *)
Definition clay_rotate (scrollYProgress : Q) : Q := use_transform 0 1 (-3) 3 scrollYProgress.

(** The markup: a [motion.div] positioned by the two values (a style)
    around the image, loaded eagerly. *)
Definition clay_sculpture (src alt : string) : node :=
  div [Elem "img" None [("src", src); ("alt", alt); ("loading", "eager")] []].

(** The default [parallaxSpeed]. *)
Definition default_parallax : Q := 3 # 10.

(** ** Lemmas *)

Lemma clamp01_bounds (p : Q) : (0 <= clamp01 p <= 1)%Q.
Proof.
  unfold clamp01. split; [apply Q.le_max_l|].
  apply Q.max_lub; [lra | apply Q.le_min_l].
Qed.

Lemma clamp01_mono (p q : Q) : (p <= q)%Q -> (clamp01 p <= clamp01 q)%Q.
Proof. intros H. unfold clamp01. apply Q.max_le_compat_l, Q.min_le_compat_l, H. Qed.

Lemma scale_unit (c p : Q) : (0 <= c)%Q -> (0 <= p <= 1)%Q -> (0 <= c * p <= c)%Q.
Proof.
  intros Hc [H0 H1]. split; [now apply Qmult_le_0_compat|].
  rewrite Qmult_comm. setoid_replace c with (1 * c)%Q at 2 by ring.
  now apply Qmult_le_compat_r.
Qed.

(** [mix a b p] lies between [a] and [b] for [p] in [[0, 1]]. *)
Lemma mix_between (a b p : Q) :
  (0 <= p <= 1)%Q -> (Qmin a b <= mix a b p <= Qmax a b)%Q.
Proof.
  intros Hp. unfold mix.
  destruct (Qlt_le_dec a b) as [Hab|Hab].
  - rewrite Q.min_l, Q.max_r by lra.
    pose proof (scale_unit (b - a) p ltac:(lra) Hp). lra.
  - rewrite Q.min_r, Q.max_l by lra.
    pose proof (scale_unit (a - b) p ltac:(lra) Hp).
    setoid_replace ((b - a) * p)%Q with (- ((a - b) * p))%Q by ring. lra.
Qed.

Lemma use_transform_between (x0 x1 y0 y1 v : Q) :
  (Qmin y0 y1 <= use_transform x0 x1 y0 y1 v <= Qmax y0 y1)%Q.
Proof. apply mix_between, clamp01_bounds. Qed.

Lemma progress_mono (x0 x1 v w : Q) :
  (x0 < x1)%Q -> (v <= w)%Q -> (progress x0 x1 v <= progress x0 x1 w)%Q.
Proof.
  intros Hx Hvw. unfold progress. apply Qmult_le_compat_r; [lra|].
  apply Qlt_le_weak, Qinv_lt_0_compat. lra.
Qed.

(** With an increasing input range and outputs in increasing order, the
    transform never decreases. *)
Lemma use_transform_mono (x0 x1 y0 y1 v w : Q) :
  (x0 < x1)%Q -> (y0 <= y1)%Q -> (v <= w)%Q ->
  (use_transform x0 x1 y0 y1 v <= use_transform x0 x1 y0 y1 w)%Q.
Proof.
  intros Hx Hy Hvw. unfold use_transform, mix.
  pose proof (clamp01_mono _ _ (progress_mono x0 x1 v w Hx Hvw)) as Hp.
  apply Qplus_le_compat; [lra|].
  rewrite !(Qmult_comm (y1 - y0)). apply Qmult_le_compat_r; [exact Hp | lra].
Qed.

(** With outputs in decreasing order, it never increases. *)
Lemma use_transform_anti (x0 x1 y0 y1 v w : Q) :
  (x0 < x1)%Q -> (y1 <= y0)%Q -> (v <= w)%Q ->
  (use_transform x0 x1 y0 y1 w <= use_transform x0 x1 y0 y1 v)%Q.
Proof.
  intros Hx Hy Hvw. unfold use_transform, mix.
  pose proof (clamp01_mono _ _ (progress_mono x0 x1 v w Hx Hvw)) as Hp.
  apply Qplus_le_compat; [lra|]. nra.
Qed.

(** ** Theorems *)

(** C40.  The header's background opacity follows the scroll exactly as
    [useTransform(scrollY, [0, 100], [0, 0.95])] asks: it is [0] at the
    top and above it (overscroll), rises linearly as [0.95 * scrollY /
    100] over the first 100 pixels, and stays at [0.95] past them; so it
    never decreases as the page scrolls down. *)
Theorem header_opacity_tracks_scroll :
  (forall scrollY, scrollY <= 0 -> header_bg_opacity scrollY == 0)%Q /\
  (forall scrollY, 0 <= scrollY <= 100 -> header_bg_opacity scrollY == (95 # 100) * scrollY * (1 # 100))%Q /\
  (forall scrollY, 100 <= scrollY -> header_bg_opacity scrollY == 95 # 100)%Q /\
  (forall s t, s <= t -> header_bg_opacity s <= header_bg_opacity t)%Q.
Proof.
  assert (P : forall s, (progress 0 100 s == s * (1 # 100))%Q) by (intros s; unfold progress; field).
  unfold header_bg_opacity, use_transform, mix, clamp01. split; [|split; [|split]].
  - intros s Hs. rewrite P, (Q.min_r 1) by lra. rewrite Q.max_l by lra. ring.
  - intros s Hs. rewrite P, (Q.min_r 1) by lra. rewrite Q.max_r by lra. ring.
  - intros s Hs. rewrite P, Q.min_l by lra. rewrite Q.max_r by lra. ring.
  - intros s t Hst. apply use_transform_mono; [lra | lra | exact Hst].
Qed.

(** A sculpture with a non-negative speed rises by at most [150] times
    its speed and tilts by at most three degrees either way, however far
    the page scrolls. *)
Theorem clay_motion_bounded (parallaxSpeed p : Q) :
  (0 <= parallaxSpeed)%Q ->
  (-150 * parallaxSpeed <= clay_y parallaxSpeed p <= 0)%Q /\ (-3 <= clay_rotate p <= 3)%Q.
Proof.
  intros Hs. split.
  - pose proof (use_transform_between 0 1 0 (-150 * parallaxSpeed) p) as H.
    rewrite Q.min_r, Q.max_l in H by lra. exact H.
  - pose proof (use_transform_between 0 1 (-3) 3 p) as H.
    rewrite Q.min_l, Q.max_r in H by lra. exact H.
Qed.

Lemma clay_motion_bounded_witness :
  (-150 * default_parallax <= clay_y default_parallax 2 <= 0)%Q /\ (-3 <= clay_rotate 2 <= 3)%Q.
Proof. apply clay_motion_bounded. unfold default_parallax. lra. Defined.

(** Halfway through the first 100 pixels the header is at half its
    final opacity; past them, and when the page is pulled above its top,
    the value is clamped. *)
Example header_opacity_samples :
  (header_bg_opacity 50 == 95 # 200 /\ header_bg_opacity 400 == 95 # 100 /\
   header_bg_opacity (-20) == 0)%Q.
Proof. vm_compute. repeat split; reflexivity. Qed.

(** With the default speed, the sculpture rises by 45 pixels at most. *)
Example clay_default_rise : (clay_y default_parallax 1 == -45 /\ clay_y default_parallax 3 == -45)%Q.
Proof. vm_compute. split; reflexivity. Qed.
