(* ===== verification/Keyframes.v ===== *)
(** * Keyframe animations: framer-motion's [interpolate] and CSS [@keyframes]

    Several components animate a value through a list of keyframes
    forever.  The Footer's floating code symbols ([sections/Footer.tsx],
    lines 44-65) use framer-motion: [animate={{ y: [0, -30, 0], opacity:
    [0.02, 0.06, 0.02] }}] with [repeat: Infinity].  Its aurora blobs
    (lines 28-32, with the [<style>] block of lines 195-249) use a CSS
    animation, [aurora-float], that moves and scales them.

    The library code is not among the sources.  It is modelled here
    from framer-motion's own definitions:
    - [cubic_bezier], its easing curves ([easing/cubic-bezier]): the
      bezier is inverted by twelve steps of bisection, and the two ends of
      the curve are returned exactly;
    - [interpolate] ([utils/interpolate]): find the segment of the input
      range holding the clamped value, ease its progress, mix the two
      outputs;
    - [keyframes_at] (the [keyframes] generator): keyframes evenly spaced
      over the duration;
    - [loop_elapsed] (the animation driver with [repeat: Infinity]): the
      time within the current iteration, after the [delay].
    A CSS animation is evaluated by the same piecewise rule.  The
    iteration progress of an infinite animation is [css_progress] (CSS
    Animations 1), and [css_applies] says when it applies.  The browser's
    [ease-in-out] is any curve of class [Easing]: inside [[0, 1]], exact
    at both ends and compatible with [==].

    The theorems show that an interpolation stays within the bounds of
    its outputs and hits the first and last keyframes exactly, so an
    animation whose last keyframe is its first loops without a jump.  The
    Footer's symbols stay between 2% and 6% opacity and rise by at most
    30 pixels.  The aurora's third blob is never centred: the animation's
    [transform] overrides the [translateX(-50%)] meant to centre it. *)

From Stdlib Require Import String List Bool ZArith QArith Qminmax Qround Qabs Lqa Lia Morphisms.
From S2P Require Import Prelude Page Motion.
Import ListNotations.
Open Scope list_scope.
Open Scope Q_scope.

(** [x < y] on rationals, as a test. *)
Definition Qltb (x y : Q) : bool := negb (Qle_bool y x).

(** ** Easing curves *)

(** What the animations need of an easing curve. *)
Class Easing (ease : Q -> Q) : Prop := {
  easing_unit : forall p, 0 <= p <= 1 -> 0 <= ease p <= 1;
  easing_start : ease 0 == 0;
  easing_end : ease 1 == 1;
  easing_proper :: Proper (Qeq ==> Qeq) ease
}.

(** [noop], the identity curve. *)
Definition noop (p : Q) : Q := p.

(** [calcBezier(t, a1, a2)]: one coordinate of the cubic bezier through
    [0], [a1], [a2] and [1]. *)
Definition calc_bezier (t a1 a2 : Q) : Q :=
  (((1 - 3 * a2 + 3 * a1) * t + (3 * a2 - 6 * a1)) * t + 3 * a1) * t.

Definition subdivision_precision : Q := 1 # 10000000.
Definition subdivision_max_iterations : nat := 12.

(** The [do ... while] of [binarySubdivide]; [n] is the number of
    iterations left after this one. *)
Fixpoint subdivide (n : nat) (x lo hi x1 x2 : Q) : Q :=
  let t := lo + (hi - lo) / 2 in
  let cx := calc_bezier t x1 x2 - x in
  match n with
  | O => t
  | S n' =>
      if Qltb subdivision_precision (Qabs cx) then
        if Qltb 0 cx then subdivide n' x lo t x1 x2 else subdivide n' x t hi x1 x2
      else t
  end.

Definition binary_subdivide (x lo hi x1 x2 : Q) : Q :=
  subdivide (pred subdivision_max_iterations) x lo hi x1 x2.

(** [cubicBezier(mX1, mY1, mX2, mY2)]. *)
Definition cubic_bezier (x1 y1 x2 y2 : Q) : Q -> Q :=
  if Qeq_bool x1 y1 && Qeq_bool x2 y2 then noop
  else fun t => if Qeq_bool t 0 || Qeq_bool t 1 then t
                else calc_bezier (binary_subdivide t 0 1 x1 x2) y1 y2.

(** [easeInOut], the curve of [ease: 'easeInOut']. *)
Definition ease_in_out : Q -> Q := cubic_bezier (42 # 100) 0 (58 # 100) 1.

(** ** [interpolate] *)

(** [clamp(min, max, v)]. *)
Definition clamp (lo hi v : Q) : Q := Qmin (Qmax v lo) hi.

(** The loop [for (; i < input.length - 2; i++) if (v < input[i + 1])
    break] followed by [mixers[i](progress(input[i], input[i + 1], v))]:
    the segment is found by walking down both lists.  Fewer than two
    keyframes do not reach it. *)
Fixpoint mix_segment (ease : Q -> Q) (input output : list Q) (v : Q) : Q :=
  match input, output with
  | x0 :: (x1 :: rest) as tl, y0 :: (y1 :: _) as tlo =>
      match rest with
      | [] => mix y0 y1 (ease (progress x0 x1 v))
      | _ :: _ => if Qltb v x1 then mix y0 y1 (ease (progress x0 x1 v))
                  else mix_segment ease tl tlo v
      end
  | _, _ => 0
  end.

(** [interpolate(input, output, { ease })] applied to [v], with the
    default [clamp: true]. *)
Definition interpolate (ease : Q -> Q) (input0 output0 : list Q) (v : Q) : Q :=
  if Nat.eqb (length input0) 1 then hd 0 output0
  else if Nat.eqb (length input0) 2 && Qeq_bool (nth 0 output0 0) (nth 1 output0 0)
  then nth 1 output0 0
  else
    let zero_delta := Qeq_bool (nth 0 input0 0) (nth 1 input0 0) in
    let reversed := Qltb (last input0 0) (hd 0 input0) in
    let input := if reversed then rev input0 else input0 in
    let output := if reversed then rev output0 else output0 in
    let v' := clamp (hd 0 input) (last input 0) v in
    if zero_delta && Qltb v' (hd 0 input) then hd 0 output else mix_segment ease input output v'.

(** ** Keyframe animations *)

(** [defaultOffset]: [n] keyframes evenly spaced over [[0, 1]]. *)
Definition default_offset (n : nat) : list Q :=
  map (fun i => inject_Z (Z.of_nat i) / inject_Z (Z.of_nat (n - 1))) (seq 0 n).

(** The [keyframes] generator at [t] seconds into an iteration of
    [duration] seconds, each segment eased by [ease]. *)
Definition keyframes_at (ease : Q -> Q) (duration : Q) (values : list Q) (t : Q) : Q :=
  interpolate ease (map (fun o => o * duration) (default_offset (length values))) values t.

(** With [repeat: Infinity] (and the default [repeatType: 'loop'], no
    [repeatDelay]): the time within the iteration [t] seconds after the
    animation started, [delay] included.  At the end of an iteration it
    is the whole duration, not zero. *)
Definition loop_elapsed (delay duration t : Q) : Q :=
  let p := Qmax (t - delay) 0 / duration in
  let it := p - inject_Z (Qfloor p) in
  (if Qeq_bool it 0 && Qle_bool 1 p then 1 else it) * duration.

(** The animated value: the first keyframe during the delay, then the
    keyframes over and over. *)
Definition animate_loop (ease : Q -> Q) (delay duration : Q) (values : list Q) (t : Q) : Q :=
  if Qltb (t - delay) 0 then hd 0 values
  else keyframes_at ease duration values (loop_elapsed delay duration t).

(** Without [repeat]: the first keyframe during the delay, then the
    keyframes once, and the last one from then on. *)
Definition animate_once (ease : Q -> Q) (delay duration : Q) (values : list Q) (t : Q) : Q :=
  if Qltb (t - delay) 0 then hd 0 values
  else keyframes_at ease duration values (t - delay).

(** A CSS animation with [animation-iteration-count: infinite] applies
    once its delay has passed (a negative delay has passed already).
    Before that, with the default [animation-fill-mode: none], the
    declared value holds. *)
Definition css_applies (delay t : Q) : bool := Qle_bool delay t.

(** Its iteration progress: the fractional part of the iterations run
    so far. *)
Definition css_progress (delay duration t : Q) : Q :=
  let p := (t - delay) / duration in p - inject_Z (Qfloor p).

(** Strictly increasing keyframe offsets. *)
Fixpoint increasing (l : list Q) : bool :=
  match l with
  | x :: (y :: _) as t => Qltb x y && increasing t
  | _ => true
  end.

Definition within (lo hi y : Q) : Prop := lo <= y <= hi.

(** ** Lemmas on the arithmetic *)

Lemma Qltb_iff (x y : Q) : Qltb x y = true <-> x < y.
Proof.
  unfold Qltb. rewrite negb_true_iff. split.
  - intros H. apply Qnot_le_lt. intros H'. apply Qle_bool_iff in H'. congruence.
  - intros H. destruct (Qle_bool y x) eqn:E; [apply Qle_bool_iff in E; lra | reflexivity].
Qed.

Lemma Qltb_false (x y : Q) : Qltb x y = false <-> y <= x.
Proof.
  unfold Qltb. rewrite negb_false_iff. apply Qle_bool_iff.
Qed.

#[export] Instance Qltb_proper : Proper (Qeq ==> Qeq ==> eq) Qltb.
Proof. intros x x' Hx y y' Hy. unfold Qltb. now rewrite Hx, Hy. Qed.

#[export] Instance progress_proper : Proper (Qeq ==> Qeq ==> Qeq ==> Qeq) progress.
Proof. intros a a' Ha b b' Hb v v' Hv. unfold progress. now rewrite Ha, Hb, Hv. Qed.

#[export] Instance mix_proper : Proper (Qeq ==> Qeq ==> Qeq ==> Qeq) mix.
Proof. intros a a' Ha b b' Hb p p' Hp. unfold mix. now rewrite Ha, Hb, Hp. Qed.

#[export] Instance calc_bezier_proper : Proper (Qeq ==> Qeq ==> Qeq ==> Qeq) calc_bezier.
Proof. intros t t' Ht a a' Ha b b' Hb. unfold calc_bezier. now rewrite Ht, Ha, Hb. Qed.

#[export] Instance clamp_proper : Proper (Qeq ==> Qeq ==> Qeq ==> Qeq) clamp.
Proof. intros a a' Ha b b' Hb v v' Hv. unfold clamp. now rewrite Ha, Hb, Hv. Qed.

(** The bezier through [0], [a1], [a2], [1] stays in [[0, 1]] on
    [[0, 1]] when its control values do: it is a convex combination of
    them. *)
Lemma calc_bezier_unit (t a1 a2 : Q) :
  0 <= t <= 1 -> 0 <= a1 <= 1 -> 0 <= a2 <= 1 -> 0 <= calc_bezier t a1 a2 <= 1.
Proof.
  intros Ht H1 H2.
  assert (E : calc_bezier t a1 a2 ==
              3 * a1 * t * ((1 - t) * (1 - t)) + 3 * a2 * (t * t) * (1 - t) + t * t * t)
    by (unfold calc_bezier; ring).
  rewrite E.
  assert (Hu : 0 <= t * ((1 - t) * (1 - t))) by (apply Qmult_le_0_compat; nra).
  assert (Hw : 0 <= t * t * (1 - t)) by (apply Qmult_le_0_compat; nra).
  assert (Hc : 0 <= (1 - t) * ((1 - t) * (1 - t))) by (apply Qmult_le_0_compat; nra).
  assert (0 <= a1 * (t * ((1 - t) * (1 - t))) <= t * ((1 - t) * (1 - t))) by nra.
  assert (0 <= a2 * (t * t * (1 - t)) <= t * t * (1 - t)) by nra.
  assert (0 <= t * t * t) by (apply Qmult_le_0_compat; nra).
  split; nra.
Qed.

Lemma midpoint_between (lo hi : Q) : lo <= hi -> lo <= lo + (hi - lo) / 2 <= hi.
Proof. intros H. unfold Qdiv. change (/ 2) with (1 # 2). split; lra. Qed.

(** Bisection never leaves the interval it starts from. *)
Lemma subdivide_range (n : nat) (x lo hi x1 x2 : Q) :
  lo <= hi -> lo <= subdivide n x lo hi x1 x2 <= hi.
Proof.
  revert lo hi. induction n as [|n IH]; intros lo hi H; cbn [subdivide].
  - now apply midpoint_between.
  - pose proof (midpoint_between lo hi H).
    destruct (Qltb _ _); [destruct (Qltb _ _)|].
    + pose proof (IH lo (lo + (hi - lo) / 2) ltac:(lra)). lra.
    + pose proof (IH (lo + (hi - lo) / 2) hi ltac:(lra)). lra.
    + lra.
Qed.

#[export] Instance subdivide_proper (n : nat) : Proper (Qeq ==> Qeq ==> Qeq ==> Qeq ==> Qeq ==> Qeq) (subdivide n).
Proof.
  induction n as [|n IH]; intros x x' Hx lo lo' Hl hi hi' Hh a a' Ha b b' Hb; cbn [subdivide].
  - now rewrite Hl, Hh.
  - set (t := lo + (hi - lo) / 2). set (t' := lo' + (hi' - lo') / 2).
    assert (Ht : t == t') by (unfold t, t'; now rewrite Hl, Hh).
    assert (C : calc_bezier t a b - x == calc_bezier t' a' b' - x') by now rewrite Ht, Ha, Hb, Hx.
    replace (Qltb subdivision_precision (Qabs (calc_bezier t a b - x)))
      with (Qltb subdivision_precision (Qabs (calc_bezier t' a' b' - x'))) by now rewrite C.
    replace (Qltb 0 (calc_bezier t a b - x)) with (Qltb 0 (calc_bezier t' a' b' - x')) by now rewrite C.
    destruct (Qltb _ _); [destruct (Qltb _ _)|]; [apply IH | apply IH | exact Ht]; assumption.
Qed.

#[export] Instance cubic_bezier_proper (x1 y1 x2 y2 : Q) : Proper (Qeq ==> Qeq) (cubic_bezier x1 y1 x2 y2).
Proof.
  intros t t' H. unfold cubic_bezier, noop.
  destruct (Qeq_bool x1 y1 && Qeq_bool x2 y2); [exact H|].
  replace (Qeq_bool t 0 || Qeq_bool t 1) with (Qeq_bool t' 0 || Qeq_bool t' 1) by now rewrite H.
  destruct (Qeq_bool t' 0 || Qeq_bool t' 1); [exact H|].
  unfold binary_subdivide. now rewrite H.
Qed.

(** A cubic-bezier curve whose control values lie in [[0, 1]] is an
    easing curve: bisection keeps the parameter in [[0, 1]], and the
    ends are returned as they are. *)
Lemma cubic_bezier_easing (x1 y1 x2 y2 : Q) :
  0 <= y1 <= 1 -> 0 <= y2 <= 1 -> Easing (cubic_bezier x1 y1 x2 y2).
Proof.
  intros H1 H2. split; [| | | apply cubic_bezier_proper]; unfold cubic_bezier, noop;
    destruct (Qeq_bool x1 y1 && Qeq_bool x2 y2); try reflexivity.
  - intros p Hp. exact Hp.
  - intros p Hp. destruct (Qeq_bool p 0 || Qeq_bool p 1); [exact Hp|].
    apply calc_bezier_unit; [|exact H1|exact H2].
    unfold binary_subdivide. apply subdivide_range. lra.
Qed.

#[export] Instance ease_in_out_easing : Easing ease_in_out.
Proof. apply cubic_bezier_easing; lra. Qed.

#[export] Instance noop_easing : Easing noop.
Proof. split; unfold noop; [tauto | reflexivity | reflexivity | intros x y H; exact H]. Qed.

(** Instance search compares curves by name: unfolding one curve to
    match another would run the bisection symbolically. *)
#[export] Typeclasses Opaque noop cubic_bezier ease_in_out.

(** ** Interpolation *)

Lemma progress_unit (x0 x1 v : Q) : x0 < x1 -> x0 <= v <= x1 -> 0 <= progress x0 x1 v <= 1.
Proof.
  intros H Hv. unfold progress. split.
  - apply Qle_shift_div_l; lra.
  - apply Qle_shift_div_r; lra.
Qed.

Lemma progress_start (x0 x1 : Q) : progress x0 x1 x0 == 0.
Proof. unfold progress, Qdiv. setoid_replace (x0 - x0) with 0 by ring. apply Qmult_0_l. Qed.

Lemma progress_end (x0 x1 : Q) : x0 < x1 -> progress x0 x1 x1 == 1.
Proof. intros H. unfold progress. field. intros E. lra. Qed.

Lemma mix_within (lo hi a b p : Q) :
  within lo hi a -> within lo hi b -> 0 <= p <= 1 -> within lo hi (mix a b p).
Proof.
  unfold within, mix. intros Ha Hb Hp.
  assert (0 <= (a - lo) * (1 - p)) by nra. assert (0 <= (b - lo) * p) by nra.
  assert (0 <= (hi - a) * (1 - p)) by nra. assert (0 <= (hi - b) * p) by nra.
  split; nra.
Qed.

Lemma mix_0 (a b : Q) : mix a b 0 == a.
Proof. unfold mix. ring. Qed.

Lemma mix_1 (a b : Q) : mix a b 1 == b.
Proof. unfold mix. ring. Qed.

Lemma clamp_between (lo hi v : Q) : lo <= hi -> lo <= clamp lo hi v <= hi.
Proof.
  intros H. unfold clamp. split.
  - apply Q.min_glb; [apply Q.le_max_r | exact H].
  - apply Q.le_min_r.
Qed.

Lemma clamp_at (lo hi v : Q) : lo <= v <= hi -> clamp lo hi v == v.
Proof. intros H. unfold clamp. rewrite Q.max_l by lra. apply Q.min_l. lra. Qed.

Lemma increasing_cons2 (x y : Q) (t : list Q) :
  increasing (x :: y :: t) = true -> x < y /\ increasing (y :: t) = true.
Proof. cbn [increasing]. rewrite andb_true_iff, Qltb_iff. tauto. Qed.

Lemma increasing_hd_last (l : list Q) : increasing l = true -> hd 0 l <= last l 0.
Proof.
  induction l as [|x [|y t] IH]; intros H; [apply Qle_refl | apply Qle_refl |].
  apply increasing_cons2 in H as [Hxy H]. specialize (IH H). cbn [hd] in IH.
  change (last (x :: y :: t) 0) with (last (y :: t) 0). cbn [hd]. lra.
Qed.

Lemma mix_segment_step (ease : Q -> Q) x0 x1 x2 rest y0 y1 ys v :
  mix_segment ease (x0 :: x1 :: x2 :: rest) (y0 :: y1 :: ys) v =
  if Qltb v x1 then mix y0 y1 (ease (progress x0 x1 v))
  else mix_segment ease (x1 :: x2 :: rest) (y1 :: ys) v.
Proof. reflexivity. Qed.

#[export] Instance mix_segment_proper (ease : Q -> Q) `{!Proper (Qeq ==> Qeq) ease} (input output : list Q) :
  Proper (Qeq ==> Qeq) (mix_segment ease input output).
Proof.
  revert output. induction input as [|x0 [|x1 rest] IH]; intros output v v' Hv;
    [reflexivity | destruct output as [|? [|? ?]]; reflexivity |].
  destruct output as [|y0 [|y1 ys]]; [reflexivity | reflexivity |].
  destruct rest as [|x2 rest]; [cbn [mix_segment]; now rewrite Hv|rewrite !mix_segment_step].
  - replace (Qltb v x1) with (Qltb v' x1) by now rewrite Hv.
    destruct (Qltb v' x1); [now rewrite Hv | now apply IH].
Qed.

Section Interpolation.
Context (ease : Q -> Q) `{!Easing ease}.

(** Every segment mixes two neighbouring outputs by a progress in
    [[0, 1]]. *)
Lemma mix_segment_within (lo hi : Q) : forall input output v,
  increasing input = true -> length input = length output -> (2 <= length input)%nat ->
  hd 0 input <= v <= last input 0 -> Forall (within lo hi) output ->
  within lo hi (mix_segment ease input output v).
Proof.
  induction input as [|x0 [|x1 rest] IH]; intros output v Hinc Hlen H2 Hv Hout; cbn in H2; try lia.
  destruct output as [|y0 [|y1 ys]]; cbn in Hlen; try lia.
  apply increasing_cons2 in Hinc as [Hx Hinc].
  inversion Hout as [|? ? Hy0 Hout']; subst. inversion Hout' as [|? ? Hy1 _]; subst.
  assert (Hseg : v <= x1 -> within lo hi (mix y0 y1 (ease (progress x0 x1 v)))).
  { intros Hv1. apply mix_within; [exact Hy0 | exact Hy1 |].
    apply easing_unit, progress_unit; cbn in Hv; lra. }
  destruct rest as [|x2 rest]; [cbn [mix_segment]; apply Hseg; exact (proj2 Hv)|rewrite mix_segment_step].
  destruct (Qltb v x1) eqn:E.
  + apply Qltb_iff in E. apply Hseg. lra.
  + apply Qltb_false in E. cbn [hd] in Hv.
    change (last (x0 :: x1 :: x2 :: rest) 0) with (last (x1 :: x2 :: rest) 0) in Hv.
    apply IH; auto; [cbn; lia | cbn [hd]; lra].
Qed.

Lemma mix_segment_first : forall input output,
  increasing input = true -> length input = length output -> (2 <= length input)%nat ->
  mix_segment ease input output (hd 0 input) == hd 0 output.
Proof.
  intros [|x0 [|x1 rest]] output Hinc Hlen H2; cbn in H2; try lia.
  destruct output as [|y0 [|y1 ys]]; cbn in Hlen; try lia.
  apply increasing_cons2 in Hinc as [Hx _].
  assert (Hseg : mix y0 y1 (ease (progress x0 x1 x0)) == y0)
    by (rewrite progress_start, easing_start; apply mix_0).
  destruct rest as [|x2 rest]; [exact Hseg|]. cbn [hd]. rewrite mix_segment_step.
  replace (Qltb x0 x1) with true by (symmetry; now apply Qltb_iff). exact Hseg.
Qed.

Lemma mix_segment_last : forall input output,
  increasing input = true -> length input = length output -> (2 <= length input)%nat ->
  mix_segment ease input output (last input 0) == last output 0.
Proof.
  induction input as [|x0 [|x1 rest] IH]; intros output Hinc Hlen H2; cbn in H2; try lia.
  destruct output as [|y0 [|y1 ys]]; cbn in Hlen; try lia.
  apply increasing_cons2 in Hinc as [Hx Hinc].
  destruct rest as [|x2 rest]; [|rewrite mix_segment_step].
  - destruct ys; cbn in Hlen; [|lia]. cbn [last mix_segment].
    rewrite progress_end, easing_end by exact Hx. apply mix_1.
  - pose proof (increasing_hd_last _ (proj2 (increasing_cons2 _ _ _ Hinc))) as Hl.
    pose proof (proj1 (increasing_cons2 _ _ _ Hinc)) as Hx1. cbn [hd] in Hl.
    change (last (x0 :: x1 :: x2 :: rest) 0) with (last (x1 :: x2 :: rest) 0).
    change (last (y0 :: y1 :: ys) 0) with (last (y1 :: ys) 0).
    replace (Qltb (last (x1 :: x2 :: rest) 0) x1) with false
      by (symmetry; apply Qltb_false; change (last (x1 :: x2 :: rest) 0) with (last (x2 :: rest) 0); lra).
    apply IH; cbn; auto; lia.
Qed.

Lemma Forall_nth_within (lo hi : Q) (l : list Q) (i : nat) :
  Forall (within lo hi) l -> (i < length l)%nat -> within lo hi (nth i l 0).
Proof. rewrite Forall_forall. intros H Hi. apply H, nth_In, Hi. Qed.

(** The shape of [interpolate] on increasing offsets: no reversal, the
    clamped value, the segment. *)
Lemma interpolate_increasing (input output : list Q) (v : Q) :
  increasing input = true -> (2 <= length input)%nat ->
  interpolate ease input output v =
  if Nat.eqb (length input) 2 && Qeq_bool (nth 0 output 0) (nth 1 output 0) then nth 1 output 0
  else mix_segment ease input output (clamp (hd 0 input) (last input 0) v).
Proof.
  intros Hinc H2. destruct input as [|x0 [|x1 rest]]; cbn in H2; try lia.
  pose proof (increasing_hd_last _ Hinc) as Hl. pose proof (proj1 (increasing_cons2 _ _ _ Hinc)) as Hx.
  unfold interpolate. cbn [length Nat.eqb].
  replace (Qltb (last (x0 :: x1 :: rest) 0) (hd 0 (x0 :: x1 :: rest))) with false
    by (symmetry; now apply Qltb_false).
  replace (Qeq_bool (nth 0 (x0 :: x1 :: rest) 0) (nth 1 (x0 :: x1 :: rest) 0)) with false
    by (symmetry; apply not_true_iff_false; intros E; apply Qeq_bool_eq in E; cbn in E; lra).
  reflexivity.
Qed.

(** An interpolation over increasing offsets stays within any bounds
    of its outputs, whatever the input value. *)
Theorem interpolate_within (lo hi : Q) (input output : list Q) (v : Q) :
  increasing input = true -> length input = length output -> input <> [] ->
  Forall (within lo hi) output -> within lo hi (interpolate ease input output v).
Proof.
  intros Hinc Hlen Hne Hout.
  destruct input as [|x0 [|x1 rest]]; [congruence| |].
  - unfold interpolate. cbn [length Nat.eqb]. destruct output; cbn in Hlen; [lia|].
    now inversion Hout.
  - rewrite interpolate_increasing by (auto; cbn; lia).
    destruct (_ && _).
    + apply Forall_nth_within; [exact Hout | cbn in *; lia].
    + pose proof (increasing_hd_last _ Hinc).
      apply mix_segment_within; auto; [cbn; lia | now apply clamp_between].
Qed.

(** An interpolation over increasing offsets gives its first output at
    its first offset and its last output at its last offset. *)
Theorem interpolate_ends (input output : list Q) :
  increasing input = true -> length input = length output -> input <> [] ->
  interpolate ease input output (hd 0 input) == hd 0 output /\
  interpolate ease input output (last input 0) == last output 0.
Proof.
  intros Hinc Hlen Hne.
  destruct input as [|x0 [|x1 rest]]; [congruence| |].
  - destruct output as [|y0 [|y1 ys]]; cbn in Hlen; try lia. unfold interpolate. cbn. split; reflexivity.
  - pose proof (increasing_hd_last _ Hinc) as Hl.
    rewrite !interpolate_increasing by (auto; cbn; lia).
    destruct (Nat.eqb _ 2 && Qeq_bool _ _) eqn:E.
    + apply andb_true_iff in E as [E1 E2]. apply Qeq_bool_eq in E2.
      destruct rest; cbn in E1; [|discriminate].
      destruct output as [|y0 [|y1 [|? ?]]]; cbn in Hlen; try lia. cbn in *. split; [symmetry; exact E2 | reflexivity].
    + rewrite !clamp_at by lra.
      split; [apply mix_segment_first | apply mix_segment_last]; auto; cbn; lia.
Qed.

(** Past its last offset an interpolation holds its last output. *)
Lemma interpolate_after (input output : list Q) (v : Q) :
  increasing input = true -> length input = length output -> input <> [] -> last input 0 <= v ->
  interpolate ease input output v == last output 0.
Proof.
  intros Hinc Hlen Hne Hv.
  destruct input as [|x0 [|x1 rest]]; [congruence| |].
  - destruct output as [|y0 [|y1 ys]]; cbn in Hlen; try lia. unfold interpolate. cbn. reflexivity.
  - pose proof (increasing_hd_last _ Hinc) as Hl.
    rewrite interpolate_increasing by (auto; cbn; lia).
    destruct (Nat.eqb _ 2 && Qeq_bool _ _) eqn:E.
    + apply andb_true_iff in E as [E1 _]. destruct rest; cbn in E1; [|discriminate].
      destruct output as [|y0 [|y1 [|? ?]]]; cbn in Hlen; try lia. reflexivity.
    + assert (C : clamp (hd 0 (x0 :: x1 :: rest)) (last (x0 :: x1 :: rest) 0) v == last (x0 :: x1 :: rest) 0).
      { unfold clamp. rewrite Q.max_l by lra. apply Q.min_r. exact Hv. }
      rewrite C. apply mix_segment_last; auto; cbn; lia.
Qed.

End Interpolation.

#[export] Instance interpolate_proper (ease : Q -> Q) `{!Proper (Qeq ==> Qeq) ease} (input output : list Q) :
  Proper (Qeq ==> Qeq) (interpolate ease input output).
Proof.
  intros v v' Hv. unfold interpolate.
  destruct (Nat.eqb _ 1); [reflexivity|]. destruct (_ && _); [reflexivity|].
  set (inp := if Qltb _ _ then rev input else input).
  set (out := if Qltb _ _ then rev output else output).
  assert (C : clamp (hd 0 inp) (last inp 0) v == clamp (hd 0 inp) (last inp 0) v') by now rewrite Hv.
  replace (Qltb (clamp (hd 0 inp) (last inp 0) v) (hd 0 inp))
    with (Qltb (clamp (hd 0 inp) (last inp 0) v') (hd 0 inp)) by now rewrite C.
  destruct (_ && _); [reflexivity | now rewrite C].
Qed.

(** ** Evenly spaced keyframes *)

Lemma increasing_map_seq (f : nat -> Q) (a n : nat) :
  (forall i, f i < f (S i)) -> increasing (map f (seq a n)) = true.
Proof.
  intros Hf. revert a. induction n as [|n IH]; intros a; [reflexivity|].
  destruct n as [|n]; [reflexivity|].
  change (increasing (f a :: map f (seq (S a) (S n))) = true).
  cbn [seq map increasing]. apply andb_true_iff. split; [apply Qltb_iff, Hf | exact (IH (S a))].
Qed.

Lemma inject_Z_succ (i : nat) : inject_Z (Z.of_nat (S i)) == inject_Z (Z.of_nat i) + 1.
Proof. rewrite Nat2Z.inj_succ, <- Z.add_1_r, inject_Z_plus. reflexivity. Qed.

Definition offset_times (n : nat) (duration : Q) : list Q :=
  map (fun o => o * duration) (default_offset n).

Lemma offset_times_seq (n : nat) (duration : Q) :
  offset_times n duration =
  map (fun i => inject_Z (Z.of_nat i) / inject_Z (Z.of_nat (n - 1)) * duration) (seq 0 n).
Proof. unfold offset_times, default_offset. now rewrite map_map. Qed.

(** Keyframes spread over a positive duration have increasing times. *)
Lemma offset_times_increasing (n : nat) (duration : Q) :
  0 < duration -> increasing (offset_times n duration) = true.
Proof.
  intros Hd. rewrite offset_times_seq. destruct n as [|[|m]]; [reflexivity | reflexivity |].
  apply increasing_map_seq. intros i.
  assert (Hm : 0 < inject_Z (Z.of_nat (S (S m) - 1))).
  { change 0 with (inject_Z 0). rewrite <- Zlt_Qlt. lia. }
  set (m' := inject_Z (Z.of_nat (S (S m) - 1))) in *.
  assert (Hc : 0 < duration / m') by (apply Qlt_shift_div_l; lra).
  setoid_replace (inject_Z (Z.of_nat i) / m' * duration) with (inject_Z (Z.of_nat i) * (duration / m'))
    by (field; intros E; lra).
  setoid_replace (inject_Z (Z.of_nat (S i)) / m' * duration) with (inject_Z (Z.of_nat (S i)) * (duration / m'))
    by (field; intros E; lra).
  rewrite inject_Z_succ. nra.
Qed.

Lemma offset_times_length (n : nat) (duration : Q) : length (offset_times n duration) = n.
Proof. unfold offset_times, default_offset. now rewrite !length_map, length_seq. Qed.

Lemma offset_times_first (m : nat) (duration : Q) : hd 0 (offset_times (S m) duration) == 0.
Proof. unfold offset_times, default_offset. cbn [seq map hd]. unfold Qdiv. ring. Qed.

Lemma offset_times_last (m : nat) (duration : Q) : last (offset_times (S (S m)) duration) 0 == duration.
Proof.
  rewrite offset_times_seq, seq_S, map_app. cbn [map Nat.add]. rewrite last_last.
  replace (S (S m) - 1)%nat with (S m) by lia. field.
  intros E. change 0 with (inject_Z 0) in E. rewrite inject_Z_injective in E. lia.
Qed.

Section Loops.
Context (ease : Q -> Q) `{!Easing ease}.

(** A looped keyframe animation stays within the bounds of its
    keyframes at every time, during its delay included. *)
Lemma animate_loop_within (lo hi delay duration : Q) (values : list Q) (t : Q) :
  0 < duration -> values <> [] -> Forall (within lo hi) values ->
  within lo hi (animate_loop ease delay duration values t).
Proof.
  intros Hd Hne Hv. unfold animate_loop.
  destruct (Qltb _ _).
  - destruct values; [congruence|]. now inversion Hv.
  - unfold keyframes_at. fold (offset_times (length values) duration).
    apply interpolate_within; auto.
    + now apply offset_times_increasing.
    + apply offset_times_length.
    + destruct values; [congruence|]. discriminate.
Qed.

(** The time within the iteration at the [k]-th seam. *)
Lemma loop_elapsed_seam (delay duration : Q) (k : nat) :
  0 < duration ->
  loop_elapsed delay duration (delay + inject_Z (Z.of_nat k) * duration) ==
  if Nat.eqb k 0 then 0 else duration.
Proof.
  intros Hd. unfold loop_elapsed. cbv zeta.
  assert (K : 0 <= inject_Z (Z.of_nat k)) by (change 0 with (inject_Z 0); rewrite <- Zle_Qle; lia).
  set (p := Qmax (delay + inject_Z (Z.of_nat k) * duration - delay) 0 / duration).
  assert (P : p == inject_Z (Z.of_nat k)).
  { unfold p. rewrite Q.max_l by nra. field. intros E. lra. }
  rewrite (Qfloor_comp _ _ P), Qfloor_Z.
  replace (Qeq_bool (p - inject_Z (Z.of_nat k)) 0) with true
    by (symmetry; apply Qeq_bool_iff; rewrite P; ring).
  destruct k as [|k]; cbn [andb Nat.eqb].
  - replace (Qle_bool 1 p) with false by (symmetry; apply not_true_iff_false; rewrite Qle_bool_iff, P;
        change (inject_Z (Z.of_nat 0)) with 0; intros H; lra).
    rewrite P. ring.
  - replace (Qle_bool 1 p) with true
      by (symmetry; apply Qle_bool_iff; rewrite P, inject_Z_succ;
          assert (0 <= inject_Z (Z.of_nat k)) by (change 0 with (inject_Z 0); rewrite <- Zle_Qle; lia); lra).
    ring.
Qed.

(** An animation whose last keyframe is its first loops without a
    jump: at the start and at each seam between two iterations it shows
    its first keyframe, exactly. *)
Theorem animate_loop_seam (delay duration : Q) (values : list Q) (k : nat) :
  0 < duration -> (2 <= length values)%nat -> last values 0 == hd 0 values ->
  animate_loop ease delay duration values (delay + inject_Z (Z.of_nat k) * duration) == hd 0 values.
Proof.
  intros Hd H2 Hlast. unfold animate_loop.
  replace (Qltb (delay + inject_Z (Z.of_nat k) * duration - delay) 0) with false.
  2:{ symmetry. apply Qltb_false.
      assert (0 <= inject_Z (Z.of_nat k)) by (change 0 with (inject_Z 0); rewrite <- Zle_Qle; lia). nra. }
  unfold keyframes_at. fold (offset_times (length values) duration).
  rewrite loop_elapsed_seam by exact Hd.
  destruct (length values) as [|[|m]] eqn:L; try lia.
  assert (Hinc := offset_times_increasing (S (S m)) duration Hd).
  assert (Hlen : length (offset_times (S (S m)) duration) = length values) by now rewrite offset_times_length.
  assert (Hne : offset_times (S (S m)) duration <> []) by (intros E; rewrite <- Hlen, E in L; discriminate).
  destruct (interpolate_ends ease _ values Hinc Hlen Hne) as [E0 E1].
  destruct k; cbn [Nat.eqb].
  - rewrite (offset_times_first (S m) duration) in E0. exact E0.
  - rewrite (offset_times_last m duration) in E1. rewrite E1. exact Hlast.
Qed.

End Loops.

(** ** [sections/Footer.tsx], lines 44-65: the floating code symbols *)

(** [delay: i * 0.4] seconds. *)
Definition symbol_delay (i : Z) : Q := inject_Z i * (4 # 10).

(** [y: [0, -30, 0]] and [opacity: [0.02, 0.06, 0.02]], each over
    [duration: 6 + (i % 4) * 2] seconds, [repeat: Infinity],
    [ease: 'easeInOut'], after the delay. *)
Definition symbol_y (i : Z) (t : Q) : Q :=
  animate_loop ease_in_out (symbol_delay i) (inject_Z (symbol_duration i)) [0; -30; 0] t.

Definition symbol_opacity (i : Z) (t : Q) : Q :=
  animate_loop ease_in_out (symbol_delay i) (inject_Z (symbol_duration i)) [2 # 100; 6 # 100; 2 # 100] t.

(** ** [sections/Footer.tsx], lines 194-249: the aurora *)

(** A value of [transform] in the keyframes:
    [translate(x, y) scale(s)], in pixels. *)
Record transform : Type := mkTransform { translate_x : Q; translate_y : Q; scale : Q }.

(** Lines 235-248: [@keyframes aurora-float], its rules as written, each
    with its selectors as fractions. *)
Definition aurora_float : list (list Q * transform) :=
  [([0; 1], mkTransform 0 0 1);
   ([1 # 4], mkTransform 50 (-30) (11 # 10));
   ([1 # 2], mkTransform (-20) 40 (95 # 100));
   ([3 # 4], mkTransform 30 20 (105 # 100))].

(** Every selector of a rule is a keyframe, and the keyframes are taken
    in the order of their offsets (CSS Animations 1). *)
Fixpoint insert_frame (f : Q * transform) (l : list (Q * transform)) : list (Q * transform) :=
  match l with
  | [] => [f]
  | g :: l' => if Qle_bool (fst f) (fst g) then f :: l else g :: insert_frame f l'
  end.

Definition keyframe_list (rules : list (list Q * transform)) : list (Q * transform) :=
  fold_right insert_frame [] (flat_map (fun r => map (fun o => (o, snd r)) (fst r)) rules).

(** One component of the animated [transform] at iteration progress [p].
    Both lists of transform functions match, so each component is
    interpolated on its own, each interval eased by the timing
    function. *)
Definition aurora_value (ease : Q -> Q) (component : transform -> Q) (p : Q) : Q :=
  let frames := keyframe_list aurora_float in
  interpolate ease (map fst frames) (map (fun f => component (snd f)) frames) p.

(** Lines 196-202: the class every blob has.  Its [animation] shorthand
    sets [aurora-float 20s ease-in-out infinite] with no delay. *)
Definition aurora_duration : Q := 20.
Definition aurora_delay : Q := 0.

(** Where a blob is put: [left]/[top] or [right]/[bottom], in percent of
    the container. *)
Inductive inset : Type :=
| FromStart (pct : Q)
| FromEnd (pct : Q).

Record aurora_blob : Type := mkBlob {
  blob_size : Q;                  (** [width] and [height], px *)
  blob_x : inset;
  blob_y : inset;
  blob_shift_x : Q;               (** its own [transform: translateX(..%)], of its width *)
  blob_delay : option Q;          (** [animation-delay], when the blob's rule sets it *)
  blob_duration : option Q        (** [animation-duration], likewise *)
}.

(** Lines 204-233: the three blobs.  Their rules come after the shared
    one, so their [animation-delay] and [animation-duration] win. *)
Definition aurora_blob_1 : aurora_blob :=
  mkBlob 600 (FromStart (-10)) (FromStart (-10)) 0 (Some 0) (Some 25).
Definition aurora_blob_2 : aurora_blob :=
  mkBlob 500 (FromEnd (-10)) (FromEnd (-15)) 0 (Some (-8)) (Some 20).
Definition aurora_blob_3 : aurora_blob :=
  mkBlob 400 (FromStart 50) (FromStart 40) (-50) (Some (-15)) (Some 22).

Definition resolved_delay (b : aurora_blob) : Q := match blob_delay b with Some d => d | None => aurora_delay end.
Definition resolved_duration (b : aurora_blob) : Q :=
  match blob_duration b with Some d => d | None => aurora_duration end.

(** The left edge of the blob in a container [width] pixels wide. *)
Definition blob_left (width : Q) (b : aurora_blob) : Q :=
  match blob_x b with
  | FromStart p => p / 100 * width
  | FromEnd p => width - p / 100 * width - blob_size b
  end.

(** The horizontal translation [t] seconds after the page loaded.  The
    value of an animation overrides the declared [transform] while the
    animation applies (animations take precedence in the cascade), so
    the blob's own [translateX] counts only before its delay. *)
Definition blob_translate_x (ease : Q -> Q) (b : aurora_blob) (t : Q) : Q :=
  if css_applies (resolved_delay b) t
  then aurora_value ease translate_x (css_progress (resolved_delay b) (resolved_duration b) t)
  else blob_shift_x b / 100 * blob_size b.

(** The centre of the blob: [scale] keeps it, since the
    [transform-origin] is the centre. *)
Definition blob_center_x (ease : Q -> Q) (width : Q) (b : aurora_blob) (t : Q) : Q :=
  blob_left width b + blob_size b / 2 + blob_translate_x ease b t.

(** Where the declared [transform] alone would put the centre. *)
Definition declared_center_x (width : Q) (b : aurora_blob) : Q :=
  blob_left width b + blob_size b / 2 + blob_shift_x b / 100 * blob_size b.

(** ** Theorems *)

Lemma symbol_duration_pos (i : Z) : 0 < inject_Z (symbol_duration i).
Proof.
  change 0 with (inject_Z 0). rewrite <- Zlt_Qlt. unfold symbol_duration.
  pose proof (Z.mod_pos_bound i 4 ltac:(lia)). lia.
Qed.

(** The floating code symbols of the Footer never rise by more than 30
    pixels and never leave [[0.02, 0.06]] in opacity, at any time and
    for every index, during their delay included. *)
Theorem footer_symbols_bounded (i : Z) (t : Q) :
  within (-30) 0 (symbol_y i t) /\ within (2 # 100) (6 # 100) (symbol_opacity i t).
Proof.
  pose proof (symbol_duration_pos i).
  split; apply animate_loop_within; try exact _; auto; try discriminate;
    repeat constructor; unfold within; lra.
Qed.

(** Each symbol ends each iteration where the next begins: on its first
    keyframe, [y = 0] and [opacity = 0.02]. *)
Lemma footer_symbols_seamless (i : Z) (k : nat) :
  symbol_y i (symbol_delay i + inject_Z (Z.of_nat k) * inject_Z (symbol_duration i)) == 0 /\
  symbol_opacity i (symbol_delay i + inject_Z (Z.of_nat k) * inject_Z (symbol_duration i)) == 2 # 100.
Proof.
  pose proof (symbol_duration_pos i).
  split; apply (animate_loop_seam ease_in_out); solve [assumption | cbn; lia | reflexivity].
Qed.

Lemma aurora_frames :
  keyframe_list aurora_float =
  [(0, mkTransform 0 0 1); (1 # 4, mkTransform 50 (-30) (11 # 10));
   (1 # 2, mkTransform (-20) 40 (95 # 100)); (3 # 4, mkTransform 30 20 (105 # 100));
   (1, mkTransform 0 0 1)].
Proof. reflexivity. Qed.

Section Aurora.
Context (ease : Q -> Q) `{!Easing ease}.

(** Each component of the aurora's transform stays within the bounds of
    its keyframes. *)
Lemma aurora_value_within (component : transform -> Q) (lo hi p : Q) :
  Forall (within lo hi) (map (fun f => component (snd f)) (keyframe_list aurora_float)) ->
  within lo hi (aurora_value ease component p).
Proof.
  intros H. unfold aurora_value.
  apply interpolate_within; [exact _ | rewrite aurora_frames; reflexivity | now rewrite !length_map
                            | rewrite aurora_frames; discriminate | exact H].
Qed.

(** Every blob moves by at most [-20..50] pixels across, [-30..40]
    pixels down, and scales within [[0.95, 1.1]], at every progress of
    the animation. *)
Lemma aurora_transform_bounded (p : Q) :
  within (-20) 50 (aurora_value ease translate_x p) /\
  within (-30) 40 (aurora_value ease translate_y p) /\
  within (95 # 100) (11 # 10) (aurora_value ease scale p).
Proof.
  refine (conj _ (conj _ _)); apply aurora_value_within; rewrite aurora_frames; repeat constructor; unfold within; cbn; lra.
Qed.

End Aurora.

(** The third aurora blob is declared centred ([left: 50%] and
    [transform: translateX(-50%)]), but its animation's [transform]
    replaces that declaration from the start: at every time after the
    page loads, in a container of any width and whatever the browser's
    [ease-in-out] curve, its centre lies 180 to 250 pixels right of the
    container's centre. *)
Theorem aurora_blob_3_off_centre (ease : Q -> Q) `{!Easing ease} (width t : Q) :
  0 <= t ->
  declared_center_x width aurora_blob_3 == width / 2 /\
  width / 2 + 180 <= blob_center_x ease width aurora_blob_3 t <= width / 2 + 250.
Proof.
  intros Ht. destruct (aurora_transform_bounded ease (css_progress (-15) 22 t)) as [Hx _].
  unfold declared_center_x, blob_center_x, blob_translate_x, blob_left, resolved_delay, resolved_duration,
    aurora_blob_3, css_applies; cbn [blob_x blob_size blob_shift_x blob_delay blob_duration].
  replace (Qle_bool (-15) t) with true by (symmetry; apply Qle_bool_iff; lra).
  unfold within in Hx. unfold Qdiv. change (/ 2) with (1 # 2). change (/ 100) with (1 # 100).
  split; [ring | split]; lra.
Qed.

Lemma aurora_blob_3_off_centre_witness :
  0 <= 3 /\
  declared_center_x 1280 aurora_blob_3 == 1280 / 2 /\
  1280 / 2 + 180 <= blob_center_x ease_in_out 1280 aurora_blob_3 3 <= 1280 / 2 + 250.
Proof. split; [lra | apply (aurora_blob_3_off_centre ease_in_out 1280 3); lra]. Defined.

(** ** [components/OrbitingLogos.tsx]: the props and the rotation *)

(** Lines 8-15: the props; the optional ones are [None] when left out. *)
Record OrbitingLogosProps : Type := mkOrbitingLogosProps {
  ol_logos : list (string * string);
  ol_radius : option Q;
  ol_duration : option Q;
  ol_direction : option Q;          (** [1] or [-1] *)
  ol_logoSize : option string;
  ol_className : option string
}.

Definition or_default {A} (d : A) (o : option A) : A := match o with Some x => x | None => d end.

(** Lines 17-24: the defaults of the destructuring. *)
Definition ol_radius_of (p : OrbitingLogosProps) : Q := or_default 180 (ol_radius p).
Definition ol_duration_of (p : OrbitingLogosProps) : Q := or_default 40 (ol_duration p).
Definition ol_direction_of (p : OrbitingLogosProps) : Q := or_default 1 (ol_direction p).
Definition ol_logo_size_of (p : OrbitingLogosProps) : string :=
  or_default "w-16 h-16 md:w-20 md:h-20 lg:w-24 lg:h-24"%string (ol_logoSize p).

(** Lines 43-50: [animate={{ rotate: direction * 360 }}] from [0], over
    [duration] seconds, [repeat: Infinity], [ease: 'linear']: the
    orbit's rotation in degrees [t] seconds after the mount. *)
Definition orbit_rotation (p : OrbitingLogosProps) (t : Q) : Q :=
  animate_loop noop 0 (ol_duration_of p) [0; ol_direction_of p * 360] t.

(** Lines 84-92: each logo's own [rotate: direction * -360] with the
    same timing. *)
Definition logo_rotation (p : OrbitingLogosProps) (t : Q) : Q :=
  animate_loop noop 0 (ol_duration_of p) [0; ol_direction_of p * -360] t.

(** [sections/HeroSection.tsx], lines 48-55: the hero's orbit. *)
Definition hero_orbit (logos : list (string * string)) : OrbitingLogosProps :=
  mkOrbitingLogosProps logos (Some 260) (Some 40) (Some 1)
    (Some "w-20 h-20 md:w-28 md:h-28 lg:w-36 lg:h-36"%string) (Some "opacity-80"%string).

(** The counter-rotation cancels the orbit's rotation at every moment,
    for every duration and direction: each logo stays upright on
    screen, as the comment of line 84 intends and [Orbit.logo_box]
    takes for granted. *)
Theorem logos_stay_upright (p : OrbitingLogosProps) (t : Q) :
  orbit_rotation p t + logo_rotation p t == 0.
Proof.
  unfold orbit_rotation, logo_rotation, animate_loop.
  destruct (Qltb _ _); [cbn; reflexivity|].
  unfold keyframes_at, interpolate. cbn [length Nat.eqb andb nth].
  set (a := ol_direction_of p). set (e := loop_elapsed _ _ t).
  replace (Qeq_bool 0 (a * -360)) with (Qeq_bool 0 (a * 360)).
  2:{ destruct (Qeq_bool 0 (a * 360)) eqn:E; symmetry.
      - apply Qeq_bool_iff. apply Qeq_bool_iff in E. lra.
      - apply not_true_iff_false. apply not_true_iff_false in E. rewrite Qeq_bool_iff in *. lra. }
  destruct (Qeq_bool 0 (a * 360)); [cbn; ring|].
  unfold default_offset. cbn [seq map rev app last hd].
  repeat match goal with |- context [if ?b then _ else _] => destruct b end;
    cbn [hd mix_segment]; unfold mix, noop; ring.
Qed.

(** The hero's orbit turns a quarter in ten seconds and a whole turn in
    forty, and starts again. *)
Example hero_orbit_turns :
  orbit_rotation (hero_orbit []) 10 == 90 /\ orbit_rotation (hero_orbit []) 40 == 360 /\
  orbit_rotation (hero_orbit []) 50 == 90.
Proof. vm_compute. repeat split; reflexivity. Qed.
