(* ===== verification/Scroll.v ===== *)
(** * Scrolling: the Footer's back-to-top link and the scroll-driven values

    The window's vertical scroll is state that several components read
    and one changes on purpose.
    - [App.tsx] (line 24) reads it through [useScroll()] and derives the
      header's background opacity from it ([Motion.header_bg_opacity]).
    - [sections/Footer.tsx] (lines 13-16 and 78-80) has a [Top] link,
      [<a href="#" onClick={scrollToTop}>].  Its handler cancels the
      link's navigation with [preventDefault()] and starts a smooth
      scroll to the top with [window.scrollTo({ top: 0, behavior:
      'smooth' })].
    - [components/ClaySculpture.tsx] (lines 21-25) reads the progress of
      its own box through the viewport, [useScroll({ target, offset:
      ["start end", "end start"] })].

    The browser's side is modelled from the HTML and CSSOM View
    specifications.
    - A [viewport] has its scroll position, the largest position the
      document allows, the URL's fragment, and the target of a smooth
      scroll in progress.
    - A click on an anchor runs its [onClick] handler; unless that
      handler prevents the default, the browser then navigates to the
      link's fragment.  That navigation changes the URL's fragment and
      jumps to the element; the empty fragment of [href="#"] jumps to the
      top.
    - A smooth scroll moves in frames of the browser's choosing, each
      between the current position and the target, and then settles on
      the target.  The visitor's own scrolling cancels it.

    The theorems show that the scroll position stays within the
    document.  Clicking [Top] brings the page back to the top with the
    URL unchanged.  The header's opacity never rises along the way and
    is zero at the end.  The sculpture's parallax follows its box through
    the viewport and never moves back down as the page scrolls down. *)

From Stdlib Require Import String List Bool ZArith QArith Qminmax Lqa Lia.
From S2P Require Import Prelude Motion Keyframes.
Import ListNotations.
Open Scope string_scope.
Open Scope list_scope.
Open Scope Q_scope.

(** ** The window *)

Record viewport : Type := mkViewport {
  scroll_y : Q;                (** [window.scrollY] *)
  max_scroll : Q;              (** the document's height less the window's *)
  fragment : option string;    (** the URL's fragment, if it has one *)
  smooth : option Q            (** the target of a smooth scroll in progress *)
}.

(** Positions are clamped to the document. *)
Definition clamp_scroll (v : viewport) (y : Q) : Q := Qmax 0 (Qmin (max_scroll v) y).

Definition with_scroll (v : viewport) (y : Q) (s : option Q) : viewport :=
  mkViewport y (max_scroll v) (fragment v) s.

(** Navigating to the fragment [id] of the page (the default action of
    [<a href="#id">]).  The URL takes the fragment.  The empty fragment
    scrolls to the top; otherwise the page scrolls to the element with
    that id, when there is one ([pos] gives where the layout put it). *)
Definition follow_fragment (pos : string -> option Q) (id : string) (v : viewport) : viewport :=
  let target := if String.eqb id "" then Some 0 else pos id in
  match target with
  | Some y => mkViewport (clamp_scroll v y) (max_scroll v) (Some id) None
  | None => mkViewport (scroll_y v) (max_scroll v) (Some id) (smooth v)
  end.

(** [window.scrollTo({ top, behavior: 'smooth' })]: a smooth scroll
    towards the clamped position starts, replacing any in progress. *)
Definition scroll_to_smooth (top : Q) (v : viewport) : viewport :=
  with_scroll v (scroll_y v) (Some (clamp_scroll v top)).

(** A click handler returns the new window and whether it called
    [preventDefault()]. *)
Definition click_handler : Type := viewport -> viewport * bool.

(** [sections/Footer.tsx], lines 13-16: [scrollToTop]. *)
Definition scroll_to_top : click_handler := fun v => (scroll_to_smooth 0 v, true).

(** A click on [<a href={"#" ++ id}>] with its [onClick] handler, if
    any: the handler runs first, then the default action unless it was
    prevented. *)
Definition click_anchor (pos : string -> option Q) (id : string) (on_click : option click_handler)
    (v : viewport) : viewport :=
  let '(v1, prevented) := match on_click with Some h => h v | None => (v, false) end in
  if prevented then v1 else follow_fragment pos id v1.

Inductive scroll_event : Type :=
| UserScroll (y : Q)          (** the visitor scrolls to [y] *)
| ClickTop                    (** the Footer's [Top] link, lines 78-80 *)
| ClickLink (id : string)     (** a plain in-page link [href="#id"] *)
| Frame (y : Q)               (** a frame of the smooth scroll, at [y] *)
| Settle.                     (** the smooth scroll reaches its target *)

(** [y] lies between [a] and [b]. *)
Definition between (a b y : Q) : bool := Qle_bool (Qmin a b) y && Qle_bool y (Qmax a b).

Definition scroll_step (pos : string -> option Q) (ev : scroll_event) (v : viewport) : viewport :=
  match ev with
  | UserScroll y => with_scroll v (clamp_scroll v y) None
  | ClickTop => click_anchor pos "" (Some scroll_to_top) v
  | ClickLink id => click_anchor pos id None v
  | Frame y =>
      match smooth v with
      | Some target => if between (scroll_y v) target y then with_scroll v y (Some target) else v
      | None => v
      end
  | Settle =>
      match smooth v with
      | Some target => with_scroll v target None
      | None => v
      end
  end.

Definition scroll_run (pos : string -> option Q) (evs : list scroll_event) (v : viewport) : viewport :=
  fold_left (fun w ev => scroll_step pos ev w) evs v.

(** The windows a run goes through, the first one included. *)
Fixpoint scroll_trace (pos : string -> option Q) (evs : list scroll_event) (v : viewport) : list viewport :=
  match evs with
  | [] => [v]
  | ev :: evs' => v :: scroll_trace pos evs' (scroll_step pos ev v)
  end.

(** The header's background opacity in that window ([App.tsx], lines
    24-27: [useScroll()] gives [scrollY]). *)
Definition header_opacity (v : viewport) : Q := header_bg_opacity (scroll_y v).

(** ** [components/ClaySculpture.tsx], lines 21-31 *)

(** [useScroll({ target: ref, offset: ["start end", "end start"] })]:
    the progress runs from the scroll position where the box's top meets
    the window's bottom to the one where its bottom meets the window's
    top, clamped to [[0, 1]].  The box starts at [top] in the document
    and is [height] high; the window is [view] high. *)
Definition target_progress (top height view scrollY : Q) : Q :=
  clamp01 (progress (top - view) (top + height) scrollY).

(** The sculpture's parallax offset at that scroll position. *)
Definition clay_offset (speed top height view scrollY : Q) : Q :=
  clay_y speed (target_progress top height view scrollY).

(** ** The window stays within the document *)

Definition viewport_ok (v : viewport) : Prop :=
  0 <= max_scroll v /\ 0 <= scroll_y v <= max_scroll v /\
  match smooth v with Some t => 0 <= t <= max_scroll v | None => True end.

(** A list that never increases. *)
Fixpoint nonincreasing (l : list Q) : Prop :=
  match l with
  | x :: (y :: _) as t => y <= x /\ nonincreasing t
  | _ => True
  end.

Lemma clamp_scroll_range (v : viewport) (y : Q) :
  0 <= max_scroll v -> 0 <= clamp_scroll v y <= max_scroll v.
Proof.
  intros H. unfold clamp_scroll. split; [apply Q.le_max_l|].
  apply Q.max_lub; [exact H | apply Q.le_min_l].
Qed.

Lemma clamp_scroll_zero (v : viewport) : 0 <= max_scroll v -> clamp_scroll v 0 == 0.
Proof. intros H. unfold clamp_scroll. rewrite Q.min_r by exact H. apply Q.max_id. Qed.

Lemma between_bounds (a b y : Q) : between a b y = true -> Qmin a b <= y <= Qmax a b.
Proof. unfold between. rewrite andb_true_iff, !Qle_bool_iff. tauto. Qed.

Lemma between_range (a b y lo hi : Q) :
  between a b y = true -> lo <= a <= hi -> lo <= b <= hi -> lo <= y <= hi.
Proof.
  intros H Ha Hb. apply between_bounds in H as [H1 H2]. split.
  - apply Qle_trans with (Qmin a b); [apply Q.min_glb; lra | exact H1].
  - apply Qle_trans with (Qmax a b); [exact H2 | apply Q.max_lub; lra].
Qed.

Lemma follow_fragment_ok (pos : string -> option Q) (id : string) (v : viewport) :
  viewport_ok v -> viewport_ok (follow_fragment pos id v).
Proof.
  intros (Hm & Hs & Ht). unfold follow_fragment.
  destruct (if String.eqb id "" then Some 0 else pos id); unfold viewport_ok; cbn.
  - split; [exact Hm | split; [apply clamp_scroll_range, Hm | exact I]].
  - split; [exact Hm | split; [exact Hs | exact Ht]].
Qed.

(** Every event keeps the scroll position, and the target of a smooth
    scroll, within the document. *)
Lemma scroll_step_ok (pos : string -> option Q) (ev : scroll_event) (v : viewport) :
  viewport_ok v -> viewport_ok (scroll_step pos ev v).
Proof.
  intros Hv. pose proof Hv as (Hm & Hs & Ht).
  destruct ev as [y| |id|y|]; cbn [scroll_step].
  - unfold viewport_ok; cbn. split; [exact Hm | split; [apply clamp_scroll_range, Hm | exact I]].
  - unfold viewport_ok; cbn. split; [exact Hm | split; [exact Hs | apply clamp_scroll_range, Hm]].
  - now apply follow_fragment_ok.
  - destruct (smooth v) as [t|] eqn:E; [|exact Hv].
    destruct (between _ _ _) eqn:B; [|exact Hv].
    unfold viewport_ok; cbn. split; [exact Hm|].
    assert (0 <= y <= max_scroll v) by (eapply between_range; [exact B | exact Hs | exact Ht]).
    tauto.
  - destruct (smooth v) as [t|] eqn:E; [|exact Hv].
    unfold viewport_ok; cbn. tauto.
Qed.

Lemma scroll_run_preserves (Pr : viewport -> Prop) (pos : string -> option Q) (evs : list scroll_event) :
  (forall w ev, In ev evs -> Pr w -> Pr (scroll_step pos ev w)) ->
  forall v, Pr v -> Pr (scroll_run pos evs v).
Proof.
  induction evs as [|ev evs IH]; intros Hstep v Hv; [exact Hv|].
  cbn. apply IH; [intros w e Hi; apply Hstep; now right | apply Hstep; [now left | exact Hv]].
Qed.

Lemma trace_nonincreasing (Pr : viewport -> Prop) (f : viewport -> Q) (pos : string -> option Q) :
  forall evs v,
  (forall w ev, In ev evs -> Pr w -> Pr (scroll_step pos ev w) /\ f (scroll_step pos ev w) <= f w) ->
  Pr v -> nonincreasing (map f (scroll_trace pos evs v)).
Proof.
  induction evs as [|ev evs IH]; intros v Hstep Hv; [exact I|].
  destruct (Hstep v ev (or_introl eq_refl) Hv) as [Hv' Hle].
  cbn [scroll_trace map]. destruct evs as [|ev' evs']; cbn [scroll_trace map]; [split; [exact Hle | exact I]|].
  split; [exact Hle|]. apply (IH _ (fun w e Hi => Hstep w e (or_intror Hi)) Hv').
Qed.

(** ** The way back to the top *)

(** On the way to the top: the scroll is not negative, the fragment is
    [F], and a smooth scroll in progress goes to [0]. *)
Definition toward_top (F : option string) (w : viewport) : Prop :=
  0 <= max_scroll w /\ 0 <= scroll_y w /\ fragment w = F /\
  match smooth w with Some t => t == 0 | None => True end.

Definition top_event (ev : scroll_event) : bool :=
  match ev with ClickTop | Frame _ | Settle => true | _ => false end.

(** [Top], the frames of its smooth scroll and its settling never
    scroll down, and keep the URL. *)
Lemma top_step (pos : string -> option Q) (F : option string) (ev : scroll_event) (w : viewport) :
  top_event ev = true -> toward_top F w ->
  toward_top F (scroll_step pos ev w) /\ scroll_y (scroll_step pos ev w) <= scroll_y w.
Proof.
  intros He Hw. pose proof Hw as (Hm & Hs & Hf & Ht).
  assert (Same : toward_top F w /\ scroll_y w <= scroll_y w) by (split; [exact Hw | apply Qle_refl]).
  destruct ev as [| | |y|]; try discriminate; cbn [scroll_step].
  - split; [|apply Qle_refl]. unfold toward_top; cbn.
    split; [exact Hm | split; [exact Hs | split; [exact Hf | apply clamp_scroll_zero, Hm]]].
  - destruct (smooth w) as [t|] eqn:E; [|exact Same].
    destruct (between _ _ _) eqn:B; [|exact Same].
    apply between_bounds in B. rewrite Q.min_r, Q.max_l in B by lra.
    split; [|cbn; lra]. unfold toward_top; cbn.
    split; [exact Hm | split; [lra | split; [exact Hf | exact Ht]]].
  - destruct (smooth w) as [t|] eqn:E; [|exact Same].
    split; [|cbn; lra]. unfold toward_top; cbn.
    split; [exact Hm | split; [lra | split; [exact Hf | exact I]]].
Qed.

Lemma top_step_opacity (pos : string -> option Q) (F : option string) (ev : scroll_event) (w : viewport) :
  top_event ev = true -> toward_top F w ->
  toward_top F (scroll_step pos ev w) /\ header_opacity (scroll_step pos ev w) <= header_opacity w.
Proof.
  intros He Hw. destruct (top_step pos F ev w He Hw) as [H1 H2]. split; [exact H1|].
  revert H2. generalize (scroll_step pos ev w) as w'. intros w' H2.
  unfold header_opacity, header_bg_opacity. exact (use_transform_mono 0 100 0 (95 # 100) _ _ eq_refl ltac:(discriminate) H2).
Qed.

Lemma nonincreasing_cons (x : Q) (l : list Q) :
  nonincreasing l -> hd x l <= x -> nonincreasing (x :: l).
Proof. destruct l as [|y l]; cbn; [tauto | intros H Hy; exact (conj Hy H)]. Qed.

Lemma frame_keeps_pending (pos : string -> option Q) (y : Q) (w : viewport) :
  smooth w <> None -> smooth (scroll_step pos (Frame y) w) <> None.
Proof.
  intros H. cbn [scroll_step]. destruct (smooth w) as [t|] eqn:E; [|congruence].
  destruct (between _ _ _); cbn; [discriminate | now rewrite E].
Qed.

Lemma top_events (ys : list Q) (ev : scroll_event) :
  In ev (ClickTop :: map Frame ys ++ [Settle]) -> top_event ev = true.
Proof.
  intros [<-|H]; [reflexivity|]. apply in_app_or in H as [H|[<-|[]]]; [|reflexivity].
  apply in_map_iff in H as (y & <- & _). reflexivity.
Qed.

(** Clicking the Footer's [Top] link, whatever frames the browser's
    smooth scroll goes through, brings the page back to the top: the
    scroll ends at [0] and the header fully transparent, the URL keeps
    its fragment, and the header's opacity never rises on the way. *)
Theorem back_to_top (pos : string -> option Q) (v : viewport) (ys : list Q) :
  viewport_ok v ->
  let evs := ClickTop :: map Frame ys ++ [Settle] in
  let w := scroll_run pos evs v in
  scroll_y w == 0 /\ header_opacity w == 0 /\ fragment w = fragment v /\
  nonincreasing (map header_opacity (scroll_trace pos evs v)).
Proof.
  intros (Hm & Hs & _) evs w.
  set (v1 := scroll_step pos ClickTop v).
  assert (H1 : toward_top (fragment v) v1 /\ smooth v1 <> None).
  { split; [|cbn; discriminate].
    unfold v1, toward_top; cbn. repeat split; auto; [lra | apply clamp_scroll_zero, Hm]. }
  assert (Hmono : nonincreasing (map header_opacity (scroll_trace pos evs v))).
  { change (nonincreasing (header_opacity v :: map header_opacity (scroll_trace pos (map Frame ys ++ [Settle]) v1))).
    apply nonincreasing_cons; [|destruct ys; apply Qle_refl].
    apply (trace_nonincreasing (toward_top (fragment v))); [|exact (proj1 H1)].
    intros w' ev Hi Hw. apply top_step_opacity; [apply (top_events ys); now right | exact Hw]. }
  set (v2 := scroll_run pos (map Frame ys) v1).
  assert (H2 : toward_top (fragment v) v2 /\ smooth v2 <> None).
  { apply (scroll_run_preserves (fun w' => toward_top (fragment v) w' /\ smooth w' <> None)); [|exact H1].
    intros w' ev Hi [Hw Hp]. apply in_map_iff in Hi as (y & <- & _).
    split; [exact (proj1 (top_step pos _ (Frame y) w' eq_refl Hw)) | now apply frame_keeps_pending]. }
  assert (Hw : w = scroll_step pos Settle v2)
    by (unfold w, evs, v2, v1, scroll_run; cbn [fold_left]; now rewrite fold_left_app).
  destruct H2 as [(Hm2 & Hs2 & Hf2 & Ht2) Hp2].
  rewrite Hw. cbn [scroll_step]. destruct (smooth v2) as [t|] eqn:E; [|congruence].
  unfold header_opacity. cbn [with_scroll scroll_y fragment].
  split; [exact Ht2|]. split; [|split; [exact Hf2 | exact Hmono]].
  unfold header_bg_opacity, use_transform, mix, clamp01, progress. rewrite Ht2. now vm_compute.
Qed.

Lemma back_to_top_witness :
  viewport_ok (mkViewport 2400 5000 (Some "projects") None) /\
  scroll_y (scroll_run (fun _ => None) (ClickTop :: map Frame [1200; 300] ++ [Settle])
                       (mkViewport 2400 5000 (Some "projects") None)) == 0.
Proof.
  assert (H : viewport_ok (mkViewport 2400 5000 (Some "projects") None))
    by (unfold viewport_ok; cbn; repeat split; try exact I; unfold Qle; cbn; lia).
  split; [exact H|].
  exact (proj1 (back_to_top (fun _ => None) _ [1200; 300] H)).
Defined.

(** Scrolling while the smooth scroll runs cancels it: the page stays
    where the visitor left it. *)
Example user_scroll_cancels_top :
  scroll_y (scroll_run (fun _ => None) [ClickTop; Frame 1800; UserScroll 2000; Settle]
                       (mkViewport 2400 5000 None None)) == 2000.
Proof. reflexivity. Qed.

(** A plain in-page link takes the URL's fragment; the [Top] link, whose
    handler prevents that, keeps it. *)
Example links_and_fragment :
  fragment (scroll_run (fun _ => Some 900) [ClickLink "about"] (mkViewport 0 5000 None None)) = Some "about" /\
  fragment (scroll_run (fun _ => Some 900) [ClickTop; Settle] (mkViewport 2400 5000 None None)) = None.
Proof. split; reflexivity. Qed.

(** ** The sculpture's parallax *)

Lemma clay_y_at (speed p : Q) :
  (p <= 0 -> clay_y speed p == 0)%Q /\ (1 <= p -> clay_y speed p == -150 * speed)%Q.
Proof.
  unfold clay_y, use_transform, mix, clamp01, progress. split; intros H.
  - setoid_replace ((p - 0) / (1 - 0)) with p by field. rewrite (Q.min_r 1 p) by lra.
    rewrite Q.max_l by exact H. ring.
  - setoid_replace ((p - 0) / (1 - 0)) with p by field. rewrite Q.min_l by exact H.
    rewrite Q.max_r by lra. ring.
Qed.

(** The sculpture stays put until its box enters the window from below,
    has risen by [150 * parallaxSpeed] once the box has left it at the
    top, and never moves back down as the page scrolls down. *)
Lemma clay_parallax (speed top height view : Q) :
  0 <= speed -> 0 < height + view ->
  (forall y, y <= top - view -> clay_offset speed top height view y == 0) /\
  (forall y, top + height <= y -> clay_offset speed top height view y == -150 * speed) /\
  (forall y y', y <= y' -> clay_offset speed top height view y' <= clay_offset speed top height view y).
Proof.
  intros Hs Hh. unfold clay_offset, target_progress.
  assert (Hx : top - view < top + height) by lra.
  split; [|split].
  - intros y Hy. apply clay_y_at. apply Q.max_lub; [lra|].
    apply Qle_trans with (progress (top - view) (top + height) y); [apply Q.le_min_r|].
    apply Qle_trans with (progress (top - view) (top + height) (top - view)); [now apply progress_mono|].
    unfold progress. setoid_replace (top - view - (top - view)) with 0 by ring. unfold Qdiv. rewrite Qmult_0_l. lra.
  - intros y Hy. apply clay_y_at.
    assert (H1 : 1 <= progress (top - view) (top + height) y).
    { apply Qle_trans with (progress (top - view) (top + height) (top + height)); [|now apply progress_mono].
      unfold progress. setoid_replace ((top + height - (top - view)) / (top + height - (top - view))) with 1
        by (field; intros E; lra). lra. }
    unfold clamp01. rewrite Q.min_l by exact H1. rewrite Q.max_r by lra. lra.
  - intros y y' Hy. unfold clay_y. apply use_transform_anti; [lra | nra |].
    apply clamp01_mono, progress_mono; assumption.
Qed.

Lemma clay_parallax_witness :
  (0 <= 3 # 10 /\ 0 < 400 + 900) /\
  clay_offset (3 # 10) 1500 400 900 4000 == -150 * (3 # 10).
Proof.
  assert (H : 0 <= 3 # 10 /\ 0 < 400 + 900) by (split; lra).
  split; [exact H|].
  exact (proj1 (proj2 (clay_parallax (3 # 10) 1500 400 900 (proj1 H) (proj2 H))) 4000 ltac:(lra)).
Defined.

(** ** [components/ClaySculpture.tsx]: the props and the animations *)

(** Lines 4-11: the props; the optional ones are [None] when left out. *)
Record ClaySculptureProps : Type := mkClaySculptureProps {
  cs_src : string;
  cs_alt : string;
  cs_className : option string;
  cs_parallaxSpeed : option Q;
  cs_floatDelay : option Q;
  cs_initialDelay : option Q
}.

(** Lines 13-20: the defaults of the destructuring. *)
Definition cs_class_of (p : ClaySculptureProps) : string := or_default "" (cs_className p).
Definition cs_speed_of (p : ClaySculptureProps) : Q := or_default default_parallax (cs_parallaxSpeed p).
Definition cs_float_delay_of (p : ClaySculptureProps) : Q := or_default 0 (cs_floatDelay p).
Definition cs_initial_delay_of (p : ClaySculptureProps) : Q := or_default (8 # 10) (cs_initialDelay p).

(** Lines 38-44: the entrance, from [opacity: 0, scale: 0.9] to
    [opacity: 1, scale: 1] in half a second after [initialDelay], along
    [cubic-bezier(0.25, 0.1, 0.25, 1)]. *)
Definition clay_entry_ease : Q -> Q := cubic_bezier (1 # 4) (1 # 10) (1 # 4) 1.

Definition clay_opacity (p : ClaySculptureProps) (t : Q) : Q :=
  animate_once clay_entry_ease (cs_initial_delay_of p) (1 # 2) [0; 1] t.

Definition clay_scale (p : ClaySculptureProps) (t : Q) : Q :=
  animate_once clay_entry_ease (cs_initial_delay_of p) (1 # 2) [9 # 10; 1] t.

(** Lines 50-58: the image floats up by ten pixels and back every six
    seconds, after [floatDelay]. *)
Definition clay_float (p : ClaySculptureProps) (t : Q) : Q :=
  animate_loop ease_in_out (cs_float_delay_of p) 6 [0; -10; 0] t.

#[export] Instance clay_entry_easing : Easing clay_entry_ease.
Proof. apply cubic_bezier_easing; lra. Qed.

#[export] Typeclasses Opaque clay_entry_ease.

Lemma animate_once_settles (ease : Q -> Q) `{!Easing ease} (delay duration : Q) (values : list Q) (t : Q) :
  0 < duration -> (2 <= length values)%nat -> delay + duration <= t ->
  animate_once ease delay duration values t == last values 0.
Proof.
  intros Hd H2 Ht. unfold animate_once.
  replace (Qltb (t - delay) 0) with false by (symmetry; apply Qltb_false; lra).
  unfold keyframes_at. fold (offset_times (length values) duration).
  destruct (length values) as [|[|m]] eqn:L; try lia.
  apply interpolate_after; [exact _ | now apply offset_times_increasing | now rewrite offset_times_length
                           | intros E; apply (f_equal (@length Q)) in E; rewrite offset_times_length in E; discriminate
                           | rewrite offset_times_last; lra].
Qed.

(** Half a second after its [initialDelay] the sculpture is fully shown
    at its full size, and it stays so; whatever the props, it then
    floats within ten pixels of its place. *)
Lemma clay_entry_settles (p : ClaySculptureProps) (t : Q) :
  cs_initial_delay_of p + (1 # 2) <= t ->
  clay_opacity p t == 1 /\ clay_scale p t == 1 /\ within (-10) 0 (clay_float p t).
Proof.
  intros Ht. split; [|split].
  - exact (animate_once_settles clay_entry_ease (cs_initial_delay_of p) (1 # 2) [0; 1] t eq_refl (le_n 2) Ht).
  - exact (animate_once_settles clay_entry_ease (cs_initial_delay_of p) (1 # 2) [9 # 10; 1] t eq_refl (le_n 2) Ht).
  - assert (Hv : Forall (within (-10) 0) [0; -10; 0]) by (repeat constructor; unfold within; lra).
    exact (animate_loop_within ease_in_out (-10) 0 (cs_float_delay_of p) 6 [0; -10; 0] t eq_refl
             ltac:(discriminate) Hv).
Qed.

Lemma clay_entry_settles_witness :
  cs_initial_delay_of (mkClaySculptureProps "clay.png" "Clay" None None None None) + (1 # 2) <= 2 /\
  clay_opacity (mkClaySculptureProps "clay.png" "Clay" None None None None) 2 == 1.
Proof.
  assert (H : cs_initial_delay_of (mkClaySculptureProps "clay.png" "Clay" None None None None) + (1 # 2) <= 2)
    by (cbn; lra).
  split; [exact H | exact (proj1 (clay_entry_settles _ 2 H))].
Defined.
