(* ===== verification/InView.v ===== *)
(** * Entering the viewport: [FadeInView] and the Footer's bottom row

    [components/FadeInView.tsx] wraps most blocks of the page.  Each one
    starts transparent and shifted by 30 pixels ([initial]), and fades in
    when it enters the viewport: [whileInView] with [viewport={{ once:
    true, margin: "-100px" }}].  framer-motion watches the element with an
    IntersectionObserver whose root is the window shrunk by 100 pixels on
    each side.  The fade starts at the first frame at which the element's
    box, shifted as it is, meets that root, and it happens once.

    The observer is modelled from the IntersectionObserver
    specification, on the vertical axis: a box meets the root when their
    extents meet, touching edges included.  The frames are the windows a
    scroll run of [Scroll] goes through, whatever the visitor does: wheel
    scrolling, links, the [Top] link and its smooth scroll.

    The Footer ([sections/Footer.tsx]) ends with a [FadeInView] around
    its bottom row (lines 169-191): the copyright line, the credits and
    the profile links.  That row sits at the very end of the document.
    Its box ends 40 pixels above it (the [py-10] of line 74).  It is the
    [pt-10] padding, a 1-pixel border and, from 640 pixels wide on
    ([sm:flex-row]), one line of 11-pixel text.  The theorem shows that
    on such a layout the row never enters the shrunk root, at any scroll
    position the document allows.  Its 30-pixel shift keeps it lower
    still.  So the bottom row stays transparent for good.  On a narrow
    window the three items stack, the row is taller, and it does fade
    in at the bottom of the page. *)

From Stdlib Require Import String List Bool ZArith QArith Qminmax Lqa Lia.
From S2P Require Import Prelude Motion Keyframes Scroll.
Import ListNotations.
Open Scope string_scope.
Open Scope list_scope.
Open Scope Q_scope.

(** ** [components/FadeInView.tsx] *)

Inductive direction : Type := Up | Down | Left | Right.

(** Lines 4-10: the props; the optional ones are [None] when left out. *)
Record FadeInViewProps : Type := mkFadeInViewProps {
  fv_delay : option Q;
  fv_direction : option direction;
  fv_className : option string;
  fv_duration : option Q
}.

(** Lines 12-18: the defaults of the destructuring. *)
Definition fv_delay_of (p : FadeInViewProps) : Q := or_default 0 (fv_delay p).
Definition fv_direction_of (p : FadeInViewProps) : direction := or_default Up (fv_direction p).
Definition fv_duration_of (p : FadeInViewProps) : Q := or_default (6 # 10) (fv_duration p).

(** Lines 19-24: the initial shift [(y, x)] of each direction, in
    pixels. *)
Definition direction_offset (d : direction) : Q * Q :=
  match d with
  | Up => (30, 0)
  | Down => (-30, 0)
  | Left => (0, 30)
  | Right => (0, -30)
  end.

(** Lines 26-29: the initial opacity. *)
Definition initial_opacity : Q := 0.

(** Line 40: [margin: "-100px"]. *)
Definition view_margin : Q := -100.

(** ** The IntersectionObserver *)

(** Two vertical extents meet, touching edges included. *)
Definition intersects (top bottom root_top root_bottom : Q) : bool :=
  Qle_bool top root_bottom && Qle_bool root_top bottom.

(** Whether a box of the document, from [top] down [height] pixels,
    meets the root (the window [view] pixels high grown by the margin)
    when the page is scrolled to [scrollY]. *)
Definition in_view (view scrollY top height : Q) : bool :=
  intersects (top - scrollY) (top + height - scrollY) (0 - view_margin) (view + view_margin).

(** [whileInView] with [once: true]: whether the fade has started after
    the frames [frames] (scroll positions), for an element laid out at
    [top] and [height] and shifted by its initial offset until then. *)
Definition fade_started (p : FadeInViewProps) (view top height : Q) (frames : list Q) : bool :=
  existsb (fun y => in_view view y (top + fst (direction_offset (fv_direction_of p))) height) frames.

(** ** [sections/Footer.tsx], lines 74 and 169-191: the bottom row *)

(** Line 169: [<FadeInView delay={0.3}>], going up. *)
Definition footer_row_props : FadeInViewProps := mkFadeInViewProps (Some (3 # 10)) None None None.

(** Line 170: [pt-10] and [border-t] above the content.  From 640
    pixels wide ([wide]) the three items stand in one row, one line of
    [lh] pixels high; below, they stack with [gap-6] (24 pixels). *)
Definition footer_row_height (wide : bool) (lh : Q) : Q :=
  if wide then 40 + 1 + lh else 40 + 1 + 3 * lh + 2 * 24.

(** Line 74: the content ends [py-10], 40 pixels, above the footer's
    end, which is the document's. *)
Definition footer_row_top (doc_height : Q) (wide : bool) (lh : Q) : Q :=
  doc_height - 40 - footer_row_height wide lh.

(** The scroll positions of the frames a run goes through. *)
Definition run_frames (pos : string -> option Q) (evs : list scroll_event) (v : viewport) : list Q :=
  map scroll_y (scroll_trace pos evs v).

(** ** Lemmas *)

Lemma scroll_step_max (pos : string -> option Q) (ev : scroll_event) (v : viewport) :
  max_scroll (scroll_step pos ev v) = max_scroll v.
Proof.
  destruct ev; cbn [scroll_step]; try reflexivity.
  - unfold click_anchor, follow_fragment. cbn. destruct (if String.eqb id "" then _ else _); reflexivity.
  - destruct (smooth v); [destruct (between _ _ _)|]; reflexivity.
  - destruct (smooth v); reflexivity.
Qed.

(** Every window of a run lies within the same document. *)
Lemma scroll_trace_ok (pos : string -> option Q) (evs : list scroll_event) (v : viewport) :
  viewport_ok v ->
  Forall (fun w => viewport_ok w /\ max_scroll w = max_scroll v) (scroll_trace pos evs v).
Proof.
  revert v. induction evs as [|ev evs IH]; intros v Hv; cbn [scroll_trace].
  - constructor; [split; [exact Hv | reflexivity] | constructor].
  - constructor; [split; [exact Hv | reflexivity]|].
    eapply Forall_impl; [|apply IH, scroll_step_ok, Hv].
    intros w [Hw Hm]. split; [exact Hw|]. now rewrite Hm, scroll_step_max.
Qed.

(** A box whose top, shifted as it is, stays lower than the root's
    bottom at every scroll position of the document is never in view. *)
Lemma never_in_view (view top height maxs : Q) (frames : list Q) :
  top - maxs > view + view_margin ->
  Forall (fun y => y <= maxs) frames ->
  existsb (fun y => in_view view y top height) frames = false.
Proof.
  intros Ht Hf. apply not_true_iff_false. rewrite existsb_exists.
  intros (y & Hy & E). rewrite Forall_forall in Hf. specialize (Hf y Hy).
  unfold in_view, intersects in E. apply andb_true_iff in E as [E _].
  apply Qle_bool_iff in E. lra.
Qed.

(** ** Theorems *)

(** On a window at least 640 pixels wide, with any line height below
    49 pixels (browsers lay an 11-pixel font out at about 16), the
    Footer's bottom row never fades in.  Whatever the visitor does from
    any window of the document (scrolling, links, the [Top] link and
    its smooth scroll), its [FadeInView] never starts, so the
    copyright line, the credits and the profile links keep their
    initial opacity [0]. *)
Theorem footer_row_never_shown (pos : string -> option Q) (v : viewport) (evs : list scroll_event)
    (view lh : Q) :
  viewport_ok v -> 0 <= lh < 49 ->
  fade_started footer_row_props view (footer_row_top (max_scroll v + view) true lh)
               (footer_row_height true lh) (run_frames pos evs v) = false.
Proof.
  intros Hv Hl. unfold fade_started, run_frames.
  apply (never_in_view view _ _ (max_scroll v)).
  - unfold footer_row_top, footer_row_height, view_margin. cbn. lra.
  - apply Forall_map. eapply Forall_impl; [|exact (scroll_trace_ok pos evs v Hv)].
    intros w [(_ & Hs & _) Hm]. rewrite <- Hm. apply Hs.
Qed.

Lemma footer_row_never_shown_witness :
  (viewport_ok (mkViewport 0 4200 None None) /\ 0 <= 33 # 2 < 49) /\
  fade_started footer_row_props 900 (footer_row_top (4200 + 900) true (33 # 2))
               (footer_row_height true (33 # 2))
               (run_frames (fun _ => None) [UserScroll 2000; UserScroll 5000; ClickTop; Settle]
                           (mkViewport 0 4200 None None)) = false.
Proof.
  assert (H : viewport_ok (mkViewport 0 4200 None None) /\ 0 <= 33 # 2 < 49)
    by (unfold viewport_ok; cbn; repeat split; try exact I; unfold Qle, Qlt; cbn; lia).
  split; [exact H|].
  exact (footer_row_never_shown (fun _ => None) (mkViewport 0 4200 None None)
           [UserScroll 2000; UserScroll 5000; ClickTop; Settle] 900 (33 # 2) (proj1 H) (proj2 H)).
Defined.

(** On a narrow window the stacked row is taller and fades in once the
    page is scrolled to its end; the same row laid out in one line, at
    the same scroll, does not. *)
Example footer_row_narrow_vs_wide :
  fade_started footer_row_props 800 (footer_row_top (4200 + 800) false (33 # 2))
               (footer_row_height false (33 # 2)) [4200] = true /\
  fade_started footer_row_props 800 (footer_row_top (4200 + 800) true (33 # 2))
               (footer_row_height true (33 # 2)) [4200] = false.
Proof. split; reflexivity. Qed.
