(* ===== verification/Lifecycle.v ===== *)
(** * The browser host and the components' effects

    [components/Spline3DModel.tsx] runs two effects (lines 53-65).  The
    first registers a [resize] listener on the window and removes it in
    its cleanup.  The second schedules the deferred load with
    [setTimeout] and clears it in its cleanup.  [Page.spline_step]
    abstracts both into three booleans.  This file keeps what the
    abstraction drops:
    - the window's listeners and timers, by identity ([Host]);
    - the closures that each effect registers;
    - React's order of effects, cleanups and state updates on mount,
      update and unmount ([SplineEffects]).

    [Host] models the DOM builtins the component calls, from their
    specifications (they are not among the sources):
    - [addEventListener] ignores a listener already registered for the
      same type and the same function;
    - [removeEventListener] removes the listener with the same type and
      function;
    - [setTimeout] returns a fresh id;
    - [clearTimeout] forgets the timer with that id.

    The theorems show:
    - after any sequence of mounts, unmounts, resizes and timers, the
      window holds exactly the mounted instance's one listener and at
      most its one timer, and nothing once it is unmounted;
    - every callback the window holds targets the live instance;
    - the host-level model refines [Page.spline_step], so the theorems
      about the abstract machine hold of the effects;
    - on a desktop width the scene is always loaded, or is loaded by
      the one timer the window holds for it.

    [ChatEffects] models the two effects of
    [components/ChatWindow.tsx] (lines 28-34): the scroll to the end of
    the list after each change of [messages], and the focus of the input
    at the mount.  It also keeps where the keyboard focus is, under
    HTML's focus fixup rule.  Its theorems show that the list stays
    scrolled to its end, and that the first send takes the focus from
    the input for good: the focus effect never runs again. *)

From Stdlib Require Import String List Bool ZArith Lia.
From S2P Require Import Prelude JsString Json JsonText Client Page.
Import ListNotations.
Open Scope string_scope.
Open Scope list_scope.

Module Host.

(** What a registered function does when the window calls it.  A
    closure belongs to the instance that created it, named by [inst]. *)
Inductive callback : Type :=
| CheckMobile (inst : nat)     (** [checkMobile], line 54 *)
| LoadScene (inst : nat).      (** [() => setShouldLoad(true)], line 63 *)

Record listener : Type := mkListener { l_type : string; l_fn : nat; l_cb : callback }.

Record timer : Type := mkTimer { t_id : nat; t_delay : Z; t_cb : callback }.

(** The window: its width, the next fresh identity (of a closure, a
    timer or a component instance), the listeners in registration order
    and the pending timers. *)
Record host : Type := mkHost {
  inner_width : Z;
  fresh : nat;
  listeners : list listener;
  timers : list timer
}.

Definition same_listener (ty : string) (fn : nat) (l : listener) : bool :=
  String.eqb (l_type l) ty && Nat.eqb (l_fn l) fn.

Definition add_event_listener (ty : string) (fn : nat) (cb : callback) (h : host) : host :=
  if existsb (same_listener ty fn) (listeners h) then h
  else mkHost (inner_width h) (fresh h) (listeners h ++ [mkListener ty fn cb]) (timers h).

Definition remove_event_listener (ty : string) (fn : nat) (h : host) : host :=
  mkHost (inner_width h) (fresh h) (filter (fun l => negb (same_listener ty fn l)) (listeners h))
    (timers h).

Definition alloc (h : host) : nat * host :=
  (fresh h, mkHost (inner_width h) (S (fresh h)) (listeners h) (timers h)).

Definition set_timeout (cb : callback) (delay : Z) (h : host) : nat * host :=
  let '(id, h') := alloc h in
  (id, mkHost (inner_width h') (fresh h') (listeners h') (timers h' ++ [mkTimer id delay cb])).

Definition clear_timeout (id : nat) (h : host) : host :=
  mkHost (inner_width h) (fresh h) (listeners h)
    (filter (fun t => negb (Nat.eqb (t_id t) id)) (timers h)).

Definition set_width (width : Z) (h : host) : host :=
  mkHost width (fresh h) (listeners h) (timers h).

End Host.

Module SplineEffects.
Import Host.

(** One mounted [Spline3DModel]: its state ([isMobile], [shouldLoad])
    and what its effects' cleanups hold. *)
Record instance : Type := mkInstance {
  inst : nat;                 (** the instance the setters belong to *)
  mobile : bool;              (** [isMobile], line 50 *)
  load : bool;                (** [shouldLoad], line 51 *)
  check_fn : nat;             (** the [checkMobile] closure of line 54 *)
  load_timer : option nat     (** the [timer] of line 63, if the effect set one *)
}.

(** Lines 61-65, the body of the second effect, with the [isMobile] of
    the render it follows. *)
Definition defer_effect (i : nat) (isMobile : bool) (h : host) : option nat * host :=
  if isMobile then (None, h)
  else let '(t, h') := set_timeout (LoadScene i) 1500 h in (Some t, h').

(** Line 64, its cleanup. *)
Definition defer_cleanup (timer : option nat) (h : host) : host :=
  match timer with Some t => clear_timeout t h | None => h end.

(** [setIsMobile(b)].  React bails out on an unchanged value.
    Otherwise the new render changes the second effect's dependency
    [[isMobile]], so React runs its cleanup and then its body. *)
Definition set_is_mobile (b : bool) (x : instance) (h : host) : instance * host :=
  if Bool.eqb b (mobile x) then (x, h)
  else let '(t, h') := defer_effect (inst x) b (defer_cleanup (load_timer x) h) in
       (mkInstance (inst x) b (load x) (check_fn x) t, h').

(** [setShouldLoad(true)]: no effect depends on it. *)
Definition set_should_load (x : instance) : instance :=
  mkInstance (inst x) (mobile x) true (check_fn x) (load_timer x).

(** Mount, lines 49-65.  The first render has [isMobile = false].
    After the commit the effects run in order:
    - the first calls [checkMobile()], which queues
      [setIsMobile(window.innerWidth < 768)], and registers the
      listener;
    - the second, seeing [false], schedules the timer.
    The queued update is applied afterwards. *)
Definition mount (h : host) : instance * host :=
  let '(i, h1) := alloc h in
  let '(c, h2) := alloc h1 in
  let queued := check_mobile (inner_width h2) in
  let h3 := add_event_listener "resize" c (CheckMobile i) h2 in
  let '(t, h4) := defer_effect i false h3 in
  set_is_mobile queued (mkInstance i false false c t) h4.

(** Unmount: React runs the cleanups of both effects (lines 57 and 64). *)
Definition unmount (x : instance) (h : host) : host :=
  defer_cleanup (load_timer x) (remove_event_listener "resize" (check_fn x) h).

(** The window and the component, mounted or not. *)
Definition world : Type := host * option instance.

(** A callback calls a setter of the instance that created it.  A
    setter of an instance that is no longer mounted does nothing. *)
Definition run_callback (cb : callback) (w : world) : world :=
  match w with
  | (h, Some x) =>
      match cb with
      | CheckMobile i =>
          if Nat.eqb i (inst x)
          then let '(x', h') := set_is_mobile (check_mobile (inner_width h)) x h in (h', Some x')
          else w
      | LoadScene i => if Nat.eqb i (inst x) then (h, Some (set_should_load x)) else w
      end
  | (_, None) => w
  end.

(** An event of type [ty] calls the listeners registered for it, in
    order. *)
Definition dispatch (ty : string) (w : world) : world :=
  fold_left (fun w l => run_callback (l_cb l) w)
    (filter (fun l => String.eqb (l_type l) ty) (listeners (fst w))) w.

(** A pending timer is forgotten and its callback runs.  An id that is
    not pending does nothing. *)
Definition fire (id : nat) (w : world) : world :=
  match find (fun t => Nat.eqb (t_id t) id) (timers (fst w)) with
  | Some t => run_callback (t_cb t) (clear_timeout id (fst w), snd w)
  | None => w
  end.

Inductive world_event : Type :=
| Mount
| Unmount
| WindowResize (width : Z)
| TimerFire (id : nat).

Definition world_step (ev : world_event) (w : world) : world :=
  match ev, w with
  | Mount, (h, None) => let '(x, h') := mount h in (h', Some x)
  | Unmount, (h, Some x) => (unmount x h, None)
  | WindowResize width, (h, o) => dispatch "resize" (set_width width h, o)
  | TimerFire id, _ => fire id w
  | _, _ => w
  end.

(** A window with no listener and no timer; ids start at 1. *)
Definition initial_world (width : Z) : world := (mkHost width 1 [] [], None).

Inductive world_reachable : world -> Prop :=
| wr_init (width : Z) : world_reachable (initial_world width)
| wr_step (ev : world_event) (w : world) :
    world_reachable w -> world_reachable (world_step ev w).

(** The abstraction onto [Page.spline_state]: a timer is pending when
    the window holds one. *)
Definition nonempty {A} (l : list A) : bool := match l with [] => false | _ => true end.

Definition abs_instance (h : host) (x : instance) : spline_state :=
  mkSpline (mobile x) (load x) (nonempty (timers h)).

Definition abs_world (w : world) : option spline_state := option_map (abs_instance (fst w)) (snd w).

Definition pending (id : nat) (w : world) : bool := existsb (fun t => Nat.eqb (t_id t) id) (timers (fst w)).

(** The window's entries while [x] is mounted. *)
Definition resize_listener (x : instance) : listener :=
  mkListener "resize" (check_fn x) (CheckMobile (inst x)).

Definition timers_ok (x : instance) (ts : list timer) : Prop :=
  ts = [] \/ exists t, load_timer x = Some t /\ mobile x = false /\ ts = [mkTimer t 1500 (LoadScene (inst x))].

Definition world_ok (w : world) : Prop :=
  match w with
  | (h, None) => listeners h = [] /\ timers h = []
  | (h, Some x) => listeners h = [resize_listener x] /\ timers_ok x (timers h)
  end.

(** ** Lemmas *)

(** The cleanup of the second effect leaves the window without timer. *)
Lemma defer_cleanup_clears (x : instance) (h : host) :
  timers_ok x (timers h) ->
  timers (defer_cleanup (load_timer x) h) = [] /\ listeners (defer_cleanup (load_timer x) h) = listeners h.
Proof.
  unfold defer_cleanup, clear_timeout.
  intros [T | (t & -> & _ & T)]; [destruct (load_timer x)|]; cbn; rewrite T; cbn;
    rewrite ?Nat.eqb_refl; auto.
Qed.

(** [setIsMobile] keeps the listener and the invariant, and moves the
    abstract state as [Page.set_mobile] does. *)
Lemma set_is_mobile_refines (b : bool) (x : instance) (h : host) :
  timers_ok x (timers h) ->
  let '(x', h') := set_is_mobile b x h in
  inst x' = inst x /\ check_fn x' = check_fn x /\ listeners h' = listeners h /\
  timers_ok x' (timers h') /\ abs_instance h' x' = set_mobile b (abs_instance h x).
Proof.
  intros Hok. unfold set_is_mobile, set_mobile, abs_instance. cbn [is_mobile should_load].
  destruct (Bool.eqb b (mobile x)) eqn:E; [now repeat split|].
  destruct (defer_cleanup_clears x h Hok) as [T L].
  destruct b; cbn; rewrite ?T, ?L; repeat split; [now left | right; eexists; repeat split].
Qed.

Lemma mount_spec (h : host) :
  listeners h = [] -> timers h = [] ->
  let '(x, h') := mount h in world_ok (h', Some x) /\ abs_instance h' x = spline_mount (inner_width h).
Proof.
  destruct h as [wd f ls ts]; cbn; intros -> ->. unfold mount; cbn -[set_is_mobile check_mobile].
  match goal with |- context [set_is_mobile ?b ?x ?h] =>
    pose proof (set_is_mobile_refines b x h) as S; destruct (set_is_mobile b x h) as [x' h'] end.
  destruct S as (Ei & Ec & El & Hok & Ha); [right; eexists; repeat split|].
  split; [split; [rewrite El; unfold resize_listener; now rewrite Ei, Ec | exact Hok]|].
  now rewrite Ha.
Qed.

Lemma unmount_spec (x : instance) (h : host) : world_ok (h, Some x) -> world_ok (unmount x h, None).
Proof.
  intros [L Hok]. unfold unmount.
  destruct (defer_cleanup_clears x (remove_event_listener "resize" (check_fn x) h) Hok) as [T L'].
  split; [|exact T]. rewrite L'. cbn. rewrite L. unfold same_listener. cbn. now rewrite Nat.eqb_refl.
Qed.

Lemma resize_spec (width : Z) (h : host) (x : instance) :
  world_ok (h, Some x) ->
  exists h' x', world_step (WindowResize width) (h, Some x) = (h', Some x') /\ world_ok (h', Some x') /\
    abs_instance h' x' = spline_step (Resize width) (abs_instance h x).
Proof.
  intros [L Hok]. cbn [world_step]. unfold dispatch. cbn [fst listeners set_width]. rewrite L.
  cbn -[set_is_mobile check_mobile]. rewrite Nat.eqb_refl.
  pose proof (set_is_mobile_refines (check_mobile width) x (set_width width h) Hok) as S.
  destruct (set_is_mobile _ x _) as [x' h']. destruct S as (Ei & Ec & El & Hok' & Ha).
  exists h', x'. split; [reflexivity|]. split; [split; [|exact Hok'] | exact Ha].
  rewrite El. cbn. rewrite L. unfold resize_listener. now rewrite Ei, Ec.
Qed.

Lemma fire_spec (id : nat) (h : host) (x : instance) :
  world_ok (h, Some x) ->
  exists h' x', world_step (TimerFire id) (h, Some x) = (h', Some x') /\ world_ok (h', Some x') /\
    abs_instance h' x' =
      if pending id (h, Some x) then spline_step TimerFires (abs_instance h x) else abs_instance h x.
Proof.
  intros [L [T | (t & Et & Em & T)]]; cbn [world_step]; unfold fire, pending; cbn [fst snd]; rewrite T.
  - exists h, x. repeat split; auto. now left.
  - cbn. destruct (Nat.eqb t id) eqn:E; [|exists h, x; repeat split; auto; right; eauto].
    apply Nat.eqb_eq in E as ->. cbn [t_cb]. rewrite Nat.eqb_refl.
    eexists _, _. split; [reflexivity|]. unfold abs_instance, clear_timeout. cbn. rewrite T. cbn.
    rewrite ?Nat.eqb_refl. repeat split; [exact L | now left].
Qed.

(** Without a mounted instance, nothing but a mount changes the world's
    shape. *)
Lemma idle_step (ev : world_event) (h : host) :
  world_ok (h, None) -> ev <> Mount ->
  snd (world_step ev (h, None)) = None /\ world_ok (world_step ev (h, None)).
Proof.
  intros [L T] Hev. destruct ev; [congruence | now split | |].
  - unfold world_step, dispatch. cbn. rewrite L. now cbn.
  - unfold world_step, fire. cbn. rewrite T. now cbn.
Qed.

Lemma world_step_ok (ev : world_event) (w : world) : world_ok w -> world_ok (world_step ev w).
Proof.
  destruct w as [h [x|]]; intros Hok.
  - destruct ev; [exact Hok | now apply unmount_spec | |].
    + now destruct (resize_spec width h x Hok) as (h' & x' & -> & ? & _).
    + now destruct (fire_spec id h x Hok) as (h' & x' & -> & ? & _).
  - destruct ev; [|now apply idle_step..]. destruct Hok as [L T].
    pose proof (mount_spec h L T) as M. unfold world_step. destruct (mount h) as [x h'].
    exact (proj1 M).
Qed.

Lemma world_reachable_ok (w : world) : world_reachable w -> world_ok w.
Proof. induction 1; [now split | now apply world_step_ok]. Qed.

(** ** Theorems *)

(** C37.  No listener or timer leaks.  After any sequence of mounts,
    unmounts, window resizes and timers, an unmounted [Spline3DModel]
    leaves the window with no listener and no timer.  A mounted one has
    exactly its own [resize] listener and at most one timer: the one its
    second effect's cleanup will clear, which calls its own setter, and
    none on a narrow window.  So no callback ever reaches an instance
    that is gone, and remounting (as React's StrictMode does) does not
    double the listener. *)
Theorem spline_effects_no_leak (w : world) :
  world_reachable w ->
  match w with
  | (h, None) => listeners h = [] /\ timers h = []
  | (h, Some x) =>
      listeners h = [mkListener "resize" (check_fn x) (CheckMobile (inst x))] /\
      length (timers h) <= 1 /\
      Forall (fun t => load_timer x = Some (t_id t) /\ t_cb t = LoadScene (inst x)) (timers h) /\
      (mobile x = true -> timers h = [])
  end.
Proof.
  intros Hok%world_reachable_ok. destruct w as [h [x|]]; [|exact Hok].
  destruct Hok as [L [T | (t & Et & Em & T)]]; rewrite T; (split; [exact L|]).
  - repeat split; [cbn; lia | constructor].
  - split; [cbn; lia|]. split; [now repeat constructor | congruence].
Qed.

Lemma spline_effects_no_leak_witness :
  let w := world_step Unmount (world_step (WindowResize 375)
             (world_step Mount (world_step Unmount (world_step Mount (initial_world 1280))))) in
  match w with
  | (h, None) => listeners h = [] /\ timers h = []
  | (h, Some x) =>
      listeners h = [mkListener "resize" (check_fn x) (CheckMobile (inst x))] /\
      length (timers h) <= 1 /\
      Forall (fun t => load_timer x = Some (t_id t) /\ t_cb t = LoadScene (inst x)) (timers h) /\
      (mobile x = true -> timers h = [])
  end.
Proof.
  apply spline_effects_no_leak. apply wr_step, wr_step, wr_step, wr_step, wr_step, wr_init.
Defined.

(** Each step of the window and the component is the step of
    [Page.spline_step] it stands for, seen through [abs_world]. *)
Lemma world_step_refines (ev : world_event) (w : world) :
  world_reachable w ->
  abs_world (world_step ev w) =
    match ev, abs_world w with
    | Mount, None => Some (spline_mount (inner_width (fst w)))
    | Mount, s => s
    | Unmount, _ => None
    | WindowResize width, s => option_map (spline_step (Resize width)) s
    | TimerFire id, s => if pending id w then option_map (spline_step TimerFires) s else s
    end.
Proof.
  intros Hok%world_reachable_ok. destruct w as [h [x|]].
  - destruct ev; [reflexivity | reflexivity | |].
    + destruct (resize_spec width h x Hok) as (h' & x' & -> & _ & Ha). cbn. now rewrite Ha.
    + destruct (fire_spec id h x Hok) as (h' & x' & -> & _ & Ha). cbn in *. rewrite Ha.
      now destruct (pending id (h, Some x)).
  - destruct ev.
    + destruct Hok as [L T]. pose proof (mount_spec h L T) as M. unfold world_step.
      destruct (mount h) as [x h']. cbn. f_equal. exact (proj2 M).
    + reflexivity.
    + destruct (idle_step (WindowResize width) h Hok) as [S _]; [discriminate|].
      destruct (world_step _ _) as [h' o]. cbn in S |- *. now subst.
    + destruct (idle_step (TimerFire id) h Hok) as [S _]; [discriminate|].
      destruct (pending id (h, None)); destruct (world_step _ _) as [h' o]; cbn in S |- *; now subst.
Qed.

(** The abstraction of every reachable world is a reachable state of
    the abstract machine. *)
Lemma world_abs_reachable (w : world) :
  world_reachable w -> match abs_world w with Some st => spline_reachable st | None => True end.
Proof.
  induction 1 as [width|ev w R IH]; [exact I|]. rewrite (world_step_refines ev w R).
  destruct ev as [| |width|id]; destruct (abs_world w) as [st|]; cbn [option_map]; try exact I; try exact IH.
  - apply sr_mount.
  - exact (sr_step (Resize width) st IH).
  - destruct (pending id w); [exact (sr_step TimerFires st IH) | exact IH].
  - destruct (pending id w); exact I.
Qed.

(** C38.  The effects refine the abstract machine of [Page].  Seen
    through [abs_world] (the instance's [isMobile] and [shouldLoad],
    and whether the window holds a timer), every step of the window and
    the component is the step of [Page.spline_step] it stands for:
    - a mount is [spline_mount] at the window's width;
    - a resize is [Resize];
    - the firing of the pending timer is [TimerFires];
    - any other timer id changes nothing.
    An unmount leaves no state. *)
Theorem spline_effects_refine (ev : world_event) (w : world) :
  world_reachable w ->
  abs_world (world_step ev w) =
    match ev, abs_world w with
    | Mount, None => Some (spline_mount (inner_width (fst w)))
    | Mount, s => s
    | Unmount, _ => None
    | WindowResize width, s => option_map (spline_step (Resize width)) s
    | TimerFire id, s => if pending id w then option_map (spline_step TimerFires) s else s
    end.
Proof. exact (world_step_refines ev w). Qed.

Lemma spline_effects_refine_witness :
  let w := world_step Mount (initial_world 1280) in
  abs_world (world_step (WindowResize 375) w) = option_map (spline_step (Resize 375)) (abs_world w).
Proof. exact (spline_effects_refine (WindowResize 375) _ (wr_step Mount _ (wr_init 1280))). Defined.

(** C36.  On a desktop width the 3D scene always gets loaded.  In every
    reachable state, a mounted instance on a wide window either has
    loaded the scene already, or the window holds exactly one timer of
    its own whose firing loads it and renders [SplineScene]. *)
Theorem spline_desktop_loads (h : host) (x : instance) :
  world_reachable (h, Some x) -> mobile x = false ->
  load x = true \/
  exists t, timers h = [mkTimer t 1500 (LoadScene (inst x))] /\
    exists h' x', world_step (TimerFire t) (h, Some x) = (h', Some x') /\ load x' = true /\
                  spline_render (abs_instance h' x') = SplineScene.
Proof.
  intros R Hm. pose proof (world_abs_reachable _ R) as A. pose proof (world_reachable_ok _ R) as Hok.
  destruct (world_reachable_ok _ R) as [_ [T | (t & _ & _ & T)]].
  - left. apply (spline_desktop_progress _ A); cbn; [exact Hm | now rewrite T].
  - right. exists t. split; [exact T|].
    destruct (fire_spec t h x Hok) as (h' & x' & E & _ & Ha). exists h', x'. split; [exact E|].
    unfold pending, abs_instance in Ha. cbn in Ha. rewrite T in Ha. cbn in Ha. rewrite Nat.eqb_refl in Ha.
    cbn in Ha. unfold spline_render, abs_instance. rewrite Ha. cbn. rewrite Hm.
    injection Ha as _ Hl _. now split.
Qed.

Lemma spline_desktop_loads_witness :
  let h := mkHost 1280 4 [mkListener "resize" 2 (CheckMobile 1)] [mkTimer 3 1500 (LoadScene 1)] in
  let x := mkInstance 1 false false 2 (Some 3) in
  load x = true \/
  exists t, timers h = [mkTimer t 1500 (LoadScene (inst x))] /\
    exists h' x', world_step (TimerFire t) (h, Some x) = (h', Some x') /\ load x' = true /\
                  spline_render (abs_instance h' x') = SplineScene.
Proof.
  apply spline_desktop_loads; [|reflexivity].
  change (world_reachable (world_step Mount (initial_world 1280))). apply wr_step, wr_init.
Defined.

(** Mounted twice on a wide window, the component holds one listener
    and one timer.  Narrowing the window clears the timer, and the id
    of that timer then fires nothing. *)
Example spline_strict_mode_remount :
  let w := world_step Mount (world_step Unmount (world_step Mount (initial_world 1280))) in
  listeners (fst w) = [mkListener "resize" 5 (CheckMobile 4)] /\
  timers (fst w) = [mkTimer 6 1500 (LoadScene 4)] /\
  let w' := world_step (WindowResize 375) w in
  timers (fst w') = [] /\ world_step (TimerFire 6) w' = w'.
Proof. vm_compute. repeat split. Qed.

End SplineEffects.

Module ChatEffects.

(** ** [components/ChatWindow.tsx], lines 25-34: the scroll and focus effects

    [ChatWindow] has two effects:
    - the first scrolls the end of the message list into view after
      every commit that changed [messages];
    - the second focuses the input once, after the first commit: its
      dependency list is empty.

    The keyboard reaches the input only while it has the focus.  After
    every commit the browser applies HTML's focus fixup rule: a control
    that is disabled or no longer rendered loses the focus to the
    document. *)

Inductive focus_target : Type :=
| OnInput          (** the text input, [inputRef] *)
| OnSend           (** the send button *)
| OnSuggestion     (** a suggestion button *)
| Elsewhere.       (** the document, or anything outside the window *)

Record view : Type := mkView {
  chat_st : chat_state;
  focus : focus_target;
  scrolled : list message     (** the list as it was when [messagesEndRef] was last scrolled into view *)
}.

(** The focus fixup rule after a commit of [st]: the input is disabled
    while loading (line 254), the send button while the input is blank
    or loading (line 259), and the suggestions are rendered only beside
    the welcome message (line 230). *)
Definition fixup (st : chat_state) (f : focus_target) : focus_target :=
  match f with
  | OnInput => if input_disabled st then Elsewhere else f
  | OnSend => if send_disabled st then Elsewhere else f
  | OnSuggestion => if show_suggestions st then f else Elsewhere
  | Elsewhere => f
  end.

(** The mount (lines 28-34): after the first commit both effects run,
    so the end of the list is scrolled into view and the input takes
    the focus. *)
Definition mount_view (st : chat_state) : view := mkView st OnInput (messages st).

Inductive view_event : Type :=
| FocusInput                        (** the visitor clicks the input or tabs to it *)
| Visitor (t_user t_asst : Z) (api : string -> fetch_reply) (e : ui_event).

(** Key events go to the focused element; clicks go where the pointer is. *)
Definition delivered (f : focus_target) (e : ui_event) : bool :=
  match e with
  | Typed _ | KeyDown _ _ => match f with OnInput => true | _ => false end
  | ClickSend | ClickSuggestion _ => true
  end.

(** A click on an enabled button focuses it. *)
Definition clicked (st : chat_state) (f : focus_target) (e : ui_event) : focus_target :=
  match e with
  | ClickSend => if send_disabled st then f else OnSend
  | ClickSuggestion _ => if show_suggestions st then OnSuggestion else f
  | _ => f
  end.

(** The text a send takes: the suggestion clicked, or the input. *)
Definition send_override (e : ui_event) : option string :=
  match e with ClickSuggestion s => Some s | _ => None end.

(** The first commit of a send (lines 46-53, batched by React at the
    end of the event): the user's message and the empty placeholder
    appended, the input cleared and [isLoading] set. *)
Definition first_commit (o : option string) (t_user t_asst : Z) (st : chat_state) : chat_state :=
  mkChat (messages st ++ [mkMessage (print_Z t_user) User (trim (override_or o (input st)));
                          mkMessage (print_Z (t_asst + 1)) Assistant ""]) "" true.

Section View.
Context `{JsonCodec}.

(** One event.  A send commits [first_commit] first, then the updates
    of the stream.  The fixup rule runs after each commit, and so does
    the scroll effect, since each [setMessages] makes a new array.  The
    focus effect never runs again. *)
Definition view_step (ev : view_event) (v : view) : view :=
  match ev with
  | FocusInput =>
      if input_disabled (chat_st v) then v else mkView (chat_st v) OnInput (scrolled v)
  | Visitor t_user t_asst api e =>
      if negb (delivered (focus v) e) then v
      else
        let f := clicked (chat_st v) (focus v) e in
        let r := ui_step t_user t_asst api e (chat_st v) in
        match sent r with
        | Some _ =>
            let f1 := fixup (first_commit (send_override e) t_user t_asst (chat_st v)) f in
            mkView (after r) (fixup (after r) f1) (messages (after r))
        | None => mkView (after r) (fixup (after r) f) (scrolled v)
        end
  end.

Definition view_run (evs : list view_event) (v : view) : view :=
  fold_left (fun v ev => view_step ev v) evs v.

(** ** Lemmas *)

Lemma fixup_input (st : chat_state) (f : focus_target) : fixup st f = OnInput -> f = OnInput.
Proof. destruct f; cbn; try destruct (_ st); congruence. Qed.

Lemma clicked_input (st : chat_state) (f : focus_target) (e : ui_event) :
  clicked st f e = OnInput -> f = OnInput.
Proof. destruct e; cbn; try destruct (_ st); congruence. Qed.

(** The first commit of a send takes the focus from every control of
    the window: the input and the send button are disabled, the
    suggestions are gone. *)
Lemma first_commit_blurs (o : option string) (t_user t_asst : Z) (st : chat_state) (f : focus_target) :
  fixup (first_commit o t_user t_asst st) f = Elsewhere.
Proof.
  destruct f; cbn; try reflexivity.
  unfold show_suggestions. cbn. rewrite length_app, Nat.add_comm. reflexivity.
Qed.

(** Only [FocusInput] gives the input the focus. *)
Lemma focus_input_step (ev : view_event) (v : view) :
  focus (view_step ev v) = OnInput -> ev = FocusInput \/ focus v = OnInput.
Proof.
  intros E. destruct ev as [|t_user t_asst api e]; [now left|right]. revert E. cbn.
  destruct (delivered (focus v) e); cbn; [|exact id].
  destruct (sent _); cbn; intros E;
    repeat (apply fixup_input in E || apply clicked_input in E); exact E.
Qed.

Lemma focus_input_run (evs : list view_event) (v : view) :
  Forall (fun ev => ev <> FocusInput) evs -> focus (view_run evs v) = OnInput -> focus v = OnInput.
Proof.
  revert v; induction evs as [|ev evs IH]; intros v Hf E; [exact E|].
  inversion Hf as [|? ? Hev Hevs]; subst. cbn in E.
  destruct (focus_input_step ev v (IH _ Hevs E)) as [C|C]; [contradiction | exact C].
Qed.

(** Enter in the focused input with a non-blank text sends, and the
    send leaves the focus outside the window. *)
Lemma enter_blurs (t_user t_asst : Z) (api : string -> fetch_reply) (v : view) :
  focus v = OnInput -> is_loading (chat_st v) = false -> trim (input (chat_st v)) <> "" ->
  sent (ui_step t_user t_asst api (KeyDown "Enter" false) (chat_st v)) <> None /\
  focus (view_step (Visitor t_user t_asst api (KeyDown "Enter" false)) v) = Elsewhere.
Proof.
  intros Hf Hl Ht.
  assert (U : ui_step t_user t_asst api (KeyDown "Enter" false) (chat_st v) =
              send_message None t_user t_asst api (chat_st v))
    by (cbn; unfold input_disabled; now rewrite Hl).
  pose proof (send_message_sends None t_user t_asst api (chat_st v) Ht Hl) as S.
  rewrite U. split; [exact S|]. unfold view_step. rewrite Hf. cbn -[fixup first_commit ui_step].
  rewrite U. destruct (sent _); [|contradiction]. cbn [focus]. now rewrite first_commit_blurs.
Qed.

(** A step that sends nothing leaves the messages as they were. *)
Lemma ui_step_unsent_messages (t_user t_asst : Z) (api : string -> fetch_reply) (e : ui_event)
    (st : chat_state) :
  sent (ui_step t_user t_asst api e st) = None -> messages (after (ui_step t_user t_asst api e st)) = messages st.
Proof.
  intros Hs. destruct (ui_step_messages t_user t_asst api e st) as [E|[o E]]; [exact E|].
  rewrite E in Hs |- *. now rewrite (send_message_unsent _ _ _ _ _ Hs).
Qed.

(** ** Theorems *)

(** C25.  The input loses the focus for good at the first send.  The
    focus effect runs only at the mount (its dependency list is empty).
    A send disables the input in its first commit, so the input loses
    the focus.  From then on, whatever the server answers and whatever
    the visitor does short of clicking the input (or tabbing to it), the
    input never has the focus again, and typed text goes nowhere. *)
Theorem enter_send_loses_focus (t_user t_asst : Z) (api : string -> fetch_reply) (v : view)
    (evs : list view_event) :
  focus v = OnInput -> is_loading (chat_st v) = false -> trim (input (chat_st v)) <> "" ->
  Forall (fun ev => ev <> FocusInput) evs ->
  let v' := view_run evs (view_step (Visitor t_user t_asst api (KeyDown "Enter" false)) v) in
  sent (ui_step t_user t_asst api (KeyDown "Enter" false) (chat_st v)) <> None /\
  focus v' <> OnInput /\
  (forall t_user' t_asst' api' text, view_step (Visitor t_user' t_asst' api' (Typed text)) v' = v').
Proof.
  intros Hf Hl Ht Hevs v'. destruct (enter_blurs t_user t_asst api v Hf Hl Ht) as [S B].
  assert (N : focus v' <> OnInput).
  { intros E. apply focus_input_run in E; [congruence | exact Hevs]. }
  split; [exact S|]. split; [exact N|]. intros. cbn.
  destruct (focus v'); [contradiction | reflexivity..].
Qed.


(** The scroll effect keeps the end of the list in view: from the
    mount, after any events, the list was last scrolled as it is. *)
Lemma view_step_scrolled (ev : view_event) (v : view) :
  scrolled v = messages (chat_st v) -> scrolled (view_step ev v) = messages (chat_st (view_step ev v)).
Proof.
  intros E. destruct ev as [|t_user t_asst api e]; cbn; [now destruct (input_disabled _)|].
  destruct (delivered (focus v) e); cbn; [|exact E].
  destruct (sent (ui_step t_user t_asst api e (chat_st v))) eqn:S; cbn; [reflexivity|].
  rewrite (ui_step_unsent_messages _ _ _ _ _ S). exact E.
Qed.

Theorem scroll_follows_messages (st : chat_state) (evs : list view_event) :
  scrolled (view_run evs (mount_view st)) = messages (chat_st (view_run evs (mount_view st))).
Proof.
  unfold view_run. assert (E : scrolled (mount_view st) = messages (chat_st (mount_view st))) by reflexivity.
  revert E. generalize (mount_view st). induction evs as [|ev evs IH]; intros v E; [exact E|].
  apply IH, view_step_scrolled, E.
Qed.

End View.

Lemma enter_send_loses_focus_witness :
  let api := fun _ : string => ClientRejects "offline" in
  let v := mount_view (mkChat [WELCOME] "Hello" false) in
  let evs := [Visitor 3 4 api (Typed "more")] in
  let v' := view_run evs (view_step (Visitor 1 2 api (KeyDown "Enter" false)) v) in
  sent (ui_step 1 2 api (KeyDown "Enter" false) (chat_st v)) <> None /\
  focus v' <> OnInput /\
  (forall t_user' t_asst' api' text, view_step (Visitor t_user' t_asst' api' (Typed text)) v' = v').
Proof.
  apply enter_send_loses_focus; [reflexivity | reflexivity | vm_compute; discriminate |].
  constructor; [discriminate | constructor].
Defined.

(** After a send, whatever the answer, text typed without clicking the
    input first is lost; after a click it is taken. *)
Example typing_after_send_needs_click :
  let api := fun _ : string => ClientRejects "offline" in
  let v1 := view_step (Visitor 1 2 api (KeyDown "Enter" false)) (mount_view (mkChat [WELCOME] "Hello" false)) in
  is_loading (chat_st v1) = false /\
  input (chat_st (view_step (Visitor 3 4 api (Typed "next")) v1)) = "" /\
  input (chat_st (view_step (Visitor 3 4 api (Typed "next")) (view_step FocusInput v1))) = "next".
Proof. vm_compute. repeat split. Qed.

End ChatEffects.
