(* ===== verification/Orbit.v ===== *)
(** * The orbit of [components/OrbitingLogos.tsx] in the plane

    [OrbitingLogos] places the [i]-th of [n] logos at the angle
    [i * 360 / n] degrees ([Sections.orbit_angle]), at the offset
    [(Math.cos(angle) * radius, Math.sin(angle) * radius)] from the
    centre of a square container of side [radius * 2 + 100].  The orbit
    turns about that centre forever, and each logo counter-rotates to
    stay upright.

    The functions here are those of the code with Stdlib's real [cos],
    [sin] and [PI].  The browser computes them in floating point.  The
    3D tilt of lines 40-41 (a perspective projection) is left out.  The
    logos' boxes are [6rem] squares; a [rem] is the browsers' default
    of 16 pixels.

    The theorems show that every logo lies on the ring drawn at
    lines 53-62, and that its box stays inside the container at every
    phase of the rotation, whatever the radius.  The eight logos of the
    hero ([HeroSection.tsx], radius 260) never overlap at any phase. *)

From Stdlib Require Import List QArith Qreals Reals Lra Lia.
From S2P Require Import Prelude Content Sections.
Import ListNotations.
Local Open Scope R_scope.

(** ** [components/OrbitingLogos.tsx] *)

(** Line 66: [(index * angleStep * Math.PI) / 180]. *)
Definition angle_rad (deg : Q) : R := Q2R deg * PI / 180.

(** Lines 67-68. *)
Definition logo_xy (radius : R) (deg : Q) : R * R :=
  (cos (angle_rad deg) * radius, sin (angle_rad deg) * radius).

(** Lines 65-68: the offset of the [i]-th of [n] logos. *)
Definition logo_position (n i : nat) (radius : R) : option (R * R) :=
  option_map (logo_xy radius) (orbit_angle n i).

(** Lines 28-32: the container's side. *)
Definition container_side (radius : R) : R := radius * 2 + 100.

(** The browsers' default root font size, which [rem] refers to. *)
Definition rem_px : R := 16.

(** Lines 43-50: the orbit turns by [phase] degrees about the
    container's centre. *)
Definition turn (phase : R) (p : R * R) : R * R :=
  let a := phase * PI / 180 in (fst p * cos a - snd p * sin a, fst p * sin a + snd p * cos a).

Record box : Type := mkBox { left : R; top : R; right : R; bottom : R }.

(** Lines 71-92: the logo's [6rem] square, centred on the container's
    centre by its [-3rem] margins and moved by its offset turned with
    the orbit.  The counter-rotation of lines 85-87 keeps it upright. *)
Definition logo_box (radius phase : R) (p : R * R) : box :=
  let c := container_side radius / 2 in
  let q := turn phase p in
  mkBox (c - 3 * rem_px + fst q) (c - 3 * rem_px + snd q) (c + 3 * rem_px + fst q) (c + 3 * rem_px + snd q).

Definition inside (side : R) (b : box) : Prop :=
  0 <= left b /\ right b <= side /\ 0 <= top b /\ bottom b <= side.

Definition apart (b1 b2 : box) : Prop :=
  right b1 <= left b2 \/ right b2 <= left b1 \/ bottom b1 <= top b2 \/ bottom b2 <= top b1.

(** [sections/HeroSection.tsx], lines 48-50: [radius={260}]. *)
Definition hero_radius : R := 260.

(** ** Lemmas *)

Lemma sin_cos_sq (a : R) : sin a ^ 2 + cos a ^ 2 = 1.
Proof. pose proof (sin2_cos2 a) as H. unfold Rsqr in H. lra. Qed.

(** Turning keeps distances. *)
Lemma turn_dist (phase : R) (p q : R * R) :
  (fst (turn phase p) - fst (turn phase q)) ^ 2 + (snd (turn phase p) - snd (turn phase q)) ^ 2 =
  (fst p - fst q) ^ 2 + (snd p - snd q) ^ 2.
Proof.
  unfold turn; cbn [fst snd]. set (a := phase * PI / 180). pose proof (sin_cos_sq a) as H.
  transitivity (((fst p - fst q) ^ 2 + (snd p - snd q) ^ 2) * (sin a ^ 2 + cos a ^ 2)); [ring|].
  rewrite H. ring.
Qed.

Lemma turn_norm (phase : R) (p : R * R) :
  fst (turn phase p) ^ 2 + snd (turn phase p) ^ 2 = fst p ^ 2 + snd p ^ 2.
Proof.
  unfold turn; cbn [fst snd]. set (a := phase * PI / 180). pose proof (sin_cos_sq a) as H.
  transitivity ((fst p ^ 2 + snd p ^ 2) * (sin a ^ 2 + cos a ^ 2)); [ring|].
  rewrite H. ring.
Qed.

Lemma logo_xy_norm (radius : R) (deg : Q) :
  fst (logo_xy radius deg) ^ 2 + snd (logo_xy radius deg) ^ 2 = radius ^ 2.
Proof.
  unfold logo_xy; cbn [fst snd]. pose proof (sin_cos_sq (angle_rad deg)) as H.
  transitivity (radius ^ 2 * (sin (angle_rad deg) ^ 2 + cos (angle_rad deg) ^ 2)); [ring|].
  rewrite H. ring.
Qed.

(** A point of the circle of radius [r] is within [r] of the centre on
    both axes. *)
Lemma circle_coords (x y r : R) : 0 <= r -> x ^ 2 + y ^ 2 = r ^ 2 -> -r <= x <= r /\ -r <= y <= r.
Proof. intros Hr H. split; split; nra. Qed.

(** The chord between two points of the circle. *)
Lemma chord (r a b : R) :
  (cos a * r - cos b * r) ^ 2 + (sin a * r - sin b * r) ^ 2 = 2 * r ^ 2 * (1 - cos (a - b)).
Proof.
  rewrite cos_minus. pose proof (sin_cos_sq a). pose proof (sin_cos_sq b).
  transitivity (r ^ 2 * ((sin a ^ 2 + cos a ^ 2) + (sin b ^ 2 + cos b ^ 2)
                         - 2 * (cos a * cos b + sin a * sin b))); [ring|].
  rewrite H, H0. ring.
Qed.

Lemma PI4_pos : 0 < PI / 4.
Proof. pose proof PI_RGT_0. lra. Qed.

(** Away from a full turn by at least an eighth, the cosine is at most
    that of an eighth of a turn. *)
Lemma cos_gap (x : R) : PI / 4 <= x <= 7 * (PI / 4) -> cos x <= cos (PI / 4).
Proof.
  intros [H1 H2]. pose proof PI4_pos.
  destruct (Rle_lt_dec x PI) as [Hx|Hx].
  - destruct (Req_dec x (PI / 4)) as [->|Hne]; [lra|].
    apply Rlt_le, cos_decreasing_1; lra.
  - replace (cos (PI / 4)) with (cos (7 * (PI / 4))).
    + destruct (Req_dec x (7 * (PI / 4))) as [->|Hne]; [lra|].
      apply Rlt_le, cos_increasing_1; lra.
    + replace (7 * (PI / 4)) with (- (PI / 4) + 2 * INR 1 * PI) by (cbn; lra).
      now rewrite cos_period, cos_neg.
Qed.

(** [cos (PI / 4)] is below [0.71]: its square is one half. *)
Lemma cos_PI4_lt : cos (PI / 4) < 71 / 100.
Proof.
  pose proof PI4_pos.
  assert (C : 2 * cos (PI / 4) * cos (PI / 4) - 1 = 0).
  { rewrite <- cos_2a_cos, <- cos_PI2. f_equal. lra. }
  assert (0 <= cos (PI / 4)) by (apply cos_ge_0; pose proof PI_RGT_0; lra).
  nra.
Qed.

(** The [i]-th of eight logos sits at [i] eighths of a turn. *)
Lemma eighth_angle (i : nat) :
  (i < 8)%nat -> exists d, orbit_angle 8 i = Some d /\ angle_rad d = INR i * (PI / 4).
Proof.
  intros Hi. eexists. split; [exact (orbit_angle_some 8 i Hi)|].
  unfold angle_rad. rewrite Q2R_mult. unfold Q2R at 1; cbn [Qnum Qden inject_Z].
  rewrite <- INR_IZR_INZ. unfold Q2R; cbn. field.
Qed.

Lemma Q2R_inject (z : Z) : Q2R (inject_Z z) = IZR z.
Proof. unfold Q2R; cbn. field. Qed.

(** The [i]-th of [n] logos sits at [i] [n]-ths of a turn. *)
Lemma index_angle (n i : nat) :
  (i < n)%nat -> exists d, orbit_angle n i = Some d /\ angle_rad d = 2 * PI * INR i / INR n.
Proof.
  intros Hi. eexists. split; [exact (orbit_angle_some n i Hi)|].
  assert (Hn : INR n <> 0) by (apply not_0_INR; lia).
  unfold angle_rad. rewrite Q2R_mult, Q2R_div.
  - rewrite !Q2R_inject, <- !INR_IZR_INZ. replace (IZR 360) with 360 by reflexivity. field. exact Hn.
  - intros E. apply Qeq_eqR in E. rewrite Q2R_inject, <- INR_IZR_INZ in E.
    apply Hn. rewrite E. unfold Q2R; cbn. lra.
Qed.

(** Two distinct logos of eight are at least an eighth of a turn apart. *)
Lemma cos_eighths_apart (i j : nat) :
  (i < 8)%nat -> (j < 8)%nat -> i <> j -> cos ((INR i - INR j) * (PI / 4)) <= cos (PI / 4).
Proof.
  intros Hi Hj Hij. pose proof PI4_pos.
  assert (G : forall a b, (a < b < 8)%nat -> PI / 4 <= (INR b - INR a) * (PI / 4) <= 7 * (PI / 4)).
  { intros a b Hab. rewrite <- minus_INR by lia.
    assert (1 <= INR (b - a) <= 7).
    { replace 7 with (INR 7) by (cbn; lra). split; [apply (le_INR 1) | apply le_INR]; lia. }
    nra. }
  destruct (Nat.lt_total i j) as [L|[E|L]]; [|contradiction|].
  - rewrite <- cos_neg. replace (- ((INR i - INR j) * (PI / 4))) with ((INR j - INR i) * (PI / 4)) by ring.
    apply cos_gap, G. lia.
  - apply cos_gap, G. lia.
Qed.

(** Two boxes of the same size whose corners are further apart than
    their diagonal do not overlap. *)
Lemma apart_of_far (radius phase : R) (p q : R * R) :
  (fst (turn phase p) - fst (turn phase q)) ^ 2 + (snd (turn phase p) - snd (turn phase q)) ^ 2
    > 2 * (6 * rem_px) ^ 2 ->
  apart (logo_box radius phase p) (logo_box radius phase q).
Proof.
  unfold apart, logo_box, rem_px; cbn [left right top bottom]. intros H.
  set (dx := fst (turn phase p) - fst (turn phase q)) in H.
  set (dy := snd (turn phase p) - snd (turn phase q)) in H.
  destruct (Rle_lt_dec 96 (Rabs dx)) as [Hx|Hx];
    [|destruct (Rle_lt_dec 96 (Rabs dy)) as [Hy|Hy]].
  - unfold Rabs in Hx. destruct (Rcase_abs dx); unfold dx in *; [left|right; left]; lra.
  - unfold Rabs in Hy. destruct (Rcase_abs dy); unfold dy in *; right; right; [left|right]; lra.
  - exfalso. apply Rabs_def2 in Hx, Hy. nra.
Qed.

(** ** Theorems *)

(** C39.  The orbit's logos are spread evenly on the ring and stay in
    their container.  For every number [n] of logos and every radius,
    the [i]-th logo is offset from the centre by
    [(cos a * radius, sin a * radius)] with [a] equal to [i] [n]-ths of
    a full turn, so it lies on the ring of lines 53-62.  At every phase
    of the rotation its box stays inside the container of side
    [radius * 2 + 100].  On the hero's orbit (eight logos, radius 260)
    no two logo boxes overlap at any phase. *)
Theorem orbit_logos_fit :
  (forall (n i : nat) (radius phase : R), (i < n)%nat -> 0 <= radius ->
     let a := 2 * PI * INR i / INR n in
     logo_position n i radius = Some (cos a * radius, sin a * radius) /\
     inside (container_side radius) (logo_box radius phase (cos a * radius, sin a * radius))) /\
  (forall (i j : nat) (phase : R), (i < 8)%nat -> (j < 8)%nat -> i <> j ->
     exists p q, logo_position (length orbitLogos) i hero_radius = Some p /\
       logo_position (length orbitLogos) j hero_radius = Some q /\
       apart (logo_box hero_radius phase p) (logo_box hero_radius phase q)).
Proof.
  split.
  - intros n i radius phase Hi Hr a. destruct (index_angle n i Hi) as (d & Ed & Rd).
    unfold logo_position. rewrite Ed. cbn [option_map].
    assert (P : logo_xy radius d = (cos a * radius, sin a * radius)) by (unfold logo_xy; now rewrite Rd).
    rewrite P. split; [reflexivity|].
    pose proof (turn_norm phase (logo_xy radius d)) as T.
    rewrite logo_xy_norm, P in T. apply circle_coords in T as [Tx Ty]; [|exact Hr].
    unfold inside, logo_box, container_side, rem_px; cbn [left right top bottom]. lra.
  - intros i j phase Hi Hj Hij. cbn [length orbitLogos].
    destruct (eighth_angle i Hi) as (a & Ea & Ra), (eighth_angle j Hj) as (b & Eb & Rb).
    unfold logo_position. rewrite Ea, Eb. eexists _, _. split; [reflexivity|]. split; [reflexivity|].
    apply apart_of_far. rewrite turn_dist. unfold logo_xy; cbn [fst snd].
    rewrite chord, Ra, Rb, <- Rmult_minus_distr_r.
    pose proof (cos_eighths_apart i j Hi Hj Hij). pose proof cos_PI4_lt.
    unfold hero_radius, rem_px. lra.
Qed.
