(* ===== verification/Session.v ===== *)
(** * The chat as interleaved steps: [sendMessage] across its [await]s

    [Client.send_message] runs a whole call of [sendMessage] at once.
    In the browser the call is a coroutine.  It runs synchronously up to
    [await fetch(...)] (lines 37-64), then resumes once per answer of
    the network: the response, and each [await reader.read()]
    (line 82).  Between two resumptions anything else can happen: the
    visitor can close the chat window ([App.tsx], line 79) or open it
    again.  This file keeps those steps apart.
    - A [session] is the app ([Page.app_state], its [shell]) with the ChatWindow
      mount now on screen and the calls of [sendMessage] still running
      ([requests]).
    - Each request holds the setters of the mount that started it.  Once
      that window is unmounted its setters do nothing (React), but the
      request goes on: nothing aborts the [fetch].

    The theorems show:
    - with nothing interleaved, the steps compute exactly
      [Client.send_message], so the theorems about the atomic model
      describe the coroutine;
    - closing the window changes nothing about a running request: it
      keeps reading the answer to its end, and a reopened window never
      sees it;
    - in every reachable state, the window on screen runs one request
      while it shows [isLoading] and none otherwise. *)

From Stdlib Require Import String List Bool ZArith Lia.
From S2P Require Import Prelude JsString Json JsonText SseRelay ChatHandler Client Page.
Import ListNotations.
Open Scope string_scope.
Open Scope list_scope.

(** Replace or remove the [k]-th element; out of range, the list is
    unchanged. *)
Fixpoint replace_at {A} (k : nat) (x : A) (l : list A) : list A :=
  match l, k with
  | [], _ => []
  | _ :: t, O => x :: t
  | y :: t, S k => y :: replace_at k x t
  end.

Fixpoint remove_at {A} (k : nat) (l : list A) : list A :=
  match l, k with
  | [], _ => []
  | _ :: t, O => t
  | y :: t, S k => y :: remove_at k t
  end.

(** What a visitor event asks of [ChatWindow]: the guards of lines 38,
    132-137, 230-236 and 248-259, as [Client.ui_step] has them. *)
Inductive intent : Type :=
| NoOp
| SetInput (text : string)
| CallSend (override : option string).

Definition ui_intent (e : ui_event) (st : chat_state) : intent :=
  match e with
  | Typed text => if input_disabled st then NoOp else SetInput text
  | KeyDown key shift =>
      if input_disabled st then NoOp else if is_send_key key shift then CallSend None else NoOp
  | ClickSend => if send_disabled st then NoOp else CallSend None
  | ClickSuggestion s =>
      if show_suggestions st && existsb (String.eqb s) suggestions then CallSend (Some s) else NoOp
  end.

(** Where a request is suspended. *)
Inductive stage : Type :=
| Fetching                                 (** [await fetch(...)], line 56 *)
| Streaming (reads : list read_result)     (** [await reader.read()], line 82, with the reads to come *)
| Stalled.                                 (** an [await] that never settles *)

(** A running call of [sendMessage]: the mount whose setters it holds,
    the placeholder's id, what the network answers to its request, and
    [fullContent]. *)
Record request : Type := mkRequest {
  owner : nat;
  req_aid : string;
  req_reply : fetch_reply;
  full : string;
  stage_of : stage
}.

Record session : Type := mkSession {
  shell : app_state;
  window_id : nat;           (** the ChatWindow mount on screen, while [chat shell] is [Some] *)
  next_id : nat;
  requests : list request    (** oldest first *)
}.

Definition with_requests (s : session) (rs : list request) : session :=
  mkSession (shell s) (window_id s) (next_id s) rs.

Definition with_chat (s : session) (c : option chat_state) : session :=
  mkSession (mkApp (is_loaded (shell s)) c) (window_id s) (next_id s) (requests s).

Section Session.
Context `{JsonCodec}.

(** The synchronous part of [sendMessage] (lines 37-64): the guard, the
    user's message and the placeholder, the input cleared, [isLoading]
    set and the request body.  [None] when the guard returns. *)
Definition send_prefix (o : option string) (t_user t_asst : Z) (st : chat_state)
  : option (chat_state * string * string) :=
  let trimmed := trim (override_or o (input st)) in
  if String.eqb trimmed "" || is_loading st then None
  else
    let aid := print_Z (t_asst + 1) in
    let updated := messages st ++ [mkMessage (print_Z t_user) User trimmed] in
    Some (mkChat (updated ++ [mkMessage aid Assistant ""]) "" true, aid,
          json_stringify (request_payload updated)).

(** A setter of mount [i]: it updates the chat only while [i] is the
    window on screen. *)
Definition on_owner (i : nat) (f : chat_state -> chat_state) (s : session) : session :=
  match chat (shell s) with
  | Some c => if Nat.eqb i (window_id s) then with_chat s (Some (f c)) else s
  | None => s
  end.

(** The [catch] or the fallback with its [setMessages], then the
    [finally] (lines 105-129). *)
Definition finish_with (r : request) (content : option string) (s : session) : session :=
  on_owner (owner r)
    (fun c => mkChat (match content with
                      | Some t => set_content (req_aid r) t (messages c)
                      | None => messages c
                      end) (input c) false) s.

(** One resumption of the request: the new request, or [None] when the
    call has returned. *)
Definition request_step (r : request) (s : session) : option request * session :=
  let continue st := mkRequest (owner r) (req_aid r) (req_reply r) (full r) st in
  match stage_of r with
  | Fetching =>
      match req_reply r with
      | ClientRejects msg => (None, finish_with r (Some (sorry msg)) s)
      | ClientResponds status b =>
          if negb (status_ok status) then
            match server_error_message status b with
            | None => (Some (continue Stalled), s)
            | Some msg => (None, finish_with r (Some (sorry msg)) s)
            end
          else
            match b with
            | None => (None, finish_with r (Some (sorry "No stream reader")) s)
            | Some reads => (Some (continue (Streaming reads)), s)
            end
      end
  | Streaming [] => (Some (continue Stalled), s)
  | Streaming (RChunk v :: rest) =>
      (Some (mkRequest (owner r) (req_aid r) (req_reply r)
               (fst (client_chunk (req_aid r) (full r, []) v)) (Streaming rest)),
       on_owner (owner r)
         (fun c => mkChat (snd (client_chunk (req_aid r) (full r, messages c) v)) (input c) (is_loading c)) s)
  | Streaming (REnd :: _) =>
      (None, finish_with r (if String.eqb (full r) "" then Some NO_RESPONSE else None) s)
  | Streaming (RFail m :: _) => (None, finish_with r (Some (sorry (exn_message (StreamError m)))) s)
  | Stalled => (Some r, s)
  end.

Inductive session_event : Type :=
| SLoad                                    (** the load timer of [App] *)
| SOpen                                    (** [onChatOpen] *)
| SClose                                   (** [onClose]: [ChatWindow] unmounts *)
| SInput (t_user t_asst : Z) (api : string -> fetch_reply) (e : ui_event)
| SNetwork (k : nat).                      (** the [k]-th running request resumes *)

Definition session_step (ev : session_event) (s : session) : session :=
  match ev with
  | SLoad => mkSession (mkApp true (chat (shell s))) (window_id s) (next_id s) (requests s)
  | SOpen =>
      match chat (shell s) with
      | None => mkSession (mkApp (is_loaded (shell s)) (Some initial_state)) (next_id s) (S (next_id s))
                  (requests s)
      | Some _ => s
      end
  | SClose => with_chat s None
  | SInput t_user t_asst api e =>
      match chat (shell s) with
      | None => s
      | Some c =>
          match ui_intent e c with
          | NoOp => s
          | SetInput text => with_chat s (Some (mkChat (messages c) text (is_loading c)))
          | CallSend o =>
              match send_prefix o t_user t_asst c with
              | None => s
              | Some (c', aid, body) =>
                  with_requests (with_chat s (Some c'))
                    (requests s ++ [mkRequest (window_id s) aid (api body) "" Fetching])
              end
          end
      end
  | SNetwork k =>
      match nth_error (requests s) k with
      | None => s
      | Some r =>
          let '(o, s') := request_step r s in
          with_requests s' (match o with
                            | Some r' => replace_at k r' (requests s')
                            | None => remove_at k (requests s')
                            end)
      end
  end.

(** [n] resumptions of the [k]-th request. *)
Definition net_run (k n : nat) (s : session) : session :=
  Nat.iter n (session_step (SNetwork k)) s.

(** The resumptions a reply takes at most: the response, one per read
    and one for a stream that stops without an end. *)
Definition reply_steps (rep : fetch_reply) : nat :=
  match rep with ClientResponds _ (Some reads) => 2 + length reads | _ => 1 end.

End Session.

Definition session_initial : session := mkSession app_initial 0 0 [].

(** The running requests of the window on screen. *)
Definition own_count (s : session) : nat :=
  length (filter (fun r => Nat.eqb (owner r) (window_id s)) (requests s)).

Inductive session_reachable `{JsonCodec} : session -> Prop :=
| sr_initial : session_reachable session_initial
| sr_next (ev : session_event) (s : session) :
    session_reachable s -> session_reachable (session_step ev s).

(** ** Lemmas *)

Section Lemmas.
Context `{JsonCodec}.

Lemma net_run_succ (k n : nat) (s : session) :
  net_run k (S n) s = net_run k n (session_step (SNetwork k) s).
Proof. apply Nat.iter_succ_r. Qed.

Lemma net_run_succ_l (k n : nat) (s : session) :
  net_run k (S n) s = session_step (SNetwork k) (net_run k n s).
Proof. apply Nat.iter_succ. Qed.

(** [fullContent] does not depend on the messages a line or a chunk
    updates. *)
Lemma client_line_fst (aid line full : string) (ms ms' : list message) :
  fst (client_line aid (full, ms) line) = fst (client_line aid (full, ms') line).
Proof.
  unfold client_line. destruct (json_parse (slice_from 6 line)) as [d|]; [|reflexivity].
  destruct (get_prop (Some d) "content") as [c|e]; [|reflexivity]. destruct (truthy c); reflexivity.
Qed.

Lemma client_chunk_fst (aid v full : string) (ms ms' : list message) :
  fst (client_chunk aid (full, ms) v) = fst (client_chunk aid (full, ms') v).
Proof.
  unfold client_chunk. generalize (filter (starts_with "data: ") (split_nl v)) as ls.
  intros ls. revert full ms ms'. induction ls as [|l ls IH]; intros full ms ms'; [reflexivity|].
  cbn [fold_left]. pose proof (client_line_fst aid l full ms ms') as E.
  destruct (client_line aid (full, ms) l) as [f1 m1], (client_line aid (full, ms') l) as [f2 m2].
  cbn in E. subst f2. apply IH.
Qed.

Lemma on_owner_live (g : chat_state -> chat_state) (s : session) (c : chat_state) :
  chat (shell s) = Some c -> on_owner (window_id s) g s = with_chat s (Some (g c)).
Proof. intros Hc. unfold on_owner. now rewrite Hc, Nat.eqb_refl. Qed.

Lemma on_owner_requests (i : nat) (g : chat_state -> chat_state) (s : session) :
  requests (on_owner i g s) = requests s /\ window_id (on_owner i g s) = window_id s /\
  next_id (on_owner i g s) = next_id s.
Proof. unfold on_owner. destruct (chat (shell s)); [destruct (Nat.eqb _ _)|]; now repeat split. Qed.

(** A request of another mount changes nothing on screen. *)
Lemma on_owner_stale (i : nat) (g : chat_state -> chat_state) (s : session) :
  i <> window_id s -> on_owner i g s = s.
Proof.
  intros Hi. unfold on_owner. destruct (chat (shell s)); [|reflexivity].
  apply Nat.eqb_neq in Hi. now rewrite Hi.
Qed.

Lemma net_run_nil (n : nat) (s : session) : requests s = [] -> net_run 0 n s = s.
Proof.
  intros Hr. induction n as [|n IH]; [reflexivity|]. rewrite net_run_succ. cbn. now rewrite Hr.
Qed.

Lemma net_run_stalled (n : nat) (s : session) (r : request) :
  requests s = [r] -> stage_of r = Stalled -> net_run 0 n s = s.
Proof.
  intros Hr Hs. induction n as [|n IH]; [reflexivity|]. rewrite net_run_succ.
  replace (session_step (SNetwork 0) s) with s; [exact IH|].
  cbn. rewrite Hr. cbn. unfold request_step. rewrite Hs. cbn. rewrite Hr. now destruct s; cbn in *; subst.
Qed.

(** While its window stays on screen, a request streaming [reads] shows
    what [Client.client_read_loop] computes, after one resumption per
    read and one more for a stream that stops without an end. *)
Lemma session_stream_run (aid : string) (rep : fetch_reply) (reads : list read_result) :
  forall (f : string) (s : session) (c : chat_state) (n : nat),
  chat (shell s) = Some c ->
  requests s = [mkRequest (window_id s) aid rep f (Streaming reads)] ->
  S (length reads) <= n ->
  chat (shell (net_run 0 n s)) =
    Some (match client_read_loop aid reads (f, messages c) with
          | (None, ms) => mkChat ms (input c) (is_loading c)
          | (Some (Ok t), ms) =>
              mkChat (if String.eqb t "" then set_content aid NO_RESPONSE ms else ms) (input c) false
          | (Some (Throw e), ms) => mkChat (set_content aid (sorry (exn_message e)) ms) (input c) false
          end).
Proof.
  induction reads as [|[v| |m] rest IH]; intros f s c n Hc Hr Hn;
    (destruct n as [|n]; [cbn in Hn; lia|]); rewrite net_run_succ; cbn [session_step]; rewrite Hr;
    cbn [nth_error request_step stage_of owner req_aid full].
  - rewrite (net_run_stalled n _ (mkRequest (window_id s) aid rep f Stalled));
      [| cbn; now rewrite Hr | reflexivity].
    cbn. rewrite Hc. now destruct c.
  - rewrite (on_owner_live _ s c Hc). cbn [client_read_loop].
    pose proof (client_chunk_fst aid v f [] (messages c)) as F.
    destruct (client_chunk aid (f, messages c) v) as [f1 m1]. cbn in F.
    apply (IH f1 _ (mkChat m1 (input c) (is_loading c))); cbn; [reflexivity | now rewrite F, Hr | cbn in Hn; lia].
  - unfold finish_with. cbn [owner req_aid]. rewrite (on_owner_live _ s c Hc).
    rewrite net_run_nil by (cbn; now rewrite Hr). cbn. now destruct (String.eqb f "").
  - unfold finish_with. cbn [owner req_aid]. rewrite (on_owner_live _ s c Hc).
    rewrite net_run_nil by (cbn; now rewrite Hr). reflexivity.
Qed.

(** [Client.ui_step] is [ui_intent] followed by the call it asks for. *)
Lemma ui_step_intent (t_user t_asst : Z) (api : string -> fetch_reply) (e : ui_event) (st : chat_state) :
  ui_step t_user t_asst api e st =
    match ui_intent e st with
    | NoOp => mkSendRun None st Ignored
    | SetInput text => mkSendRun None (mkChat (messages st) text (is_loading st)) Ignored
    | CallSend o => send_message o t_user t_asst api st
    end.
Proof.
  destruct e; cbn; repeat match goal with |- context [if ?b then _ else _] => destruct b end;
    reflexivity.
Qed.

(** A request that has nothing to do any more leaves the session as it is. *)
Lemma net_run_done (n : nat) (s : session) (c : chat_state) :
  requests s = [] -> chat (shell s) = Some c -> chat (shell (net_run 0 n s)) = Some c.
Proof. intros Hr Hc. now rewrite net_run_nil. Qed.

Lemma replace_at_Forall {A} (P : A -> Prop) (k : nat) (x : A) (l : list A) :
  Forall P l -> P x -> Forall P (replace_at k x l).
Proof.
  revert k; induction l as [|y l IH]; intros [|k] Hl Hx; inversion Hl; subst; cbn; auto.
Qed.

Lemma remove_at_Forall {A} (P : A -> Prop) (k : nat) (l : list A) :
  Forall P l -> Forall P (remove_at k l).
Proof.
  revert k; induction l as [|y l IH]; intros [|k] Hl; inversion Hl; subst; cbn; auto.
Qed.

Lemma on_owner_facts (i : nat) (g : chat_state -> chat_state) (s : session) :
  requests (on_owner i g s) = requests s /\ window_id (on_owner i g s) = window_id s /\
  next_id (on_owner i g s) = next_id s /\
  (i <> window_id s -> on_owner i g s = s) /\ (chat (shell s) = None -> on_owner i g s = s).
Proof.
  destruct (on_owner_requests i g s) as (R & W & N). repeat split; [exact R | exact W | exact N | |].
  - apply on_owner_stale.
  - intros C. unfold on_owner. now rewrite C.
Qed.

(** What a resumption does to the session: nothing but the chat of its
    own mount, and only while that mount is on screen; the request it
    leaves keeps its owner, and does not depend on the session. *)
Lemma request_step_shape (r : request) (s : session) :
  requests (snd (request_step r s)) = requests s /\ window_id (snd (request_step r s)) = window_id s /\
  next_id (snd (request_step r s)) = next_id s /\
  (owner r <> window_id s -> snd (request_step r s) = s) /\
  (chat (shell s) = None -> snd (request_step r s) = s) /\
  (forall r', fst (request_step r s) = Some r' -> owner r' = owner r).
Proof.
  unfold request_step, finish_with.
  repeat match goal with |- context [match ?x with _ => _ end] => destruct x end;
    cbn [fst snd];
    try match goal with |- context [on_owner ?i ?g s] =>
          destruct (on_owner_facts i g s) as (R & W & N & St & Cl) end;
    repeat split; intros; try congruence; auto;
    match goal with E : Some _ = Some _ |- _ => injection E as <-; reflexivity end.
Qed.

Lemma request_step_fst (r : request) (s1 s2 : session) :
  fst (request_step r s1) = fst (request_step r s2).
Proof.
  unfold request_step. repeat match goal with |- context [match ?x with _ => _ end] => destruct x end;
    reflexivity.
Qed.

(** A network step, split into the request's own move and its effect on
    the session. *)
Lemma net_step_split (k : nat) (s : session) (r : request) :
  nth_error (requests s) k = Some r ->
  session_step (SNetwork k) s =
    with_requests (snd (request_step r s))
      (match fst (request_step r s) with
       | Some r' => replace_at k r' (requests s)
       | None => remove_at k (requests s)
       end).
Proof.
  intros E. cbn [session_step]. rewrite E, (surjective_pairing (request_step r s)).
  destruct (request_step_shape r s) as (R & _). now rewrite R.
Qed.

Lemma net_run_requests (k n : nat) (s1 s2 : session) :
  requests s1 = requests s2 -> requests (net_run k n s1) = requests (net_run k n s2).
Proof.
  intros E. induction n as [|n IH]; [exact E|]. rewrite !net_run_succ_l.
  set (t1 := net_run k n s1) in *. set (t2 := net_run k n s2) in *.
  destruct (nth_error (requests t1) k) as [r|] eqn:N.
  - rewrite (net_step_split k t1 r N), (net_step_split k t2 r) by congruence. cbn.
    now rewrite (request_step_fst r t1 t2), IH.
  - cbn. rewrite N, <- IH, N. exact IH.
Qed.

Lemma net_run_closed (k n : nat) (s : session) :
  chat (shell s) = None -> chat (shell (net_run k n s)) = None.
Proof.
  intros C. induction n as [|n IH]; [exact C|]. rewrite net_run_succ_l.
  set (t := net_run k n s) in *. destruct (nth_error (requests t) k) as [r|] eqn:N.
  - rewrite (net_step_split k t r N). destruct (request_step_shape r t) as (_ & _ & _ & _ & Cl & _).
    cbn. now rewrite (Cl IH).
  - cbn. now rewrite N.
Qed.

(** Requests of other mounts never change what is on screen. *)
Lemma net_run_foreign (k n : nat) (s : session) :
  Forall (fun r => owner r <> window_id s) (requests s) ->
  chat (shell (net_run k n s)) = chat (shell s).
Proof.
  intros F. enough (G : Forall (fun r => owner r <> window_id s) (requests (net_run k n s)) /\
                        chat (shell (net_run k n s)) = chat (shell s) /\
                        window_id (net_run k n s) = window_id s) by apply G.
  induction n as [|n IH]; [now repeat split|]. rewrite net_run_succ_l.
  set (t := net_run k n s) in *. destruct IH as (Ft & Ct & Wt).
  destruct (nth_error (requests t) k) as [r|] eqn:N; [|cbn; rewrite N; now repeat split].
  rewrite (net_step_split k t r N).
  assert (Hr : owner r <> window_id t)
    by (rewrite Wt; apply (proj1 (Forall_forall _ _) Ft); eapply nth_error_In; exact N).
  destruct (request_step_shape r t) as (_ & _ & _ & St & _ & O). rewrite (St Hr). cbn.
  repeat split; [|exact Ct | exact Wt].
  destruct (fst (request_step r t)) as [r'|] eqn:R;
    [apply replace_at_Forall; [exact Ft | rewrite (O r' eq_refl), <- Wt; exact Hr] | now apply remove_at_Forall].
Qed.

(** Every running request belongs to a mount made before the current
    counter, and so does the window on screen. *)
Lemma reachable_owners (s : session) :
  session_reachable s ->
  Forall (fun r => owner r < next_id s) (requests s) /\ (chat (shell s) <> None -> window_id s < next_id s).
Proof.
  induction 1 as [|ev s _ [F W]]; [split; [constructor | cbn; congruence]|].
  destruct ev as [| | |t_user t_asst api e|k]; [cbn [session_step] .. | idtac].
  - exact (conj F W).
  - destruct (chat (shell s)) eqn:C; [rewrite ?C; exact (conj F W)|]. cbn. split; [|lia].
    eapply Forall_impl; [|exact F]. intros r; cbn; lia.
  - cbn. split; [exact F | congruence].
  - destruct (chat (shell s)) as [c|] eqn:C; [|rewrite ?C; exact (conj F W)].
    assert (Wc : window_id s < next_id s) by (apply W; congruence).
    destruct (ui_intent e c); [rewrite ?C; exact (conj F W) | cbn; split; [exact F | intros; exact Wc] |].
    destruct (send_prefix _ _ _ c) as [[[c' aid] body]|]; [|rewrite ?C; exact (conj F W)].
    cbn. split; [apply Forall_app; split; [exact F | constructor; [exact Wc | constructor]] | intros; exact Wc].
  - destruct (nth_error (requests s) k) as [r|] eqn:N; [|cbn; rewrite ?N; exact (conj F W)].
    rewrite (net_step_split k s r N). destruct (request_step_shape r s) as (R & Wi & Ni & _ & Cl & O).
    cbn. rewrite Ni, Wi. split.
    + assert (Hr : owner r < next_id s)
        by (apply (proj1 (Forall_forall _ _) F); eapply nth_error_In; exact N).
      destruct (fst (request_step r s)) as [r'|];
        [apply replace_at_Forall; [exact F | rewrite (O r' eq_refl); exact Hr] | now apply remove_at_Forall].
    + intros Hc. apply W. intros C. apply Hc. rewrite (Cl C). exact C.
Qed.

Lemma count_replace_at {A} (f : A -> bool) (k : nat) (x y : A) (l : list A) :
  nth_error l k = Some y -> f x = f y -> length (filter f (replace_at k x l)) = length (filter f l).
Proof.
  revert k; induction l as [|z l IH]; intros [|k] N E; cbn in N; try discriminate.
  - injection N as ->. cbn. rewrite E. destruct (f y); reflexivity.
  - cbn. destruct (f z); cbn; [f_equal|]; apply IH; assumption.
Qed.

Lemma count_remove_at {A} (f : A -> bool) (k : nat) (y : A) (l : list A) :
  nth_error l k = Some y ->
  length (filter f (remove_at k l)) + (if f y then 1 else 0) = length (filter f l).
Proof.
  revert k; induction l as [|z l IH]; intros [|k] N; cbn in N; try discriminate.
  - injection N as ->. cbn. destruct (f y); cbn; lia.
  - cbn. specialize (IH k N). destruct (f z); cbn; lia.
Qed.

(** The guard of line 38: a send starts only when nothing is loading. *)
Lemma send_prefix_idle (o : option string) (t_user t_asst : Z) (c c' : chat_state) (aid body : string) :
  send_prefix o t_user t_asst c = Some (c', aid, body) -> is_loading c = false /\ is_loading c' = true.
Proof.
  unfold send_prefix. destruct (String.eqb _ "" || is_loading c) eqn:G; [discriminate|].
  intros E. injection E as <- _ _. apply orb_false_iff in G as [_ G]. split; [exact G | reflexivity].
Qed.

(** A resumption of the window's own request keeps the window loading
    while the call goes on, and ends the loading when it returns. *)
Lemma request_step_own (r : request) (s : session) (c : chat_state) :
  owner r = window_id s -> chat (shell s) = Some c ->
  exists c', chat (shell (snd (request_step r s))) = Some c' /\
             is_loading c' = match fst (request_step r s) with Some _ => is_loading c | None => false end.
Proof.
  intros O Hc. unfold request_step, finish_with. rewrite O.
  repeat (cbn [fst snd]; match goal with
          | |- context [match ?x with _ => _ end] => lazymatch x with fst _ => fail | _ => destruct x end
          end);
    cbn [fst snd]; rewrite ?(on_owner_live _ s c Hc); cbn;
    eexists; (split; [reflexivity || exact Hc | reflexivity]).
Qed.

Lemma own_count_fresh (n : nat) (l : list request) :
  Forall (fun r => owner r < n) l -> length (filter (fun r => Nat.eqb (owner r) n) l) = 0.
Proof.
  induction 1 as [|r l Hr _ IH]; [reflexivity|]. cbn.
  destruct (Nat.eqb_spec (owner r) n); [lia | exact IH].
Qed.

End Lemmas.

(** ** Theorems *)

Section Theorems.
Context `{JsonCodec}.

(** C9.  The coroutine computes the atomic model.  Start from an open
    chat with no request running.  Take a visitor event followed by
    resumptions of the request it starts, as many as the reply needs,
    with nothing in between.  The chat then shows exactly what
    [Client.ui_step], and so [Client.send_message], computes, on every
    path: guard, error status, rejected fetch, missing body, stream
    ended, failed or stopped. *)
Theorem session_refines_send (t_user t_asst : Z) (api : string -> fetch_reply) (e : ui_event)
    (s : session) (c : chat_state) (n : nat) :
  chat (shell s) = Some c -> requests s = [] -> (forall b, reply_steps (api b) <= n) ->
  chat (shell (net_run 0 n (session_step (SInput t_user t_asst api e) s))) =
    Some (after (ui_step t_user t_asst api e c)).
Proof.
  intros Hc Hr Hn. rewrite ui_step_intent. cbn [session_step]. rewrite Hc.
  destruct (ui_intent e c) as [|text|o]; [now apply net_run_done | apply net_run_done; cbn; congruence |].
  unfold send_prefix, send_message.
  destruct (String.eqb (trim (override_or o (input c))) "" || is_loading c); [now apply net_run_done|].
  rewrite Hr. cbn [shell]. set (body := json_stringify _). specialize (Hn body).
  destruct (api body) as [msg|status [reads|]] eqn:A; cbn [reply_steps] in Hn;
    (destruct n as [|n]; [lia|]); rewrite net_run_succ;
    cbn [session_step nth_error app shell requests with_requests with_chat];
    unfold request_step; cbn [stage_of req_reply owner req_aid full];
    [|destruct (negb (status_ok status)); [destruct (server_error_message _ _) as [msg|] |]..];
    try (unfold finish_with, on_owner; cbn; rewrite Nat.eqb_refl, net_run_nil by reflexivity;
         reflexivity).
  - cbn. now rewrite (net_run_stalled n _ (mkRequest (window_id s) (print_Z (t_asst + 1))
                                            (ClientResponds status (Some reads)) "" Stalled)).
  - cbn -[net_run client_read_loop]. erewrite session_stream_run; [| reflexivity | reflexivity | cbn in Hn; lia].
    cbn. destruct (client_read_loop _ _ _) as [[[t|ex]|] ms]; reflexivity.
  - cbn. now rewrite (net_run_stalled n _ (mkRequest (window_id s) (print_Z (t_asst + 1))
                                            (ClientResponds status None) "" Stalled)).
Qed.

(** C26.  Closing the chat does not abort its request.  Whatever the
    session, closing the window changes nothing about the requests
    still running: after any number of resumptions they are exactly
    those of the session left open.  The answer keeps being read to its
    end.  Its updates reach no window: the closed app shows no chat, and
    a window opened again shows the welcome message alone. *)
Theorem closing_chat_keeps_request (s : session) (k n : nat) :
  session_reachable s ->
  requests (net_run k n (session_step SClose s)) = requests (net_run k n s) /\
  chat (shell (net_run k n (session_step SClose s))) = None /\
  chat (shell (net_run k n (session_step SOpen (session_step SClose s)))) = Some initial_state.
Proof.
  intros [F _]%reachable_owners. split; [|split].
  - apply net_run_requests. reflexivity.
  - apply net_run_closed. reflexivity.
  - rewrite net_run_foreign; [reflexivity|]. cbn. eapply Forall_impl; [|exact F]. intros r; cbn; lia.
Qed.

(** C27.  Each window runs at most one request, and shows that it is
    loading exactly while it does.  In every state the app reaches,
    interleavings, closes and reopens included, the window on screen
    has one running request while it shows [isLoading] and none
    otherwise.  Requests left by closed windows do not count, and they
    never change what the window shows. *)
Theorem one_request_per_window (s : session) :
  session_reachable s ->
  match chat (shell s) with
  | Some c => own_count s = (if is_loading c then 1 else 0)
  | None => True
  end.
Proof.
  intros R. induction R as [|ev s R IH]; [exact I|]. destruct (reachable_owners s R) as [F W].
  destruct ev as [| | |t_user t_asst api e|k]; [cbn [session_step] .. | idtac].
  - exact IH.
  - destruct (chat (shell s)) eqn:C; [rewrite C; exact IH|]. cbn. exact (own_count_fresh _ _ F).
  - exact I.
  - destruct (chat (shell s)) as [c|] eqn:C; [|rewrite C; exact IH].
    destruct (ui_intent e c) as [|text|o]; [rewrite C; exact IH | exact IH |].
    destruct (send_prefix o t_user t_asst c) as [[[c' aid] body]|] eqn:SP; [|rewrite C; exact IH].
    apply send_prefix_idle in SP as [L0 L1]. rewrite L0 in IH. unfold own_count in *. cbn.
    rewrite filter_app, length_app, IH, L1. cbn. now rewrite Nat.eqb_refl.
  - destruct (nth_error (requests s) k) as [r|] eqn:N; [|cbn; rewrite ?N; exact IH].
    rewrite (net_step_split k s r N). unfold own_count in *. cbn [shell requests window_id with_requests].
    destruct (chat (shell s)) as [c|] eqn:C.
    + destruct (request_step_shape r s) as (_ & Wi & _ & St & _ & O). rewrite Wi.
      set (own := fun r0 => Nat.eqb (owner r0) (window_id s)) in *.
      pose proof (count_remove_at own k r (requests s) N) as Cr.
      destruct (Nat.eq_dec (owner r) (window_id s)) as [Own|Foreign].
      * destruct (request_step_own r s c Own C) as (c' & -> & L').
        assert (Fr : own r = true) by (unfold own; now rewrite Own, Nat.eqb_refl). rewrite Fr in Cr.
        destruct (fst (request_step r s)) as [r'|];
          [rewrite (count_replace_at own k r' r _ N) by (unfold own; now rewrite (O r' eq_refl)) |];
          rewrite L'; destruct (is_loading c); lia.
      * assert (Fr : own r = false) by (unfold own; now apply Nat.eqb_neq). rewrite Fr in Cr.
        rewrite (St Foreign), C.
        destruct (fst (request_step r s)) as [r'|];
          [rewrite (count_replace_at own k r' r _ N) by (unfold own; now rewrite (O r' eq_refl)) |];
          lia.
    + destruct (request_step_shape r s) as (_ & _ & _ & _ & Cl & _). now rewrite (Cl C), C.
Qed.

End Theorems.

(** A server that answers every request with a stream of two text
    frames and its end. *)
Definition two_frames : string -> fetch_reply :=
  fun _ => ClientResponds 200 (Some [RChunk (content_out "Vote"); RChunk (content_out "Poll"); REnd]).

Definition asked : session :=
  session_step (SInput 1 2 two_frames (KeyDown "Enter" false))
    (session_step (SInput 0 0 two_frames (Typed "Projects?")) (session_step SOpen session_initial)).

Lemma session_refines_send_witness :
  chat (shell (net_run 0 5 (session_step (SInput 1 2 two_frames (KeyDown "Enter" false))
     (session_step (SInput 0 0 two_frames (Typed "Projects?")) (session_step SOpen session_initial))))) =
  Some (after (ui_step 1 2 two_frames (KeyDown "Enter" false) (mkChat [WELCOME] "Projects?" false))).
Proof. apply session_refines_send; [reflexivity | reflexivity | intros b; cbn; lia]. Defined.

Lemma closing_chat_keeps_request_witness :
  requests (net_run 0 2 (session_step SClose asked)) = requests (net_run 0 2 asked) /\
  chat (shell (net_run 0 2 (session_step SClose asked))) = None /\
  chat (shell (net_run 0 2 (session_step SOpen (session_step SClose asked)))) = Some initial_state.
Proof.
  apply closing_chat_keeps_request. unfold asked. apply sr_next, sr_next, sr_next, sr_initial.
Defined.

Lemma one_request_per_window_witness :
  match chat (shell asked) with
  | Some c => own_count asked = (if is_loading c then 1 else 0)
  | None => True
  end.
Proof. apply one_request_per_window. unfold asked. apply sr_next, sr_next, sr_next, sr_initial. Defined.

(** Closed at once, the chat's request still reads the whole answer:
    after four resumptions it has returned, and a window opened again
    in between can start a second request while the first runs. *)
Example close_then_ask_again :
  requests (net_run 0 4 (session_step SClose asked)) = [] /\
  length (requests (session_step (SInput 3 4 two_frames (KeyDown "Enter" false))
            (session_step (SInput 2 2 two_frames (Typed "Again?"))
               (session_step SOpen (session_step SClose asked))))) = 2.
Proof. vm_compute. split; reflexivity. Qed.
