(* ===== verification/Site.v ===== *)
(** * The page as a whole

    [app_page] is what [App.tsx] renders: the header, the hero, the
    lazy sections inside their [Suspense] fallbacks, and the chat
    window ([chat_window], the markup of [ChatWindow.tsx]) while the
    chat is open.  The theorems are about that tree:
    - the chat window keys its messages by id, so distinct ids give
      React distinct keys, and in every state the app reaches with a
      clock that moves forward ([Page.clock_reachable]) the whole
      page's keys are unique;
    - for every content and every state of the components, a link that
      opens a new tab has [rel="noopener"] and every image has an
      [alt] (proved by unfolding the render functions with [dom_all]);
    - for the site's own content, every in-page link reaches one
      element, no [id] is declared twice and React's keys are unique, in
      every year, every state of the 3D model and of the mobile menu
      (the checks of [Dom.v] evaluated by [vm_compute]);
    - what the page gets wrong: icon-only links and buttons without an
      accessible name, a mis-encoded copyright sign, a project count the page
      overstates, links that lead nowhere until the lazy sections load. *)

From Stdlib Require Import String Ascii List Bool ZArith QArith Lia.
From S2P Require Import Prelude JsString Json JsonText JsonRoundtrip Client Content Dom Page Sections.
Import ListNotations.
Open Scope string_scope.
Open Scope list_scope.
Open Scope nat_scope.

(** ** [components/ChatWindow.tsx], lines 146-272 *)

(** Lines 184-224: one message, keyed by its id, with the role's icon
    and the bubble of [render_message]. *)
Definition chat_message_dom (m : message) : node :=
  Elem "div" (Some (msg_id m)) []
    [div [icon];
     div [match snd (render_message m) with
          | BubbleText t => Txt t
          | TypingDots => Elem "span" None [] [Elem "span" None [] []; Elem "span" None [] [];
                                                Elem "span" None [] []]
          end]].

(** [disabled={b}]: React writes the attribute only when [b] holds. *)
Definition disabled_attr (b : bool) : list (string * string) := if b then [("disabled", "")] else [].

Definition close_button : node := Elem "button" None [] [icon].

Definition send_button (st : chat_state) : node :=
  Elem "button" None (disabled_attr (send_disabled st)) [icon].

Definition chat_window (st : chat_state) : node :=
  div [div ([div [div [div [icon]; div [txt_el "h3" "AI Assistant"; txt_el "p" "Ask about Mouad's work"]];
                  close_button];
             div [Arr (map chat_message_dom (messages st)); div []]]
            ++ when (show_suggestions st)
                 (div [Arr (map (fun s => Elem "button" (Some s) [] [Txt s]) suggestions)])
            ++ [div [div [Elem "input" None ([("type", "text"); ("value", input st);
                                               ("placeholder", "Ask me about Mouad...")]
                                              ++ disabled_attr (input_disabled st)) [];
                          send_button st]]])].

(** ** [App.tsx], lines 15-86 *)

Definition section_fallback : node := div [div []].

(** [<Suspense fallback={<SectionFallback />}>]: the section once its
    lazily loaded module has arrived, the spinner before. *)
Definition suspense (loaded : bool) (n : node) : node := if loaded then n else section_fallback.

(** What the page's content and the components' states are. *)
Record page_input : Type := mkPageInput {
  pi_config : SiteConfig;
  pi_projects : list Project;
  pi_timeline : list TimelineItem;
  pi_skills : list SkillCategory;
  pi_year : Z;
  pi_spline : spline_view;
  pi_menu_open : bool;
  pi_loaded : bool;
  pi_chat : option chat_state    (** [ChatWindow]'s state while [isChatOpen] *)
}.

Definition app_page (pi : page_input) : node :=
  let L := suspense (pi_loaded pi) in
  div ([div [header (pi_menu_open pi)];
        Elem "main" None []
          [hero_section;
           L (about_section (pi_config pi) (pi_spline pi));
           L mission_section;
           L (skills_section (pi_skills pi));
           L (project_showcase (pi_projects pi));
           L (timeline_section (pi_timeline pi));
           L (footer (pi_config pi) (pi_year pi))]]
       ++ match pi_chat pi with
          | Some c => if pi_loaded pi then [chat_window c] else []
          | None => []
          end).

(** The site as deployed, in a given year, with every section loaded
    and the chat closed. *)
Definition site (year : Z) (v : spline_view) (menuOpen : bool) : page_input :=
  mkPageInput siteConfig projectsData timelineData skillCategories year v menuOpen true None.

(** ** Unfolding a render function *)

Lemma Forall_imap_from {A} (P : node -> Prop) (f : nat -> A -> node) (l : list A) (i : nat) :
  (forall j x, In x l -> P (f j x)) -> Forall P (imap_from f i l).
Proof.
  revert i. induction l as [|x l IH]; intros i H; cbn; constructor.
  - apply H. now left.
  - apply IH. intros j y Hy. apply H. now right.
Qed.

Lemma Forall_imap {A} (P : node -> Prop) (f : nat -> A -> node) (l : list A) :
  (forall j x, In x l -> P (f j x)) -> Forall P (imap f l).
Proof. apply Forall_imap_from. Qed.

Lemma Forall_map_in {A} (P : node -> Prop) (f : A -> node) (l : list A) :
  (forall x, In x l -> P (f x)) -> Forall P (map f l).
Proof. intros H. apply Forall_map, Forall_forall. exact H. Qed.

Lemma Forall_when_some (P : node -> Prop) (o : option string) (f : string -> node) :
  (forall u, o = Some u -> P (f u)) -> Forall P (when_some o f).
Proof.
  intros H. destruct o as [u|]; cbn; [|constructor].
  destruct (String.eqb u ""); repeat constructor. now apply H.
Qed.

(** The render functions, unfolded down to [Elem], [Txt] and [Arr]. *)
Ltac unfold_render :=
  cbv beta iota zeta delta [pi_config pi_projects pi_timeline pi_skills pi_year pi_spline
    pi_menu_open pi_loaded pi_chat app_page chat_window chat_message_dom close_button send_button
    disabled_attr suspense section_fallback header mobile_menu code_icon hero_section
    mobile_logo vertical_logo_grid orbiting_logos about_section spline_dom mobile_fallback loading_fallback
    mission_section skills_section skill_card project_showcase project_card skills_block
    skill_bar timeline_section timeline_card card_content footer social_icon social_text
    fade_in div txt_el img new_tab icon keyed].

(** Prove [all_nodes P] of a rendered tree: one step per constructor,
    list operation and condition of the render functions; the test of
    each node is left to [reflexivity] or to the tag of the node. *)
Ltac dom_all :=
  unfold_render;
  repeat progress try match goal with
    | |- all_nodes _ (Elem _ _ _ _) => apply all_elem
    | |- all_nodes _ (Txt _) => apply all_txt
    | |- all_nodes _ (Arr _) => apply all_arr
    | |- all_nodes _ (match ?x with _ => _ end) => destruct x
    | |- all_nodes _ (if ?b then _ else _) => destruct b
    | |- Forall _ (match ?x with _ => _ end) => destruct x
    | |- Forall _ [] => constructor
    | |- Forall _ (_ :: _) => constructor
    | |- Forall _ (_ ++ _) => apply Forall_app; split
    | |- Forall _ (map _ _) => apply Forall_map_in; intros ? _
    | |- Forall _ (imap _ _) => apply Forall_imap; intros ? ? _
    | |- Forall _ (when ?b _) => destruct b; cbn [when]
    | |- Forall _ (when_some _ _) => apply Forall_when_some; intros ? _
    | |- _ => progress cbv beta
    | |- _ -> _ = true => let H := fresh in intros H; first [reflexivity | discriminate H]
    | |- _ = true => reflexivity
    end.

(** ** The chat window *)

Lemma keys_of_messages (ms : list message) :
  flat_map (fun m => opt_list (key_of m)) (map chat_message_dom ms) = map msg_id ms.
Proof. induction ms as [|m ms IH]; [reflexivity|]. cbn. now rewrite IH. Qed.

(** React's keys of the message list are the message ids: the view
    follows the conversation's invariant ([Client.send_keeps_ids_distinct]):
    while the ids are distinct, every array of the chat window is keyed
    with distinct keys. *)
Theorem chat_keys_unique (st : chat_state) :
  NoDup (map msg_id (messages st)) -> arrays_keyed (chat_window st).
Proof.
  intros Hd. apply all_nodes_keyed. dom_all.
  cbn [array_keyed]. rewrite keys_of_messages, nodup_unique_keys by exact Hd.
  rewrite andb_true_r. apply forallb_forall. intros m Hm.
  apply in_map_iff in Hm as (x & <- & _). reflexivity.
Qed.

Lemma chat_keys_unique_witness : arrays_keyed (chat_window initial_state).
Proof. apply chat_keys_unique. repeat constructor. intros []. Defined.

(** The site with the chat in a state of the app. *)
Definition site_with_chat (year : Z) (v : spline_view) (menuOpen : bool) (st : app_state) : page_input :=
  mkPageInput siteConfig projectsData timelineData skillCategories year v menuOpen true (chat st).

(** C29.  The whole page React renders, sections and open chat window
    together, follows React's rule on keys in every state the app
    reaches while the clock moves forward: the conversation's invariant
    ([clock_reachable_ids]) keeps the message ids distinct, the chat
    window keys its messages by id, and the sections' keys are
    distinct. *)
Theorem page_keys_unique_reachable `{L : JsonLaws} (year : Z) (v : spline_view) (menuOpen : bool)
    (b : Z) (st : app_state) :
  clock_reachable b st -> arrays_keyed (app_page (site_with_chat year v menuOpen st)).
Proof.
  intros [_ Hc]%clock_reachable_ids. unfold app_page, div. apply arrays_keyed_elem, Forall_app.
  split.
  - apply (forallb_Forall keys_ok); [intros n; apply keys_ok_spec|].
    destruct v, menuOpen; vm_compute; reflexivity.
  - cbn [site_with_chat pi_chat pi_loaded]. destruct (chat st) as [c|]; [|constructor].
    constructor; [exact (chat_keys_unique c (proj1 Hc)) | constructor].
Qed.

Lemma page_keys_unique_reachable_witness :
  arrays_keyed (app_page (site_with_chat 2026 LoadingFallback false (app_step OpenChat app_initial))).
Proof.
  apply (page_keys_unique_reachable 2026 LoadingFallback false 0).
  apply cr_step; [intros; discriminate | exact cr_init].
Defined.

(** Pick a child that contains the node, backtracking over the children. *)
Ltac pick_in := (left; reflexivity) + (right; pick_in).
Ltac find_node := apply nodes_self + (eapply nodes_kid; [cbn [app]; pick_in | find_node]).

(** The chat's close button (line 174) and send button (line 257) hold
    an icon and nothing else: whatever the conversation, neither has an
    accessible name. *)
Theorem chat_buttons_unnamed (st : chat_state) :
  In close_button (buttons (chat_window st)) /\ In (send_button st) (buttons (chat_window st)) /\
  accessible_name close_button = "" /\ accessible_name (send_button st) = "".
Proof.
  unfold buttons. rewrite !filter_In. unfold chat_window.
  destruct (show_suggestions st); cbn [when app];
    (split; [split; [find_node | reflexivity]|split; [split; [find_node | reflexivity]|]]);
    unfold send_button, disabled_attr; destruct (send_disabled st); split; reflexivity.
Qed.

(** ** The page for every content *)

(** C30.  Every link of the page that opens a new tab
    ([target="_blank"]) has a [rel] containing [noopener], whatever the
    content, the year, and the states of the 3D model, the menu and the
    lazy sections: no opened page can reach the site's window through
    [window.opener]. *)
Theorem page_opens_tabs_safely (pi : page_input) :
  Forall (fun m => attr "target" m = Some "_blank" ->
                   exists r, attr "rel" m = Some r /\ exists a b, r = (a ++ "noopener" ++ b)%string)
         (links (app_page pi)).
Proof. apply openers_ok_spec, all_nodes_filter. destruct pi; dom_all. Qed.

(** Every image of the page has an [alt] attribute, whatever the
    content and the states of the components. *)
Theorem page_images_have_alt (pi : page_input) :
  Forall (fun m => exists a, attr "alt" m = Some a) (images (app_page pi)).
Proof. apply alts_ok_spec, all_nodes_filter. destruct pi; dom_all. Qed.

(** ** The site's own page *)

Definition site_page (year : Z) (v : spline_view) (menuOpen : bool) : node :=
  app_page (site year v menuOpen).

(** The same page before ([loaded = false]) or after the lazy sections'
    modules have arrived. *)
Definition site_page_at (loaded : bool) (year : Z) (v : spline_view) (menuOpen : bool) : node :=
  app_page (mkPageInput siteConfig projectsData timelineData skillCategories year v menuOpen loaded None).

(** C31.  Every in-page link of the site ([#about], [#skills], ... in
    the header, the open menu, the hero and the sections), in every year
    and every state of the 3D model and of the menu, reaches exactly one
    element of the page once the lazy sections have loaded, and no
    element at all before: until then each section is the Suspense
    spinner.  [#] is the footer's back-to-top link. *)
Theorem site_anchors_resolve (loaded : bool) (year : Z) (v : spline_view) (menuOpen : bool)
    (href x : string) :
  In href (hrefs (site_page_at loaded year v menuOpen)) -> fragment href = Some x -> x <> "" ->
  count_occ string_dec (ids (site_page_at loaded year v menuOpen)) x = if loaded then 1 else 0.
Proof.
  destruct loaded.
  - apply anchors_ok_spec. destruct v, menuOpen; vm_compute; reflexivity.
  - intros _ _ _.
    assert (E : ids (site_page_at false year v menuOpen) = []) by (destruct v, menuOpen; vm_compute; reflexivity).
    now rewrite E.
Qed.

(** C32.  The page is a well-formed document: no [id] is declared twice,
    and every array React renders has a key on each element, no key
    repeated. *)
Theorem site_well_formed (year : Z) (v : spline_view) (menuOpen : bool) :
  NoDup (ids (site_page year v menuOpen)) /\ arrays_keyed (site_page year v menuOpen).
Proof.
  split; [apply ids_ok_spec | apply keys_ok_spec]; destruct v, menuOpen; vm_compute; reflexivity.
Qed.

Lemma site_anchors_resolve_witness :
  count_occ string_dec (ids (site_page_at true 2026 LoadingFallback true)) "skills" = 1.
Proof.
  apply (site_anchors_resolve true 2026 LoadingFallback true "#skills"); [|reflexivity|discriminate].
  vm_compute. tauto.
Defined.

(** ** What the page gets wrong *)

(** On the site with the chat closed, these are the only links and
    buttons without a name: the three repositories' icon links. *)
Example site_unnamed_links (year : Z) (v : spline_view) (menuOpen : bool) :
  filter (fun m => negb (named m))
         (links (site_page year v menuOpen) ++ buttons (site_page year v menuOpen))
  = map (fun u => new_tab u [icon])
        ["https://github.com/Jamil-Mouad/vote-sondage-system";
         "https://github.com/Jamil-Mouad/AgencyBooking";
         "https://github.com/Jamil-Mouad/evaluation_file"].
Proof. destruct v, menuOpen; vm_compute; reflexivity. Qed.

(** The footer shows [Â©] where the code means [©]: line 172 holds the
    two characters [Â] (U+00C2) and [©] (U+00A9). *)
Example footer_copyright_mojibake :
  In (Elem "p" None [] [Txt (String "195"%char (String "130"%char (String "194"%char
                                 (String "169"%char " "))));
                        Txt "2026"; Txt " "; Txt "JAMIL Mouad"])
     (nodes (site_page 2026 LoadingFallback false)).
Proof. apply existsb_node_In. vm_compute. reflexivity. Qed.

(** The skills section says [5+] projects; the projects section shows
    four. *)
Example projects_overstated :
  In (txt_el "p" "5+") (nodes (skills_section skillCategories)) /\
  In (Arr (map (fun p => keyed (p_id p) (fade_in [project_card p])) projectsData))
     (nodes (project_showcase projectsData)) /\
  length projectsData = 4.
Proof. split; [|split]; [apply existsb_node_In; vm_compute..|]; reflexivity. Qed.

(** Until the lazy sections have loaded, the header's links lead
    nowhere: the page has no element with their [id]. *)
Example anchors_wait_for_lazy_sections :
  ids (app_page (mkPageInput siteConfig projectsData timelineData skillCategories 2026
                             LoadingFallback false false None)) = [] /\
  hd "" (hrefs (app_page (mkPageInput siteConfig projectsData timelineData skillCategories
                                      2026 LoadingFallback false false None))) = "#about".
Proof. vm_compute. split; reflexivity. Qed.

